(* ===== verification/_CoqProject ===== *)
-Q . S2P
Prelude.v
GoStrings.v
Encoding.v
Json.v
JsonFacts.v
Codec.v
Types.v
Stream.v
GoOs.v
Lib.v
External.v
Credit.v
CreditFacts.v
EvmClient.v
CacheProto.v
CacheProtoFacts.v
CacheActor.v
CacheActorFacts.v
LedgerFacts.v
CreditRace.v
CacheServiceFacts.v
PriceFacts.v
CacheSamples.v
Storage.v
StorageFacts.v
FileBox.v
FileBoxFacts.v
SegmentFetch.v
ResourceActor.v
NeighborQuery.v
ResourceFacts.v
ClientFiles.v
ClientFilesFacts.v
UploadFiles.v
UploadFacts.v
Client.v
CacherQuery.v
Settlement.v
Config.v
Ink.v
InkFacts.v
PeerNode.v
Discovery.v
DiscoveryFacts.v
EventStream.v
Bindings.v
Token.v
ProtoSession.v
TokenSession.v
EthTools.v
NodeCmd.v
NodeCmdFacts.v
Commands.v
RunningNode.v
NodeSamples.v
EndToEnd.v
FetchCycle.v
RunningSamples.v
ContentService.v
