(* ===== verification/Prelude.v ===== *)
(** * Verification of the CESS decentralised CDN components: prelude

    The program is a content delivery network on top of the CESS storage network, in Go. A
    cache node keeps fragments of users' files and serves them over libp2p streams; it keeps a
    credit account for every client, settled by orders on an EVM contract; what it lacks it
    fetches from neighbouring cache nodes or from the storage miners. A client uploads files,
    asks the cache nodes it knows for the segments of a file, and falls back on the storage
    miners. A file is a list of segments, a segment a list of fragments, any [DataShards] of
    which restore it.

    ** The files, and what of src/ each models

    - [Prelude]: bytes, machine integers, errors, panics, slices; shared tactics and hints.
    - [GoStrings], [Encoding], [GoOs]: what the program uses of strings, path/filepath,
      encoding/hex, strconv, math/big, encoding/binary, encoding/base64, crypto/sha256, os.
    - [Json], [JsonFacts], [Codec]: encoding/json: values, printer, parser, struct decoders,
      and that decoding inverts encoding.
    - [External]: interfaces of third-party code (goleveldb, go-ethereum, base58, the SDK's
      constants, the file cache, net/url), each a class with the laws its documentation gives
      and a sample instance.
    - [Types]: cd2n-lib/types/types.go.
    - [Stream], [Lib], [Storage], [StorageFacts]: cd2n-lib/lib.go, the stream helpers, the
      calls to a cache node, the downloads from the storage network.
    - [Credit], [CreditFacts], [CreditRace]: cd2n-lib/credit/credit.go; the last lets several
      goroutines book at the same time.
    - [EvmClient], [CacheProto], [CacheProtoFacts]: cd2n-lib/protocol/evm_client.go and
      cache_evm_proto.go, with the part of the generated contract bindings they call.
    - [EventStream], [Bindings], [Token], [ProtoSession], [TokenSession]: the iterators and
      watchers of events, once for all events, and the rest of the generated bindings
      cd2n-lib/protocol/contract/cache_proto.go and cache_token.go: methods, filters,
      constructors and sessions.
    - [Ink], [InkFacts]: cd2n-lib/protocol/ink, the client of the ink! contracts.
    - [PeerNode]: cd2n-lib/p2p: the identity file, boot addresses, peer nodes, discovery
      loops.
    - [CacheActor], [CacheActorFacts], [LedgerFacts], [CacheServiceFacts], [PriceFacts],
      [CacheSamples]: cd2n-node/actors/cache_actor.go: the node's service, its counters, its
      queue, and what each of its operations does to the accounts and to the price.
    - [ResourceActor], [NeighborQuery], [ResourceFacts]: cd2n-node/actors/resource_actor.go.
    - [FileBox], [FileBoxFacts], [SegmentFetch], [ClientFiles], [ClientFilesFacts],
      [CacherQuery], [UploadFiles], [UploadFacts]: cd2n-client/client/files.go.
    - [Settlement]: the credit order of a client against what the nodes of a network announce.
    - [Client]: cd2n-client/client/client.go, bucket.go, space.go.
    - [Config]: cd2n-lib/config/config.go and the registries of cd2n-node/actors/actor.go and
      p2p_ts_actor.go.
    - [Discovery], [DiscoveryFacts]: the RunDiscovery methods of resource_actor.go and of
      client.go.
    - [EthTools]: eth-tools, the token tool.
    - [NodeCmd], [NodeCmdFacts], [Commands], [NodeSamples]: the node's commands in
      cd2n-node/run, their tables of subcommands and flags, the loggers (logger/logger.go),
      and the boot node (cd2n-boot/bootnode.go).
    - [RunningNode], [RunningSamples]: the services of a started node, interleaved.
    - [EndToEnd]: a network of cache nodes as an instance of the interface the clients use.
    - [FetchCycle]: the two actors of a node together, from a query for a missing segment to
      the download of its fragments.
    - [ContentService]: what a node promises its clients, in a few lines, and that a node
      whatever its other services do keeps the promise.

    Definitions keep the names of the functions they model. A function of the code that
    changes state takes the state and returns it; an error is its message, or [None]; a
    run-time panic is the other case of [outcome]. The parts meet as in the code: [CacheActor]
    calls [Credit], which calls the chain through the class [Order2Credit] that [CacheProto]
    implements; [ResourceActor] and the client's files call [Lib] and [Storage]; messages
    between the two actors are values of one type. [NodeCmd] composes the node's components in
    the order its start does. The clients' side ([Lib], [CacherQuery]) is written against the
    class [CacheNet]; [EndToEnd] implements it by nodes that run [CacheService], so that
    theorems of both sides meet. [Ink] is a monad of the client's state, as its methods
    recover from panics and the state at the panic matters.

    ** Concurrency

    [RunningNode] interleaves the services of one node: an operation is a request served, a
    message between the actors, one task of the queue, an answer of the neighbours, the
    look-up or one tick of the server that claims rewards, the end of the context, the return
    of the download server, in any order; each runs to its end before the next. [CreditRace]
    goes below that for the one place where streams share data without a lock: the read and
    the write of a booking are steps of their own.

    Five functions start goroutines over shared variables or channels; each is a step relation
    whose steps are critical sections, queries or channel operations, interleaved freely.
    [Discovery] has the two RunDiscovery methods, with bounded channels and a context that may
    be cancelled at any moment. For the others the result is that of a run in which every
    goroutine returned: [SegmentFetch] for [DownloadSegmentFromCachers], [NeighborQuery] for
    [QuerySegmentFromNeighborCacher], [CacherQuery] for [QuerySegmentFromCachers]. The
    sequential callers take the outcome of these as an argument. The download server and the
    upload server are functions of the sequence of their passes. A handler of the cache actor
    runs with one value of the clock; the three loads of its request counter are arguments, as
    other goroutines may change it. In [EndToEnd] a client's query of the cachers is
    interleaved with everything else the nodes of the network do, with nodes that come and go,
    and with the chain.

    ** What the theorems show

    - Files come back: a download restores exactly the file from the miners, and from any
      mixture of cachers and miners, but for the segments of which the cachers that answer
      hold too little ([DownloadFile_restores], [DownloadFile_client_restores],
      [DownloadStoragedFiles_requested]); of a directory that is accepted as a box, the files
      of the first plate are read back and the others never ([CreateAFileBox_packs],
      [box_read_back]); a cached fragment is served byte for byte and booked
      ([download_serves_fragment]), and reaches the client's disk ([download_end_to_end]); a
      segment that is asked for and missing is fetched and then served
      ([missing_segment_fetched_and_served]).
    - The wire format: a response sent is the response received ([Query_receives_response],
      [Query_receives_error]), stored records and counters are read back
      ([Put_Get_round_trip], [FileRecord_round_trip]), records read are well typed whatever
      the store holds ([records_typed]), and how the stream helpers treat message boundaries
      ([ReadData_cut], [Download_stores_reply], [CacheService_errors]).
    - Credit: the store refines a ledger modulo 2^64 ([points_implement_ledger]); the levels,
      limits and payments as they are ([level_cycles], [calcLimit_prepaid],
      [PaymentCreditBill_effect], [CheckCredit_admits_all], [received_points_lost]).
    - Concurrency: bounds on what the goroutines collect ([fetch_result_bounded],
      [neighbor_answers_bounded], [client_discovery_bounded]), when they never return
      ([too_few_fragments_spin], [neighbor_query_deadlocks], [cacher_hit_blocks],
      [node_discovery_never_returns]), and that the node's discovery delivers what its
      searches and mDNS found, in order and without loss ([node_discovery_refines]).
    - The chains: [claim_loop_bounded], [CreateCacheOrder_first_event],
      [ExitNetwork_times_out], [CheckCreditOrder_inverted]; no transaction claims an order
      ([orders_never_claimed]); iterating over events is unpacking the logs
      ([iterate_equals_unpack_all]); transactions of the ink! client end, what their success
      means, and what it means after a lost connection ([SubmitExtrinsic_ends],
      [SubmitExtrinsic_success], [lost_connection_reports_success]); the token tool
      ([BuyCacherToken_result], [authorization_ambiguous]).
    - Node and client state: [callbacks_count], [segments_never_hit], [cachers_never_used],
      [tasks_requested_again], [UploadFile_queues], [upload_finishes_on_chain],
      [ParseDefaultConfig_valid], [Identification_stable], [ParseMultiaddrs_cases].
    - The start of a node: [sync_loop_waits], [start_stakes_at_most_once],
      [started_node_panics_on_query], [shorthand_lookups_fail].
    - A node as a whole: no schedule of its operations panics before its download server has
      returned, and of its services only the claims move the chain
      ([running_node_never_panics]); it refines a service that remembers which fragments it
      holds and how many bytes each account took ([node_refines_content_service]); bookings
      that race lose bytes and never invent any ([concurrent_bookings_bounded],
      [concurrent_booking_lost]); no client of these nodes pays any of them
      ([settlement_pays_nobody]).

    ** Fuel and bounds

    The loops that read and write streams take one unit of fuel more than there are bytes
    left, and are shown to end within it. A read that finds nothing while the other side is
    still open waits: the reading loop then gives [None], its handler changes nothing and
    answers nothing, and the client's call ends with the connection. Waiting for ever is a
    result of its own wherever the code can do so (a nil channel in [Client], the goroutines
    of the step relations). Number printing and parsing take the number of digits; everything
    else is structural. Machine integers wrap where the code's would.

    ** Parameters and what is left out

    The chains, the storage peers, the erasure code, the cryptography, the database, the file
    cache, viper, net/http, libp2p with its DHT, mDNS and pubsub, the DNS, gsrpc and
    go-ethereum's bound contracts are parameters. Cobra is one too; the tables of commands and
    flags it works from are modelled. Not modelled: the ABI texts of the generated bindings
    and their raw wrappers, which hand a call unchanged to the bound contract; the raw log
    kept in every event; the events of the substrate pallets that the ink! client embeds and
    never reads; provider_actor.go, which holds no code. Logging is left out everywhere. In
    the neighbour query and in the discovery methods the captured [err] is shared by
    goroutines without a lock; the model gives each its own. Operations of a node that overlap
    are modelled for bookings only. The order in which the goroutines of a node end after its
    context has ended is free, but [running_node_never_panics] says nothing of what runs once
    the download server has returned and the queue is gone. The file a download writes is
    taken to be another path than those of its segments and fragments. *)

From stdpp Require Export base tactics option list gmap strings.
From Stdlib Require Export ZArith Lia.
From Stdlib.Strings Require Export Ascii Byte.

#[global] Open Scope Z_scope.

(** Hint databases: [goint] for machine integers, [goerr] for error values,
    [golist] for slice lengths. *)
Create HintDb goint.
Create Rewrite HintDb goint.
Create Rewrite HintDb goerr.
Create Rewrite HintDb golist.

(** ** Go byte slices and strings *)

(** A Go [string] is a Rocq [string] (a sequence of bytes), a [[]byte] a list
    of bytes. *)
Abbreviation bytes := (list byte).

#[export] Instance byte_eq_dec : EqDecision byte := Byte.byte_eq_dec.

Definition to_bytes (s : string) : bytes := String.list_byte_of_string s.
Definition of_bytes (b : bytes) : string := String.string_of_list_byte b.

Lemma of_to_bytes s : of_bytes (to_bytes s) = s.
Proof. apply String.string_of_list_byte_of_string. Qed.

Lemma to_of_bytes b : to_bytes (of_bytes b) = b.
Proof. apply String.list_byte_of_string_of_list_byte. Qed.

Lemma to_bytes_app s t : to_bytes (s +:+ t) = (to_bytes s ++ to_bytes t)%list.
Proof.
  unfold to_bytes, String.list_byte_of_string.
  induction s as [|a s IH]; simpl; [done|]. by f_equal.
Qed.

Lemma of_bytes_inj b c : of_bytes b = of_bytes c -> b = c.
Proof. intros H. by rewrite <- (to_of_bytes b), H, to_of_bytes. Qed.

(** The numeric value of a byte. *)
Definition bval (b : byte) : Z := Z.of_N (Byte.to_N b).

Lemma bval_bounded b : 0 <= bval b < 256.
Proof. unfold bval. pose proof (Byte.to_N_bounded b). lia. Qed.

(** [byte(z)]: the low eight bits. *)
Definition to_byte (z : Z) : byte := default x00 (Byte.of_N (Z.to_N (z mod 256))).

Lemma bval_to_byte z : bval (to_byte z) = z mod 256.
Proof.
  unfold to_byte, bval. pose proof (Z.mod_pos_bound z 256 ltac:(lia)).
  destruct (Byte.of_N _) as [b|] eqn:E; simpl.
  - apply Byte.to_of_N in E. rewrite E. lia.
  - apply Byte.of_N_None_iff in E. lia.
Qed.

Lemma to_byte_bval b : to_byte (bval b) = b.
Proof.
  unfold to_byte. rewrite Z.mod_small by apply bval_bounded.
  unfold bval. rewrite N2Z.id. by rewrite Byte.of_to_N.
Qed.

Lemma bval_inj b c : bval b = bval c -> b = c.
Proof. intros H. by rewrite <- (to_byte_bval b), H, to_byte_bval. Qed.

(** ** Machine integers

    [int] and [int64] are 64-bit two's complement, [uint64] and [uint32]
    wrap modulo their width. *)
Definition u32 (z : Z) : Z := z mod 2 ^ 32.
Definition u64 (z : Z) : Z := z mod 2 ^ 64.
Definition i64 (z : Z) : Z := (z + 2 ^ 63) mod 2 ^ 64 - 2 ^ 63.

Definition is_u32 (z : Z) : Prop := 0 <= z < 2 ^ 32.
Definition is_u64 (z : Z) : Prop := 0 <= z < 2 ^ 64.
Definition is_i64 (z : Z) : Prop := - 2 ^ 63 <= z < 2 ^ 63.

#[export] Instance is_u64_dec z : Decision (is_u64 z).
Proof. unfold is_u64. apply _. Defined.
#[export] Instance is_i64_dec z : Decision (is_i64 z).
Proof. unfold is_i64. apply _. Defined.

Lemma u32_range z : is_u32 (u32 z).
Proof. unfold is_u32, u32. apply Z.mod_pos_bound. lia. Qed.
Lemma u64_range z : is_u64 (u64 z).
Proof. unfold is_u64, u64. apply Z.mod_pos_bound. lia. Qed.
Lemma i64_range z : is_i64 (i64 z).
Proof.
  unfold is_i64, i64. pose proof (Z.mod_pos_bound (z + 2 ^ 63) (2 ^ 64)). lia.
Qed.

Lemma u32_id z : is_u32 z -> u32 z = z.
Proof. unfold is_u32, u32. intros. by apply Z.mod_small. Qed.
Lemma u64_id z : is_u64 z -> u64 z = z.
Proof. unfold is_u64, u64. intros. by apply Z.mod_small. Qed.
Lemma i64_id z : is_i64 z -> i64 z = z.
Proof. unfold is_i64, i64. intros. rewrite Z.mod_small by lia. lia. Qed.

Lemma u64_below z : - 2 ^ 64 <= z < 0 -> u64 z = z + 2 ^ 64.
Proof.
  intros. unfold u64. rewrite <- (Z.mod_add z 1) by lia.
  apply Z.mod_small. lia.
Qed.
Lemma i64_above z : 2 ^ 63 <= z < 2 ^ 64 -> i64 z = z - 2 ^ 64.
Proof.
  intros. unfold i64. rewrite <- (Z.mod_add _ (-1)) by lia.
  rewrite Z.mod_small by lia. lia.
Qed.

#[export] Hint Resolve u32_range u64_range i64_range : goint.
#[export] Hint Rewrite u64_id i64_id u32_id
  using (unfold is_u64, is_i64, is_u32; lia) : goint.

(** ** Errors

    A Go [error] is modelled by the message its [Error] method returns,
    [None] being the nil error.  [github.com/pkg/errors] is third-party code:
    its [Wrap] is known only by its documentation, which is what the laws of
    the class say. *)
Abbreviation error := (option string).

Class PkgErrors := {
  Wrap : error -> string -> error;
  Wrap_nil : forall msg, Wrap None msg = None;
  Wrap_not_nil : forall e msg, is_Some (Wrap (Some e) msg);
}.
#[export] Hint Rewrite @Wrap_nil : goerr.

(** The package as it documents itself: the message is put in front. *)
#[export] Program Instance pkg_errors : PkgErrors | 100 := {
  Wrap e msg := (fun m => msg +:+ ": " +:+ m) <$> e;
}.
Solve All Obligations with naive_solver.

Lemma Wrap_is_Some `{PkgErrors} e msg : is_Some (Wrap e msg) <-> is_Some e.
Proof.
  split.
  - destruct e; [done|]. rewrite Wrap_nil. by intros [? ?].
  - intros [x ->]. apply Wrap_not_nil.
Qed.

Lemma Wrap_eq_None `{PkgErrors} e msg : Wrap e msg = None <-> e = None.
Proof.
  rewrite !eq_None_not_Some. by rewrite Wrap_is_Some.
Qed.

(** [errors.New]. *)
Definition errors_New (msg : string) : error := Some msg.

(** ** Run-time panics

    A computation either returns or panics; [x ← c; k] sequences. *)
Inductive panic :=
  | DivideByZero
  | IndexOutOfRange
  | SliceOutOfRange
  | NilDereference
  | ArrayConversion
  | NilMapWrite
  | NegativeSize.

#[export] Instance panic_eq_dec : EqDecision panic.
Proof. solve_decision. Defined.

Inductive outcome (A : Type) :=
  | Returns (a : A)
  | Panics (p : panic).
Arguments Returns {A} _.
Arguments Panics {A} _.

#[export] Instance outcome_ret : MRet outcome := fun _ a => Returns a.
#[export] Instance outcome_bind : MBind outcome := fun _ _ f c =>
  match c with Returns a => f a | Panics p => Panics p end.
#[export] Instance outcome_fmap : FMap outcome := fun _ _ f c =>
  match c with Returns a => Returns (f a) | Panics p => Panics p end.

Definition returns {A} (c : outcome A) : bool :=
  match c with Returns _ => true | Panics _ => false end.

Lemma outcome_bind_Returns {A B} (c : outcome A) (f : A -> outcome B) b :
  (c ≫= f) = Returns b <-> exists a, c = Returns a /\ f a = Returns b.
Proof.
  destruct c; simpl; (split; [|intros (x & Hx & Hf)]); try congruence; eauto.
Qed.

(** ** Lists *)

(** [l[i]] with Go's bounds check; indices are Go [int]s. *)
Definition index {A} (l : list A) (i : Z) : outcome A :=
  if decide (0 <= i) then
    match l !! Z.to_nat i with Some a => Returns a | None => Panics IndexOutOfRange end
  else Panics IndexOutOfRange.

Lemma index_Returns {A} (l : list A) i a :
  0 <= i -> l !! Z.to_nat i = Some a -> index l i = Returns a.
Proof. intros ? H. unfold index. rewrite decide_True by done. by rewrite H. Qed.

(** [len(l)]. *)
Definition len {A} (l : list A) : Z := Z.of_nat (length l).

Lemma len_nonneg {A} (l : list A) : 0 <= len l.
Proof. unfold len. lia. Qed.
Lemma len_app {A} (l k : list A) : len (l ++ k)%list = len l + len k.
Proof. unfold len. rewrite length_app. lia. Qed.
Lemma len_nil {A} : len (@nil A) = 0.
Proof. done. Qed.
Lemma len_cons {A} (x : A) l : len (x :: l) = 1 + len l.
Proof. unfold len. simpl. lia. Qed.
Lemma len_replicate {A} n (x : A) : len (replicate n x) = Z.of_nat n.
Proof. unfold len. by rewrite length_replicate. Qed.
#[export] Hint Rewrite @len_app @len_nil @len_cons @len_replicate : golist.

(** Case analysis on the first [match] or [decide] of the goal, keeping the
    equation: the tactic used to run a handler branch by branch. *)
Ltac step := case_match; simplify_eq/=; try done.
Ltac steps := repeat step.
