(* ===== verification/GoStrings.v ===== *)
(** * The string functions of the Go standard library the program uses

    [strings.Split/Join/Contains/TrimPrefix], [path.Join] and the [filepath]
    functions on a Unix system, [encoding/hex], and decimal conversion
    ([math/big] [SetString]/[String], [strconv]). *)

From S2P Require Import Prelude.

(** ** package strings *)

Fixpoint strings_Split (s : string) (sep : ascii) : list string :=
  match s with
  | EmptyString => [""]
  | String a s' =>
      if decide (a = sep) then "" :: strings_Split s' sep
      else match strings_Split s' sep with
           | [] => [String a ""]
           | h :: t => String a h :: t
           end
  end.

Fixpoint strings_Join (elems : list string) (sep : string) : string :=
  match elems with
  | [] => ""
  | [e] => e
  | e :: rest => e +:+ sep +:+ strings_Join rest sep
  end.

Fixpoint strings_HasPrefix (s pre : string) : bool :=
  match pre, s with
  | EmptyString, _ => true
  | String p pre', String a s' => bool_decide (a = p) && strings_HasPrefix s' pre'
  | String _ _, EmptyString => false
  end.

Fixpoint strings_Contains (s sub : string) : bool :=
  strings_HasPrefix s sub ||
  match s with EmptyString => false | String _ s' => strings_Contains s' sub end.

Fixpoint drop_chars (n : nat) (s : string) : string :=
  match n, s with
  | S n, String _ s' => drop_chars n s'
  | _, _ => s
  end.

Definition strings_TrimPrefix (s pre : string) : string :=
  if strings_HasPrefix s pre then drop_chars (String.length pre) s else s.

(** A path element: a name with no separator that is neither empty, nor [.],
    nor [..]. *)
Fixpoint has_char (c : ascii) (s : string) : bool :=
  match s with
  | EmptyString => false
  | String a s' => bool_decide (a = c) || has_char c s'
  end.

Definition slash : ascii := "/"%char.

Definition plain_name (s : string) : Prop :=
  s ≠ "" /\ s ≠ "." /\ s ≠ ".." /\ has_char slash s = false.

#[export] Instance plain_name_dec s : Decision (plain_name s).
Proof. unfold plain_name. apply _. Defined.

(** ** packages path and path/filepath (Unix) *)

(** [Clean] keeps a stack of the components kept so far, last first. *)
Definition clean_step (rooted : bool) (stack : list string) (c : string) : list string :=
  if decide (c = "" \/ c = ".") then stack
  else if decide (c = "..") then
    match stack with
    | top :: below => if decide (top = "..") then ".." :: stack else below
    | [] => if rooted then [] else [".."]
    end
  else c :: stack.

Definition filepath_Clean (p : string) : string :=
  if decide (p = "") then "."
  else
    let rooted := strings_HasPrefix p "/" in
    let body := strings_Join (rev (foldl (clean_step rooted) [] (strings_Split p slash))) "/" in
    if rooted then "/" +:+ body
    else if decide (body = "") then "." else body.

(** [Join] cleans the elements from the first non-empty one on. *)
Fixpoint filepath_Join (elems : list string) : string :=
  match elems with
  | [] => ""
  | e :: rest =>
      if decide (e = "") then filepath_Join rest
      else filepath_Clean (strings_Join (e :: rest) "/")
  end.

(** [Split] cuts just after the last separator. *)
Definition filepath_Split (p : string) : string * string :=
  match rev (strings_Split p slash) with
  | [] => ("", p)
  | file :: dirs =>
      match dirs with
      | [] => ("", file)
      | _ => (strings_Join (rev dirs) "/" +:+ "/", file)
      end
  end.

(** [Base]: the last element, trailing separators dropped. *)
Fixpoint drop_empty (l : list string) : list string :=
  match l with
  | "" :: l' => drop_empty l'
  | _ => l
  end.

Definition filepath_Base (p : string) : string :=
  if decide (p = "") then "."
  else match drop_empty (rev (strings_Split p slash)) with
       | [] => "/"
       | file :: _ => file
       end.

Definition filepath_Dir (p : string) : string := filepath_Clean (fst (filepath_Split p)).

(** ** Lemmas on paths *)

Lemma string_app_cons a s t : String a s +:+ t = String a (s +:+ t).
Proof. done. Qed.

Lemma string_app_nil_r s : s +:+ "" = s.
Proof. induction s as [|a s IH]; [done|]. by rewrite string_app_cons, IH. Qed.

Lemma string_app_assoc s t u : (s +:+ t) +:+ u = s +:+ (t +:+ u).
Proof. induction s as [|a s IH]; [done|]. by rewrite !string_app_cons, IH. Qed.

Lemma has_char_app c s t : has_char c (s +:+ t) = has_char c s || has_char c t.
Proof.
  induction s as [|a s IH]; [done|].
  rewrite string_app_cons. cbn [has_char]. rewrite IH. apply orb_assoc.
Qed.

Lemma Split_no_sep s sep : has_char sep s = false -> strings_Split s sep = [s].
Proof.
  induction s as [|a s IH]; simpl; [done|].
  rewrite orb_false_iff, bool_decide_eq_false. intros [Hne Hs].
  rewrite decide_False by done. by rewrite IH.
Qed.

Lemma Split_cons_sep s sep t :
  has_char sep s = false ->
  strings_Split (s +:+ String sep t) sep = s :: strings_Split t sep.
Proof.
  induction s as [|a s IH]; intros Hs.
  - change ("" +:+ String sep t) with (String sep t). cbn [strings_Split].
    by rewrite decide_True.
  - cbn in Hs. apply orb_false_iff in Hs as [Hne Hs].
    apply bool_decide_eq_false in Hne.
    rewrite string_app_cons. cbn [strings_Split]. rewrite decide_False by done.
    by rewrite IH.
Qed.

(** [strings.Split] inverts [strings.Join] on elements without separator. *)
Lemma Split_Join l sep :
  l ≠ [] -> Forall (fun s => has_char sep s = false) l ->
  strings_Split (strings_Join l (String sep "")) sep = l.
Proof.
  intros Hne Hl. induction Hl as [|s l Hs Hl IH]; [done|].
  destruct l as [|s' l]; [by apply Split_no_sep|].
  cbn [strings_Join]. rewrite string_app_cons.
  rewrite Split_cons_sep by done. f_equal. by apply IH.
Qed.

Lemma clean_plain rooted l stack :
  Forall plain_name l ->
  foldl (clean_step rooted) stack l = (rev l ++ stack)%list.
Proof.
  intros Hl. revert stack. induction Hl as [|s l (H1 & H2 & H3 & _) Hl IH]; [done|].
  intros stack. cbn. unfold clean_step at 2.
  rewrite decide_False by tauto. rewrite decide_False by done.
  rewrite IH. by rewrite <- app_assoc.
Qed.

Lemma plain_no_slash s : plain_name s -> has_char slash s = false.
Proof. by intros (_ & _ & _ & ?). Qed.

Lemma Split_Join_plain l :
  l ≠ [] -> Forall plain_name l -> strings_Split (strings_Join l "/") slash = l.
Proof.
  intros. apply (Split_Join l slash); [done|].
  eapply Forall_impl; [done|]. apply plain_no_slash.
Qed.

Lemma plain_not_rooted s t : plain_name s -> strings_HasPrefix (s +:+ t) "/" = false.
Proof.
  intros (Hne & _ & _ & Hs). destruct s as [|a s]; [done|].
  cbn in Hs. apply orb_false_iff in Hs as [Ha _]. apply bool_decide_eq_false in Ha.
  rewrite string_app_cons. cbn. by rewrite bool_decide_false.
Qed.

Lemma Join_cons_ne s l : s ≠ "" -> strings_Join (s :: l) "/" ≠ "".
Proof. destruct s; [done|]. by destruct l. Qed.

Lemma Join_plain_split s l : exists t, strings_Join (s :: l) "/" = s +:+ t.
Proof.
  destruct l as [|s' l]; [exists ""; by rewrite string_app_nil_r|].
  by eexists.
Qed.

(** Joining plain names puts one separator between them and nothing else. *)
Lemma filepath_Join_plain l :
  l ≠ [] -> Forall plain_name l -> filepath_Join l = strings_Join l "/".
Proof.
  intros Hne Hl. destruct Hl as [|s l Hs Hl]; [done|].
  assert (strings_Join (s :: l) "/" ≠ "") as Hj by apply Join_cons_ne, Hs.
  assert (strings_HasPrefix (strings_Join (s :: l) "/") "/" = false) as Hp.
  { destruct (Join_plain_split s l) as [t ->]. by apply plain_not_rooted. }
  cbn [filepath_Join]. rewrite decide_False by apply Hs.
  unfold filepath_Clean. rewrite decide_False by done. rewrite Hp.
  rewrite Split_Join_plain by (done || by constructor).
  rewrite clean_plain by by constructor.
  rewrite app_nil_r, rev_involutive. by rewrite decide_False.
Qed.

Lemma Split_filepath_Join l :
  l ≠ [] -> Forall plain_name l -> strings_Split (filepath_Join l) slash = l.
Proof.
  intros. rewrite filepath_Join_plain by done. by apply Split_Join_plain.
Qed.

Lemma plain_snoc l s : Forall plain_name l -> plain_name s -> Forall plain_name (l ++ [s]).
Proof. intros. apply Forall_app_2; [done|]. by constructor. Qed.

Lemma snoc_not_nil {A} (l : list A) x : (l ++ [x])%list ≠ [].
Proof. by destruct l. Qed.
#[local] Hint Resolve plain_snoc snoc_not_nil : core.

Lemma filepath_Base_Join l s :
  Forall plain_name l -> plain_name s -> filepath_Base (filepath_Join (l ++ [s])) = s.
Proof.
  intros Hl Hs. unfold filepath_Base.
  rewrite Split_filepath_Join by auto. rewrite rev_app_distr. cbn.
  rewrite decide_False.
  - destruct Hs as (Hs & _). by destruct s.
  - rewrite filepath_Join_plain by auto.
    destruct l as [|s' l]; [by destruct Hs|]. apply (Join_cons_ne s' (l ++ [s])).
    by inversion Hl as [|?? (? & ?)].
Qed.

Lemma filepath_Split_Join l s :
  l ≠ [] -> Forall plain_name l -> plain_name s ->
  filepath_Split (filepath_Join (l ++ [s])) = (strings_Join l "/" +:+ "/", s).
Proof.
  intros Hne Hl Hs. unfold filepath_Split.
  rewrite Split_filepath_Join by auto.
  rewrite rev_app_distr. cbn. destruct (rev l) as [|x r] eqn:E.
  - apply (f_equal (@rev _)) in E. by rewrite rev_involutive in E.
  - by rewrite <- E, rev_involutive.
Qed.

(** ** encoding/hex *)

Definition hexdigit (n : Z) : byte :=
  to_byte (if n <? 10 then 48 + n else 87 + n).

Definition unhexdigit (b : byte) : option Z :=
  let c := bval b in
  if (48 <=? c) && (c <=? 57) then Some (c - 48)
  else if (97 <=? c) && (c <=? 102) then Some (c - 87)
  else if (65 <=? c) && (c <=? 70) then Some (c - 55)
  else None.

Fixpoint hex_encode (b : bytes) : bytes :=
  match b with
  | [] => []
  | x :: r => hexdigit (bval x / 16) :: hexdigit (bval x mod 16) :: hex_encode r
  end.

Fixpoint hex_decode (b : bytes) : option bytes :=
  match b with
  | [] => Some []
  | h :: l :: r =>
      hi ← unhexdigit h; lo ← unhexdigit l; rest ← hex_decode r;
      Some (to_byte (16 * hi + lo) :: rest)
  | _ => None
  end.

(** [hex.EncodeToString] and [hex.DecodeString] ([None]: the error). *)
Definition hex_EncodeToString (b : bytes) : string := of_bytes (hex_encode b).
Definition hex_DecodeString (s : string) : option bytes := hex_decode (to_bytes s).

Lemma unhexdigit_hexdigit n : 0 <= n < 16 -> unhexdigit (hexdigit n) = Some n.
Proof.
  intros Hn. assert (n ∈ seqZ 0 16) as Hin by (apply elem_of_seqZ; lia).
  repeat (apply elem_of_cons in Hin as [->|Hin]; [done|]). by apply not_elem_of_nil in Hin.
Qed.

Lemma hex_decode_encode b : hex_decode (hex_encode b) = Some b.
Proof.
  induction b as [|x b IH]; [done|]. cbn [hex_encode hex_decode].
  pose proof (bval_bounded x).
  rewrite !unhexdigit_hexdigit by (split; [|]; try apply Z.mod_pos_bound;
    try apply Z.div_lt_upper_bound; try apply Z.div_pos; lia).
  cbn. rewrite IH. cbn. rewrite <- Z.div_mod by lia. by rewrite to_byte_bval.
Qed.

Lemma hex_DecodeString_EncodeToString b : hex_DecodeString (hex_EncodeToString b) = Some b.
Proof.
  unfold hex_DecodeString, hex_EncodeToString. rewrite to_of_bytes. apply hex_decode_encode.
Qed.

Lemma length_hex_encode b : length (hex_encode b) = (2 * length b)%nat.
Proof. induction b as [|x b IH]; simpl; lia. Qed.

(** ** Decimal numbers *)

Definition digit (n : Z) : byte := to_byte (48 + n).
Definition undigit (b : byte) : option Z :=
  let c := bval b in if (48 <=? c) && (c <=? 57) then Some (c - 48) else None.

(** The digits of a non-negative number, most significant first, in front of
    [acc]; [fuel] bounds the number of digits. *)
Fixpoint dec_digits (fuel : nat) (n : Z) (acc : bytes) : bytes :=
  match fuel with
  | O => acc
  | S fuel =>
      if n <? 10 then digit n :: acc
      else dec_digits fuel (n / 10) (digit (n mod 10) :: acc)
  end.

Definition format_dec (n : Z) : bytes :=
  let m := Z.abs n in
  let ds := dec_digits (S (Z.to_nat (Z.log2 m))) m [] in
  if n <? 0 then x2d :: ds else ds.

Fixpoint parse_digits (acc : Z) (b : bytes) : option Z :=
  match b with
  | [] => Some acc
  | x :: r => d ← undigit x; parse_digits (10 * acc + d) r
  end.

(** [strconv.ParseUint(s, 10, 64)] and [strconv.ParseInt(s, 10, 64)]. *)
Definition parse_uint64 (b : bytes) : option Z :=
  match b with
  | [] => None
  | _ => n ← parse_digits 0 b; if bool_decide (is_u64 n) then Some n else None
  end.

Definition parse_signed (b : bytes) : option Z :=
  match b with
  | [] => None
  | x :: r =>
      if decide (x = x2d) then match r with [] => None | _ => Z.opp <$> parse_digits 0 r end
      else if decide (x = x2b) then match r with [] => None | _ => parse_digits 0 r end
      else parse_digits 0 b
  end.

Definition parse_int64 (b : bytes) : option Z :=
  n ← parse_signed b; if bool_decide (is_i64 n) then Some n else None.

(** [new(big.Int).SetString(s, 10)] and [big.Int.String]. *)
Definition big_SetString (s : string) : option Z := parse_signed (to_bytes s).
Definition big_String (z : Z) : string := of_bytes (format_dec z).

(** [big.Int.Int64] and [Uint64] read the low 64 bits of the magnitude. *)
Definition big_Int64 (z : Z) : Z :=
  let v := i64 (u64 (Z.abs z)) in if z <? 0 then i64 (- v) else v.
Definition big_Uint64 (z : Z) : Z := u64 (Z.abs z).

(** [big.Int.Div] is Euclidean division (the divisor is not zero here). *)
Definition big_Div (x y : Z) : Z :=
  if 0 <? y then x / y else - (x / - y).

Lemma undigit_digit n : 0 <= n < 10 -> undigit (digit n) = Some n.
Proof.
  intros Hn. unfold undigit, digit. rewrite bval_to_byte, Z.mod_small by lia.
  rewrite !(proj2 (Z.leb_le _ _)) by lia. cbn. f_equal. lia.
Qed.

Lemma parse_dec_digits fuel n acc :
  0 <= n < 2 ^ Z.of_nat fuel -> 0 < Z.of_nat fuel ->
  parse_digits 0 (dec_digits fuel n acc) = parse_digits n acc.
Proof.
  revert n acc. induction fuel as [|fuel IH]; intros n acc Hn Hf; [lia|].
  cbn [dec_digits]. destruct (Z.ltb_spec n 10).
  - cbn. rewrite undigit_digit by lia. cbn. done.
  - rewrite Nat2Z.inj_succ, Z.pow_succ_r in Hn by lia.
    assert (0 <= n / 10 < 2 ^ Z.of_nat fuel).
    { split; [apply Z.div_pos; lia|]. apply Z.div_lt_upper_bound; lia. }
    rewrite IH; [|done|].
    + cbn. rewrite undigit_digit by (apply Z.mod_pos_bound; lia). cbn.
      f_equal. rewrite <- Z.div_mod by lia. done.
    + destruct fuel; [|lia]. cbn in *. lia.
Qed.

Lemma parse_format_nonneg n :
  0 <= n -> parse_digits 0 (dec_digits (S (Z.to_nat (Z.log2 n))) n []) = Some n.
Proof.
  intros Hn. rewrite parse_dec_digits; [done| |lia].
  rewrite Nat2Z.inj_succ, Z2Nat.id by apply Z.log2_nonneg.
  destruct (Z.eq_dec n 0) as [->|]; [cbn; lia|].
  pose proof (Z.log2_spec n). lia.
Qed.

(** A digit is neither a sign nor any other punctuation. *)
Lemma dec_digits_head fuel n acc :
  (0 < fuel)%nat -> 0 <= n ->
  exists d r, 0 <= d < 10 /\ dec_digits fuel n acc = digit d :: r.
Proof.
  revert n acc. induction fuel as [|fuel IH]; intros n acc Hf Hn; [lia|].
  cbn [dec_digits]. destruct (Z.ltb_spec n 10).
  - exists n, acc. split; [lia|done].
  - destruct fuel as [|fuel].
    + cbn. exists (n mod 10), acc. split; [|done]. apply Z.mod_pos_bound. lia.
    + apply IH; [lia|]. apply Z.div_pos; lia.
Qed.

Lemma digit_not b n : 0 <= n < 10 -> undigit b = None -> digit n ≠ b.
Proof. intros Hn Hb <-. by rewrite undigit_digit in Hb. Qed.

Lemma parse_signed_format n : parse_signed (format_dec n) = Some n.
Proof.
  unfold format_dec. set (ds := dec_digits _ _ _).
  assert (parse_digits 0 ds = Some (Z.abs n)) as Hp by (apply parse_format_nonneg; lia).
  destruct (dec_digits_head (S (Z.to_nat (Z.log2 (Z.abs n)))) (Z.abs n) [])
    as (d & r & Hd & Hds); [lia..|]. fold ds in Hds.
  destruct (Z.ltb_spec n 0); rewrite Hds in *.
  - cbn -[parse_digits]. rewrite Hp. cbn. f_equal. lia.
  - cbn -[parse_digits]. rewrite !decide_False by by apply digit_not.
    rewrite Hp. f_equal. lia.
Qed.

(** The decimal text of a [big.Int] reads back as the same number. *)
Lemma big_SetString_String n : big_SetString (big_String n) = Some n.
Proof. unfold big_SetString, big_String. rewrite to_of_bytes. apply parse_signed_format. Qed.

Lemma parse_int64_format n : is_i64 n -> parse_int64 (format_dec n) = Some n.
Proof.
  intros. unfold parse_int64. rewrite parse_signed_format. cbn.
  by rewrite bool_decide_true.
Qed.

Lemma parse_uint64_format n : is_u64 n -> parse_uint64 (format_dec n) = Some n.
Proof.
  intros Hn. pose proof Hn as [? _]. unfold format_dec.
  rewrite Z.abs_eq by done. rewrite (proj2 (Z.ltb_ge _ _)) by done.
  unfold parse_uint64. pose proof (parse_format_nonneg n ltac:(done)) as Hp.
  destruct (dec_digits_head (S (Z.to_nat (Z.log2 n))) n []) as (d & r & _ & Hds); [lia..|].
  rewrite Hds in *. rewrite Hp. cbn. by rewrite bool_decide_true.
Qed.

Lemma big_Uint64_id n : is_u64 n -> big_Uint64 n = n.
Proof. intros Hn. unfold big_Uint64. rewrite Z.abs_eq by apply Hn. by apply u64_id. Qed.

Lemma big_Uint64_range n : is_u64 (big_Uint64 n).
Proof. apply u64_range. Qed.

Lemma big_Int64_id n : - 2 ^ 63 < n < 2 ^ 63 -> big_Int64 n = n.
Proof.
  intros Hn. unfold big_Int64. rewrite (u64_id (Z.abs n)) by (unfold is_u64; lia).
  rewrite (i64_id (Z.abs n)) by (unfold is_i64; lia).
  destruct (Z.ltb_spec n 0); [rewrite i64_id by (unfold is_i64; lia)|]; lia.
Qed.

Lemma big_Div_exact n p : 0 < p -> big_Div (n * p) p = n.
Proof.
  intros Hp. unfold big_Div. rewrite (proj2 (Z.ltb_lt _ _)) by lia. by rewrite Z.div_mul by lia.
Qed.

(** ** A plain name joined to any directory *)

Lemma Split_not_nil s sep : strings_Split s sep ≠ [].
Proof.
  induction s as [|a s IH]; cbn [strings_Split]; [done|].
  case_decide; [done|]. by destruct (strings_Split s sep).
Qed.

Lemma Split_snoc d sep h :
  has_char sep h = false -> strings_Split (d +:+ String sep h) sep = (strings_Split d sep ++ [h])%list.
Proof.
  intros Hh. induction d as [|a d IH].
  - change ("" +:+ String sep h) with (String sep h). cbn [strings_Split].
    rewrite decide_True by done. by rewrite Split_no_sep.
  - rewrite string_app_cons. cbn [strings_Split]. case_decide; [by rewrite IH|].
    rewrite IH. pose proof (Split_not_nil d sep). by destruct (strings_Split d sep).
Qed.

Lemma Split_no_char s sep : Forall (fun c => has_char sep c = false) (strings_Split s sep).
Proof.
  induction s as [|a s IH]; cbn [strings_Split]; [by repeat constructor|].
  case_decide as Ha; [by constructor|].
  destruct (strings_Split s sep) as [|c l]; inversion IH; subst; constructor; try done;
    cbn [has_char]; by rewrite bool_decide_false.
Qed.

Lemma clean_no_slash rooted l stack :
  Forall (fun c => has_char slash c = false) l -> Forall (fun c => has_char slash c = false) stack ->
  Forall (fun c => has_char slash c = false) (foldl (clean_step rooted) stack l).
Proof.
  intros Hl. revert stack. induction Hl as [|c l Hc _ IH]; intros stack Hs; [done|]. cbn. apply IH.
  unfold clean_step. case_decide; [done|]. case_decide; [|by constructor].
  destruct Hs; [destruct rooted; by repeat constructor|]. case_decide; by repeat constructor.
Qed.

Lemma Join_body_ne stack h :
  plain_name h -> strings_Join (stack ++ [h])%list "/" ≠ "".
Proof.
  intros (Hh & _). destruct stack as [|c stack]; [done|]. destruct c as [|a c].
  - destruct stack; done.
  - destruct stack; done.
Qed.

Lemma filepath_Base_Join2 d h :
  d ≠ "" -> plain_name h -> filepath_Base (filepath_Join [d; h]) = h.
Proof.
  intros Hd Hh. pose proof Hh as (Hne & Hdot & Hdd & Hs).
  cbn [filepath_Join]. rewrite decide_False by done. cbn [strings_Join].
  change ("/" +:+ h) with (String slash h).
  assert (d +:+ String slash h ≠ "") as Hp by by destruct d.
  unfold filepath_Clean. rewrite decide_False by done. rewrite Split_snoc by done.
  set (rooted := strings_HasPrefix _ _). rewrite foldl_app. cbn [foldl].
  set (stack := foldl _ _ (strings_Split d slash)).
  assert (clean_step rooted stack h = h :: stack) as ->.
  { unfold clean_step. rewrite decide_False by tauto. by rewrite decide_False. }
  assert (Forall (fun c => has_char slash c = false) (rev stack ++ [h])) as Hall.
  { apply Forall_app_2; [|by repeat constructor]. apply Forall_rev.
    apply clean_no_slash; [apply Split_no_char|constructor]. }
  cbn [rev]. set (body := strings_Join _ _).
  assert (body ≠ "") as Hb by by apply Join_body_ne.
  assert (strings_Split body slash = rev stack ++ [h])%list as Hsp
    by (apply (Split_Join _ slash); [apply snoc_not_nil|done]).
  unfold filepath_Base. destruct rooted.
  - change ("/" +:+ body) with (String slash body). rewrite decide_False by done.
    cbn [strings_Split]. rewrite decide_True by done. rewrite Hsp.
    change ("" :: rev stack ++ [h])%list with (("" :: rev stack) ++ [h])%list.
    rewrite rev_app_distr. cbn. by destruct h.
  - rewrite (decide_False (P := body = "")) by done. rewrite decide_False by done. rewrite Hsp.
    rewrite rev_app_distr. cbn. by destruct h.
Qed.

Lemma filepath_Join2_inj d h h' :
  d ≠ "" -> plain_name h -> plain_name h' -> filepath_Join [d; h] = filepath_Join [d; h'] -> h = h'.
Proof.
  intros Hd Hh Hh' He. apply (f_equal filepath_Base) in He. by rewrite !filepath_Base_Join2 in He.
Qed.
