(* ===== verification/Encoding.v ===== *)
(** * Byte encodings of the Go standard library the program uses

    [encoding/binary] big-endian 32-bit words, [encoding/base64] (how
    [encoding/json] writes a [[]byte]) and [crypto/sha256], with the program's
    own [GetSha256Hash]. *)

From S2P Require Import Prelude GoStrings.

(** ** encoding/binary: big-endian uint32 *)

Definition BigEndian_PutUint32 (v : Z) : bytes :=
  [to_byte (v / 2 ^ 24); to_byte (v / 2 ^ 16); to_byte (v / 2 ^ 8); to_byte v].

(** Reading needs four bytes; fewer is an index panic. *)
Definition BigEndian_Uint32 (b : bytes) : outcome Z :=
  match b with
  | b0 :: b1 :: b2 :: b3 :: _ =>
      Returns (bval b0 * 2 ^ 24 + bval b1 * 2 ^ 16 + bval b2 * 2 ^ 8 + bval b3)
  | _ => Panics IndexOutOfRange
  end.

Lemma BigEndian_round_trip v rest :
  BigEndian_Uint32 (BigEndian_PutUint32 v ++ rest) = Returns (u32 v).
Proof.
  cbn -[Z.mul Z.pow Z.add]. f_equal. rewrite !bval_to_byte. unfold u32.
  change (2 ^ 24) with (2 ^ 16 * 2 ^ 8). change (2 ^ 16) with (2 ^ 8 * 2 ^ 8).
  rewrite <- !Z.div_div by lia.
  pose proof (Z.div_mod v (2 ^ 8) ltac:(lia)).
  pose proof (Z.div_mod (v / 2 ^ 8) (2 ^ 8) ltac:(lia)).
  pose proof (Z.div_mod (v / 2 ^ 8 / 2 ^ 8) (2 ^ 8) ltac:(lia)).
  pose proof (Z.div_mod (v / 2 ^ 8 / 2 ^ 8 / 2 ^ 8) (2 ^ 8) ltac:(lia)).
  change 256 with (2 ^ 8).
  apply Z.mod_unique_pos with (q := v / 2 ^ 8 / 2 ^ 8 / 2 ^ 8 / 2 ^ 8).
  - pose proof (Z.mod_pos_bound v (2 ^ 8)).
    pose proof (Z.mod_pos_bound (v / 2 ^ 8) (2 ^ 8)).
    pose proof (Z.mod_pos_bound (v / 2 ^ 8 / 2 ^ 8) (2 ^ 8)).
    pose proof (Z.mod_pos_bound (v / 2 ^ 8 / 2 ^ 8 / 2 ^ 8) (2 ^ 8)). lia.
  - lia.
Qed.

Lemma BigEndian_Uint32_range b v : BigEndian_Uint32 b = Returns v -> is_u32 v.
Proof.
  destruct b as [|b0 [|b1 [|b2 [|b3 b]]]]; try done. intros [= <-].
  pose proof (bval_bounded b0). pose proof (bval_bounded b1).
  pose proof (bval_bounded b2). pose proof (bval_bounded b3). unfold is_u32. lia.
Qed.

Lemma BigEndian_Uint32_long b :
  (4 <= length b)%nat -> exists v, BigEndian_Uint32 b = Returns v /\ is_u32 v.
Proof.
  intros Hb. destruct (BigEndian_Uint32 b) as [v|] eqn:E.
  - exists v. split; [done|]. by eapply BigEndian_Uint32_range.
  - destruct b as [|b0 [|b1 [|b2 [|b3 b]]]]; cbn in *; (lia || done).
Qed.

(** ** encoding/base64, standard alphabet with padding *)

Definition b64digit (n : Z) : byte :=
  to_byte (if n <? 26 then 65 + n else if n <? 52 then 71 + n
           else if n <? 62 then n - 4 else if n =? 62 then 43 else 47).

Definition unb64digit (b : byte) : option Z :=
  let c := bval b in
  if (65 <=? c) && (c <=? 90) then Some (c - 65)
  else if (97 <=? c) && (c <=? 122) then Some (c - 71)
  else if (48 <=? c) && (c <=? 57) then Some (c + 4)
  else if c =? 43 then Some 62 else if c =? 47 then Some 63 else None.

Definition pad : byte := x3d.

Fixpoint b64_encode (b : bytes) : bytes :=
  match b with
  | [] => []
  | [x] => [b64digit (bval x / 4); b64digit (bval x mod 4 * 16); pad; pad]
  | [x; y] =>
      [b64digit (bval x / 4); b64digit (bval x mod 4 * 16 + bval y / 16);
       b64digit (bval y mod 16 * 4); pad]
  | x :: y :: z :: r =>
      b64digit (bval x / 4) :: b64digit (bval x mod 4 * 16 + bval y / 16)
      :: b64digit (bval y mod 16 * 4 + bval z / 64) :: b64digit (bval z mod 64)
      :: b64_encode r
  end.

Fixpoint b64_decode_groups (b : bytes) : option bytes :=
  match b with
  | [] => Some []
  | c1 :: c2 :: c3 :: c4 :: r =>
      n1 ← unb64digit c1; n2 ← unb64digit c2;
      let x := to_byte (n1 * 4 + n2 / 16) in
      if decide (c3 = pad) then
        if decide (c4 = pad /\ r = []) then Some [x] else None
      else
        n3 ← unb64digit c3;
        let y := to_byte (n2 mod 16 * 16 + n3 / 4) in
        if decide (c4 = pad) then if decide (r = []) then Some [x; y] else None
        else
          n4 ← unb64digit c4; rest ← b64_decode_groups r;
          Some (x :: y :: to_byte (n3 mod 4 * 64 + n4) :: rest)
  | _ => None
  end.

(** The decoder skips carriage returns and line feeds. *)
Definition b64_decode (b : bytes) : option bytes :=
  b64_decode_groups (filter (fun c => c ≠ x0a /\ c ≠ x0d) b).

(** What the alphabet guarantees: a digit is read back, is not the padding and
    is a printable character. *)
Lemma b64digit_spec n : 0 <= n < 64 ->
  unb64digit (b64digit n) = Some n /\ b64digit n ≠ pad
  /\ b64digit n ≠ x0a /\ b64digit n ≠ x0d.
Proof.
  intros Hn. assert (n ∈ seqZ 0 64) as Hin by (apply elem_of_seqZ; lia).
  cbn in Hin.
  repeat (apply elem_of_cons in Hin as [->|Hin]; [by vm_compute|]).
  by apply not_elem_of_nil in Hin.
Qed.

Lemma unb64digit_b64digit n : 0 <= n < 64 -> unb64digit (b64digit n) = Some n.
Proof. intros. by apply b64digit_spec. Qed.

Lemma b64digit_not_pad n : 0 <= n < 64 -> b64digit n ≠ pad.
Proof. intros. by apply b64digit_spec. Qed.

Ltac b64_bounds :=
  repeat match goal with
  | x : byte |- _ =>
      lazymatch goal with
      | _ : 0 <= bval x < 256 |- _ => fail
      | _ => pose proof (bval_bounded x)
      end
  end;
  Z.to_euclidean_division_equations; lia.

(** Induction three bytes at a time. *)
Lemma list_ind3 {A} (P : list A -> Prop) :
  P [] -> (forall x, P [x]) -> (forall x y, P [x; y]) ->
  (forall x y z l, P l -> P (x :: y :: z :: l)) -> forall l, P l.
Proof.
  intros H0 H1 H2 H3. fix IH 1. intros [|x [|y [|z l]]]; [done..|].
  apply H3, IH.
Qed.

Lemma b64_decode_groups_encode b : b64_decode_groups (b64_encode b) = Some b.
Proof.
  induction b as [|x|x y|x y z b IH] using list_ind3; [done|..];
    cbn [b64_encode b64_decode_groups].
  - rewrite !unb64digit_b64digit by b64_bounds. cbn.
    do 2 f_equal. apply bval_inj. rewrite bval_to_byte. b64_bounds.
  - rewrite !unb64digit_b64digit by b64_bounds. cbn.
    rewrite decide_False by (apply b64digit_not_pad; b64_bounds).
    do 2 f_equal; [|f_equal]; apply bval_inj; rewrite bval_to_byte; b64_bounds.
  - rewrite !unb64digit_b64digit by b64_bounds. cbn.
    rewrite !decide_False by (apply b64digit_not_pad; b64_bounds).
    rewrite IH. cbn.
    do 2 f_equal; [|f_equal; [|f_equal]];
      apply bval_inj; rewrite bval_to_byte; b64_bounds.
Qed.

Lemma b64_encode_printable b :
  Forall (fun c => c ≠ x0a /\ c ≠ x0d) (b64_encode b).
Proof.
  induction b as [|x|x y|x y z b IH] using list_ind3; cbn [b64_encode];
    repeat constructor; try done; apply b64digit_spec; b64_bounds.
Qed.

Lemma filter_all {A} (P : A -> Prop) `{!forall x, Decision (P x)} (l : list A) :
  Forall P l -> filter P l = l.
Proof.
  induction 1 as [|x l Hx Hl IH]; [done|]. rewrite filter_cons_True by done. by f_equal.
Qed.

Lemma b64_decode_encode b : b64_decode (b64_encode b) = Some b.
Proof.
  unfold b64_decode. rewrite filter_all by apply b64_encode_printable.
  apply b64_decode_groups_encode.
Qed.

(** ** crypto/sha256 (FIPS 180-4) *)

Module Sha256.
(** The constants: the first 32 bits of the fractional parts of the cube roots of the
    first 64 primes, and of the square roots of the first 8. *)
Definition is_prime (n : Z) : bool := forallb (fun d => negb (n mod d =? 0)) (seqZ 2 (n - 2)).
Definition primes : list Z := List.filter is_prime (seqZ 2 310).

(** The integer cube root of [n], one bit after the other from bit [i] down. *)
Fixpoint cube_root (i : nat) (r n : Z) : Z :=
  match i with
  | O => r
  | S i => let r' := r + 2 ^ Z.of_nat i in cube_root i (if r' * r' * r' <=? n then r' else r) n
  end.

Definition K : list Z := Eval vm_compute in map (fun p => u32 (cube_root 36 0 (p * 2 ^ 96))) primes.
Definition H0 : list Z := Eval vm_compute in map (fun p => u32 (Z.sqrt (p * 2 ^ 64))) (take 8 primes).

Definition rotr (x n : Z) : Z :=
  Z.lor (Z.shiftr x n) (u32 (Z.shiftl x (32 - n))).

Definition ch (x y z : Z) := Z.lxor (Z.land x y) (Z.land (Z.lxor x (2 ^ 32 - 1)) z).
Definition maj (x y z : Z) := Z.lxor (Z.lxor (Z.land x y) (Z.land x z)) (Z.land y z).
Definition bsig0 x := Z.lxor (Z.lxor (rotr x 2) (rotr x 13)) (rotr x 22).
Definition bsig1 x := Z.lxor (Z.lxor (rotr x 6) (rotr x 11)) (rotr x 25).
Definition ssig0 x := Z.lxor (Z.lxor (rotr x 7) (rotr x 18)) (Z.shiftr x 3).
Definition ssig1 x := Z.lxor (Z.lxor (rotr x 17) (rotr x 19)) (Z.shiftr x 10).

(** The message, a one bit, zeros, and the 64-bit length in bits. *)
Definition padding (n : Z) : bytes :=
  x80 :: replicate (Z.to_nat ((55 - n) mod 64)) x00 ++
  [to_byte (8 * n / 2 ^ 56); to_byte (8 * n / 2 ^ 48);
   to_byte (8 * n / 2 ^ 40); to_byte (8 * n / 2 ^ 32)] ++
  BigEndian_PutUint32 (8 * n).

Fixpoint words (b : bytes) : list Z :=
  match b with
  | b0 :: b1 :: b2 :: b3 :: r =>
      bval b0 * 2 ^ 24 + bval b1 * 2 ^ 16 + bval b2 * 2 ^ 8 + bval b3 :: words r
  | _ => []
  end.

(** The schedule, last word first. *)
Fixpoint schedule (n : nat) (w : list Z) : list Z :=
  match n with
  | O => w
  | S n =>
      let g i := default 0 (w !! i) in
      schedule n (u32 (ssig1 (g 1%nat) + g 6%nat + ssig0 (g 14%nat) + g 15%nat) :: w)
  end.

Definition round (s : list Z) (kw : Z * Z) : list Z :=
  match s with
  | [a; b; c; d; e; f; g; h] =>
      let t1 := h + bsig1 e + ch e f g + fst kw + snd kw in
      let t2 := bsig0 a + maj a b c in
      [u32 (t1 + t2); a; b; c; u32 (d + t1); e; f; g]
  | _ => s
  end.

Definition block (h : list Z) (m : list Z) : list Z :=
  let w := rev (schedule 48 (rev m)) in
  zip_with (fun x y => u32 (x + y)) h (foldl round h (zip K w)).

Fixpoint blocks (fuel : nat) (h : list Z) (w : list Z) : list Z :=
  match fuel, w with
  | S fuel, _ :: _ => blocks fuel (block h (take 16 w)) (drop 16 w)
  | _, _ => h
  end.

Definition sum256 (b : bytes) : bytes :=
  let w := words (b ++ padding (len b)) in
  concat (BigEndian_PutUint32 <$> blocks (length w) H0 w).
End Sha256.

(** [cdnlib.GetSha256Hash]: the hexadecimal digest. *)
Definition GetSha256Hash (data : bytes) : string := hex_EncodeToString (Sha256.sum256 data).

Example sha256_abc : GetSha256Hash (to_bytes "abc") =
  "ba7816bf8f01cfea414140de5dae2223b00361a396177a9cb410ff61f20015ad".
Proof. by vm_compute. Qed.

Example sha256_two_blocks :
  GetSha256Hash (to_bytes "abcdbcdecdefdefgefghfghighijhijkijkljklmklmnlmnomnopnopq") =
  "248d6a61d20638b8e5c026930c3e6039a33ce45964ff2167f6ecedd419db06c1".
Proof. by vm_compute. Qed.

Lemma Sha256_block_length h m :
  length h = 8%nat -> length (Sha256.block h m) = 8%nat.
Proof.
  intros Hh. unfold Sha256.block. rewrite length_zip_with, Hh.
  enough (forall l s, length s = 8%nat -> length (foldl Sha256.round s l) = 8%nat) as ->;
    [done..|].
  clear. intros l. induction l as [|kw l IH]; intros s Hs; [done|]. cbn. apply IH.
  do 9 (destruct s as [|? s]; try done).
Qed.

Lemma Sha256_blocks_length fuel h w :
  length h = 8%nat -> length (Sha256.blocks fuel h w) = 8%nat.
Proof.
  revert h w. induction fuel as [|fuel IH]; intros h w Hh; [done|].
  destruct w; [done|]. cbn. by apply IH, Sha256_block_length.
Qed.

Lemma length_sum256 b : length (Sha256.sum256 b) = 32%nat.
Proof.
  unfold Sha256.sum256.
  pose proof (Sha256_blocks_length (length (Sha256.words (b ++ Sha256.padding (len b))))
    Sha256.H0 (Sha256.words (b ++ Sha256.padding (len b))) eq_refl) as Hl.
  revert Hl. generalize (Sha256.blocks (length (Sha256.words (b ++ Sha256.padding (len b))))
    Sha256.H0 (Sha256.words (b ++ Sha256.padding (len b)))). intros l Hl.
  do 9 (destruct l as [|? l]; try done).
Qed.

Lemma string_length_of_bytes b : String.length (of_bytes b) = length b.
Proof.
  rewrite <- (to_of_bytes b) at 2. unfold to_bytes, String.list_byte_of_string.
  rewrite length_map. generalize (of_bytes b). intros s.
  induction s; simpl; [done|]. by f_equal.
Qed.

Lemma GetSha256Hash_length data : String.length (GetSha256Hash data) = 64%nat.
Proof.
  unfold GetSha256Hash, hex_EncodeToString. rewrite string_length_of_bytes.
  by rewrite length_hex_encode, length_sum256.
Qed.

(** A character that is no hexadecimal digit does not occur in a digest. *)
Lemma has_char_of_bytes c b :
  has_char c (of_bytes b) = existsb (fun x => bool_decide (ascii_of_byte x = c)) b.
Proof. induction b as [|x b IH]; [done|]. cbn. by f_equal. Qed.

Lemma hexdigit_not c n :
  forallb (fun k => negb (bool_decide (ascii_of_byte (hexdigit k) = c))) (seqZ 0 16) = true ->
  0 <= n < 16 -> bool_decide (ascii_of_byte (hexdigit n) = c) = false.
Proof.
  rewrite forallb_forall. intros H Hn. apply negb_true_iff, H.
  apply list_elem_of_In, elem_of_seqZ. lia.
Qed.

Lemma hex_encode_no_char c b :
  forallb (fun k => negb (bool_decide (ascii_of_byte (hexdigit k) = c))) (seqZ 0 16) = true ->
  has_char c (of_bytes (hex_encode b)) = false.
Proof.
  intros Hc. rewrite has_char_of_bytes. induction b as [|x b IH]; [done|].
  pose proof (bval_bounded x). cbn [hex_encode existsb].
  rewrite !(hexdigit_not c) by (done || (Z.to_euclidean_division_equations; lia)).
  done.
Qed.

(** A digest is a plain path element. *)
Lemma GetSha256Hash_plain data : plain_name (GetSha256Hash data).
Proof.
  pose proof (GetSha256Hash_length data) as Hl.
  split_and!; [intros E; by rewrite E in Hl ..|].
  by apply hex_encode_no_char.
Qed.
