(* ===== verification/Json.v ===== *)
(** * encoding/json as the program uses it

    The text produced by [json.Marshal] and accepted by [json.Unmarshal]
    (Go 1.21): a value tree, its printer with Go's escaping, a parser, and the
    decoding of trees into structs, whose errors keep the fields already read.
    Two parts of the standard library stay parameters: the shortest decimal text
    of a [float64] ([FloatText]) and [time.Time] ([GoTime]). *)

From S2P Require Import Prelude GoStrings Encoding.
From Stdlib Require Export SpecFloat.

Unset Elimination Schemes.
Inductive json :=
  | JNull
  | JBool (b : bool)
  | JNum (lit : bytes)
  | JStr (s : string)
  | JArr (l : list json)
  | JObj (m : list (string * json)).
Set Elimination Schemes.

(** Induction through the lists. *)
Lemma json_ind (P : json -> Prop) :
  P JNull -> (forall b, P (JBool b)) -> (forall n, P (JNum n)) -> (forall s, P (JStr s)) ->
  (forall l, Forall P l -> P (JArr l)) ->
  (forall m, Forall (fun kv => P kv.2) m -> P (JObj m)) ->
  forall j, P j.
Proof.
  intros H1 H2 H3 H4 H5 H6. fix IH 1. intros [|b|n|s|l|m];
    [apply H1|apply H2|apply H3|apply H4|apply H5|apply H6].
  - induction l as [|x l IHl]; constructor; [apply IH|apply IHl].
  - induction m as [|x m IHm]; constructor; [apply IH|apply IHm].
Qed.

(** ** UTF-8 *)

Definition in_range (lo hi : Z) (b : byte) : bool := (lo <=? bval b) && (bval b <=? hi).
Definition cont : byte -> bool := in_range 128 191.

(** Size of the multi-byte sequence at the head of [b], if it is well formed. *)
Definition utf8_size (b : bytes) : option nat :=
  match b with
  | a :: c :: r =>
      if in_range 194 223 a && cont c then Some 2%nat
      else match r with
      | d :: r' =>
          if (in_range 224 224 a && in_range 160 191 c
              || (in_range 225 236 a || in_range 238 239 a) && cont c
              || in_range 237 237 a && in_range 128 159 c) && cont d then Some 3%nat
          else match r' with
          | e :: _ =>
              if (in_range 240 240 a && in_range 144 191 c
                  || in_range 241 243 a && cont c
                  || in_range 244 244 a && in_range 128 143 c) && cont d && cont e
              then Some 4%nat else None
          | [] => None
          end
      | [] => None
      end
  | _ => None
  end.

(** The encoding of a code point below 0x110000. *)
Definition utf8_encode (r : Z) : bytes :=
  if r <? 128 then [to_byte r]
  else if r <? 2048 then [to_byte (192 + r / 64); to_byte (128 + r mod 64)]
  else if r <? 65536 then
    [to_byte (224 + r / 4096); to_byte (128 + r / 64 mod 64); to_byte (128 + r mod 64)]
  else
    [to_byte (240 + r / 262144); to_byte (128 + r / 4096 mod 64);
     to_byte (128 + r / 64 mod 64); to_byte (128 + r mod 64)].

Definition replacement : bytes := [xef; xbf; xbd].

(** ** Strings *)

Definition quote : byte := x22.
Definition backslash : byte := x5c.

Definition u_escape (hi lo : Z) : bytes :=
  [backslash; x75; hexdigit (hi / 16); hexdigit (hi mod 16);
   hexdigit (lo / 16); hexdigit (lo mod 16)].

(** One ASCII byte; the HTML characters are escaped too. *)
Definition escape_ascii (c : byte) : bytes :=
  if decide (c = quote \/ c = backslash) then [backslash; c]
  else if decide (c = x0a) then [backslash; x6e]
  else if decide (c = x0d) then [backslash; x72]
  else if decide (c = x09) then [backslash; x74]
  else if decide (bval c < 32 \/ c = x3c \/ c = x3e \/ c = x26) then u_escape 0 (bval c)
  else [c].

Definition is_ascii (c : byte) : bool := bval c <? 128.

(** One multi-byte character: the line and paragraph separators are escaped. *)
Definition escape_multi (s : bytes) : bytes :=
  if decide (s = [xe2; x80; xa8]) then u_escape 32 40
  else if decide (s = [xe2; x80; xa9]) then u_escape 32 41
  else s.

Fixpoint escape (fuel : nat) (b : bytes) : bytes :=
  match fuel, b with
  | S fuel, c :: r =>
      if is_ascii c then escape_ascii c ++ escape fuel r
      else match utf8_size b with
           | Some n => escape_multi (take n b) ++ escape fuel (drop n b)
           | None => u_escape 255 253 ++ escape fuel r
           end
  | _, _ => []
  end%list.

Definition print_string (s : string) : bytes :=
  let b := to_bytes s in quote :: escape (length b) b ++ [quote].

Definition unescape_u (b : bytes) : option (Z * bytes) :=
  match b with
  | h1 :: h2 :: h3 :: h4 :: r =>
      a ← unhexdigit h1; b ← unhexdigit h2; c ← unhexdigit h3; d ← unhexdigit h4;
      Some (a * 4096 + b * 256 + c * 16 + d, r)
  | _ => None
  end.

Definition is_high (r : Z) : bool := (55296 <=? r) && (r <? 56320).
Definition is_low (r : Z) : bool := (56320 <=? r) && (r <? 57344).

(** The character(s) after [\u]: a surrogate pair is combined, a lone surrogate
    becomes the replacement character. *)
Definition unescape_rune (b : bytes) : option (bytes * bytes) :=
  '(r, rest) ← unescape_u b;
  if is_high r || is_low r then
    match rest with
    | b1 :: b2 :: rest' =>
        if decide (b1 = backslash /\ b2 = x75) then
          match unescape_u rest' with
          | Some (r2, rest2) =>
              if is_high r && is_low r2 then
                Some (utf8_encode ((r - 55296) * 1024 + (r2 - 56320) + 65536), rest2)
              else Some (replacement, rest)
          | None => None
          end
        else Some (replacement, rest)
    | _ => Some (replacement, rest)
    end
  else Some (utf8_encode r, rest).

Definition unescape_simple (c : byte) : option byte :=
  if decide (c = quote \/ c = backslash \/ c = x2f) then Some c
  else if decide (c = x62) then Some x08
  else if decide (c = x66) then Some x0c
  else if decide (c = x6e) then Some x0a
  else if decide (c = x72) then Some x0d
  else if decide (c = x74) then Some x09
  else None.

(** The rest of a string literal, up to its closing quote. *)
Fixpoint parse_string (fuel : nat) (b : bytes) : option (bytes * bytes) :=
  match fuel, b with
  | S fuel, c :: r =>
      if decide (c = quote) then Some ([], r)
      else if decide (c = backslash) then
        match r with
        | e :: r' =>
            if decide (e = x75) then
              '(s, r'') ← unescape_rune r';
              '(t, rest) ← parse_string fuel r''; Some (s ++ t, rest)%list
            else
              s ← unescape_simple e;
              '(t, rest) ← parse_string fuel r'; Some (s :: t, rest)
        | [] => None
        end
      else if bval c <? 32 then None
      else if is_ascii c then
        '(t, rest) ← parse_string fuel r; Some (c :: t, rest)
      else match utf8_size b with
           | Some n => '(t, rest) ← parse_string fuel (drop n b); Some (take n b ++ t, rest)%list
           | None => '(t, rest) ← parse_string fuel r; Some (replacement ++ t, rest)%list
           end
  | _, _ => None
  end.

(** ** Numbers *)

Definition is_digit (c : byte) : bool := in_range 48 57 c.
Definition num_char (c : byte) : bool :=
  is_digit c || bool_decide (c ∈ [x2b; x2d; x2e; x65; x45]).

Fixpoint span (p : byte -> bool) (b : bytes) : bytes * bytes :=
  match b with
  | c :: r => if p c then let '(l, t) := span p r in (c :: l, t) else ([], b)
  | [] => ([], [])
  end.

Definition valid_exp (b : bytes) : bool :=
  match b with
  | [] => true
  | e :: r =>
      bool_decide (e = x65 \/ e = x45) &&
      match r with
      | s :: r' =>
          if decide (s = x2b \/ s = x2d) then negb (bool_decide (r' = [])) && forallb is_digit r'
          else forallb is_digit r
      | [] => false
      end
  end.

Definition valid_frac (b : bytes) : bool :=
  match b with
  | d :: r =>
      if decide (d = x2e) then
        let '(ds, t) := span is_digit r in negb (bool_decide (ds = [])) && valid_exp t
      else valid_exp b
  | [] => true
  end.

(** The JSON number grammar. *)
Definition valid_number (b : bytes) : bool :=
  let b := match b with c :: r => if decide (c = x2d) then r else b | [] => b end in
  let '(ds, t) := span is_digit b in
  match ds with
  | [] => false
  | d :: ds' => (negb (bool_decide (d = x30)) || bool_decide (ds' = [])) && valid_frac t
  end.

(** ** Printing *)

Fixpoint sep_concat (l : list bytes) : bytes :=
  match l with
  | [] => []
  | [x] => x
  | x :: r => x ++ x2c :: sep_concat r
  end%list.

Fixpoint print (j : json) : bytes :=
  match j with
  | JNull => to_bytes "null"
  | JBool true => to_bytes "true"
  | JBool false => to_bytes "false"
  | JNum lit => lit
  | JStr s => print_string s
  | JArr l => x5b :: sep_concat (map print l) ++ [x5d]
  | JObj m => x7b :: sep_concat (map (fun kv => print_string kv.1 ++ x3a :: print kv.2) m) ++ [x7d]
  end%list.

(** ** Parsing *)

Definition is_ws (c : byte) : bool := bool_decide (c ∈ [x20; x09; x0a; x0d]).
Fixpoint skip_ws (b : bytes) : bytes :=
  match b with
  | c :: r => if is_ws c then skip_ws r else b
  | [] => []
  end.

Fixpoint strip (lit b : bytes) : option bytes :=
  match lit, b with
  | [], _ => Some b
  | x :: lit', y :: b' => if decide (x = y) then strip lit' b' else None
  | _, [] => None
  end.

Definition expect (c : byte) (b : bytes) : option bytes :=
  match skip_ws b with
  | x :: r => if decide (x = c) then Some r else None
  | [] => None
  end.

Definition parse_key (b : bytes) : option (string * bytes) :=
  r ← expect quote b; '(s, r) ← parse_string (length r) r; r ← expect x3a r;
  Some (of_bytes s, r).

Fixpoint parse_value (fuel : nat) (b : bytes) : option (json * bytes) :=
  match fuel, skip_ws b with
  | S fuel, c :: r =>
      if decide (c = x7b) then
        match expect x7d r with
        | Some r' => Some (JObj [], r')
        | None => '(m, r') ← parse_members fuel r; Some (JObj m, r')
        end
      else if decide (c = x5b) then
        match expect x5d r with
        | Some r' => Some (JArr [], r')
        | None => '(l, r') ← parse_elems fuel r; Some (JArr l, r')
        end
      else if decide (c = quote) then
        '(s, r') ← parse_string (length r) r; Some (JStr (of_bytes s), r')
      else if num_char c then
        let '(lit, r') := span num_char (c :: r) in
        if valid_number lit then Some (JNum lit, r') else None
      else match strip (to_bytes "true") (c :: r) with
      | Some r' => Some (JBool true, r')
      | None =>
          match strip (to_bytes "false") (c :: r) with
          | Some r' => Some (JBool false, r')
          | None => r' ← strip (to_bytes "null") (c :: r); Some (JNull, r')
          end
      end
  | _, _ => None
  end
with parse_elems (fuel : nat) (b : bytes) : option (list json * bytes) :=
  match fuel with
  | S fuel =>
      '(v, r) ← parse_value fuel b;
      match expect x2c r with
      | Some r' => '(l, r'') ← parse_elems fuel r'; Some (v :: l, r'')
      | None => r' ← expect x5d r; Some ([v], r')
      end
  | O => None
  end
with parse_members (fuel : nat) (b : bytes) : option (list (string * json) * bytes) :=
  match fuel with
  | S fuel =>
      '(k, r) ← parse_key b; '(v, r) ← parse_value fuel r;
      match expect x2c r with
      | Some r' => '(m, r'') ← parse_members fuel r'; Some ((k, v) :: m, r'')
      | None => r' ← expect x7d r; Some ([(k, v)], r')
      end
  | O => None
  end.

(** A document: one value, and only white space after it. *)
Definition json_parse (b : bytes) : option json :=
  '(j, r) ← parse_value (2 * length b + 2) b;
  if decide (skip_ws r = []) then Some j else None.

(** For examples: apostrophes stand for quotation marks. *)
Definition json_text (s : string) : bytes :=
  (fun c => if decide (c = x27) then quote else c) <$> to_bytes s.

Example json_parse_ex :
  json_parse (json_text " {'a' : [1, -2.5e3,'x\u00e9\n'], 'b':null} ")
  = Some (JObj [("a", JArr [JNum (to_bytes "1"); JNum (to_bytes "-2.5e3");
                            JStr (of_bytes [x78; xc3; xa9; x0a])]); ("b", JNull)]).
Proof. by vm_compute. Qed.
