(* ===== verification/JsonFacts.v ===== *)
(** * Printing then parsing JSON text gives the value back

    For every value whose strings are valid UTF-8 and whose numbers are JSON
    number literals; and the decimal text of an integer is such a literal. *)

From S2P Require Import Prelude GoStrings Encoding Json.

(** ** Valid UTF-8 *)

Inductive utf8 : bytes -> Prop :=
  | utf8_nil : utf8 []
  | utf8_ascii c r : is_ascii c = true -> utf8 r -> utf8 (c :: r)
  | utf8_multi s r :
      utf8_size s = Some (length s) -> utf8 r -> utf8 (s ++ r).

Lemma ascii_utf8 b : forallb is_ascii b = true -> utf8 b.
Proof.
  induction b as [|c b IH]; [constructor|]. cbn. rewrite andb_true_iff.
  intros [Hc Hb]. constructor; auto.
Qed.

Lemma utf8_size_app s r :
  utf8_size s = Some (length s) -> utf8_size (s ++ r) = Some (length s).
Proof.
  unfold utf8_size. destruct s as [|a [|c [|d [|e [|f s]]]]]; cbn [app length]; intros H;
    repeat case_match; simplify_eq/=; try done.
Qed.

Lemma utf8_size_head a s n : utf8_size (a :: s) = Some n -> is_ascii a = false.
Proof.
  unfold utf8_size, is_ascii, in_range. intros H. apply Z.ltb_ge.
  repeat case_match; simplify_eq; lia.
Qed.

Lemma utf8_size_bound s n : utf8_size s = Some n -> (2 <= n <= 4)%nat.
Proof. unfold utf8_size. intros. repeat case_match; simplify_eq; lia. Qed.

(** ** Strings *)

Lemma escape_fuel f b : (length b <= f)%nat -> escape f b = escape (length b) b.
Proof.
  revert b. induction (lt_wf f) as [f _ IH]. intros b Hf.
  destruct b as [|c r]; [by destruct f|].
  destruct f as [|f]; [cbn in Hf; lia|]. cbn [escape length] in *.
  assert (Hr : forall g, (length r <= g)%nat -> (g < S f)%nat -> escape g r = escape (length r) r)
    by (intros; by apply IH).
  rewrite (Hr f) by lia.
  destruct (is_ascii c); [done|].
  destruct (utf8_size (c :: r)) as [n|] eqn:E; [|done].
  pose proof (utf8_size_bound _ _ E). f_equal.
  assert (length (drop n (c :: r)) <= length r)%nat.
  { rewrite length_drop. cbn. lia. }
  rewrite (IH f) by lia. symmetry.
  destruct (decide (length r = f)) as [<-|]; [apply IH; lia|]. apply IH; lia.
Qed.

Lemma escape_ascii_cons c r :
  is_ascii c = true ->
  escape (length (c :: r)) (c :: r) = (escape_ascii c ++ escape (length r) r)%list.
Proof. intros Hc. cbn [escape length]. by rewrite Hc. Qed.

Lemma escape_multi_app s r :
  utf8_size s = Some (length s) ->
  escape (length (s ++ r)) (s ++ r) = (escape_multi s ++ escape (length r) r)%list.
Proof.
  intros Hs. pose proof (utf8_size_bound _ _ Hs).
  destruct s as [|a s]; [done|]. pose proof (utf8_size_app _ r Hs) as Hsr.
  cbn [app] in *. cbn [escape length].
  rewrite (utf8_size_head _ _ _ Hsr), Hsr.
  change (a :: s ++ r)%list with ((a :: s) ++ r)%list.
  rewrite take_app_length, drop_app_length. f_equal. apply escape_fuel.
  rewrite length_app. lia.
Qed.

Lemma parse_string_mono f g b x :
  parse_string f b = Some x -> (f <= g)%nat -> parse_string g b = Some x.
Proof.
  revert g b x. induction f as [|f IH]; intros g b x H Hg; [done|].
  destruct g as [|g]; [lia|]. destruct b as [|c r]; [done|].
  cbn [parse_string] in *.
  repeat (case_match; simplify_eq; try done);
    repeat match goal with
    | H : (mbind _ _ = Some _) |- _ => apply bind_Some in H as [[? ?] [? ?]] || apply bind_Some in H as [? [? ?]]
    | H : parse_string f _ = Some _ |- _ => apply (IH g) in H; [|lia]
    | H : _ = Some _ |- _ => rewrite H; clear H; cbn
    end; simplify_eq/=; try done.
Qed.

Lemma unescape_u_escape hi lo t :
  0 <= hi < 256 -> 0 <= lo < 256 ->
  unescape_u (hexdigit (hi / 16) :: hexdigit (hi mod 16)
              :: hexdigit (lo / 16) :: hexdigit (lo mod 16) :: t) = Some (hi * 256 + lo, t).
Proof.
  intros. cbn. rewrite !unhexdigit_hexdigit by (Z.to_euclidean_division_equations; lia).
  cbn. do 2 f_equal. Z.to_euclidean_division_equations; lia.
Qed.

(** An escape outside the surrogate range is read back as its code point. *)
Lemma parse_u_escape f hi lo t :
  0 <= hi < 216 -> 0 <= lo < 256 ->
  parse_string (S f) (u_escape hi lo ++ t) =
    ('(s, rest) ← parse_string f t; Some (utf8_encode (hi * 256 + lo) ++ s, rest)%list).
Proof.
  intros. unfold u_escape. cbn [parse_string app].
  rewrite decide_False by done. rewrite !decide_True by done.
  unfold unescape_rune.
  rewrite (unescape_u_escape hi lo t) by lia. cbn.
  unfold is_high, is_low.
  rewrite (proj2 (Z.leb_gt 55296 _)) by lia. cbn.
  rewrite (proj2 (Z.leb_gt 56320 _)) by lia. done.
Qed.

Lemma parse_escape_ascii f c t :
  is_ascii c = true ->
  parse_string (S f) (escape_ascii c ++ t) =
    '(s, rest) ← parse_string f t; Some (c :: s, rest).
Proof.
  intros Hc. unfold is_ascii in Hc. apply Z.ltb_lt in Hc. pose proof (bval_bounded c).
  unfold escape_ascii. case_decide as H1; [|case_decide as H2; [|case_decide as H3;
    [|case_decide as H4; [|case_decide as H5]]]]; subst; try done.
  - by destruct H1; subst.
  - rewrite parse_u_escape by lia. cbn -[Z.add].
    unfold utf8_encode. rewrite (proj2 (Z.ltb_lt _ _)) by lia.
    by rewrite Z.add_0_l, to_byte_bval.
  - cbn [parse_string app]. rewrite !decide_False by tauto.
    rewrite (proj2 (Z.ltb_ge _ _)) by (destruct (Z.ltb_spec (bval c) 32); tauto || lia).
    unfold is_ascii. by rewrite (proj2 (Z.ltb_lt _ _)) by lia.
Qed.

Lemma parse_escape_multi f s t :
  utf8_size s = Some (length s) ->
  parse_string (S f) (escape_multi s ++ t) =
    '(r, rest) ← parse_string f t; Some (s ++ r, rest)%list.
Proof.
  intros Hs. unfold escape_multi. case_decide as H1; [|case_decide as H2]; subst.
  - by rewrite parse_u_escape by lia.
  - by rewrite parse_u_escape by lia.
  - pose proof (utf8_size_app s t Hs) as Hst.
    destruct s as [|a s]; [done|]. pose proof (utf8_size_head _ _ _ Hs) as Ha.
    cbn [app parse_string] in *.
    rewrite !decide_False by (intros ->; done).
    assert ((bval a <? 32) = false) as ->.
    { unfold is_ascii in Ha. apply Z.ltb_ge in Ha. apply Z.ltb_ge. lia. }
    rewrite Ha, Hst. change (a :: s ++ t)%list with ((a :: s) ++ t)%list.
    by rewrite take_app_length, drop_app_length.
Qed.

Lemma length_u_escape hi lo : length (u_escape hi lo) = 6%nat.
Proof. done. Qed.

Lemma escape_longer s : utf8 s -> (length s <= length (escape (length s) s))%nat.
Proof.
  induction 1 as [|c r Hc Hr IH|s r Hs Hr IH]; [done| |].
  - rewrite escape_ascii_cons by done. rewrite length_app. cbn.
    unfold escape_ascii. repeat case_decide; cbn; lia.
  - rewrite escape_multi_app by done. rewrite !length_app.
    pose proof (utf8_size_bound _ _ Hs).
    unfold escape_multi. repeat case_decide; cbn; lia.
Qed.

(** A valid string is read back, up to its closing quote. *)
Lemma parse_string_escape s rest :
  utf8 s ->
  parse_string (S (length s)) (escape (length s) s ++ quote :: rest) = Some (s, rest).
Proof.
  induction 1 as [|c r Hc Hr IH|s r Hs Hr IH]; [done| |].
  - rewrite escape_ascii_cons by done. rewrite <- app_assoc.
    cbn [length]. rewrite parse_escape_ascii by done. by rewrite IH.
  - rewrite escape_multi_app by done. rewrite <- app_assoc.
    pose proof (utf8_size_bound _ _ Hs).
    rewrite parse_escape_multi by done.
    erewrite parse_string_mono; [|exact IH|rewrite length_app; lia]. done.
Qed.

Lemma parse_string_print s rest :
  utf8 (to_bytes s) ->
  exists b, (print_string s ++ rest = quote :: b)%list
    /\ parse_string (length b) b = Some (to_bytes s, rest).
Proof.
  intros Hs. exists (escape (length (to_bytes s)) (to_bytes s) ++ quote :: rest)%list. split.
  - unfold print_string. rewrite <- app_comm_cons. f_equal. by rewrite <- app_assoc.
  - eapply parse_string_mono; [by apply parse_string_escape|].
    rewrite length_app. pose proof (escape_longer _ Hs). cbn. lia.
Qed.

(** ** Values *)

Inductive wf_json : json -> Prop :=
  | wf_null : wf_json JNull
  | wf_bool b : wf_json (JBool b)
  | wf_num lit : valid_number lit = true -> forallb num_char lit = true -> wf_json (JNum lit)
  | wf_str s : utf8 (to_bytes s) -> wf_json (JStr s)
  | wf_arr l : Forall wf_json l -> wf_json (JArr l)
  | wf_obj m :
      Forall (fun kv => utf8 (to_bytes kv.1) /\ wf_json kv.2) m -> wf_json (JObj m).

(** A number must not run into what follows it. *)
Definition delimited (b : bytes) : Prop :=
  match b with c :: _ => num_char c = false | [] => True end.

Lemma span_all p l t :
  forallb p l = true -> match t with c :: _ => p c = false | [] => True end ->
  span p (l ++ t) = (l, t).
Proof.
  intros Hl Ht. induction l as [|c l IH]; cbn.
  - destruct t as [|c t]; [done|]. cbn. by rewrite Ht.
  - cbn in Hl. apply andb_true_iff in Hl as [Hc Hl]. by rewrite Hc, IH.
Qed.

Lemma num_char_dispatch c :
  num_char c = true ->
  is_ws c = false /\ c ≠ x7b /\ c ≠ x5b /\ c ≠ quote.
Proof. intros H. split_and!; [|intros ->; done..]. by destruct c. Qed.

(** Every printed value starts with a visible character. *)
Lemma print_head j : wf_json j -> exists c r, print j = c :: r /\ is_ws c = false.
Proof.
  intros [ |[]|lit Hv Hn|s Hs|l Hl|m Hm]; cbn; try (by do 2 eexists).
  destruct lit as [|c lit]; [done|]. cbn in Hn. apply andb_true_iff in Hn as [Hc _].
  exists c, lit. split; [done|]. by apply num_char_dispatch.
Qed.

Lemma skip_ws_visible c r : is_ws c = false -> skip_ws (c :: r) = c :: r.
Proof. intros H. cbn. by rewrite H. Qed.

Lemma skip_ws_print j r : wf_json j -> skip_ws (print j ++ r) = (print j ++ r)%list.
Proof. intros Hj. destruct (print_head j Hj) as (c & s & -> & Hc). by apply skip_ws_visible. Qed.

(** What the parser needs to know of one value: with enough fuel it is read
    back in front of any delimited text. *)
Definition reads_back (j : json) : Prop :=
  forall fuel rest, (2 * length (print j) <= fuel)%nat -> delimited rest ->
  parse_value fuel (print j ++ rest) = Some (j, rest).

Lemma reads_back_num lit :
  valid_number lit = true -> forallb num_char lit = true -> reads_back (JNum lit).
Proof.
  intros Hv Hn fuel rest Hf Hr. cbn [print] in *.
  destruct lit as [|c lit]; [done|].
  pose proof Hn as Hc. cbn in Hc. apply andb_true_iff in Hc as [Hc _].
  destruct (num_char_dispatch c Hc) as (Hw & H1 & H2 & H3).
  destruct fuel as [|fuel]; [cbn in Hf; lia|].
  cbn [parse_value]. rewrite <- app_comm_cons, skip_ws_visible by done.
  rewrite !decide_False by done. rewrite Hc.
  rewrite app_comm_cons, span_all by done. by rewrite Hv.
Qed.

Lemma reads_back_str s : utf8 (to_bytes s) -> reads_back (JStr s).
Proof.
  intros Hs fuel rest Hf Hr. cbn [print] in *.
  destruct (parse_string_print s rest Hs) as (b & Hb & Hp).
  assert (1 <= length (print_string s))%nat by (unfold print_string; cbn; lia).
  destruct fuel as [|fuel]; [lia|].
  rewrite Hb. cbn [parse_value]. rewrite skip_ws_visible by done.
  rewrite !decide_False by done. rewrite decide_True by done.
  rewrite Hp. cbn. by rewrite of_to_bytes.
Qed.

Lemma expect_cons c r : is_ws c = false -> expect c (c :: r) = Some r.
Proof. intros H. unfold expect. rewrite skip_ws_visible by done. by rewrite decide_True. Qed.

Lemma expect_other c d r : is_ws d = false -> d ≠ c -> expect c (d :: r) = None.
Proof. intros H Hn. unfold expect. rewrite skip_ws_visible by done. by rewrite decide_False. Qed.

Lemma reads_elems l fuel rest :
  l ≠ [] -> Forall reads_back l ->
  (2 * length (sep_concat (map print l)) + 1 <= fuel)%nat ->
  parse_elems fuel (sep_concat (map print l) ++ x5d :: rest) = Some (l, rest).
Proof.
  intros Hne Hl. revert fuel. induction Hl as [|j l Hj Hl IH]; [done|]. intros fuel Hf.
  destruct fuel as [|fuel]; [lia|].
  destruct l as [|j' l]; cbn [map sep_concat] in *.
  - cbn [parse_elems]. rewrite Hj by (done || lia). cbn [mbind option_bind].
    rewrite expect_other by done. by rewrite expect_cons.
  - rewrite length_app in Hf. cbn [length] in Hf.
    rewrite <- app_assoc, <- app_comm_cons. cbn [parse_elems].
    rewrite Hj by (done || lia). cbn [mbind option_bind].
    rewrite expect_cons by done. rewrite IH by (done || lia). done.
Qed.

Definition member_text (kv : string * json) : bytes :=
  (print_string kv.1 ++ x3a :: print kv.2)%list.

Lemma sep_concat_cons x y l : sep_concat (x :: y :: l) = (x ++ x2c :: sep_concat (y :: l))%list.
Proof. done. Qed.

Lemma parse_key_print k t :
  utf8 (to_bytes k) -> parse_key (print_string k ++ x3a :: t)%list = Some (k, t).
Proof.
  intros Hk. destruct (parse_string_print k (x3a :: t) Hk) as (b & Hb & Hp).
  unfold parse_key. rewrite Hb, expect_cons by done. cbn. rewrite Hp. cbn.
  by rewrite of_to_bytes.
Qed.

Lemma reads_members m fuel rest :
  m ≠ [] -> Forall (fun kv => utf8 (to_bytes kv.1) /\ reads_back kv.2) m ->
  (2 * length (sep_concat (map member_text m)) + 1 <= fuel)%nat ->
  parse_members fuel (sep_concat (map member_text m) ++ x7d :: rest) = Some (m, rest).
Proof.
  intros Hne Hm. revert fuel.
  induction Hm as [|[k j] m [Hk Hj] Hm IH]; [done|]. intros fuel Hf.
  destruct fuel as [|fuel]; [lia|]. cbn [fst snd] in Hk, Hj.
  assert (Hlen : length (member_text (k, j)) = (length (print_string k) + S (length (print j)))%nat)
    by (unfold member_text; by rewrite length_app).
  assert (Htext : forall t, (member_text (k, j) ++ t = print_string k ++ x3a :: print j ++ t)%list)
    by (intros t; unfold member_text; by rewrite <- app_assoc).
  destruct m as [|kj m]; cbn [map] in *.
  - cbn [sep_concat] in *. rewrite Htext. cbn [parse_members].
    rewrite parse_key_print by done. cbn [mbind option_bind].
    rewrite Hj by (done || lia). cbn [mbind option_bind].
    rewrite expect_other by done. by rewrite expect_cons.
  - rewrite sep_concat_cons in *. rewrite length_app in Hf. cbn [length] in Hf.
    rewrite <- app_assoc, <- app_comm_cons, Htext. cbn [parse_members].
    rewrite parse_key_print by done. cbn [mbind option_bind].
    rewrite Hj by (done || lia). cbn [mbind option_bind].
    rewrite expect_cons by done. rewrite IH by (done || lia). done.
Qed.

Lemma sep_concat_head l x : exists t, sep_concat (x :: l) = (x ++ t)%list.
Proof. destruct l; [exists []; by rewrite app_nil_r|by eexists]. Qed.

Lemma reads_back_arr l : Forall wf_json l -> Forall reads_back l -> reads_back (JArr l).
Proof.
  intros Hw Hl fuel rest Hf Hr. cbn [print] in *. rewrite <- app_comm_cons.
  destruct fuel as [|fuel]; [cbn in Hf; lia|].
  cbn [length] in Hf. rewrite length_app in Hf. cbn [length] in Hf.
  cbn [parse_value]. rewrite skip_ws_visible by done.
  rewrite decide_False by done. rewrite decide_True by done.
  destruct l as [|j l]; [done|]. rewrite <- app_assoc.
  assert (forall t, expect x5d (sep_concat (map print (j :: l)) ++ t)%list = None) as ->.
  { intros t. cbn [map]. destruct (sep_concat_head (map print l) (print j)) as [u ->].
    inversion Hw as [|?? Hj]; subst.
    destruct (print_head j Hj) as (c & s & Hc & Hws). rewrite Hc.
    rewrite <- !app_comm_cons. apply expect_other; [done|].
    clear -Hc Hj. intros ->. destruct Hj as [ |[]|lit Hv Hn|?|?|?]; try done.
    cbn in Hc. by subst. }
  cbn [app]. rewrite reads_elems by (done || lia). done.
Qed.

Lemma reads_back_obj m :
  Forall (fun kv => utf8 (to_bytes kv.1) /\ wf_json kv.2) m ->
  Forall (fun kv => reads_back kv.2) m -> reads_back (JObj m).
Proof.
  intros Hw Hm fuel rest Hf Hr. cbn [print] in *. fold member_text in *.
  change (fun kv => print_string kv.1 ++ x3a :: print kv.2)%list with member_text in *.
  rewrite <- app_comm_cons.
  destruct fuel as [|fuel]; [cbn in Hf; lia|].
  cbn [length] in Hf. rewrite length_app in Hf. cbn [length] in Hf.
  cbn [parse_value]. rewrite skip_ws_visible by done. rewrite decide_True by done.
  destruct m as [|[k j] m]; [done|]. rewrite <- app_assoc.
  assert (forall t, expect x7d (sep_concat (map member_text ((k, j) :: m)) ++ t)%list = None) as ->.
  { intros t. cbn [map].
    destruct (sep_concat_head (map member_text m) (member_text (k, j))) as [u ->].
    by apply expect_other. }
  cbn [app]. rewrite reads_members; [done|done| |lia].
  apply Forall_forall. intros kv Hkv. rewrite Forall_forall in Hw, Hm.
  split; [by apply Hw|by apply Hm].
Qed.

Lemma wf_reads_back j : wf_json j -> reads_back j.
Proof.
  induction j as [ |b|n|s|l IH|m IH] using json_ind; intros Hj; inversion Hj; subst.
  - intros [|f] rest Hf Hr; [cbn in Hf; lia|done].
  - intros [|f] rest Hf Hr; [destruct b; cbn in Hf; lia|]. by destruct b.
  - by apply reads_back_num.
  - by apply reads_back_str.
  - apply reads_back_arr; [done|]. rewrite Forall_forall in *. auto.
  - apply reads_back_obj; [done|]. rewrite Forall_forall in *. intros kv Hkv. by apply IH, H0.
Qed.

(** Parsing inverts printing. *)
Lemma json_parse_print j : wf_json j -> json_parse (print j) = Some j.
Proof.
  intros Hj. unfold json_parse. pose proof (wf_reads_back j Hj) as H.
  specialize (H (2 * length (print j) + 2)%nat []). rewrite app_nil_r in H.
  rewrite H by (done || lia). done.
Qed.

(** ** Integer literals *)

Lemma digit_is_digit d : 0 <= d < 10 -> is_digit (digit d) = true.
Proof.
  intros. unfold is_digit, in_range, digit. rewrite bval_to_byte, Z.mod_small by lia.
  apply andb_true_iff. rewrite !Z.leb_le. lia.
Qed.

Lemma digit_zero d : 0 <= d < 10 -> digit d = x30 -> d = 0.
Proof.
  intros Hd H. apply (f_equal bval) in H. unfold digit in H.
  rewrite bval_to_byte, Z.mod_small in H by lia. change (bval x30) with 48 in H. lia.
Qed.

(** Digits come out with no leading zero. *)
Lemma dec_digits_shape fuel n acc :
  0 <= n < 2 ^ Z.of_nat fuel -> (0 < fuel)%nat ->
  exists d ds, dec_digits fuel n acc = (d :: ds ++ acc)%list
    /\ forallb is_digit (d :: ds) = true /\ (1 <= n -> d ≠ x30) /\ (n < 10 -> ds = []).
Proof.
  revert n acc. induction fuel as [|fuel IH]; intros n acc Hn Hf; [lia|].
  cbn [dec_digits]. destruct (Z.ltb_spec n 10).
  - exists (digit n), []. split_and!; [done| |intros ? E%digit_zero; lia|done].
    cbn. by rewrite digit_is_digit by lia.
  - rewrite Nat2Z.inj_succ, Z.pow_succ_r in Hn by lia.
    assert (0 <= n / 10 < 2 ^ Z.of_nat fuel) as Hq by
      (split; [apply Z.div_pos; lia|apply Z.div_lt_upper_bound; lia]).
    assert (1 <= n / 10) by (apply Z.div_le_lower_bound; lia).
    destruct fuel as [|fuel]; [cbn in Hq; lia|].
    destruct (IH (n / 10) (digit (n mod 10) :: acc) Hq ltac:(lia)) as (d & ds & -> & Hds & Hd & _).
    exists d, (ds ++ [digit (n mod 10)])%list. split_and!; [| |tauto|lia].
    + by rewrite <- app_assoc.
    + cbn in *. rewrite forallb_app. apply andb_true_iff in Hds as [-> ->]. cbn.
      rewrite digit_is_digit by (apply Z.mod_pos_bound; lia). done.
Qed.

Lemma digits_valid d ds :
  forallb is_digit (d :: ds) = true -> (d = x30 -> ds = []) -> d ≠ x2d ->
  valid_number (d :: ds) = true /\ valid_number (x2d :: d :: ds) = true.
Proof.
  intros Hds Hz Hd. unfold valid_number.
  rewrite decide_False by done. rewrite decide_True by done.
  pose proof (span_all is_digit (d :: ds) [] Hds I) as Hsp. rewrite app_nil_r in Hsp.
  rewrite Hsp. cbn. split; rewrite andb_true_r;
    (destruct (decide (d = x30)) as [->|Hn];
     [by rewrite Hz|by rewrite (bool_decide_false (d = x30))]).
Qed.

Lemma is_digit_num_char c : is_digit c = true -> num_char c = true.
Proof. unfold num_char. by intros ->. Qed.

Lemma format_dec_valid n :
  valid_number (format_dec n) = true /\ forallb num_char (format_dec n) = true.
Proof.
  unfold format_dec.
  destruct (dec_digits_shape (S (Z.to_nat (Z.log2 (Z.abs n)))) (Z.abs n) [])
    as (d & ds & -> & Hds & Hnz & Hz); [|lia|].
  { rewrite Nat2Z.inj_succ, Z2Nat.id by apply Z.log2_nonneg.
    destruct (Z.eq_dec (Z.abs n) 0) as [->|]; [cbn; lia|].
    pose proof (Z.log2_spec (Z.abs n)). lia. }
  rewrite app_nil_r.
  assert (d ≠ x2d) by (intros ->; done).
  destruct (digits_valid d ds Hds) as [H1 H2]; [|done|].
  { intros ->. apply Hz. destruct (Z.le_gt_cases 1 (Z.abs n)); [by destruct Hnz|lia]. }
  assert (forallb num_char (d :: ds) = true) as H3.
  { rewrite forallb_forall in *. intros c Hc. by apply is_digit_num_char, Hds. }
  destruct (n <? 0); split; (done || by cbn in *).
Qed.

Lemma wf_int n : wf_json (JNum (format_dec n)).
Proof. by constructor; apply format_dec_valid. Qed.

Lemma hex_ascii b : forallb is_ascii (hex_encode b) = true.
Proof.
  assert (forall n, 0 <= n < 16 -> is_ascii (hexdigit n) = true) as Hd.
  { intros n Hn. unfold is_ascii, hexdigit. rewrite bval_to_byte.
    destruct (Z.ltb_spec n 10); rewrite Z.mod_small by lia; apply Z.ltb_lt; lia. }
  induction b as [|x b IH]; [done|]. cbn [hex_encode forallb].
  pose proof (bval_bounded x).
  rewrite !Hd by (Z.to_euclidean_division_equations; lia). done.
Qed.

Lemma b64_ascii b : forallb is_ascii (b64_encode b) = true.
Proof.
  assert (forall n, 0 <= n < 64 -> is_ascii (b64digit n) = true) as Hd.
  { intros n Hn. assert (n ∈ seqZ 0 64) as Hin by (apply elem_of_seqZ; lia). cbn in Hin.
    repeat (apply elem_of_cons in Hin as [->|Hin]; [by vm_compute|]).
    by apply not_elem_of_nil in Hin. }
  induction b as [|x|x y|x y z b IH] using list_ind3; cbn [b64_encode forallb];
    rewrite ?Hd by b64_bounds; done.
Qed.

Lemma utf8_of_bytes b : forallb is_ascii b = true -> utf8 (to_bytes (of_bytes b)).
Proof. rewrite to_of_bytes. apply ascii_utf8. Qed.
