(* ===== verification/Codec.v ===== *)
(** * Marshalling structs

    Decoding a JSON tree into a Go struct as [json.Unmarshal] does: fields are
    found by name (exactly, else ignoring case), unknown names are skipped, a
    value of the wrong type is remembered as an error while the other fields are
    still decoded, and [null] leaves a field alone (or makes a slice nil). *)

From S2P Require Import Prelude GoStrings Encoding Json JsonFacts.

(** A slice: [None] is nil, [Some []] is empty but not nil. *)
Abbreviation slice A := (option (list A)).
Definition elems {A} (s : slice A) : list A := default [] s.

(** [strconv] float conversion, known by its contract: the text of a finite
    [float64] is a JSON number, and reading it back gives the same float; a decimal integer is read. *)
Definition float64 := spec_float.
Definition is_float64 (f : float64) : bool := valid_binary 53 1024 f.
Definition is_finite (f : float64) : bool :=
  match f with S754_zero _ | S754_finite _ _ _ => true | _ => false end.

Class FloatText := {
  FormatFloat : float64 -> bytes;
  ParseFloat : bytes -> option float64;
  FormatFloat_number : forall f, is_finite f = true ->
    valid_number (FormatFloat f) = true /\ forallb num_char (FormatFloat f) = true;
  ParseFloat_Format : forall f, is_finite f = true -> is_float64 f = true ->
    ParseFloat (FormatFloat f) = Some f;
  ParseFloat_int : forall n, is_i64 n -> is_Some (ParseFloat (format_dec n));
}.

(** [time.Time], known by the contract of its JSON text (RFC 3339). *)
Class GoTime := {
  time : Type;
  zero_time : time;
  time_text : time -> string;
  parse_time : string -> option time;
  time_text_ascii : forall t, forallb is_ascii (to_bytes (time_text t)) = true;
  parse_time_text : forall t, parse_time (time_text t) = Some t;
}.

(** The text of the errors [json.Unmarshal] and [json.Marshal] return. *)
Class JsonMessages := {
  unmarshal_message : bytes -> string;
  marshal_message : string;
}.

(** ** Decoders *)

Inductive dstatus := DOk | DSaved | DAbort.

(** The status of decoding one part after another that went on. *)
Definition then_status (a b : dstatus) : dstatus :=
  match a, b with
  | _, DAbort => DAbort
  | DOk, _ => b
  | _, _ => DSaved
  end.

Definition decoder (A : Type) := A -> json -> A * dstatus.

Definition dec_string : decoder string := fun old j =>
  match j with
  | JStr s => (s, DOk) | JNull => (old, DOk) | _ => (old, DSaved)
  end.

Definition dec_int64 : decoder Z := fun old j =>
  match j with
  | JNum lit => match parse_int64 lit with Some n => (n, DOk) | None => (old, DSaved) end
  | JNull => (old, DOk) | _ => (old, DSaved)
  end.

Definition dec_uint64 : decoder Z := fun old j =>
  match j with
  | JNum lit => match parse_uint64 lit with Some n => (n, DOk) | None => (old, DSaved) end
  | JNull => (old, DOk) | _ => (old, DSaved)
  end.

Definition dec_uint8 (j : json) : byte * dstatus :=
  match j with
  | JNum lit =>
      match parse_uint64 lit with
      | Some n => if n <? 256 then (to_byte n, DOk) else (x00, DSaved)
      | None => (x00, DSaved)
      end
  | JNull => (x00, DOk) | _ => (x00, DSaved)
  end.

Definition dec_list {A} (d : json -> A * dstatus) (l : list json) : list A * dstatus :=
  foldr (fun j '(xs, st) => let '(x, st') := d j in (x :: xs, then_status st' st)) ([], DOk) l.

(** A [[]byte] is base64 text, or an array of numbers. *)
Definition dec_bytes : decoder (slice byte) := fun old j =>
  match j with
  | JStr s => match b64_decode (to_bytes s) with Some b => (Some b, DOk) | None => (old, DSaved) end
  | JNull => (None, DOk)
  | JArr l => let '(b, st) := dec_list dec_uint8 l in (Some b, st)
  | _ => (old, DSaved)
  end.

Definition dec_strings : decoder (slice string) := fun old j =>
  match j with
  | JArr l => let '(b, st) := dec_list (dec_string "") l in (Some b, st)
  | JNull => (None, DOk)
  | _ => (old, DSaved)
  end.

Definition dec_float `{FloatText} : decoder float64 := fun old j =>
  match j with
  | JNum lit => match ParseFloat lit with Some f => (f, DOk) | None => (old, DSaved) end
  | JNull => (old, DOk) | _ => (old, DSaved)
  end.

(** [time.Time] decodes itself: its failure ends the decoding. *)
Definition dec_time `{GoTime} : decoder time := fun old j =>
  match j with
  | JNull => (old, DOk)
  | JStr s => match parse_time s with Some t => (t, DOk) | None => (zero_time, DAbort) end
  | _ => (old, DAbort)
  end.

(** Into an [any]: every number must fit a [float64]. *)
Fixpoint numbers_fit `{FloatText} (j : json) : bool :=
  match j with
  | JNum lit => bool_decide (is_Some (ParseFloat lit))
  | JArr l => forallb numbers_fit l
  | JObj m => forallb (fun kv => numbers_fit kv.2) m
  | _ => true
  end.

Definition dec_any `{FloatText} : decoder json := fun _ j =>
  (j, if numbers_fit j then DOk else DSaved).

(** ** Structs *)

(** Field names are compared ignoring ASCII case; the Kelvin sign and the long
    s fold to K and S. *)
Fixpoint fold_name (fuel : nat) (b : bytes) : bytes :=
  match fuel, b with
  | S fuel, xe2 :: x84 :: xaa :: r => x4b :: fold_name fuel r
  | S fuel, xc5 :: xbf :: r => x53 :: fold_name fuel r
  | S fuel, c :: r =>
      (if in_range 97 122 c then to_byte (bval c - 32) else c) :: fold_name fuel r
  | _, _ => []
  end.

Definition folded (s : string) : bytes :=
  let b := to_bytes s in fold_name (length b) b.

Record field (R : Type) := Field { f_name : string; f_dec : decoder R }.
Arguments Field {R} _ _.
Arguments f_name {R} _.
Arguments f_dec {R} _.

(** A field read with [get], written with [set]. *)
Definition fld {R A} (name : string) (get : R -> A) (set : A -> R -> R) (d : decoder A) : field R :=
  Field name (fun r j => let '(a, st) := d (get r) j in (set a r, st)).

Fixpoint find_by {R} (p : string -> bool) (fs : list (field R)) : option (field R) :=
  match fs with
  | [] => None
  | f :: fs => if p (f_name f) then Some f else find_by p fs
  end.

Definition find_field {R} (fs : list (field R)) (k : string) : option (field R) :=
  match find_by (fun n => bool_decide (n = k)) fs with
  | Some f => Some f
  | None => find_by (fun n => bool_decide (folded n = folded k)) fs
  end.

Fixpoint decode_members {R} (fs : list (field R)) (m : list (string * json)) (r : R) : R * dstatus :=
  match m with
  | [] => (r, DOk)
  | (k, v) :: m =>
      match find_field fs k with
      | None => decode_members fs m r
      | Some f =>
          match f_dec f r v with
          | (r', DAbort) => (r', DAbort)
          | (r', st) => let '(r'', st') := decode_members fs m r' in (r'', then_status st st')
          end
      end
  end.

Definition dec_struct {R} (fs : list (field R)) : decoder R := fun r j =>
  match j with
  | JObj m => decode_members fs m r
  | JNull => (r, DOk)
  | _ => (r, DSaved)
  end.

(** [json.Unmarshal(data, &v)]: malformed text leaves [v] alone. *)
Definition Unmarshal `{JsonMessages} {A} (d : decoder A) (data : bytes) (v : A) : A * error :=
  match json_parse data with
  | None => (v, Some (unmarshal_message data))
  | Some j => let '(v', st) := d v j in
              (v', match st with DOk => None | _ => Some (unmarshal_message data) end)
  end.

(** [json.Marshal(v)]; the tree of a value is missing when a float is not
    finite. *)
Definition Marshal `{JsonMessages} (j : option json) : bytes + string :=
  match j with Some j => inl (print j) | None => inr marshal_message end.

(** ** Encoders *)

Definition enc_int (n : Z) : json := JNum (format_dec n).
Definition enc_bytes (s : slice byte) : json :=
  match s with None => JNull | Some b => JStr (of_bytes (b64_encode b)) end.
Definition enc_strings (s : slice string) : json :=
  match s with None => JNull | Some l => JArr (JStr <$> l) end.
Definition enc_float `{FloatText} (f : float64) : option json :=
  if is_finite f then Some (JNum (FormatFloat f)) else None.
Definition enc_time `{GoTime} (t : time) : json := JStr (time_text t).

(** ** Round trips, value by value *)

Lemma dec_enc_int64 old n : is_i64 n -> dec_int64 old (enc_int n) = (n, DOk).
Proof. intros. cbn. by rewrite parse_int64_format. Qed.

Lemma dec_enc_uint64 old n : is_u64 n -> dec_uint64 old (enc_int n) = (n, DOk).
Proof. intros. cbn. by rewrite parse_uint64_format. Qed.

Lemma dec_enc_bytes old s : dec_bytes old (enc_bytes s) = (s, DOk).
Proof. destruct s as [b|]; [|done]. cbn. by rewrite to_of_bytes, b64_decode_encode. Qed.

Lemma dec_enc_strings old s : dec_strings old (enc_strings s) = (s, DOk).
Proof.
  destruct s as [l|]; [|done]. unfold dec_strings, enc_strings.
  assert (dec_list (dec_string "") (JStr <$> l) = (l, DOk)) as H; [|by rewrite H].
  unfold dec_list in *. induction l as [|x l IH]; [done|].
  rewrite fmap_cons. cbn [foldr]. by rewrite IH.
Qed.

Lemma dec_enc_time `{GoTime} old t : dec_time old (enc_time t) = (t, DOk).
Proof. cbn. by rewrite parse_time_text. Qed.

Lemma dec_enc_float `{FloatText} old f j :
  is_float64 f = true -> enc_float f = Some j -> dec_float old j = (f, DOk).
Proof.
  unfold enc_float. destruct (is_finite f) eqn:E; intros Hf [= <-].
  cbn. by rewrite ParseFloat_Format.
Qed.

Lemma wf_enc_bytes s : wf_json (enc_bytes s).
Proof. destruct s as [b|]; constructor. apply utf8_of_bytes, b64_ascii. Qed.

Lemma wf_enc_strings s : Forall (fun x => utf8 (to_bytes x)) (elems s) -> wf_json (enc_strings s).
Proof.
  destruct s as [l|]; constructor. cbn in *. rewrite Forall_fmap.
  eapply Forall_impl; [done|]. by constructor.
Qed.

Lemma wf_enc_time `{GoTime} t : wf_json (enc_time t).
Proof. constructor. apply ascii_utf8, time_text_ascii. Qed.

Lemma wf_enc_float `{FloatText} f j : enc_float f = Some j -> wf_json j.
Proof.
  unfold enc_float. destruct (is_finite f) eqn:E; intros [= <-].
  constructor; by apply FormatFloat_number.
Qed.

Create HintDb json.
#[export] Hint Resolve wf_int wf_enc_bytes wf_enc_strings wf_enc_time wf_enc_float : json.
#[export] Hint Constructors wf_json utf8 : json.

(** Unmarshalling printed text is decoding the tree. *)
Lemma Unmarshal_print `{JsonMessages} {A} (d : decoder A) j v v' :
  wf_json j -> d v j = (v', DOk) -> Unmarshal d (print j) v = (v', None).
Proof. intros Hj Hd. unfold Unmarshal. by rewrite json_parse_print, Hd. Qed.

(** ** Decoding the members of an object one by one *)

Lemma then_status_ok st : then_status DOk st = st.
Proof. by destruct st. Qed.

Lemma decode_members_cons {R} (fs : list (field R)) k v m r f r' :
  find_field fs k = Some f -> f_dec f r v = (r', DOk) ->
  decode_members fs ((k, v) :: m) r = decode_members fs m r'.
Proof.
  intros Hf Hd. cbn [decode_members]. rewrite Hf, Hd.
  destruct (decode_members fs m r') as [r'' st]. by rewrite then_status_ok.
Qed.

Lemma decode_members_skip {R} (fs : list (field R)) k v m r :
  find_field fs k = None -> decode_members fs ((k, v) :: m) r = decode_members fs m r.
Proof. intros Hf. cbn [decode_members]. by rewrite Hf. Qed.

Lemma fld_dec {R A} name (get : R -> A) set d r j a :
  d (get r) j = (a, DOk) -> f_dec (fld name get set d) r j = (set a r, DOk).
Proof. intros H. cbn. by rewrite H. Qed.

(** Runs [decode_members] on an object whose members decode by the hints. *)
Create HintDb codec.
#[export] Hint Resolve dec_enc_int64 dec_enc_uint64 dec_enc_bytes dec_enc_strings
  dec_enc_time dec_enc_float : codec.
Lemma dec_string_str old s : dec_string old (JStr s) = (s, DOk).
Proof. done. Qed.
#[export] Hint Resolve dec_string_str : codec.

Ltac decode_all :=
  repeat (erewrite decode_members_cons; [|reflexivity|apply fld_dec; by eauto with codec]);
  cbn [decode_members].

(** ** Decoded values keep the type of the variable they are decoded into *)

Definition typed_decoder {A} (P : A -> Prop) (d : decoder A) : Prop := forall old j, P old -> P (fst (d old j)).

Lemma dec_int64_typed : typed_decoder is_i64 dec_int64.
Proof.
  intros old j Hold. destruct j; cbn; try done. unfold parse_int64.
  destruct (parse_signed _) as [n|]; cbn; [|done]. by case_bool_decide.
Qed.

Lemma dec_uint64_typed : typed_decoder is_u64 dec_uint64.
Proof.
  intros old j Hold. destruct j as [| |lit| | |]; cbn; try done. unfold parse_uint64.
  destruct lit as [|b lit]; [done|]. destruct (parse_digits 0 (b :: lit)) as [n|]; cbn; [|done]. by case_bool_decide.
Qed.

Lemma find_by_in {R} (p : string -> bool) (fs : list (field R)) f : find_by p fs = Some f -> f ∈ fs.
Proof.
  induction fs as [|g fs IH]; cbn; [done|]. destruct (p (f_name g)); [intros [= ->]; by left|right; auto].
Qed.

Lemma dec_struct_typed {R} (P : R -> Prop) (fs : list (field R)) :
  Forall (fun f => typed_decoder P (f_dec f)) fs -> typed_decoder P (dec_struct fs).
Proof.
  intros Hfs old j Hold. destruct j as [| | | | |m]; cbn; try done.
  revert old Hold. induction m as [|[k v] m IH]; intros r Hr; cbn; [done|].
  destruct (find_field fs k) as [f|] eqn:Ef; [|by apply IH].
  assert (f ∈ fs) as Hin.
  { unfold find_field in Ef. destruct (find_by _ fs) as [g|] eqn:Eg; simplify_eq; by eapply find_by_in. }
  pose proof (proj1 (Forall_forall _ _) Hfs f Hin r v Hr) as Hd.
  destruct (f_dec f r v) as [r' []]; cbn in *; try done;
    specialize (IH r' Hd); by destruct (decode_members fs m r').
Qed.

Lemma fld_typed {R A} (P : R -> Prop) (Q : A -> Prop) name get set (d : decoder A) :
  typed_decoder Q d -> (forall r, P r -> Q (get r)) -> (forall a r, P r -> Q a -> P (set a r)) ->
  typed_decoder P (f_dec (fld name get set d)).
Proof.
  intros Hd Hget Hset r j Hr. cbn. pose proof (Hd (get r) j (Hget r Hr)) as Ha.
  destruct (d (get r) j). by apply Hset.
Qed.

Lemma Unmarshal_typed `{JsonMessages} {A} (P : A -> Prop) (d : decoder A) data v :
  typed_decoder P d -> P v -> P (fst (Unmarshal d data v)).
Proof.
  intros Hd Hv. unfold Unmarshal. destruct (json_parse data) as [j|]; [|done].
  specialize (Hd v j Hv). by destruct (d v j).
Qed.

(** ** Concrete standard-library parameters

    Instances that meet the contracts of [FloatText] and [GoTime]; examples and
    witnesses run on them. A finite float is written as its mantissa and binary
    exponent, a time is a number of nanoseconds. *)

Definition sample_format (f : float64) : bytes :=
  match f with
  | S754_zero false => [x30]
  | S754_zero true => [x2d; x30]
  | S754_finite false m e => format_dec (Zpos m) ++ x65 :: format_dec e
  | S754_finite true m e => x2d :: format_dec (Zpos m) ++ x65 :: format_dec e
  | _ => []
  end%list.

Definition sample_parse_abs (neg : bool) (b : bytes) : option float64 :=
  let '(ds, t) := span is_digit b in
  match t with
  | [] => n ← parse_digits 0 ds; 
      Some (if n =? 0 then S754_zero neg else S754_finite neg (Z.to_pos n) 0)
  | _ :: r =>
      n ← parse_digits 0 ds; e ← parse_signed r;
      Some (S754_finite neg (Z.to_pos n) e)
  end.

Definition sample_parse (b : bytes) : option float64 :=
  match b with
  | c :: r => if decide (c = x2d) then sample_parse_abs true r else sample_parse_abs false b
  | [] => None
  end.

Lemma format_dec_pos m :
  exists d ds, format_dec (Zpos m) = d :: ds /\ forallb is_digit (d :: ds) = true
    /\ d ≠ x30 /\ d ≠ x2d.
Proof.
  change (format_dec (Zpos m))
    with (dec_digits (S (Z.to_nat (Z.log2 (Zpos m)))) (Zpos m) []).
  destruct (dec_digits_shape (S (Z.to_nat (Z.log2 (Zpos m)))) (Zpos m) [])
    as (d & ds & -> & Hds & Hnz & _); [|lia|].
  { rewrite Nat2Z.inj_succ, Z2Nat.id by apply Z.log2_nonneg.
    pose proof (Z.log2_spec (Zpos m)). lia. }
  rewrite app_nil_r. exists d, ds. split_and!; [done|done|apply Hnz; lia|].
  intros ->. done.
Qed.

Lemma format_dec_exp e :
  valid_exp (x65 :: format_dec e) = true /\ forallb num_char (x65 :: format_dec e) = true.
Proof.
  split; [|cbn; apply format_dec_valid].
  unfold format_dec.
  destruct (dec_digits_shape (S (Z.to_nat (Z.log2 (Z.abs e)))) (Z.abs e) [])
    as (d & ds & -> & Hds & _); [|lia|].
  { rewrite Nat2Z.inj_succ, Z2Nat.id by apply Z.log2_nonneg.
    destruct (Z.eq_dec (Z.abs e) 0) as [->|]; [cbn; lia|].
    pose proof (Z.log2_spec (Z.abs e)). lia. }
  rewrite app_nil_r.
  destruct (e <? 0); cbn -[is_digit].
  - rewrite decide_True by by right. done.
  - rewrite decide_False; [done|]. intros [-> | ->]; done.
Qed.

Lemma sample_parse_format neg m e :
  sample_parse_abs neg (format_dec (Zpos m) ++ x65 :: format_dec e) = Some (S754_finite neg m e).
Proof.
  unfold sample_parse_abs. destruct (format_dec_pos m) as (d & ds & Hf & Hd & _ & _).
  rewrite Hf, span_all by done. rewrite <- Hf.
  assert (parse_digits 0 (format_dec (Zpos m)) = Some (Zpos m)) as -> by by apply parse_format_nonneg.
  cbn [mbind option_bind]. rewrite parse_signed_format. done.
Qed.

Lemma sample_number (neg : bool) (m : positive) (e : Z) :
  let text := (format_dec (Zpos m) ++ x65 :: format_dec e)%list in
  let full := if neg then x2d :: text else text in
  valid_number full = true /\ forallb num_char full = true.
Proof.
  intros text full. subst text full. destruct (format_dec_pos m) as (d & ds & Hf & Hd & Hz & Hm).
  destruct (format_dec_exp e) as [He Hn]. rewrite Hf.
  assert (forallb num_char ((d :: ds) ++ x65 :: format_dec e) = true).
  { rewrite forallb_app, Hn, andb_true_r. rewrite forallb_forall in *.
    intros c Hc. by apply is_digit_num_char, Hd. }
  split; [|by destruct neg].
  assert (span is_digit ((d :: ds) ++ x65 :: format_dec e) = (d :: ds, x65 :: format_dec e))
    as Hs by by apply span_all.
  cbn [app] in *.
  destruct neg; unfold valid_number;
    [rewrite decide_True by done|rewrite decide_False by done]; rewrite Hs;
    rewrite (bool_decide_false (d = x30)) by done; cbn [negb orb andb]; unfold valid_frac;
    (rewrite decide_False by done); exact He.
Qed.

Lemma sample_parse_int n : is_Some (sample_parse (format_dec n)).
Proof.
  unfold format_dec.
  destruct (dec_digits_shape (S (Z.to_nat (Z.log2 (Z.abs n)))) (Z.abs n) [])
    as (d & ds & E & Hds & _); [|lia|].
  { rewrite Nat2Z.inj_succ, Z2Nat.id by apply Z.log2_nonneg.
    destruct (Z.eq_dec (Z.abs n) 0) as [->|]; [cbn; lia|].
    pose proof (Z.log2_spec (Z.abs n)). lia. }
  pose proof (parse_format_nonneg (Z.abs n) ltac:(lia)) as Hp.
  rewrite E in *. rewrite app_nil_r in *.
  assert (span is_digit (d :: ds) = (d :: ds, [])) as Hs.
  { pose proof (span_all is_digit (d :: ds) [] Hds I) as H. by rewrite app_nil_r in H. }
  assert (forall neg, is_Some (sample_parse_abs neg (d :: ds))) as Ha.
  { intros neg. unfold sample_parse_abs. rewrite Hs, Hp. by eexists. }
  destruct (n <? 0); unfold sample_parse.
  - by rewrite decide_True.
  - rewrite decide_False; [done|]. intros ->. done.
Qed.

Definition sample_float_text : FloatText.
Proof.
  refine {| FormatFloat := sample_format; ParseFloat := sample_parse |}.
  - intros [[]|[]| |[] m e]; try done; intros _;
      [apply (sample_number true)|apply (sample_number false)].
  - intros [[]|[]| |[] m e]; try done; intros _ _; cbn [sample_format].
    + unfold sample_parse. rewrite decide_True by done. apply sample_parse_format.
    + unfold sample_parse. pose proof (sample_parse_format false m e) as H.
      destruct (format_dec_pos m) as (d & ds & Hf & _ & _ & Hm). rewrite Hf in *.
      cbn [app] in *. by rewrite decide_False.
  - intros n _. apply sample_parse_int.
Defined.

Definition sample_time : GoTime.
Proof.
  refine {| time := Z; zero_time := 0; time_text := big_String;
            parse_time := fun s => parse_signed (to_bytes s) |}.
  - intros t. unfold big_String. rewrite to_of_bytes.
    pose proof (proj2 (format_dec_valid t)) as H. rewrite forallb_forall in *.
    intros c Hc. specialize (H c Hc). by destruct c.
  - intros t. apply big_SetString_String.
Defined.

Definition sample_messages : JsonMessages := {|
  unmarshal_message _ := "invalid character";
  marshal_message := "unsupported value";
|}.
