(* ===== verification/Types.v ===== *)
(** * The protocol's data: cd2n-lib/types/types.go

    Status and option strings, the request and response structs with their JSON
    form, and the round trips of the wire format. *)

From S2P Require Import Prelude GoStrings Encoding Json JsonFacts Codec.

(** ** Constants *)

Definition RECORD_FRAGMENTS := "-fragments".
Definition RECORD_REQUESTS := "-requests".

Definition OPTION_QUERY := "query".
Definition OPTION_DOWNLOAD := "download".
Definition OPTION_DAIL := "dail".

Definition STATUS_HIT := "hit".
Definition STATUS_MISS := "miss".
Definition STATUS_LOADING := "loading".
Definition STATUS_FROZEN := "frozen".
Definition STATUS_ERROR := "error".
Definition STATUS_OK := "ok".

Definition CACHE_BUSY := "busy".
Definition CACHE_IDLE := "idle".

Definition FragmentSize : Z := 8 * 1024 * 1024.

(** ** Structs *)

Record CacheInfo := mkCacheInfo {
  LoadRatio : float64;
  info_Status : string;
  Price : string;
  Account : slice byte;
  PeerId : string;
  CreditLimit : Z;
  CreditPoints : Z;
}.

Record CacheRequest := mkCacheRequest {
  Option : string;
  WantUrl : string;
  WantFile : string;
  AccountId : slice byte;
  Data : slice byte;
  Sign : slice byte;
}.

Record CacheResponse := mkCacheResponse {
  resp_Status : string;
  CachedFiles : slice string;
  Info : CacheInfo;
}.

Definition CacheInfo_zero : CacheInfo := mkCacheInfo (S754_zero false) "" "" None "" 0 0.
Definition CacheRequest_zero : CacheRequest := mkCacheRequest "" "" "" None None None.
Definition CacheResponse_zero : CacheResponse := mkCacheResponse "" None CacheInfo_zero.

(** [Response.Data] is an [any]: the program stores a message or a response. *)
Inductive any := AnyString (s : string) | AnyResponse (r : CacheResponse).

Record Response := mkResponse {
  r_Status : string;
  r_Data : any;
}.

(** ** JSON *)

Section codecs.
Context `{FloatText}.

Definition enc_CacheInfo (i : CacheInfo) : option json :=
  ratio ← enc_float (LoadRatio i);
  Some (JObj [("load_ratio", ratio); ("status", JStr (info_Status i));
              ("price", JStr (Price i)); ("account", enc_bytes (Account i));
              ("peer_id", JStr (PeerId i)); ("credit_limit", enc_int (CreditLimit i));
              ("credit_points", enc_int (CreditPoints i))]).

Definition dec_CacheInfo : decoder CacheInfo := dec_struct [
  fld "load_ratio" LoadRatio (fun x i => mkCacheInfo x (info_Status i) (Price i) (Account i) (PeerId i) (CreditLimit i) (CreditPoints i)) dec_float;
  fld "status" info_Status (fun x i => mkCacheInfo (LoadRatio i) x (Price i) (Account i) (PeerId i) (CreditLimit i) (CreditPoints i)) dec_string;
  fld "price" Price (fun x i => mkCacheInfo (LoadRatio i) (info_Status i) x (Account i) (PeerId i) (CreditLimit i) (CreditPoints i)) dec_string;
  fld "account" Account (fun x i => mkCacheInfo (LoadRatio i) (info_Status i) (Price i) x (PeerId i) (CreditLimit i) (CreditPoints i)) dec_bytes;
  fld "peer_id" PeerId (fun x i => mkCacheInfo (LoadRatio i) (info_Status i) (Price i) (Account i) x (CreditLimit i) (CreditPoints i)) dec_string;
  fld "credit_limit" CreditLimit (fun x i => mkCacheInfo (LoadRatio i) (info_Status i) (Price i) (Account i) (PeerId i) x (CreditPoints i)) dec_int64;
  fld "credit_points" CreditPoints (fun x i => mkCacheInfo (LoadRatio i) (info_Status i) (Price i) (Account i) (PeerId i) (CreditLimit i) x) dec_int64].

Definition enc_CacheRequest (r : CacheRequest) : json :=
  JObj [("option", JStr (Option r)); ("want_url", JStr (WantUrl r));
        ("want_file", JStr (WantFile r)); ("account_id", enc_bytes (AccountId r));
        ("data", enc_bytes (Data r)); ("sign", enc_bytes (Sign r))].

Definition dec_CacheRequest : decoder CacheRequest := dec_struct [
  fld "option" Option (fun x r => mkCacheRequest x (WantUrl r) (WantFile r) (AccountId r) (Data r) (Sign r)) dec_string;
  fld "want_url" WantUrl (fun x r => mkCacheRequest (Option r) x (WantFile r) (AccountId r) (Data r) (Sign r)) dec_string;
  fld "want_file" WantFile (fun x r => mkCacheRequest (Option r) (WantUrl r) x (AccountId r) (Data r) (Sign r)) dec_string;
  fld "account_id" AccountId (fun x r => mkCacheRequest (Option r) (WantUrl r) (WantFile r) x (Data r) (Sign r)) dec_bytes;
  fld "data" Data (fun x r => mkCacheRequest (Option r) (WantUrl r) (WantFile r) (AccountId r) x (Sign r)) dec_bytes;
  fld "sign" Sign (fun x r => mkCacheRequest (Option r) (WantUrl r) (WantFile r) (AccountId r) (Data r) x) dec_bytes].

Definition enc_CacheResponse (r : CacheResponse) : option json :=
  info ← enc_CacheInfo (Info r);
  Some (JObj [("status", JStr (resp_Status r)); ("cached_files", enc_strings (CachedFiles r));
              ("cache_info", info)]).

Definition dec_CacheResponse : decoder CacheResponse := dec_struct [
  fld "status" resp_Status (fun x r => mkCacheResponse x (CachedFiles r) (Info r)) dec_string;
  fld "cached_files" CachedFiles (fun x r => mkCacheResponse (resp_Status r) x (Info r)) dec_strings;
  fld "cache_info" Info (fun x r => mkCacheResponse (resp_Status r) (CachedFiles r) x) dec_CacheInfo].

Definition enc_any (d : any) : option json :=
  match d with AnyString s => Some (JStr s) | AnyResponse r => enc_CacheResponse r end.

Definition enc_Response (r : Response) : option json :=
  data ← enc_any (r_Data r);
  Some (JObj [("status", JStr (r_Status r)); ("data", data)]).

(** ** Values the format carries faithfully *)

Definition text (s : string) : Prop := utf8 (to_bytes s).

Record wf_CacheInfo (i : CacheInfo) : Prop := {
  wf_ratio : is_float64 (LoadRatio i) = true;
  wf_info_status : text (info_Status i);
  wf_price : text (Price i);
  wf_peer : text (PeerId i);
  wf_limit : is_i64 (CreditLimit i);
  wf_points : is_i64 (CreditPoints i);
}.

Record wf_CacheRequest (r : CacheRequest) : Prop := {
  wf_option : text (Option r);
  wf_url : text (WantUrl r);
  wf_file : text (WantFile r);
}.

Record wf_CacheResponse (r : CacheResponse) : Prop := {
  wf_resp_status : text (resp_Status r);
  wf_cached : Forall text (elems (CachedFiles r));
  wf_info : wf_CacheInfo (Info r);
}.

Lemma ascii_text s : forallb is_ascii (to_bytes s) = true -> text s.
Proof. apply ascii_utf8. Qed.

Ltac wf_members :=
  repeat first [apply Forall_nil_2 | apply Forall_cons_2]; cbn;
  (split; [by apply ascii_utf8|]); eauto with json.

Lemma wf_enc_CacheRequest r : wf_CacheRequest r -> wf_json (enc_CacheRequest r).
Proof. intros []. constructor. wf_members. Qed.

Lemma wf_enc_CacheInfo i j : wf_CacheInfo i -> enc_CacheInfo i = Some j -> wf_json j.
Proof.
  intros [] H1. unfold enc_CacheInfo in H1. apply bind_Some in H1 as (f & Hf & [= <-]).
  constructor. wf_members.
Qed.

Lemma dec_enc_CacheInfo old i j :
  wf_CacheInfo i -> enc_CacheInfo i = Some j -> dec_CacheInfo old j = (i, DOk).
Proof.
  intros [] H1. unfold enc_CacheInfo in H1. apply bind_Some in H1 as (f & Hf & [= <-]).
  unfold dec_CacheInfo, dec_struct. decode_all. by destruct i.
Qed.

(** A request sent is the request received. *)
Lemma dec_enc_CacheRequest old r : dec_CacheRequest old (enc_CacheRequest r) = (r, DOk).
Proof.
  unfold dec_CacheRequest, enc_CacheRequest, dec_struct. decode_all. by destruct r.
Qed.

Lemma wf_enc_CacheResponse r j :
  wf_CacheResponse r -> enc_CacheResponse r = Some j -> wf_json j.
Proof.
  intros [? ? Hi] H1. unfold enc_CacheResponse in H1. apply bind_Some in H1 as (f & Hf & [= <-]).
  pose proof (wf_enc_CacheInfo _ _ Hi Hf). constructor. wf_members.
Qed.

Lemma dec_enc_CacheResponse old r j :
  wf_CacheResponse r -> enc_CacheResponse r = Some j -> dec_CacheResponse old j = (r, DOk).
Proof.
  intros [? ? Hi] H1. unfold enc_CacheResponse in H1. apply bind_Some in H1 as (f & Hf & [= <-]).
  pose proof (fun old => dec_enc_CacheInfo old _ _ Hi Hf).
  unfold dec_CacheResponse, dec_struct. decode_all. by destruct r.
Qed.
End codecs.
#[export] Hint Resolve ascii_text : json.
