(* ===== verification/Stream.v ===== *)
(** * Reading and writing streams: [ReadData] and [WriteData] of cd2n-lib/lib.go

    An [io.Reader] is the list of chunks its successive [Read] calls have available,
    ended by an error (usually [EOF]), or by nothing: a peer that keeps its side of a
    stream open, on which a further read waits. [bufio.NewReader] puts a 4096-byte buffer
    in front of it. *)

From S2P Require Import Prelude.

Record reader := mkReader {
  buffered : bytes;       (** in the [bufio] buffer, not yet delivered *)
  pending : list bytes;   (** what the underlying reads will deliver *)
  final : error;          (** after the last chunk: the error, or [None] when reads wait *)
}.

Definition EOF : string := "EOF".

(** [bufio.NewReader(r)]. *)
Definition bufio_NewReader (chunks : list bytes) (err : string) : reader :=
  mkReader [] chunks (Some err).

(** The same on a stream whose other side stays open. *)
Definition open_reader (chunks : list bytes) : reader := mkReader [] chunks None.

(** A [bytes.Buffer] delivers as much as is asked for. *)
Definition buffer_reader (data : bytes) : reader :=
  bufio_NewReader (if decide (data = []) then [] else [data]) EOF.

Definition bufio_size : nat := 4096.
Definition buf_size : nat := 1024.

(** [reader.Read(buf)] with a 1024-byte [buf]: refills only an empty buffer,
    with a single underlying read; [inr None] when it waits. *)
Definition bufio_Read (r : reader) : (bytes + error) * reader :=
  match buffered r with
  | [] =>
      match pending r with
      | [] => (inr (final r), r)
      | c :: rest =>
          let got := take bufio_size c in
          let left := drop bufio_size c in
          (inl (take buf_size got),
           mkReader (drop buf_size got) (if decide (left = []) then rest else left :: rest) (final r))
      end
  | b => (inl (take buf_size b), mkReader (drop buf_size b) (pending r) (final r))
  end.

(** [ReadData]: reads until a read is shorter than the buffer. *)
Fixpoint read_loop (fuel : nat) (r : reader) (res : bytes) : option (bytes + string) :=
  match fuel with
  | O => None
  | S fuel =>
      match bufio_Read r with
      | (inr e, _) => inr <$> e
      | (inl b, r') =>
          if (length b <? buf_size)%nat then Some (inl (res ++ b))
          else read_loop fuel r' (res ++ b)
      end
  end%list.

(** Bytes a reader can still deliver: enough iterations to end the loops. *)
Definition remaining (r : reader) : nat := length (buffered r) + length (concat (pending r)).

(** [None]: it waits for ever. *)
Definition ReadData (r : reader) : option (bytes + string) :=
  read_loop (S (remaining r)) r [].

(** [WriteData] on a writer given by its [Write] method. *)
Section write.
Context {W : Type} (write : W -> bytes -> W * error).

Fixpoint write_loop (fuel : nat) (w : W) (r : reader) : option (W * error) :=
  match fuel with
  | O => None
  | S fuel =>
      match bufio_Read r with
      | (inr e, _) => e ≫= fun e => Some (w, Some e)
      | (inl b, r') =>
          match write w b with
          | (w', Some e) => Some (w', Some e)
          | (w', None) =>
              if (length b <? buf_size)%nat then Some (w', None)
              else write_loop fuel w' r'
          end
      end
  end.

Definition WriteData (w : W) (r : reader) : option (W * error) :=
  write_loop (S (remaining r)) w r.
End write.

(** ** One read *)

#[local] Arguments take : simpl never.
#[local] Arguments drop : simpl never.

(** The bytes a reader delivers, in order. *)
Definition contents (r : reader) : bytes := (buffered r ++ concat (pending r))%list.

Lemma remaining_contents r : remaining r = length (contents r).
Proof. unfold remaining, contents. by rewrite length_app. Qed.

Lemma take_nil_inv {A} n (l : list A) : (0 < n)%nat -> take n l = [] -> l = [].
Proof. destruct n, l; try done; lia. Qed.

(** A read delivers the next bytes of the stream, at most 1024 of them. *)
Lemma bufio_Read_contents r b r' :
  bufio_Read r = (inl b, r') ->
  (contents r = b ++ contents r')%list /\ (length b <= buf_size)%nat /\ final r' = final r.
Proof.
  unfold bufio_Read, contents. destruct r as [buf chunks fin]; cbn [buffered pending final].
  destruct buf as [|x buf].
  - destruct chunks as [|c rest]; [done|]. intros [= <- <-]; cbn [buffered pending final].
    split_and!; [| |done].
    + assert (concat (if decide (drop bufio_size c = []) then rest else drop bufio_size c :: rest)
        = drop bufio_size c ++ concat rest)%list as ->.
      { case_decide as E; [by rewrite E|done]. }
      rewrite (app_assoc (take buf_size _)), take_drop.
      rewrite (app_assoc (take bufio_size c)), take_drop. done.
    + rewrite length_take. unfold buf_size. lia.
  - intros [= <- <-]. split_and!; [| |done].
    + change (x :: buf ++ concat chunks = take buf_size (x :: buf)
        ++ drop buf_size (x :: buf) ++ concat chunks)%list.
      by rewrite app_assoc, take_drop.
    + rewrite length_take. unfold buf_size. lia.
Qed.

Lemma bufio_Read_error r e r' :
  bufio_Read r = (inr e, r') -> contents r = [] /\ e = final r.
Proof.
  unfold bufio_Read, contents. destruct r as [[|x buf] [|c rest] fin]; cbn; naive_solver.
Qed.

(** Both loops end on a stream that does: every read that does not end them consumes 1024
    bytes. *)
Lemma read_loop_total fuel r res :
  is_Some (final r) -> (remaining r < fuel)%nat -> is_Some (read_loop fuel r res).
Proof.
  revert r res. induction fuel as [|fuel IH]; intros r res He Hf; [lia|]. cbn [read_loop].
  destruct (bufio_Read r) as [[b|e] r'] eqn:E;
    [|apply bufio_Read_error in E as [_ ->]; by apply fmap_is_Some].
  destruct (Nat.ltb_spec (length b) buf_size) as [|Hb]; [by eexists|].
  apply bufio_Read_contents in E as (Hc & _ & Hfin). apply IH; [by rewrite Hfin|].
  rewrite !remaining_contents in *. apply (f_equal length) in Hc.
  rewrite length_app in Hc. unfold buf_size in *. lia.
Qed.

Lemma write_loop_total {W} (write : W -> bytes -> W * error) fuel w r :
  is_Some (final r) -> (remaining r < fuel)%nat -> is_Some (write_loop write fuel w r).
Proof.
  revert w r. induction fuel as [|fuel IH]; intros w r He Hf; [lia|]. cbn [write_loop].
  destruct (bufio_Read r) as [[b|e] r'] eqn:E;
    [|apply bufio_Read_error in E as [_ ->]; destruct He as [x ->]; by eexists].
  destruct (write w b) as [w' [e|]]; [by eexists|].
  destruct (Nat.ltb_spec (length b) buf_size) as [|Hb]; [by eexists|].
  apply bufio_Read_contents in E as (Hc & _ & Hfin). apply IH; [by rewrite Hfin|].
  rewrite !remaining_contents in *. apply (f_equal length) in Hc.
  rewrite length_app in Hc. unfold buf_size in *. lia.
Qed.

(** ** Streams delivered in blocks

    All chunks but the last hold a multiple of 1024 bytes: a [bytes.Buffer], or a
    message that arrives in one piece. *)

Fixpoint blocks_ok (chunks : list bytes) : Prop :=
  match chunks with
  | [] => True
  | [c] => c ≠ []
  | c :: rest => c ≠ [] /\ (buf_size | length c)%nat /\ blocks_ok rest
  end.

Definition aligned (r : reader) : Prop :=
  (pending r = [] \/ (buf_size | length (buffered r))%nat) /\ blocks_ok (pending r).

Lemma blocks_ok_head c rest :
  blocks_ok (c :: rest) -> c ≠ [] /\ (rest = [] \/ (buf_size | length c)%nat) /\ blocks_ok rest.
Proof. destruct rest; cbn; tauto. Qed.

Lemma blocks_ok_cons c rest :
  c ≠ [] -> (rest = [] \/ (buf_size | length c)%nat) -> blocks_ok rest -> blocks_ok (c :: rest).
Proof. destruct rest; cbn; intros; destruct_or?; done. Qed.

Lemma divide_drop n (c : bytes) : (buf_size | n)%nat -> (buf_size | length c)%nat ->
  (buf_size | length (drop n c))%nat.
Proof. intros Hn Hc. rewrite length_drop. by apply Nat.divide_sub_r. Qed.

Lemma divide_pos_le (n : nat) : (buf_size | n)%nat -> (0 < n)%nat -> (buf_size <= n)%nat.
Proof. intros. by apply Nat.divide_pos_le. Qed.

Lemma length_nonnil {A} (l : list A) : l ≠ [] -> (0 < length l)%nat.
Proof. destruct l; cbn; [done|lia]. Qed.

(** A read of an aligned stream is full unless it is the last one. *)
Lemma aligned_Read r :
  aligned r -> (0 < remaining r)%nat ->
  exists b r', bufio_Read r = (inl b, r') /\ aligned r'
    /\ length b = Nat.min buf_size (remaining r).
Proof.
  intros [Hb Hp] Hr. destruct r as [buf chunks fin]; unfold remaining in *;
    cbn [buffered pending final] in *.
  destruct buf as [|x buf].
  - destruct chunks as [|c rest]; [cbn in Hr; lia|]. clear Hb.
    apply blocks_ok_head in Hp as (Hc & Hd & Hp). apply length_nonnil in Hc.
    do 2 eexists. split; [done|]. cbn [length concat]. rewrite length_app.
    assert (buf_size | bufio_size)%nat by by exists 4%nat.
    assert (rest = [] \/ (buf_size <= length c)%nat) as Hlen
      by (destruct Hd as [->|Hd%divide_pos_le]; [by left|by right|done]).
    split; [split|]; cbn [buffered pending].
    + case_decide as El.
      * destruct Hd as [->|Hd]; [by left|right].
        apply (f_equal length) in El. rewrite length_drop in El. cbn in El.
        rewrite take_ge by lia. apply divide_drop; [by exists 1%nat|done].
      * right. apply divide_drop; [by exists 1%nat|].
        destruct (Nat.le_gt_cases bufio_size (length c)) as [Hle|Hgt].
        -- by rewrite length_take_le.
        -- by rewrite drop_ge in El by lia.
    + case_decide; [done|]. apply blocks_ok_cons; [done| |done].
      destruct Hd as [->|Hd]; [by left|right]. by apply divide_drop.
    + rewrite !length_take. unfold bufio_size, buf_size in *.
      destruct Hlen as [->|Hlen]; cbn [concat length]; lia.
  - do 2 eexists. split; [done|]. cbn [buffered pending] in *.
    split; [split|]; cbn [buffered pending]; [|done|].
    + destruct Hb as [->|Hb]; [by left|right]. apply divide_drop; [by exists 1%nat|done].
    + rewrite length_take. destruct Hb as [->|Hb].
      * cbn [concat length]. lia.
      * apply divide_pos_le in Hb; [|cbn; lia]. unfold buf_size in *. lia.
Qed.

Lemma mod_step n : (buf_size <= n)%nat ->
  ((n - buf_size) mod buf_size = n mod buf_size)%nat.
Proof.
  intros. rewrite <- (Nat.Div0.mod_add (n - buf_size) 1). f_equal. lia.
Qed.

Lemma aligned_empty r :
  aligned r -> remaining r = 0%nat -> bufio_Read r = (inr (final r), r).
Proof.
  intros [_ Hp] Hr. destruct r as [[|x buf] [|c rest] fin]; try done.
  apply blocks_ok_head in Hp as (Hc%length_nonnil & _).
  unfold remaining in Hr. cbn [buffered pending concat] in Hr. rewrite length_app in Hr. cbn in Hr. lia.
Qed.

(** What a loop over an aligned stream ends with: the whole contents, and the
    stream's end when the length is a multiple of 1024. *)
Lemma aligned_read_loop fuel r res :
  aligned r -> (remaining r < fuel)%nat ->
  read_loop fuel r res =
    if (remaining r mod buf_size =? 0)%nat then inr <$> final r else Some (inl (res ++ contents r)%list).
Proof.
  revert r res. induction fuel as [|fuel IH]; intros r res Ha Hf; [lia|].
  cbn [read_loop]. destruct (decide (remaining r = 0%nat)) as [Hz|Hz].
  { by rewrite aligned_empty, Hz. }
  destruct (aligned_Read r Ha ltac:(lia)) as (b & r' & E & Ha' & Hb). rewrite E.
  destruct (bufio_Read_contents _ _ _ E) as (Hc & _ & Hfin).
  pose proof (f_equal length Hc) as Hl. rewrite length_app, <- !remaining_contents in Hl.
  destruct (Nat.ltb_spec (length b) buf_size) as [Hs|Hs].
  - rewrite (proj2 (Nat.eqb_neq _ _)) by (rewrite Nat.mod_small; lia).
    destruct (contents r') eqn:Er; [by rewrite Hc, app_nil_r|].
    apply (f_equal length) in Er. rewrite <- remaining_contents in Er. cbn in Er. lia.
  - rewrite IH by (done || (unfold buf_size in *; lia)).
    rewrite Hfin, Hc, app_assoc.
    replace (remaining r') with (remaining r - buf_size)%nat by lia.
    by rewrite mod_step by lia.
Qed.

Lemma aligned_write_loop {W} (write : W -> bytes -> W * error) (app : W -> bytes -> W) fuel w r :
  (forall w b, write w b = (app w b, None)) ->
  (forall w b c, app (app w b) c = app w (b ++ c)%list) -> (forall w, app w [] = w) ->
  aligned r -> is_Some (final r) -> (remaining r < fuel)%nat ->
  write_loop write fuel w r =
    Some (app w (contents r), if (remaining r mod buf_size =? 0)%nat then final r else None).
Proof.
  intros Hw Happ Hnil. revert w r. induction fuel as [|fuel IH]; intros w r Ha He Hf; [lia|].
  cbn [write_loop]. destruct (decide (remaining r = 0%nat)) as [Hz|Hz].
  { rewrite aligned_empty, Hz by done. rewrite remaining_contents in Hz. destruct He as [e He].
    rewrite He. destruct (contents r); [by rewrite Hnil|done]. }
  destruct (aligned_Read r Ha ltac:(lia)) as (b & r' & E & Ha' & Hb). rewrite E, Hw.
  destruct (bufio_Read_contents _ _ _ E) as (Hc & _ & Hfin).
  pose proof (f_equal length Hc) as Hl. rewrite length_app, <- !remaining_contents in Hl.
  destruct (Nat.ltb_spec (length b) buf_size) as [Hs|Hs].
  - rewrite (proj2 (Nat.eqb_neq _ _)) by (rewrite Nat.mod_small; lia).
    destruct (contents r') eqn:Er; [by rewrite Hc, app_nil_r|].
    apply (f_equal length) in Er. rewrite <- remaining_contents in Er. cbn in Er. lia.
  - rewrite IH by (done || (by rewrite Hfin) || (unfold buf_size in *; lia)).
    rewrite Hfin, Hc, Happ.
    replace (remaining r') with (remaining r - buf_size)%nat by lia.
    by rewrite mod_step by lia.
Qed.

Lemma aligned_buffer data : aligned (buffer_reader data).
Proof.
  unfold buffer_reader. split; cbn; case_decide; try done; [by left|].
  right. by exists 0%nat.
Qed.

Lemma contents_buffer data : contents (buffer_reader data) = data.
Proof.
  unfold buffer_reader, contents. cbn. case_decide; [done|]. cbn. by rewrite app_nil_r.
Qed.

(** ** A short first chunk

    A chunk whose length is not a multiple of 1024 ends the message, whatever
    comes after it. *)
Lemma read_loop_buffered fuel b rest fin res :
  (length b < fuel)%nat -> (length b mod buf_size <> 0)%nat ->
  read_loop fuel (mkReader b rest fin) res = Some (inl (res ++ b)%list).
Proof.
  revert b res. induction fuel as [|fuel IH]; intros b res Hf Hb; [lia|].
  destruct b as [|x b]; [done|]. set (c := x :: b) in *.
  assert (bufio_Read (mkReader c rest fin)
    = (inl (take buf_size c), mkReader (drop buf_size c) rest fin)) as E by done.
  cbn [read_loop]. rewrite E. rewrite length_take.
  destruct (Nat.ltb_spec (Nat.min buf_size (length c)) buf_size).
  - by rewrite take_ge by lia.
  - rewrite IH.
    + by rewrite <- app_assoc, take_drop.
    + rewrite length_drop. unfold buf_size in *. lia.
    + rewrite length_drop, mod_step by lia. done.
Qed.

Lemma read_loop_chunk c rest fin :
  (length c <= bufio_size)%nat -> (length c mod buf_size <> 0)%nat ->
  ReadData (mkReader [] (c :: rest) fin) = Some (inl c).
Proof.
  intros Hl Hc. unfold ReadData.
  assert (c ≠ []) as Hne by by intros ->.
  pose proof (length_nonnil c Hne).
  replace (remaining _) with (length c + length (concat rest))%nat
    by (unfold remaining; cbn; by rewrite length_app).
  assert (bufio_Read (mkReader [] (c :: rest) fin)
    = (inl (take buf_size c), mkReader (drop buf_size c) rest fin)) as E.
  { unfold bufio_Read. cbn [buffered pending].
    rewrite (take_ge c bufio_size), (drop_ge c bufio_size) by lia. by rewrite decide_True. }
  cbn [read_loop]. rewrite E, length_take.
  destruct (Nat.ltb_spec (Nat.min buf_size (length c)) buf_size).
  - by rewrite take_ge by lia.
  - rewrite read_loop_buffered.
    + by rewrite app_nil_l, take_drop.
    + rewrite length_drop. unfold buf_size in *. lia.
    + rewrite length_drop, mod_step by lia. done.
Qed.

(** ** Any chunking *)

Definition no_empty_chunk (r : reader) : Prop := Forall (fun c => c ≠ []) (pending r).

Lemma bufio_Read_nonempty r b r' :
  no_empty_chunk r -> bufio_Read r = (inl b, r') -> b ≠ [] /\ no_empty_chunk r'.
Proof.
  unfold no_empty_chunk, bufio_Read. destruct r as [buf chunks fin]; cbn [buffered pending].
  intros Hc. destruct buf as [|x buf].
  - destruct chunks as [|c rest]; [done|]. inversion Hc as [|?? Hne Hrest]; subst.
    intros [= <- <-]. cbn [pending]. split.
    + intros E. apply Hne.
      apply (take_nil_inv bufio_size); [unfold bufio_size; lia|].
      apply (take_nil_inv buf_size); [unfold buf_size; lia|done].
    + case_decide; [done|]. by constructor.
  - intros [= <- <-]. done.
Qed.

(** A message that is returned is a proper cut of the stream: a prefix whose
    length is not a multiple of the buffer's. *)
Lemma read_loop_prefix fuel r res d :
  no_empty_chunk r -> read_loop fuel r res = Some (inl d) ->
  exists b, (d = res ++ b)%list /\ (exists t, contents r = b ++ t)%list
    /\ (length b mod buf_size <> 0)%nat.
Proof.
  revert r res. induction fuel as [|fuel IH]; intros r res Hr H; [done|]. cbn [read_loop] in H.
  destruct (bufio_Read r) as [[b|e] r'] eqn:E; [|by destruct e].
  destruct (bufio_Read_nonempty _ _ _ Hr E) as [Hb Hr'].
  apply bufio_Read_contents in E as (Hc & Hle & _).
  destruct (Nat.ltb_spec (length b) buf_size) as [Hs|Hs].
  - simplify_eq. exists b. split_and!; [done|by eexists|].
    rewrite Nat.mod_small by done. by destruct b.
  - apply IH in H as (b' & -> & [t Ht] & Hm); [|done]. exists (b ++ b')%list.
    split_and!; [by rewrite app_assoc| |].
    + exists t. by rewrite Hc, Ht, app_assoc.
    + rewrite length_app. replace (length b) with (1 * buf_size)%nat by lia.
      by rewrite Nat.add_comm, Nat.Div0.mod_add.
Qed.

Lemma read_loop_error fuel r res e : read_loop fuel r res = Some (inr e) -> final r = Some e.
Proof.
  revert r res. induction fuel as [|fuel IH]; intros r res E; [done|]. cbn [read_loop] in E.
  destruct (bufio_Read r) as [[b|e'] r'] eqn:Er.
  - case_match; [done|]. apply bufio_Read_contents in Er as (_ & _ & <-). by eapply IH.
  - apply bufio_Read_error in Er as [_ ->]. apply fmap_Some in E as (x & -> & [= ->]). done.
Qed.

(** ** The properties *)

(** An open file: what has been written so far. *)
Definition file_Write (w b : bytes) : bytes * error := ((w ++ b)%list, None).

Lemma WriteData_file w r :
  aligned r -> is_Some (final r) ->
  WriteData file_Write w r =
    Some ((w ++ contents r)%list, if (remaining r mod buf_size =? 0)%nat then final r else None).
Proof.
  intros Hr He. unfold WriteData.
  apply (aligned_write_loop file_Write app); [done|by intros; rewrite app_assoc| |done|done|lia].
  intros. apply app_nil_r.
Qed.

(** [WriteData] from a [bytes.Buffer] into a file always copies every byte, and it
    reports an error ([EOF]) exactly when the number of bytes is a multiple of the
    1024-byte buffer, an empty buffer included. *)
Theorem WriteData_buffer (w data : bytes) :
  WriteData file_Write w (buffer_reader data) =
    Some ((w ++ data)%list,
          if (length data mod 1024 =? 0)%nat then Some EOF else None).
Proof.
  rewrite WriteData_file by (apply aligned_buffer || by eexists).
  by rewrite remaining_contents, contents_buffer.
Qed.



(** A request that arrives in one piece is returned whole when its length is not a
    multiple of 1024, and is refused with [EOF] otherwise. *)
Lemma ReadData_one_piece (data : bytes) :
  ReadData (buffer_reader data) =
    Some (if (length data mod 1024 =? 0)%nat then inr EOF else inl data).
Proof.
  unfold ReadData. rewrite aligned_read_loop by (apply aligned_buffer || lia).
  rewrite remaining_contents, contents_buffer. by destruct (_ =? 0)%nat.
Qed.

(** From a peer that keeps its side open, the second is not refused but waited on. *)
Definition one_piece (data : bytes) : reader := open_reader (if decide (data = []) then [] else [data]).

Lemma ReadData_open_piece (data : bytes) :
  ReadData (one_piece data) = if (length data mod 1024 =? 0)%nat then None else Some (inl data).
Proof.
  unfold ReadData. assert (Ha : aligned (one_piece data)) by exact (aligned_buffer data).
  rewrite aligned_read_loop by (done || lia). rewrite remaining_contents.
  change (contents (one_piece data)) with (contents (buffer_reader data)). rewrite contents_buffer.
  by destruct (_ =? 0)%nat.
Qed.
