(* ===== verification/GoOs.v ===== *)
(** * Files: what the program uses of package os

    A file system is a map from paths to contents and a set of directories.
    Every call can fail for reasons of its own (permissions, a full disk): an
    oracle says which ones do. *)

From S2P Require Import Prelude.

Record FS := mkFS {
  files : gmap string bytes;
  dirs : gset string;
}.

Inductive os_op := OpStat | OpCreate | OpRead | OpRemove | OpMkdir | OpSync.

Class OsFaults := {
  os_fault : os_op -> string -> error;
  write_fault : string -> bytes -> error;  (** path, contents so far *)
  write_count : string -> bytes -> nat;    (** what a failing write has written *)
  not_exist : string -> string;            (** message for a missing file *)
}.

Record FileInfo := mkFileInfo { fi_size : Z; fi_isdir : bool }.

Definition set_files (f : gmap string bytes) (fs : FS) : FS := mkFS f (dirs fs).

Section os.
Context `{OsFaults}.

Definition os_Stat (fs : FS) (p : string) : FileInfo + string :=
  match os_fault OpStat p with
  | Some e => inr e
  | None =>
      match files fs !! p with
      | Some b => inl (mkFileInfo (len b) false)
      | None => if decide (p ∈ dirs fs) then inl (mkFileInfo 4096 true) else inr (not_exist p)
      end
  end.

(** Creating truncates an existing file. *)
Definition os_Create (fs : FS) (p : string) : FS * error :=
  match os_fault OpCreate p with
  | Some e => (fs, Some e)
  | None => (set_files (<[p := []]> (files fs)) fs, None)
  end.

Definition os_ReadFile (fs : FS) (p : string) : bytes + string :=
  match os_fault OpRead p with
  | Some e => inr e
  | None => match files fs !! p with Some b => inl b | None => inr (not_exist p) end
  end.

(** The program ignores the result of [os.Remove]. *)
Definition os_Remove (fs : FS) (p : string) : FS :=
  match os_fault OpRemove p with
  | Some _ => fs
  | None => set_files (delete p (files fs)) fs
  end.

Definition os_MkdirAll (fs : FS) (p : string) : FS * error :=
  match os_fault OpMkdir p with
  | Some e => (fs, Some e)
  | None => (mkFS (files fs) ({[p]} ∪ dirs fs), None)
  end.

Definition remove_all (fs : FS) (ps : list string) : FS := foldl os_Remove fs ps.

(** A write to the open file [p] that holds [w]. *)
Definition file_write (p : string) (w b : bytes) : bytes * error :=
  match write_fault p w with
  | Some e => ((w ++ take (write_count p w) b)%list, Some e)
  | None => ((w ++ b)%list, None)
  end.

Lemma remove_all_files fs ps p :
  p ∉ ps -> files (remove_all fs ps) !! p = files fs !! p.
Proof.
  revert fs. induction ps as [|q ps IH]; intros fs Hp; [done|]. cbn.
  rewrite not_elem_of_cons in Hp. destruct Hp as [Hq Hp].
  unfold remove_all in *. rewrite IH by done.
  unfold os_Remove. case_match; [done|]. cbn. by rewrite lookup_delete_ne.
Qed.

Lemma remove_all_none fs ps p :
  files fs !! p = None -> files (remove_all fs ps) !! p = None.
Proof.
  revert fs. induction ps as [|q ps IH]; intros fs Hn; [done|]. cbn. apply IH.
  unfold os_Remove. case_match; [done|]. cbn. rewrite lookup_delete. by case_decide.
Qed.

Lemma remove_all_gone fs ps p :
  p ∈ ps -> os_fault OpRemove p = None -> files (remove_all fs ps) !! p = None.
Proof.
  intros Hp Hf. revert fs.
  induction ps as [|q ps IH]; intros fs; [by apply not_elem_of_nil in Hp|].
  apply elem_of_cons in Hp as [->|Hp]; [|by apply IH].
  cbn. apply remove_all_none. unfold os_Remove. rewrite Hf. apply lookup_delete_eq.
Qed.

Lemma dirs_remove_all fs ps : dirs (remove_all fs ps) = dirs fs.
Proof.
  revert fs. induction ps as [|q ps IH]; intros fs; [done|]. unfold remove_all in *. cbn.
  rewrite IH. unfold os_Remove. by case_match.
Qed.
End os.

(** A file system on which no call fails. *)
#[export] Instance no_faults : OsFaults | 100 := {
  os_fault _ _ := None;
  write_fault _ _ := None;
  write_count _ _ := 0%nat;
  not_exist p := "no such file or directory: " +:+ p;
}.
