(* ===== verification/Lib.v ===== *)
(** * Talking to a cache node: cd2n-lib/lib.go

    The client side of the cache protocol: one request and one reply per stream.
    The network is a parameter: what a request sent to a peer comes back with. *)

From S2P Require Import Prelude GoStrings Encoding Json JsonFacts Codec Types Stream GoOs.

(** What opening a stream, writing the request and copying the reply can give. *)
Inductive exchange_result :=
  | NoStream (e : string)
  | WriteFailed (e : string)
  | CopyFailed (got : bytes) (e : string)
  | Replied (got : bytes).

Class CacheNet (Net : Type) := {
  exchange : Net -> string -> bytes -> exchange_result * Net;
}.

Section lib.
Context {Net : Type} `{CacheNet Net} `{PkgErrors} `{FloatText} `{JsonMessages} `{OsFaults}.

(** The result is what was copied into [resp], and the error. *)
Definition SendRequestToCacher (net : Net) (peerId : string) (req : CacheRequest) : (bytes * error) * Net :=
  let extData := print (enc_CacheRequest req) in
  let msg := "send request to cacher error" in
  match exchange net peerId extData with
  | (NoStream e, net) => (([], Wrap (Some e) msg), net)
  | (WriteFailed e, net) => (([], Wrap (Some e) msg), net)
  | (CopyFailed got e, net) => ((got, Wrap (Some e) msg), net)
  | (Replied got, net) =>
      if decide (got = []) then (([], Wrap (errors_New "empty response") msg), net)
      else ((got, None), net)
  end.

Definition set_Option (o : string) (r : CacheRequest) : CacheRequest :=
  mkCacheRequest o (WantUrl r) (WantFile r) (AccountId r) (Data r) (Sign r).

Definition DailCacheNode (net : Net) (peerId : string) : (CacheResponse * error) * Net :=
  let msg := "dail cache node error" in
  let req := set_Option OPTION_DAIL CacheRequest_zero in
  match SendRequestToCacher net peerId req with
  | ((_, Some e), net) => ((CacheResponse_zero, Wrap (Some e) msg), net)
  | ((buf, None), net) =>
      if decide (buf = []) then ((CacheResponse_zero, Wrap (errors_New "empty response") msg), net)
      else match Unmarshal dec_CacheResponse buf CacheResponse_zero with
           | (resp, Some e) => ((resp, Wrap (Some e) msg), net)
           | (resp, None) => ((resp, None), net)
           end
  end.

(** [types.Response] with its [Data] left as a tree, and the anonymous struct
    whose [Data] is a [CacheResponse]. *)
Definition dec_raw_Response : decoder (string * json) := dec_struct [
  fld "status" fst (fun x r => (x, snd r)) dec_string;
  fld "data" snd (fun x r => (fst r, x)) dec_any].

Definition dec_cresp : decoder (string * CacheResponse) := dec_struct [
  fld "status" fst (fun x r => (x, snd r)) dec_string;
  fld "data" snd (fun x r => (fst r, x)) dec_CacheResponse].

Definition QueryFileInfoFromCache (net : Net) (peerId : string) (req : CacheRequest)
    : (CacheResponse * error) * Net :=
  let msg := "query file info error" in
  match SendRequestToCacher net peerId (set_Option OPTION_QUERY req) with
  | ((_, Some e), net) => ((CacheResponse_zero, Wrap (Some e) msg), net)
  | ((buf, None), net) =>
      if decide (buf = []) then ((CacheResponse_zero, Wrap (errors_New "empty response") msg), net)
      else
        match Unmarshal dec_raw_Response buf ("", JNull) with
        | (_, Some e) => ((CacheResponse_zero, Wrap (Some e) msg), net)
        | ((_, JStr estr), None) => ((CacheResponse_zero, Wrap (errors_New estr) msg), net)
        | (_, None) =>
            match Unmarshal dec_cresp buf ("", CacheResponse_zero) with
            | (cresp, Some e) => ((snd cresp, Wrap (Some e) msg), net)
            | (cresp, None) => ((snd cresp, None), net)
            end
        end
  end.

(** Copies the reply into the file: the loop always ends (lemma
    [copy_to_file_total]). *)
Definition copy_to_file (p : string) (data : bytes) : bytes * error :=
  default ([], None) (WriteData (file_write p) [] (buffer_reader data)).

Definition DownloadFileFromCache (net : Net) (fs : FS) (peerId fpath : string) (req : CacheRequest)
    : error * (Net * FS) :=
  let msg := "download file error" in
  match SendRequestToCacher net peerId (set_Option OPTION_DOWNLOAD req) with
  | ((_, Some e), net) => (Wrap (Some e) msg, (net, fs))
  | ((buf, None), net) =>
      if decide (buf = []) then (Wrap (errors_New "empty response") msg, (net, fs))
      else
        match os_Create fs fpath with
        | (fs, Some e) => (Wrap (Some e) msg, (net, fs))
        | (fs, None) =>
            let '(content, err) := copy_to_file fpath buf in
            let fs := set_files (<[fpath := content]> (files fs)) fs in
            match err with
            | Some e => (Wrap (Some e) msg, (net, fs))
            | None => (None, (net, fs))
            end
        end
  end.

Lemma copy_to_file_total p data :
  is_Some (WriteData (file_write p) [] (buffer_reader data)).
Proof. apply write_loop_total; [by eexists|lia]. Qed.

Lemma copy_to_file_ok p data :
  (forall w, write_fault p w = None) ->
  copy_to_file p data = (data, if (length data mod 1024 =? 0)%nat then Some EOF else None).
Proof.
  intros Hf. unfold copy_to_file, WriteData.
  rewrite (aligned_write_loop (file_write p) app).
  - cbn [default]. by rewrite remaining_contents, contents_buffer.
  - intros. unfold file_write. by rewrite Hf.
  - intros. by rewrite app_assoc.
  - intros. apply app_nil_r.
  - apply aligned_buffer.
  - by eexists.
  - lia.
Qed.

Lemma SendRequest_replied net peerId req got net' :
  exchange net peerId (print (enc_CacheRequest req)) = (Replied got, net') -> got ≠ [] ->
  SendRequestToCacher net peerId req = ((got, None), net').
Proof. intros He Hg. unfold SendRequestToCacher. rewrite He. by rewrite decide_False. Qed.

Lemma print_not_nil j : wf_json j -> print j ≠ [].
Proof. intros Hj. by destruct (print_head j Hj) as (? & ? & -> & _). Qed.
End lib.

(** ** Properties *)

Section properties.
Context {Net : Type} `{CacheNet Net} `{PkgErrors} `{FloatText} `{JsonMessages} `{OsFaults}.

Lemma wf_reply status d j :
  text status ->
  match d with AnyString s => text s | AnyResponse r => wf_CacheResponse r end ->
  enc_Response (mkResponse status d) = Some j -> wf_json j.
Proof.
  intros Hs Hd. unfold enc_Response. cbn [r_Data r_Status].
  destruct (enc_any d) as [j'|] eqn:Ed; [|done]. cbn [mbind option_bind]. intros [= <-].
  assert (wf_json j').
  { destruct d as [s|r]; [by injection Ed as <-; constructor|by eapply wf_enc_CacheResponse]. }
  constructor. repeat constructor; cbn; try done; by apply ascii_text.
Qed.

Lemma Unmarshal_raw status data j :
  wf_json (JObj [("status", JStr status); ("data", data)]) ->
  numbers_fit data = true -> j = JObj [("status", JStr status); ("data", data)] ->
  Unmarshal dec_raw_Response (print j) ("", JNull) = ((status, data), None).
Proof.
  intros Hw Hn ->. apply Unmarshal_print; [done|].
  assert (forall old, dec_any old data = (data, DOk)) by (intros; unfold dec_any; by rewrite Hn).
  unfold dec_raw_Response, dec_struct. decode_all. done.
Qed.

Lemma numbers_fit_response r j :
  wf_CacheResponse r -> enc_CacheResponse r = Some j -> numbers_fit j = true.
Proof.
  intros Hr He. unfold enc_CacheResponse in He. apply bind_Some in He as (i & Hi & [= <-]).
  unfold enc_CacheInfo in Hi. apply bind_Some in Hi as (f & Hf & [= <-]).
  unfold enc_float in Hf. destruct (is_finite _) eqn:Ef; [|done]. injection Hf as <-.
  assert (forall s, numbers_fit (enc_bytes s) = true) as Hb by by intros [].
  assert (numbers_fit (enc_strings (CachedFiles r)) = true) as Hs.
  { destruct (CachedFiles r) as [l|]; [|done]. cbn. by induction l. }
  assert (forall n, is_i64 n -> numbers_fit (enc_int n) = true) as Hi.
  { intros n Hn. apply bool_decide_eq_true, ParseFloat_int, Hn. }
  destruct (wf_info _ Hr) as [Hf _ _ _ Hl Hp].
  cbn [numbers_fit forallb snd]. rewrite Hb, Hs, !Hi by done.
  by rewrite bool_decide_true by (eexists; by apply ParseFloat_Format).
Qed.

Lemma dec_cresp_reply status r j :
  wf_CacheResponse r -> enc_CacheResponse r = Some j ->
  dec_cresp ("", CacheResponse_zero) (JObj [("status", JStr status); ("data", j)])
    = ((status, r), DOk).
Proof.
  intros Hr Hj. pose proof (fun old => dec_enc_CacheResponse old _ _ Hr Hj).
  unfold dec_cresp, dec_struct. decode_all. done.
Qed.

Lemma Query_reply (net net' : Net) (peerId status : string)
    (req : CacheRequest) (resp : CacheResponse) (j : json) :
  wf_CacheResponse resp -> text status ->
  enc_Response (mkResponse status (AnyResponse resp)) = Some j ->
  exchange net peerId (print (enc_CacheRequest (set_Option OPTION_QUERY req)))
    = (Replied (print j), net') ->
  QueryFileInfoFromCache net peerId req = ((resp, None), net').
Proof.
  intros Hr Hs He Hx. pose proof (wf_reply _ (AnyResponse resp) _ Hs Hr He) as Hw.
  unfold enc_Response in He. cbn [r_Data r_Status enc_any] in He.
  apply bind_Some in He as (d & Hd & [= <-]).
  unfold QueryFileInfoFromCache.
  rewrite (SendRequest_replied _ _ _ _ _ Hx) by by apply print_not_nil.
  rewrite decide_False by by apply print_not_nil.
  rewrite (Unmarshal_raw status d) by (done || by eapply numbers_fit_response).
  rewrite (Unmarshal_print dec_cresp _ _ _ Hw (dec_cresp_reply _ _ _ Hr Hd)).
  assert (exists m, d = JObj m) as [m ->]; [|done].
  unfold enc_CacheResponse in Hd. apply bind_Some in Hd as (? & _ & [= <-]). by eexists.
Qed.

(** C17: When the cache node answers a query with [WriteJsonResponse(s, status, resp)],
    [QueryFileInfoFromCache] returns exactly [resp] and no error: the response survives
    the two passes over the JSON text. *)
Theorem Query_receives_response (net net' : Net) (peerId status : string)
    (req : CacheRequest) (resp : CacheResponse) (j : json) :
  wf_CacheResponse resp -> text status ->
  enc_Response (mkResponse status (AnyResponse resp)) = Some j ->
  exchange net peerId (print (enc_CacheRequest (set_Option OPTION_QUERY req)))
    = (Replied (print j), net') ->
  QueryFileInfoFromCache net peerId req = ((resp, None), net').
Proof. apply Query_reply. Qed.

(** When the cache node answers a query with an error message,
    [QueryFileInfoFromCache] returns an error and an empty response, whatever the
    status text. *)
Theorem Query_receives_error (net net' : Net) (peerId status estr : string)
    (req : CacheRequest) (j : json) :
  text status -> text estr ->
  enc_Response (mkResponse status (AnyString estr)) = Some j ->
  exchange net peerId (print (enc_CacheRequest (set_Option OPTION_QUERY req)))
    = (Replied (print j), net') ->
  QueryFileInfoFromCache net peerId req =
    ((CacheResponse_zero, Wrap (errors_New estr) "query file info error"), net').
Proof.
  intros Hs Ht He Hx. pose proof (wf_reply _ (AnyString estr) _ Hs Ht He) as Hw.
  injection He as <-. unfold QueryFileInfoFromCache.
  rewrite (SendRequest_replied _ _ _ _ _ Hx) by by apply print_not_nil.
  rewrite decide_False by by apply print_not_nil.
  by rewrite (Unmarshal_raw status (JStr estr)).
Qed.

(** [DailCacheNode] decodes the reply of a dial as a bare [CacheResponse]: it
    gets the status, and the node information the reply carries is dropped. *)
Theorem Dail_drops_info (net net' : Net) (peerId status : string)
    (resp : CacheResponse) (j : json) :
  wf_CacheResponse resp -> text status ->
  enc_Response (mkResponse status (AnyResponse resp)) = Some j ->
  exchange net peerId (print (enc_CacheRequest (set_Option OPTION_DAIL CacheRequest_zero)))
    = (Replied (print j), net') ->
  DailCacheNode net peerId = ((mkCacheResponse status None CacheInfo_zero, None), net').
Proof.
  intros Hr Hs He Hx. pose proof (wf_reply _ (AnyResponse resp) _ Hs Hr He) as Hw.
  unfold enc_Response in He. cbn [r_Data r_Status enc_any] in He.
  apply bind_Some in He as (d & Hd & [= <-]).
  unfold DailCacheNode.
  rewrite (SendRequest_replied _ _ _ _ _ Hx) by by apply print_not_nil.
  rewrite decide_False by by apply print_not_nil.
  rewrite (Unmarshal_print dec_CacheResponse _ CacheResponse_zero
    (mkCacheResponse status None CacheInfo_zero)); [done|done|].
  unfold dec_CacheResponse, dec_struct.
  erewrite decode_members_cons; [|reflexivity|apply fld_dec; by eauto with codec].
  by rewrite decode_members_skip.
Qed.

Lemma Download_reply (net net' : Net) (fs : FS) (peerId fpath : string)
    (req : CacheRequest) (got : bytes) :
  exchange net peerId (print (enc_CacheRequest (set_Option OPTION_DOWNLOAD req)))
    = (Replied got, net') -> got ≠ [] ->
  os_fault OpCreate fpath = None -> (forall w, write_fault fpath w = None) ->
  DownloadFileFromCache net fs peerId fpath req =
    (if (length got mod 1024 =? 0)%nat then Wrap (Some EOF) "download file error" else None,
     (net', set_files (<[fpath := got]> (files fs)) fs)).
Proof.
  intros Hx Hg Hc Hw. unfold DownloadFileFromCache.
  rewrite (SendRequest_replied _ _ _ _ _ Hx) by done.
  rewrite decide_False by done. unfold os_Create. rewrite Hc, copy_to_file_ok by done.
  unfold set_files. cbn [files dirs]. rewrite insert_insert_eq.
  by destruct (_ =? 0)%nat.
Qed.

(** C39: A download that gets a reply and can create and write its file stores the whole
    reply, and reports an error exactly when the reply's length is a multiple of 1024:
    in particular every complete 8 MiB fragment is reported as a failed download. *)
Theorem Download_stores_reply (net net' : Net) (fs : FS) (peerId fpath : string)
    (req : CacheRequest) (got : bytes) :
  exchange net peerId (print (enc_CacheRequest (set_Option OPTION_DOWNLOAD req)))
    = (Replied got, net') -> got ≠ [] ->
  os_fault OpCreate fpath = None -> (forall w, write_fault fpath w = None) ->
  DownloadFileFromCache net fs peerId fpath req =
    (if (length got mod 1024 =? 0)%nat then Wrap (Some EOF) "download file error" else None,
     (net', set_files (<[fpath := got]> (files fs)) fs)).
Proof. apply Download_reply. Qed.
End properties.

(** ** Sample exchanges *)

(** A network on which every request gets the same reply. *)
#[export] Instance echo_net : CacheNet bytes | 100 := {
  exchange net _ _ := (Replied net, net);
}.

Definition sample_info : CacheInfo :=
  mkCacheInfo (S754_zero false) CACHE_IDLE "1000000" (Some [x01; xff]) "peer" 33554432 12.

Definition sample_response : CacheResponse :=
  mkCacheResponse STATUS_HIT (Some ["fid/sid/frag"]) sample_info.

Definition sample_reply : json :=
  default JNull (@enc_Response sample_float_text (mkResponse STATUS_OK (AnyResponse sample_response))).

Lemma sample_response_wf : wf_CacheResponse sample_response.
Proof.
  split; [by apply ascii_text|by repeat constructor; apply ascii_text|].
  split; by apply ascii_text || split.
Qed.

Lemma Query_receives_response_witness :
  @QueryFileInfoFromCache _ echo_net pkg_errors sample_float_text sample_messages
    (print sample_reply) "peer" CacheRequest_zero = ((sample_response, None), print sample_reply).
Proof.
  apply (@Query_receives_response _ echo_net pkg_errors sample_float_text sample_messages
    (print sample_reply) (print sample_reply) "peer" STATUS_OK CacheRequest_zero
    sample_response sample_reply sample_response_wf); by apply ascii_text || vm_compute.
Defined.

Lemma Query_receives_error_witness :
  let got := print (JObj [("status", JStr STATUS_ERROR); ("data", JStr "bad request")]) in
  @QueryFileInfoFromCache _ echo_net pkg_errors sample_float_text sample_messages
    got "peer" CacheRequest_zero
  = ((CacheResponse_zero, Wrap (errors_New "bad request") "query file info error"), got).
Proof.
  apply (@Query_receives_error _ echo_net pkg_errors sample_float_text sample_messages
    _ _ "peer" STATUS_ERROR "bad request" CacheRequest_zero
    (JObj [("status", JStr STATUS_ERROR); ("data", JStr "bad request")]));
    by apply ascii_text || vm_compute.
Defined.

Lemma Dail_drops_info_witness :
  @DailCacheNode _ echo_net pkg_errors sample_float_text sample_messages (print sample_reply) "peer"
    = ((mkCacheResponse STATUS_OK None CacheInfo_zero, None), print sample_reply).
Proof.
  apply (@Dail_drops_info _ echo_net pkg_errors sample_float_text sample_messages
    (print sample_reply) (print sample_reply) "peer" STATUS_OK
    sample_response sample_reply sample_response_wf); by apply ascii_text || vm_compute.
Defined.

(** A complete reply of 1024 bytes is stored and reported as an error. *)
Lemma Download_stores_reply_witness :
  let got := replicate 1024 x07 in
  @DownloadFileFromCache _ echo_net pkg_errors no_faults got (mkFS ∅ ∅) "peer" "/tmp/f" CacheRequest_zero
    = (Wrap (Some EOF) "download file error", (got, mkFS {[ "/tmp/f" := got ]} ∅)).
Proof.
  apply (@Download_stores_reply _ echo_net pkg_errors no_faults
    (replicate 1024 x07) (replicate 1024 x07) (mkFS ∅ ∅) "peer" "/tmp/f" CacheRequest_zero
    (replicate 1024 x07)); done.
Defined.
