(* ===== verification/External.v ===== *)
(** * Third-party interfaces

    What the program relies on of code outside the repository: the goleveldb
    store, go-ethereum's crypto and common packages, base58, and the order
    interface [Order2Credit] the credit manager calls. Each class states the
    operations, and as laws only what their documentation promises. *)

From S2P Require Import Prelude GoStrings.
From Stdlib Require Import SpecFloat.

(** ** goleveldb *)

Inductive db_error := ErrNotFound | DbFailure (e : string).

Class LevelDB (DB : Type) := {
  db_Get : DB -> string -> bytes + db_error;
  db_Put : DB -> string -> bytes -> DB * error;
  db_Get_Put : forall d k v d', db_Put d k v = (d', None) -> db_Get d' k = inl v;
  db_Get_Put_failed : forall d k v d' e, db_Put d k v = (d', Some e) -> db_Get d' k = db_Get d k;
  db_Get_Put_ne : forall d k k' v d' e, k ≠ k' -> db_Put d k v = (d', e) -> db_Get d' k' = db_Get d k';
}.

(** The store as a finite map, on which every write succeeds. *)
#[export] Program Instance map_db : LevelDB (gmap string bytes) | 100 := {
  db_Get d k := match d !! k with Some v => inl v | None => inr ErrNotFound end;
  db_Put d k v := (<[k := v]> d, None);
}.
Next Obligation. intros d k v d' [= <-]. by rewrite lookup_insert_eq. Qed.
Next Obligation. done. Qed.
Next Obligation. intros d k k' v d' e Hk [= <- <-]. by rewrite lookup_insert_ne. Qed.

(** After a write, the key holds the new value, or the write failed and it holds
    the old one. *)
Lemma db_Put_cases `{LevelDB DB} d k v d' e :
  db_Put d k v = (d', e) ->
  (forall k', k' ≠ k -> db_Get d' k' = db_Get d k') /\
  (db_Get d' k = inl v \/ db_Get d' k = db_Get d k).
Proof.
  intros Hp. split.
  - intros k' Hk. by eapply db_Get_Put_ne; [apply not_eq_sym|].
  - destruct e as [e|]; [right; by eapply db_Get_Put_failed|left; by eapply db_Get_Put].
Qed.

(** ** go-ethereum *)

Class EthCrypto := {
  address : Type;
  address_eq_dec :: EqDecision address;
  pubkey : Type;
  DecompressPubkey : bytes -> pubkey + string;
  PubkeyToAddress : pubkey -> address;
  address_Hex : address -> string;
  address_Bytes : address -> bytes;
  HexToAddress : string -> address;
  BytesToAddress : bytes -> address;
  Bytes2Hex : bytes -> string;
  Keccak256Hash : bytes -> bytes;
  VerifySignature : bytes -> bytes -> bytes -> bool;
  Bytes2Hex_hex : forall b, Bytes2Hex b = hex_EncodeToString b;
  address_Hex_prefix : forall a, strings_HasPrefix (address_Hex a) "0x" = true;
  address_Hex_ascii : forall a, forallb (fun c => bval c <? 128) (to_bytes (address_Hex a)) = true;
}.

(** A toy curve: keys are their bytes, 33 of them, and addresses are strings. *)
Definition sample_crypto : EthCrypto.
Proof.
  refine {| address := string; pubkey := bytes;
    DecompressPubkey b := if decide (length b = 33%nat) then inl b else inr "invalid public key";
    PubkeyToAddress pk := of_bytes pk;
    address_Hex a := if strings_HasPrefix a "0x" && forallb (fun c => bval c <? 128) (to_bytes a)
                     then a else "0x";
    address_Bytes a := to_bytes a;
    HexToAddress s := s;
    BytesToAddress b := of_bytes b;
    Bytes2Hex b := hex_EncodeToString b;
    Keccak256Hash b := take 32 (b ++ replicate 32 x00);
    VerifySignature pk h s := bool_decide (s = pk) |}%list.
  - done.
  - intros a. destruct (strings_HasPrefix a "0x") eqn:E; cbn [andb]; [|done].
    by destruct (forallb _ (to_bytes a)).
  - intros a. destruct (strings_HasPrefix a "0x"); cbn [andb]; [|done].
    destruct (forallb _ (to_bytes a)) eqn:E; [exact E|done].
Defined.

(** ** Base58 *)

Class Base58 := {
  base58_Encode : bytes -> string;
  base58_Decode : string -> bytes + string;
  base58_Decode_Encode : forall b, b ≠ [] -> base58_Decode (base58_Encode b) = inl b;
  base58_Decode_empty : exists e, base58_Decode "" = inr e;   (** "zero length string" *)
}.

(** ** protocol.Order2Credit

    The orders behind a credit: creating one pays for it on chain, checking one
    claims it. *)
Class Order2Credit (W : Type) := {
  CreateCreditOrder : W -> string -> string -> string -> outcome ((string * string * error) * W);
  CheckCreditOrder : W -> bytes -> bytes -> bytes -> outcome ((string * error) * W);
}.

(** ** cess-go-sdk's constants *)

Class CessConfig := {
  DataShards : Z;
  ParShards : Z;
  sdk_FragmentSize : Z;
  SegmentSize : Z;
  cess_config_positive : 0 < DataShards /\ 0 < ParShards /\ 0 < sdk_FragmentSize /\ 0 < SegmentSize;
}.

(** Four data and eight parity fragments of 8 MiB for a segment of 32 MiB. *)
Definition sample_config : CessConfig.
Proof. by refine {| DataShards := 4; ParShards := 8; sdk_FragmentSize := 8388608; SegmentSize := 33554432 |}. Defined.

(** ** The file cache of cess-go-tools

    It keeps files on disk under keys, evicts some, and calls the program back for
    every item added or deleted, in order. *)
Inductive cache_event := ItemAdded (key : string) | ItemDeleted (key : string).

Class FileCache (FSys C : Type) := {
  GetCacheRecord : C -> string -> (string + string) * C;
  cache_GetItem : C -> string -> bool;   (** found, and not nil *)
  cache_keys : C -> list string;         (** in the order of [TraverseCache] *)
  GetLoadRatio : C -> spec_float;
  AddCacheRecord : C -> string -> string -> list cache_event * C;
  MoveFileToCache : C -> FSys -> string -> string -> (error * list cache_event) * (C * FSys);
}.

(** ** net/url

    [ParseRequestURI] accepts an absolute URI or an absolute path, so nothing that
    neither contains a colon nor starts with a slash. *)
Class NetUrl := {
  ParseRequestURI_ok : string -> bool;
  ParseRequestURI_relative : forall s,
    has_char ":"%char s = false -> strings_HasPrefix s "/" = false -> ParseRequestURI_ok s = false;
}.
