(* ===== verification/Credit.v ===== *)
(** * The credit manager: cd2n-lib/credit/credit.go

    What each account has received from and sent to this node, in bytes, kept in a
    leveldb store as JSON, and the limit and trust level computed from it. *)

From S2P Require Import Prelude GoStrings Encoding Json JsonFacts Codec External.

Definition LEVEL_UNTRUST : Z := 3.
Definition LEVEL_COMMON : Z := 2.
Definition LEVEL_TRUST : Z := 1.
Definition LEVEL_OWNER : Z := 0.
Definition DEFALUT_RESOURCE_LIMIT : Z := 4 * 8 * 1024 * 1024.

Record Credit (DB : Type) := mkCredit {
  c_Price : string;
  Owner : string;
  ResourceLimit : Z;   (** uint64 *)
  Record_db : DB;
}.
Arguments mkCredit {DB} _ _ _ _.
Arguments c_Price {DB} _.
Arguments Owner {DB} _.
Arguments ResourceLimit {DB} _.
Arguments Record_db {DB} _.

Definition set_db {DB} (d : DB) (c : Credit DB) : Credit DB :=
  mkCredit (c_Price c) (Owner c) (ResourceLimit c) d.

Record RecordItem `{GoTime} := mkRecordItem {
  Level : Z;              (** int *)
  SentResource : Z;       (** uint64 *)
  ReceivedResource : Z;   (** uint64 *)
  CheckedTimes : Z;       (** uint64 *)
  LastAccess : time;
}.

Section credit.
Context `{LevelDB DB} `{GoTime} `{JsonMessages} `{PkgErrors} `{EthCrypto} `{Order2Credit W}.

Definition RecordItem_zero : RecordItem := mkRecordItem _ 0 0 0 0 zero_time.

Definition set_LastAccess (t : time) (r : RecordItem) : RecordItem :=
  mkRecordItem _ (Level r) (SentResource r) (ReceivedResource r) (CheckedTimes r) t.
Definition set_Level (l : Z) (r : RecordItem) : RecordItem :=
  mkRecordItem _ l (SentResource r) (ReceivedResource r) (CheckedTimes r) (LastAccess r).
Definition add_Sent (n : Z) (r : RecordItem) : RecordItem :=
  mkRecordItem _ (Level r) (u64 (SentResource r + n)) (ReceivedResource r) (CheckedTimes r) (LastAccess r).
Definition add_Received (n : Z) (r : RecordItem) : RecordItem :=
  mkRecordItem _ (Level r) (SentResource r) (u64 (ReceivedResource r + n)) (CheckedTimes r) (LastAccess r).

(** ** The stored form *)

Definition enc_RecordItem (r : RecordItem) : json :=
  JObj [("Level", enc_int (Level r)); ("SentResource", enc_int (SentResource r));
        ("ReceivedResource", enc_int (ReceivedResource r));
        ("CheckedTimes", enc_int (CheckedTimes r)); ("LastAccess", enc_time (LastAccess r))].

Definition dec_RecordItem : decoder RecordItem := dec_struct [
  fld "Level" Level set_Level dec_int64;
  fld "SentResource" SentResource (fun x r => mkRecordItem _ (Level r) x (ReceivedResource r) (CheckedTimes r) (LastAccess r)) dec_uint64;
  fld "ReceivedResource" ReceivedResource (fun x r => mkRecordItem _ (Level r) (SentResource r) x (CheckedTimes r) (LastAccess r)) dec_uint64;
  fld "CheckedTimes" CheckedTimes (fun x r => mkRecordItem _ (Level r) (SentResource r) (ReceivedResource r) x (LastAccess r)) dec_uint64;
  fld "LastAccess" LastAccess set_LastAccess dec_time].

(** ** Operations *)

(** [leveldb.OpenFile] gives the store or fails. *)
Definition NewCreditManager (owner orderPrice : string) (limit : Z) (open : DB + string)
    : option (Credit DB) * error :=
  match open with
  | inr e => (None, Wrap (Some e) "new credit manager error")
  | inl db =>
      let limit := if limit =? 0 then DEFALUT_RESOURCE_LIMIT else limit in
      (Some (mkCredit orderPrice owner limit db), None)
  end.

(** The boolean is [ok]: it is set when the stored text does {e not} decode. *)
Definition GetCreditRecord (c : Credit DB) (key : string) : RecordItem * bool :=
  match db_Get (Record_db c) key with
  | inl res =>
      if decide (res = []) then (RecordItem_zero, false)
      else match Unmarshal dec_RecordItem res RecordItem_zero with
           | (record, None) => (record, false)
           | (record, Some _) => (record, true)
           end
  | inr _ => (RecordItem_zero, false)
  end.

(** [now] is what [time.Now] returns. *)
Definition PutCreditRecord (now : time) (c : Credit DB) (key : string) (record : RecordItem)
    : Credit DB * error :=
  let datas := print (enc_RecordItem (set_LastAccess now record)) in
  let '(d, e) := db_Put (Record_db c) key datas in
  (set_db d c, e).

(** [1 + int(sent/(received+1))%LEVEL_UNTRUST]; the divisor can wrap to zero. *)
Definition level_of (sent received : Z) : outcome Z :=
  let d := u64 (received + 1) in
  if d =? 0 then Panics DivideByZero
  else Returns (1 + Z.rem (i64 (sent / d)) LEVEL_UNTRUST).

Definition relevel (r : RecordItem) : outcome RecordItem :=
  l ← level_of (SentResource r) (ReceivedResource r); Returns (set_Level l r).

Definition AddCreditPoint (now : time) (c : Credit DB) (key : string) (resource : Z)
    : outcome (Credit DB) :=
  let '(record, _) := GetCreditRecord c key in
  let record :=
    if resource <? 0 then add_Sent (u64 (i64 (- resource))) record
    else add_Received (u64 resource) record in
  record ← relevel record;
  Returns (fst (PutCreditRecord now c key record)).

Definition calcLimit (c : Credit DB) (record : RecordItem) : Z * bool :=
  let sent := SentResource record in
  let received := ReceivedResource record in
  let limit := ResourceLimit c in
  if limit <? u64 (sent - received) then
    (u64 (u64 (sent - received) - limit), true)
  else if received <? sent then (u64 (limit - u64 (sent - received)), false)
  else (u64 (received - u64 (sent - limit)), false).

Definition IsLimited (now : time) (c : Credit DB) (key : string) : (Z * bool) * Credit DB :=
  let '(record, ok) := GetCreditRecord c key in
  if ok then (calcLimit c record, c)
  else ((ResourceLimit c, false), fst (PutCreditRecord now c key record)).

(** [v / p], a zero price counting as one. *)
Definition bill_units (v p : Z) : Z :=
  let p := if big_Int64 p =? 0 then 1 else p in
  big_Uint64 (big_Div v p).

Definition CheckCredit (now : time) (w : W) (c : Credit DB) (pk data sign : bytes)
    : outcome (bool * (Credit DB * W)) :=
  match DecompressPubkey pk with
  | inr _ => Returns (false, (c, w))
  | inl k =>
      let key := address_Hex (PubkeyToAddress k) in
      let '(record, ok) := GetCreditRecord c key in
      if negb ok then Returns (true, (fst (PutCreditRecord now c key record), w))
      else
        let '(_, ok) := calcLimit c record in
        if decide (data = [] \/ sign = []) then Returns (negb ok, (c, w))
        else
          '(value, err, w) ← CheckCreditOrder w pk data sign;
          match err, big_SetString value, big_SetString (c_Price c) with
          | Some _, _, _ | _, None, _ | _, _, None => Returns (negb ok, (c, w))
          | None, Some v, Some p =>
              record ← relevel (add_Received (bill_units v p) record);
              let '(_, ok) := calcLimit c record in
              Returns (negb ok, (fst (PutCreditRecord now c key record), w))
          end
  end.

Definition PaymentCreditBill (now : time) (w : W) (c : Credit DB) (key nodeId value : string)
    : outcome ((string * string * error) * (Credit DB * W)) :=
  let msg := "payment credit bill error" in
  let '(record, _) := GetCreditRecord c key in
  '(hash, orderId, err, w) ← CreateCreditOrder w key nodeId value;
  match err with
  | Some e => Returns (hash, orderId, Wrap (Some e) msg, (c, w))
  | None =>
      match big_SetString value with
      | None => Returns (hash, orderId, Wrap (errors_New "bad order value") msg, (c, w))
      | Some v =>
          match big_SetString (c_Price c) with
          | None => Returns (hash, orderId, Wrap (errors_New "bad order price") msg, (c, w))
          | Some p =>
              record ← relevel (add_Sent (bill_units v p) record);
              Returns (hash, orderId, None, (fst (PutCreditRecord now c key record), w))
          end
      end
  end.
End credit.
