(* ===== verification/CreditFacts.v ===== *)
(** * Properties of the credit manager

    Accounting, limits, trust levels, the well-formed store and what the credit
    check decides on it. *)

From S2P Require Import Prelude GoStrings Encoding Json JsonFacts Codec External Credit.

(** ** Records *)

Section records.
Context `{GoTime}.

Record wf_RecordItem (r : RecordItem) : Prop := {
  wf_Level : is_i64 (Level r);
  wf_Sent : is_u64 (SentResource r);
  wf_Received : is_u64 (ReceivedResource r);
  wf_Checked : is_u64 (CheckedTimes r);
}.

Lemma wf_RecordItem_zero : wf_RecordItem RecordItem_zero.
Proof. split; unfold is_i64, is_u64; cbn; lia. Qed.

Lemma wf_set_LastAccess t r : wf_RecordItem r -> wf_RecordItem (set_LastAccess t r).
Proof. by intros []. Qed.
Lemma wf_add_Sent n r : wf_RecordItem r -> wf_RecordItem (add_Sent n r).
Proof. intros []. split; cbn; auto with goint. Qed.
Lemma wf_add_Received n r : wf_RecordItem r -> wf_RecordItem (add_Received n r).
Proof. intros []. split; cbn; auto with goint. Qed.

Lemma level_of_range sent received l : level_of sent received = Returns l -> -1 <= l <= 3.
Proof.
  unfold level_of. case_match; [done|]. intros [= <-].
  unfold LEVEL_UNTRUST. Z.to_euclidean_division_equations. lia.
Qed.

Lemma wf_relevel r r' : wf_RecordItem r -> relevel r = Returns r' -> wf_RecordItem r'.
Proof.
  intros [] Hr. unfold relevel in Hr.
  apply outcome_bind_Returns in Hr as (l & Hl%level_of_range & [= <-]).
  split; cbn; try done. unfold is_i64. lia.
Qed.

Lemma wf_enc_RecordItem r : wf_json (enc_RecordItem r).
Proof.
  constructor.
  repeat first [apply Forall_nil_2 | apply Forall_cons_2]; cbn;
    (split; [by apply ascii_utf8|]); eauto with json.
Qed.

Lemma decode_RecordItem `{JsonMessages} (old r : RecordItem) :
  wf_RecordItem r ->
  Unmarshal dec_RecordItem (print (enc_RecordItem r)) old = (r, None).
Proof.
  intros []. apply Unmarshal_print; [apply wf_enc_RecordItem|].
  unfold dec_RecordItem, enc_RecordItem, dec_struct. decode_all. by destruct r.
Qed.

Lemma dec_RecordItem_typed : typed_decoder wf_RecordItem dec_RecordItem.
Proof.
  apply dec_struct_typed. repeat apply Forall_cons_2; [..|apply Forall_nil_2];
    [eapply (fld_typed _ is_i64); [exact dec_int64_typed|..]
    |eapply (fld_typed _ is_u64); [exact dec_uint64_typed|..]
    |eapply (fld_typed _ is_u64); [exact dec_uint64_typed|..]
    |eapply (fld_typed _ is_u64); [exact dec_uint64_typed|..]
    |apply (fld_typed _ (fun _ => True)); [done|done|..]]; try (by intros ? []);
    intros ? ? [] ?; by split.
Qed.
End records.
Create HintDb credit.
#[export] Hint Resolve wf_RecordItem_zero wf_set_LastAccess wf_add_Sent wf_add_Received wf_relevel : credit.

Lemma bill_units_exact n price :
  0 < price < 2 ^ 63 -> 0 <= n < 2 ^ 64 -> bill_units (n * price) price = n.
Proof.
  intros Hp Hn. unfold bill_units.
  rewrite big_Int64_id by lia.
  rewrite (proj2 (Z.eqb_neq _ _)) by lia.
  rewrite big_Div_exact by lia. apply big_Uint64_id. unfold is_u64. lia.
Qed.

(** ** The store *)

Section store.
Context `{LevelDB DB} `{GoTime} `{JsonMessages} `{PkgErrors} `{EthCrypto} `{Order2Credit W}.

(** Every entry is the text of a well-formed record. *)
Definition store_ok (c : Credit DB) : Prop :=
  forall k v, db_Get (Record_db c) k = inl v ->
    exists r, wf_RecordItem r /\ v = print (enc_RecordItem r).

Lemma print_record_not_nil r : print (enc_RecordItem r) ≠ [].
Proof. done. Qed.

Lemma GetCreditRecord_typed c key : wf_RecordItem (fst (GetCreditRecord c key)).
Proof.
  unfold GetCreditRecord. destruct (db_Get _ _) as [v|e]; [|exact wf_RecordItem_zero].
  case_decide; [exact wf_RecordItem_zero|].
  pose proof (Unmarshal_typed _ _ v _ dec_RecordItem_typed wf_RecordItem_zero) as Hr.
  by destruct (Unmarshal _ _ _) as [r []].
Qed.

(** On such a store the record is found, and the flag is never set. *)
Lemma GetCreditRecord_ok c key :
  store_ok c ->
  exists r, wf_RecordItem r /\ GetCreditRecord c key = (r, false)
    /\ (r = RecordItem_zero \/ db_Get (Record_db c) key = inl (print (enc_RecordItem r))).
Proof.
  intros Hc. unfold GetCreditRecord. destruct (db_Get (Record_db c) key) as [v|e] eqn:E.
  - destruct (Hc _ _ E) as (r & Hr & ->). exists r.
    rewrite decide_False by apply print_record_not_nil.
    rewrite decode_RecordItem by done. auto.
  - exists RecordItem_zero. auto using wf_RecordItem_zero.
Qed.

Lemma GetCreditRecord_stored c key r :
  wf_RecordItem r -> db_Get (Record_db c) key = inl (print (enc_RecordItem r)) ->
  GetCreditRecord c key = (r, false).
Proof.
  intros Hr E. unfold GetCreditRecord. rewrite E.
  rewrite decide_False by apply print_record_not_nil. by rewrite decode_RecordItem.
Qed.

Lemma PutCreditRecord_ok now c key r :
  store_ok c -> wf_RecordItem r -> store_ok (fst (PutCreditRecord now c key r)).
Proof.
  intros Hc Hr k v. unfold PutCreditRecord.
  destruct (db_Put _ _ _) as [d e] eqn:E. cbn.
  destruct (db_Put_cases _ _ _ _ _ E) as [Hne Heq].
  destruct (decide (k = key)) as [->|Hk]; [|rewrite Hne by done; apply Hc].
  destruct Heq as [->| ->]; [|apply Hc]. intros [= <-].
  exists (set_LastAccess now r). auto with credit.
Qed.

(** A write that succeeds is read back; other accounts are not touched. *)
Lemma Get_Put_same now c key r c' :
  wf_RecordItem r -> PutCreditRecord now c key r = (c', None) ->
  GetCreditRecord c' key = (set_LastAccess now r, false).
Proof.
  intros Hr. unfold PutCreditRecord.
  destruct (db_Put _ _ _) as [d e] eqn:E. intros [= <- ->].
  apply GetCreditRecord_stored; [auto with credit|]. by eapply db_Get_Put.
Qed.

Lemma Get_Put_other now c key key' r :
  key' ≠ key -> GetCreditRecord (fst (PutCreditRecord now c key r)) key' = GetCreditRecord c key'.
Proof.
  intros Hk. unfold PutCreditRecord. destruct (db_Put _ _ _) as [d e] eqn:E. cbn.
  destruct (db_Put_cases _ _ _ _ _ E) as [Hne _].
  unfold GetCreditRecord. cbn. by rewrite Hne.
Qed.

Lemma Put_keeps now c key r :
  let c' := fst (PutCreditRecord now c key r) in
  ResourceLimit c' = ResourceLimit c /\ c_Price c' = c_Price c /\ Owner c' = Owner c.
Proof. unfold PutCreditRecord. by destruct (db_Put _ _ _). Qed.

Lemma AddCreditPoint_other now c key resource c' key' :
  AddCreditPoint now c key resource = Returns c' -> key' ≠ key ->
  GetCreditRecord c' key' = GetCreditRecord c key'.
Proof.
  unfold AddCreditPoint. destruct (GetCreditRecord c key) as [r b].
  intros (r' & _ & [= <-])%outcome_bind_Returns. apply Get_Put_other.
Qed.

(** What [PutCreditRecord] stores, [GetCreditRecord] reads back: over the full
    [uint64] range of the counters, only the access time replaced by the time of the
    write; no other account changes. *)
Theorem Put_Get_round_trip (now : time) (c : Credit DB) (key : string) (r : RecordItem) (c' : Credit DB) :
  wf_RecordItem r -> PutCreditRecord now c key r = (c', None) ->
  GetCreditRecord c' key
    = (mkRecordItem _ (Level r) (SentResource r) (ReceivedResource r) (CheckedTimes r) now, false)
  /\ forall key', key' ≠ key -> GetCreditRecord c' key' = GetCreditRecord c key'.
Proof.
  intros Hr Hp. split; [by eapply Get_Put_same|].
  intros key' Hk. pose proof (Get_Put_other now c key key' r Hk) as Ho. by rewrite Hp in Ho.
Qed.

(** ** Reachable managers *)

(** The operations of a running node on its manager. *)
Inductive credit_step (c : Credit DB) : Credit DB -> Prop :=
  | step_AddCreditPoint now key resource c' :
      AddCreditPoint now c key resource = Returns c' -> credit_step c c'
  | step_IsLimited now key :
      credit_step c (snd (IsLimited now c key))
  | step_CheckCredit now w pk data sign b c' w' :
      CheckCredit now w c pk data sign = Returns (b, (c', w')) -> credit_step c c'
  | step_PaymentCreditBill now w key nodeId value res c' w' :
      PaymentCreditBill now w c key nodeId value = Returns (res, (c', w')) -> credit_step c c'.

Lemma AddCreditPoint_store now c key resource c' :
  store_ok c -> AddCreditPoint now c key resource = Returns c' -> store_ok c'.
Proof.
  intros Hc. unfold AddCreditPoint.
  destruct (GetCreditRecord_ok c key Hc) as (r & Hr & -> & _).
  intros (r' & Hr' & [= <-])%outcome_bind_Returns.
  apply PutCreditRecord_ok; [done|]. eapply wf_relevel; [|done].
  case_match; auto with credit.
Qed.

Lemma IsLimited_store now c key : store_ok c -> store_ok (snd (IsLimited now c key)).
Proof.
  intros Hc. unfold IsLimited. destruct (GetCreditRecord_ok c key Hc) as (r & Hr & -> & _).
  by apply PutCreditRecord_ok.
Qed.

Lemma PaymentCreditBill_store now w c key nodeId value res c' w' :
  store_ok c -> PaymentCreditBill now w c key nodeId value = Returns (res, (c', w')) ->
  store_ok c'.
Proof.
  intros Hc. unfold PaymentCreditBill.
  destruct (GetCreditRecord_ok c key Hc) as (r & Hr & -> & _).
  intros (([[hash orderId] err] & w1) & _ & Hp)%outcome_bind_Returns.
  repeat (case_match; simplify_eq; try done).
  apply outcome_bind_Returns in Hp as (r' & Hr' & [= _ <- _]).
  apply PutCreditRecord_ok; [done|]. eapply wf_relevel; [|done]. auto with credit.
Qed.

(** On a well-formed store the credit check of a valid key always passes: it
    never looks at the limit, the order or its signature. *)
Lemma CheckCredit_passes now w c pk k data sign :
  store_ok c -> DecompressPubkey pk = inl k ->
  exists c', CheckCredit now w c pk data sign = Returns (true, (c', w)) /\ store_ok c'.
Proof.
  intros Hc Hk. unfold CheckCredit. rewrite Hk.
  destruct (GetCreditRecord_ok c (address_Hex (PubkeyToAddress k)) Hc) as (r & Hr & -> & _).
  eexists. split; [done|]. by apply PutCreditRecord_ok.
Qed.

Lemma credit_step_ok c c' : store_ok c -> credit_step c c' -> store_ok c'.
Proof.
  intros Hc [now key res c1 Hs|now key|now w pk data sign b c1 w1 Hs|now w key n v r c1 w1 Hs].
  - by eapply AddCreditPoint_store.
  - by apply IsLimited_store.
  - destruct (DecompressPubkey pk) as [k|e] eqn:E.
    + destruct (CheckCredit_passes now w c pk k data sign Hc E) as (c2 & Hs2 & Hc2).
      assert (c1 = c2) as -> by congruence. done.
    + unfold CheckCredit in Hs. rewrite E in Hs. by simplify_eq.
  - by eapply PaymentCreditBill_store.
Qed.

Lemma reachable_store_ok c c' : store_ok c -> rtc credit_step c c' -> store_ok c'.
Proof. intros Hc Hr. induction Hr as [|c c1 c2 Hs Hr IH]; eauto using credit_step_ok. Qed.

(** C29: From an empty store, whatever operations have run, [CheckCredit] admits every
    request whose public key decodes, without consulting the order contract: no
    account is ever frozen, however much it has downloaded. *)
Theorem CheckCredit_admits_all (c0 c : Credit DB) (now : time) (w : W)
    (pk data sign : bytes) (k : pubkey) :
  (forall key, exists e, db_Get (Record_db c0) key = inr e) ->
  rtc credit_step c0 c -> DecompressPubkey pk = inl k ->
  exists c', CheckCredit now w c pk data sign = Returns (true, (c', w)) /\ store_ok c'.
Proof.
  intros Hempty Hr Hk. apply (CheckCredit_passes now w c pk k); [|done].
  eapply reachable_store_ok; [|exact Hr]. intros key v Hv.
  destruct (Hempty key) as [e He]. congruence.
Qed.

(** In the same states [IsLimited] reports every account as not limited, with the
    node's whole resource limit. *)
Theorem IsLimited_never (c0 c : Credit DB) (now : time) (key : string) :
  (forall key, exists e, db_Get (Record_db c0) key = inr e) ->
  rtc credit_step c0 c ->
  fst (IsLimited now c key) = (ResourceLimit c, false).
Proof.
  intros Hempty Hr. assert (store_ok c) as Hc.
  { eapply reachable_store_ok; [|exact Hr]. intros key' v Hv.
    destruct (Hempty key') as [e He]. congruence. }
  unfold IsLimited. by destruct (GetCreditRecord_ok c key Hc) as (r & _ & -> & _).
Qed.

(** C28: The records are well typed whatever bytes the store holds, foreign or damaged ones
    included: a record that is read has an [int] level and [uint64] counters, and one that
    [AddCreditPoint] has stored decodes again, with a level between -1 and 3. *)
Theorem records_typed (c c' : Credit DB) (now : time) (key : string) (resource : Z)
    (Hput : forall d k v, exists d', db_Put d k v = (d', None))
    (Hadd : AddCreditPoint now c key resource = Returns c') :
  (forall key', wf_RecordItem (fst (GetCreditRecord c key')) /\ wf_RecordItem (fst (GetCreditRecord c' key')))
  /\ -1 <= Level (fst (GetCreditRecord c' key)) <= 3 /\ snd (GetCreditRecord c' key) = false.
Proof.
  split; [intros key'; split; apply GetCreditRecord_typed|].
  unfold AddCreditPoint in Hadd. pose proof (GetCreditRecord_typed c key) as Hr.
  destruct (GetCreditRecord c key) as [r bad]. cbn in Hr.
  apply outcome_bind_Returns in Hadd as (r' & Hr' & [= <-]).
  assert (wf_RecordItem r') as Hwf by (eapply wf_relevel; [|done]; case_match; auto with credit).
  destruct (PutCreditRecord now c key r') as [c1 e] eqn:E. cbn.
  assert (e = None) as ->.
  { unfold PutCreditRecord in E. destruct (Hput (Record_db c) key (print (enc_RecordItem (set_LastAccess now r')))) as [d Hd].
    rewrite Hd in E. congruence. }
  rewrite (Get_Put_same now c key r' c1 Hwf E). cbn. split; [|done].
  unfold relevel in Hr'. apply outcome_bind_Returns in Hr' as (l & Hl%level_of_range & [= <-]). done.
Qed.

(** ** Accounting *)

(** A [PutCreditRecord] that cannot fail. *)
Lemma Put_effect now c key r :
  (forall d k v, exists d', db_Put d k v = (d', None)) -> store_ok c -> wf_RecordItem r ->
  let c' := fst (PutCreditRecord now c key r) in
  store_ok c' /\ GetCreditRecord c' key = (set_LastAccess now r, false)
  /\ (forall key', key' ≠ key -> GetCreditRecord c' key' = GetCreditRecord c key').
Proof.
  intros Hput Hc Hr c'. split_and!; [by apply PutCreditRecord_ok| |].
  - apply (Get_Put_same now c key r c'); [done|]. unfold c', PutCreditRecord.
    destruct (Hput (Record_db c) key (print (enc_RecordItem (set_LastAccess now r)))) as [d ->].
    done.
  - intros. by apply Get_Put_other.
Qed.

(** [AddCreditPoint] adds a positive amount to what was received and the absolute
    value of a negative one to what was sent, recomputes the level from the new
    totals, stamps the time and leaves every other account alone. *)
Lemma AddCreditPoint_effect (c : Credit DB) (now : time) (key : string) (resource : Z) :
  store_ok c -> - 2 ^ 63 < resource < 2 ^ 63 ->
  (forall d k v, exists d', db_Put d k v = (d', None)) ->
  let r := fst (GetCreditRecord c key) in
  let sent := if resource <? 0 then u64 (SentResource r - resource) else SentResource r in
  let received := if resource <? 0 then ReceivedResource r else u64 (ReceivedResource r + resource) in
  match level_of sent received with
  | Panics p => AddCreditPoint now c key resource = Panics p
  | Returns l => exists c',
      AddCreditPoint now c key resource = Returns c' /\ store_ok c'
      /\ GetCreditRecord c' key = (mkRecordItem _ l sent received (CheckedTimes r) now, false)
      /\ (forall key', key' ≠ key -> GetCreditRecord c' key' = GetCreditRecord c key')
  end.
Proof.
  intros Hc Hres Hput.
  destruct (GetCreditRecord_ok c key Hc) as (r & Hr & Hget & _).
  intros r' sent received. assert (r' = r) as Hr' by (unfold r'; by rewrite Hget).
  clearbody r'. subst r'. unfold AddCreditPoint. rewrite Hget.
  set (rec := if resource <? 0 then _ else _).
  assert (rec = mkRecordItem _ (Level r) sent received (CheckedTimes r) (LastAccess r)) as Hrec.
  { unfold rec, sent, received. destruct (Z.ltb_spec resource 0).
    - unfold add_Sent. rewrite (i64_id (- resource)), (u64_id (- resource)) by (unfold is_i64, is_u64; lia).
      by rewrite <- Z.sub_opp_r, Z.opp_involutive.
    - unfold add_Received. by rewrite (u64_id resource) by (unfold is_u64; lia). }
  assert (wf_RecordItem rec) as Hwf by (unfold rec; case_match; auto with credit).
  unfold relevel. rewrite Hrec in *. cbn.
  destruct (level_of sent received) as [l|p] eqn:El; [|done]. cbn.
  eexists. split; [done|]. apply Put_effect; [done|done|].
  eapply wf_relevel; [exact Hwf|]. unfold relevel. cbn. by rewrite El.
Qed.
(** A payment whose order was created and whose amount and price are numbers adds
    the whole-unit quotient [value / price] to [SentResource] and changes nothing else
    but level and time: [n] units bought are [n] bytes of credit, while every fragment
    downloaded is booked in bytes. *)
Theorem PaymentCreditBill_effect (now : time) (w w' : W) (c : Credit DB)
    (key nodeId hash orderId : string) (n price : Z) :
  store_ok c -> (forall d k v, exists d', db_Put d k v = (d', None)) ->
  0 < price < 2 ^ 63 -> 0 <= n < 2 ^ 64 -> c_Price c = big_String price ->
  CreateCreditOrder w key nodeId (big_String (n * price)) = Returns ((hash, orderId, None), w') ->
  let r := fst (GetCreditRecord c key) in
  let sent := u64 (SentResource r + n) in
  match level_of sent (ReceivedResource r) with
  | Panics p => PaymentCreditBill now w c key nodeId (big_String (n * price)) = Panics p
  | Returns l => exists c',
      PaymentCreditBill now w c key nodeId (big_String (n * price))
        = Returns ((hash, orderId, None), (c', w'))
      /\ GetCreditRecord c' key
           = (mkRecordItem _ l sent (ReceivedResource r) (CheckedTimes r) now, false)
      /\ (forall key', key' ≠ key -> GetCreditRecord c' key' = GetCreditRecord c key')
  end.
Proof.
  intros Hc Hput Hprice Hn Hp Ho.
  destruct (GetCreditRecord_ok c key Hc) as (r & Hr & Hget & _).
  intros r' sent. assert (r' = r) as Hr' by (unfold r'; by rewrite Hget).
  clearbody r'. subst r'. unfold PaymentCreditBill.
  rewrite Hget, Ho. cbn [mbind outcome_bind]. rewrite Hp, !big_SetString_String, bill_units_exact by done.
  unfold relevel. cbn. fold sent.
  destruct (level_of sent (ReceivedResource r)) as [l|p] eqn:El; [|done]. cbn.
  eexists. split; [done|].
  destruct (Put_effect now c key (set_Level l (add_Sent n r)) Hput Hc) as (_ & Hg & Hothers).
  { eapply wf_relevel; [apply (wf_add_Sent n r Hr)|]. unfold relevel. cbn. fold sent. by rewrite El. }
  by split.
Qed.
End store.

(** ** Levels and limits *)

Lemma u64_succ_zero received : is_u64 received -> u64 (received + 1) = 0 <-> received = 2 ^ 64 - 1.
Proof.
  unfold is_u64. intros Hr. split; [|by intros ->].
  intros Hu. destruct (Z.lt_ge_cases received (2 ^ 64 - 1)); [|lia].
  rewrite u64_id in Hu by (unfold is_u64; lia). lia.
Qed.

(** The level is [1 + (sent / (received + 1)) mod 3]: between 1 and 3 as long as the
    quotient fits an [int64], and the computation panics exactly when the received
    counter is at its maximum, where [received + 1] wraps to zero. *)
Lemma level_of_spec (sent received : Z) :
  is_u64 sent -> is_u64 received ->
  (received = 2 ^ 64 - 1 -> level_of sent received = Panics DivideByZero) /\
  (received ≠ 2 ^ 64 - 1 -> sent / (received + 1) < 2 ^ 63 ->
   level_of sent received = Returns (1 + (sent / (received + 1)) mod 3)).
Proof.
  intros Hs Hr. unfold level_of. split.
  - intros ->. done.
  - intros Hne Hq. unfold is_u64 in *. rewrite u64_id by (unfold is_u64; lia).
    rewrite (proj2 (Z.eqb_neq _ _)) by lia.
    assert (0 <= sent / (received + 1)) by (apply Z.div_pos; lia).
    rewrite i64_id by (unfold is_i64; lia).
    by rewrite Z.rem_mod_nonneg by (unfold LEVEL_UNTRUST; lia).
Qed.

(** The level wraps around: an account that has downloaded three times its credit
    more has the same level as before, so the most indebted accounts get the level of a
    trusted one again. *)
Theorem level_cycles (sent received : Z) :
  is_u64 (sent + 3 * (received + 1)) -> 0 <= sent -> 0 <= received < 2 ^ 64 - 1 ->
  (sent + 3 * (received + 1)) / (received + 1) < 2 ^ 63 ->
  level_of (sent + 3 * (received + 1)) received = level_of sent received.
Proof.
  intros Hs Hp Hr Hq. unfold is_u64 in Hs.
  assert (sent / (received + 1) < 2 ^ 63).
  { eapply Z.le_lt_trans; [|exact Hq]. apply Z.div_le_mono; lia. }
  rewrite !(fun s H1 H2 H3 H4 => proj2 (level_of_spec s received H1 H2) H3 H4)
    by (unfold is_u64; lia).
  rewrite Z.div_add by lia. f_equal. f_equal.
  rewrite <- (Z.mod_add (sent / (received + 1)) 1 3) by lia. f_equal.
Qed.

Lemma level_cycles_witness : level_of (0 + 3 * (0 + 1)) 0 = level_of 0 0.
Proof. apply (level_cycles 0 0); by vm_compute || (split; by vm_compute). Defined.

Section limits.
Context {DB : Type} `{GoTime}.

(** What the limit means: the debt is what was sent and not paid back. *)
Definition limit_spec (limit debt : Z) : Z * bool :=
  if limit <? debt then (debt - limit, true) else (limit - debt, false).

(** For an account in debt (or even), [calcLimit] is the intended function of the
    debt: limited by the excess over the resource limit, else what is left of it. *)
Theorem calcLimit_debt (c : Credit DB) (r : RecordItem) :
  is_u64 (ResourceLimit c) -> is_u64 (SentResource r) -> is_u64 (ReceivedResource r) ->
  ReceivedResource r <= SentResource r ->
  calcLimit c r = limit_spec (ResourceLimit c) (SentResource r - ReceivedResource r).
Proof.
  unfold is_u64. intros Hl Hs Hr Hle. unfold calcLimit, limit_spec.
  rewrite (u64_id (SentResource r - ReceivedResource r)) by (unfold is_u64; lia).
  destruct (Z.ltb_spec (ResourceLimit c) (SentResource r - ReceivedResource r)).
  - by rewrite u64_id by (unfold is_u64; lia).
  - destruct (Z.ltb_spec (ReceivedResource r) (SentResource r)).
    + by rewrite u64_id by (unfold is_u64; lia).
    + f_equal. assert (ReceivedResource r = SentResource r) as -> by lia.
      unfold u64. rewrite Zminus_mod_idemp_r.
      rewrite Z.mod_small by lia. lia.
Qed.

(** An account that has sent more than it received, by anything less than
    [2^64 - limit], is reported as limited, with an excess near [2^64]: the unsigned
    difference wraps around. *)
Theorem calcLimit_prepaid (c : Credit DB) (r : RecordItem) :
  is_u64 (ResourceLimit c) -> is_u64 (SentResource r) -> is_u64 (ReceivedResource r) ->
  SentResource r < ReceivedResource r ->
  ReceivedResource r - SentResource r < 2 ^ 64 - ResourceLimit c ->
  calcLimit c r =
    (2 ^ 64 - (ReceivedResource r - SentResource r) - ResourceLimit c, true).
Proof.
  unfold is_u64. intros Hl Hs Hr Hlt Hd. unfold calcLimit.
  rewrite (u64_below (SentResource r - ReceivedResource r)) by lia.
  rewrite (proj2 (Z.ltb_lt _ _)) by lia.
  rewrite u64_id by (unfold is_u64; lia). f_equal. lia.
Qed.
End limits.

Definition sample_record (sent received : Z) : @RecordItem sample_time :=
  @mkRecordItem sample_time 1 sent received 0 0.
Definition sample_credit : Credit (gmap string bytes) :=
  mkCredit "10" "0xowner" DEFALUT_RESOURCE_LIMIT ∅.

Lemma calcLimit_debt_witness :
  @calcLimit _ sample_time sample_credit (sample_record 50000000 5)
    = limit_spec DEFALUT_RESOURCE_LIMIT (50000000 - 5).
Proof. apply (@calcLimit_debt _ sample_time sample_credit); by vm_compute || (split; by vm_compute). Defined.

Lemma calcLimit_prepaid_witness :
  @calcLimit _ sample_time sample_credit (sample_record 0 8388608)
    = (2 ^ 64 - (8388608 - 0) - DEFALUT_RESOURCE_LIMIT, true).
Proof. apply (@calcLimit_prepaid _ sample_time sample_credit); by vm_compute || (split; by vm_compute). Defined.

(** ** The ledger the manager implements *)

(** Bytes sent to and received from each account, unbounded. *)
Definition ledger := string -> Z * Z.

Definition ledger_add (key : string) (resource : Z) (l : ledger) : ledger := fun k =>
  if decide (k = key) then
    if resource <? 0 then ((l k).1 - resource, (l k).2) else ((l k).1, (l k).2 + resource)
  else l k.

Section ledger.
Context `{LevelDB DB} `{GoTime} `{JsonMessages}.

(** The counters are the ledger's totals modulo [2^64]. *)
Definition implements (c : Credit DB) (l : ledger) : Prop :=
  store_ok c /\ forall k,
    SentResource (fst (GetCreditRecord c k)) = u64 (l k).1
    /\ ReceivedResource (fst (GetCreditRecord c k)) = u64 (l k).2.

Fixpoint run_points (ops : list (time * string * Z)) (c : Credit DB) : outcome (Credit DB) :=
  match ops with
  | [] => Returns c
  | (now, key, resource) :: ops => c ← AddCreditPoint now c key resource; run_points ops c
  end.

Definition ledger_run (ops : list (time * string * Z)) (l : ledger) : ledger :=
  foldl (fun l op => ledger_add op.1.2 op.2 l) l ops.

Lemma u64_add_idemp a b : u64 (u64 a + b) = u64 (a + b).
Proof. unfold u64. apply Zplus_mod_idemp_l. Qed.

Lemma implements_step c l now key resource c' :
  (forall d k v, exists d', db_Put d k v = (d', None)) ->
  - 2 ^ 63 < resource < 2 ^ 63 -> implements c l ->
  AddCreditPoint now c key resource = Returns c' ->
  implements c' (ledger_add key resource l).
Proof.
  intros Hput Hres [Hc Hl] Hs.
  pose proof (AddCreditPoint_effect c now key resource Hc Hres Hput) as He. cbv zeta in He.
  case_match; [|congruence]. destruct He as (c1 & Hs1 & Hok & Hget & Hother).
  assert (c1 = c') as -> by congruence. split; [done|]. intros k. unfold ledger_add.
  destruct (decide (k = key)) as [->|Hk]; [|rewrite Hother by done; apply Hl].
  rewrite Hget. cbn. destruct (Hl key) as [-> ->].
  destruct (resource <? 0); cbn; split; try done.
  - unfold Z.sub. by rewrite u64_add_idemp.
  - by rewrite u64_add_idemp.
Qed.

(** C10: Refinement: any sequence of [AddCreditPoint] calls that does not panic leaves
    in the store, for every account, the totals of an unbounded ledger taken modulo
    [2^64]. *)
Theorem points_implement_ledger (ops : list (time * string * Z)) (c c' : Credit DB) (l : ledger) :
  (forall d k v, exists d', db_Put d k v = (d', None)) ->
  Forall (fun op => - 2 ^ 63 < op.2 < 2 ^ 63) ops -> implements c l ->
  run_points ops c = Returns c' -> implements c' (ledger_run ops l).
Proof.
  intros Hput Hops. revert c l. induction Hops as [|[[now key] res] ops Hop Hops IH];
    intros c l Hc Hr; cbn in *; [by simplify_eq|].
  apply outcome_bind_Returns in Hr as (c1 & Hs & Hr).
  eapply IH; [|done]. by eapply implements_step.
Qed.

(** The run itself cannot fail while the received totals stay below the maximum. *)
Lemma run_points_total ops c l :
  (forall d k v, exists d', db_Put d k v = (d', None)) ->
  Forall (fun op => - 2 ^ 63 < op.2 < 2 ^ 63) ops -> implements c l ->
  (forall ops1 ops2 k, ops = (ops1 ++ ops2)%list -> 0 <= (ledger_run ops1 l k).2 < 2 ^ 64 - 1) ->
  exists c', run_points ops c = Returns c'.
Proof.
  intros Hput Hops. revert c l. induction Hops as [|[[now key] res] ops Hop Hops IH];
    intros c l Hc Hb; cbn; [by eexists|].
  pose proof Hc as [Hok Hl].
  pose proof (AddCreditPoint_effect c now key res Hok Hop Hput) as He. cbv zeta in He.
  assert (forall r, r = (if res <? 0 then ReceivedResource (GetCreditRecord c key).1
    else u64 (ReceivedResource (GetCreditRecord c key).1 + res)) -> is_u64 r /\ r ≠ 2 ^ 64 - 1) as Hr.
  { intros r ->. destruct (Hl key) as [_ ->].
    assert (0 <= (ledger_run [(now, key, res)] l key).2 < 2 ^ 64 - 1) as Hb1
      by exact (Hb [_] ops key eq_refl).
    assert (0 <= (l key).2 < 2 ^ 64 - 1) as Hb0
      by exact (Hb [] _ key eq_refl).
    cbn in Hb1. unfold ledger_add in Hb1. rewrite decide_True in Hb1 by done.
    destruct (res <? 0); cbn in Hb1.
    - rewrite u64_id by (unfold is_u64; lia). unfold is_u64. lia.
    - rewrite u64_add_idemp, u64_id by (unfold is_u64; lia). unfold is_u64. lia. }
  destruct (level_of _ _) as [lv|p] eqn:El in He.
  - destruct He as (c1 & Hs & _). rewrite Hs. cbn.
    apply (IH c1 (ledger_add key res l)); [by eapply implements_step|].
    intros ops1 ops2 k ->. apply (Hb ((now, key, res) :: ops1) ops2 k). done.
  - exfalso. unfold level_of in El. destruct (u64 _ =? 0) eqn:Ez; [|done].
    apply Z.eqb_eq in Ez. destruct (Hr _ eq_refl) as [Hr1 Hr2]. by apply Hr2, (u64_succ_zero _ Hr1).
Qed.
End ledger.

(** ** Sample runs *)

(** An order book on which every order is created, at no cost. *)
Definition sample_orders : Order2Credit unit := {|
  CreateCreditOrder _ key nodeId _ := Returns (("0xhash", nodeId, None), tt);
  CheckCreditOrder _ _ _ _ := Returns (("0", None), tt) |}.

Definition sample_key : bytes := replicate 33 x00.

Lemma map_db_empty key : exists e, @db_Get _ map_db ∅ key = inr e.
Proof. by exists ErrNotFound. Qed.
Lemma map_db_puts (d : gmap string bytes) k v : exists d', @db_Put _ map_db d k v = (d', None).
Proof. by eexists. Qed.
Lemma sample_store_ok : @store_ok _ map_db sample_time sample_credit.
Proof. intros k v [=]. Qed.

(** The account has taken 100 MiB, three times its limit, and is still admitted. *)
Definition sample_indebted : Credit (gmap string bytes) :=
  match @AddCreditPoint _ map_db sample_time sample_messages 17 sample_credit "0xclient" (-104857600) with
  | Returns c => c
  | Panics _ => sample_credit
  end.

Lemma sample_indebted_reachable :
  rtc (@credit_step _ map_db sample_time sample_messages pkg_errors sample_crypto _ sample_orders)
    sample_credit sample_indebted.
Proof.
  apply rtc_once. apply (@step_AddCreditPoint _ map_db sample_time sample_messages pkg_errors
    sample_crypto _ sample_orders sample_credit 17 "0xclient" (-104857600)). by vm_compute.
Qed.

Lemma Put_Get_round_trip_witness :
  @GetCreditRecord _ map_db sample_time sample_messages
    (fst (@PutCreditRecord _ map_db sample_time 21 sample_credit "0xa" (sample_record (2 ^ 64 - 1) 3))) "0xa"
  = (@mkRecordItem sample_time 1 (2 ^ 64 - 1) 3 0 21, false).
Proof.
  refine (proj1 (@Put_Get_round_trip _ map_db sample_time sample_messages 21 sample_credit
    "0xa" (sample_record (2 ^ 64 - 1) 3) _ _ _)); [by split; vm_compute|reflexivity].
Defined.

Lemma CheckCredit_admits_all_witness :
  exists c', @CheckCredit _ map_db sample_time sample_messages sample_crypto _ sample_orders
    30 tt sample_indebted sample_key [] [] = Returns (true, (c', tt))
    /\ @store_ok _ map_db sample_time c'.
Proof.
  exact (@CheckCredit_admits_all _ map_db sample_time sample_messages pkg_errors sample_crypto _ sample_orders
    sample_credit sample_indebted 30 tt sample_key [] [] sample_key map_db_empty
    sample_indebted_reachable eq_refl).
Defined.

Lemma IsLimited_never_witness :
  fst (@IsLimited _ map_db sample_time sample_messages 30 sample_indebted "0xclient")
    = (ResourceLimit sample_indebted, false).
Proof.
  exact (@IsLimited_never _ map_db sample_time sample_messages pkg_errors sample_crypto _ sample_orders
    sample_credit sample_indebted 30 "0xclient" map_db_empty sample_indebted_reachable).
Defined.

(** A store that holds a foreign record, with a level and a counter out of range. *)
Definition damaged_credit : Credit (gmap string bytes) :=
  set_db {[ "0xa" := print (JObj [("Level", JNum (to_bytes "7")); ("SentResource", JNum (to_bytes "99999999999999999999"))]) ]}
    sample_credit.

Definition repaired_credit : Credit (gmap string bytes) :=
  match @AddCreditPoint _ map_db sample_time sample_messages 4 damaged_credit "0xa" 5 with
  | Returns c => c
  | Panics _ => damaged_credit
  end.

Lemma damaged_added :
  @AddCreditPoint _ map_db sample_time sample_messages 4 damaged_credit "0xa" 5 = Returns repaired_credit.
Proof. by vm_compute. Qed.

Lemma records_typed_witness :
  snd (@GetCreditRecord _ map_db sample_time sample_messages damaged_credit "0xa") = true
  /\ -1 <= Level (fst (@GetCreditRecord _ map_db sample_time sample_messages repaired_credit "0xa")) <= 3
  /\ snd (@GetCreditRecord _ map_db sample_time sample_messages repaired_credit "0xa") = false.
Proof.
  split; [by vm_compute|].
  exact (proj2 (@records_typed _ map_db sample_time sample_messages damaged_credit repaired_credit 4 "0xa" 5
    map_db_puts damaged_added)).
Defined.

Definition sample_ops : list (@time sample_time * string * Z) := [(1, "0xa", -8388608); (2, "0xb", 5); (3, "0xa", 100)].

Lemma points_implement_ledger_witness :
  exists c', @run_points _ map_db sample_time sample_messages sample_ops sample_credit = Returns c'
    /\ @implements _ map_db sample_time sample_messages c' (ledger_run sample_ops (fun _ => (0, 0))).
Proof.
  eexists. split; [reflexivity|].
  apply (@points_implement_ledger _ map_db sample_time sample_messages sample_ops sample_credit);
    [exact map_db_puts|by repeat constructor| |reflexivity].
  split; [exact sample_store_ok|]. by intros k.
Defined.

Lemma PaymentCreditBill_effect_witness :
  exists c', @PaymentCreditBill _ map_db sample_time sample_messages pkg_errors _ sample_orders
    9 tt sample_credit "0xa" "node" (big_String (8 * 10)) = Returns (("0xhash", "node", None), (c', tt))
    /\ @GetCreditRecord _ map_db sample_time sample_messages c' "0xa"
         = (@mkRecordItem sample_time 3 8 0 0 9, false)
    /\ (forall key', key' ≠ "0xa" ->
         @GetCreditRecord _ map_db sample_time sample_messages c' key'
           = @GetCreditRecord _ map_db sample_time sample_messages sample_credit key').
Proof.
  apply (@PaymentCreditBill_effect _ map_db sample_time sample_messages pkg_errors _ sample_orders
    9 tt tt sample_credit "0xa" "node" "0xhash" "node" 8 10 sample_store_ok map_db_puts);
    by vm_compute || (split; by vm_compute).
Defined.
