(* ===== verification/EvmClient.v ===== *)
(** * The Ethereum client: cd2n-lib/protocol/evm_client.go

    Options and defaults of a client, transaction options, signatures, and the event
    loop of [SubscribeFilterLogs].  go-ethereum's RPC client is a parameter; the state
    of the chain as the client sees it is threaded through every call. *)

From S2P Require Import Prelude GoStrings External.

Definition DEFAULT_TOKEN_CONTRACT_NAME := "token_contract".
Definition DEFAULT_TOKEN_CONTRACT_ADDRESS := "0xDc5950C626bdB597E586CEaa91117579cb10688D".
Definition DEFAULT_CACHE_PROTO_CONTRACT_ADDRESS := "0xfA326Ce1E9D7d291B40945B6cDdCe8e9Efea9b34".
Definition DEFAULT_CACHE_PROTO_CONTRACT_NAME := "cache_protocol_contract".

(** What a subscription's [select] can see next: a log, the end of the subscription
    (with a nil error when it is closed), or the end of the context. *)
Inductive log_event (Log : Type) :=
  | EvLog (l : Log)
  | EvErr (e : error)
  | EvDone.
Arguments EvLog {Log} _.
Arguments EvErr {Log} _.
Arguments EvDone {Log}.

(** go-ethereum's [ethclient], [bind] and [crypto]; [W] is the state of the chain. *)
Class EthClient `{EthCrypto} (W : Type) := {
  ethclient : Type;
  ethclient_Dial : string -> ethclient + string;
  Log : Type;
  SuggestGasTipCap : W -> ethclient -> Z + string;
  (** the events of a new subscription on these contract addresses, in order; the
      context ends after the last one *)
  client_SubscribeFilterLogs : W -> ethclient -> list address -> (list (log_event Log) + string) * W;
  private_key : Type;
  HexToECDSA : string -> private_key + string;
  key_public : private_key -> pubkey;
  CompressPubkey : pubkey -> bytes;
  crypto_Sign : bytes -> option private_key -> outcome (bytes + string);
  (** refuses a chain id it cannot use *)
  transactor_fault : private_key -> Z -> error;
}.

Section client.
Context {W : Type} `{EthClient W} `{PkgErrors} {Contract : Type}.

(** [bind.TransactOpts], the fields the program sets: the key and chain id it signs
    for, and the gas and value ([nil] when absent). *)
Record TransactOpts := mkTransactOpts {
  opts_key : private_key;
  opts_chain : Z;
  opts_GasTipCap : option Z;
  opts_GasFeeCap : option Z;
  opts_GasLimit : Z;
  opts_Value : option Z;
}.

(** The channel [rpcErrCh], which nothing uses, is left out. *)
Record Client := mkClient {
  RpcAddrs : list string;
  ChainID : Z;
  GasFeeCap : option Z;
  GasLimit : Z;
  cli : option ethclient;
  Account : option address;   (** [None]: the zero address *)
  sk : option private_key;
  Contracts : option (gmap string Contract);
}.

Definition Client_new : Client := mkClient [] 0 None 0 None None None (Some ∅).

Definition Option := Client -> Client * error.

Definition ConnectionRpcAddresss (rpcs : list string) : Option := fun c =>
  if decide (rpcs = []) then (c, errors_New "empty rpc address list")
  else (mkClient rpcs (ChainID c) (GasFeeCap c) (GasLimit c) (cli c) (Account c) (sk c) (Contracts c), None).

Definition NodeEthAccount (hexAcc : string) : Option := fun c =>
  (mkClient (RpcAddrs c) (ChainID c) (GasFeeCap c) (GasLimit c) (cli c)
     (Some (HexToAddress hexAcc)) (sk c) (Contracts c), None).

Definition ChainID_option (id : Z) : Option := fun c =>
  (mkClient (RpcAddrs c) id (GasFeeCap c) (GasLimit c) (cli c) (Account c) (sk c) (Contracts c), None).

Definition EthereumGas (gasFeeCap gasLimit : Z) : Option := fun c =>
  (mkClient (RpcAddrs c) (ChainID c) (Some gasFeeCap) gasLimit (cli c) (Account c) (sk c) (Contracts c), None).

Definition AccountPrivateKey (hexKey : string) : Option := fun c =>
  match HexToECDSA hexKey with
  | inr e => (c, Some e)
  | inl k =>
      (mkClient (RpcAddrs c) (ChainID c) (GasFeeCap c) (GasLimit c) (cli c)
         (Some (PubkeyToAddress (key_public k))) (Some k) (Contracts c), None)
  end.

Fixpoint apply_options (opts : list Option) (c : Client) : Client * error :=
  match opts with
  | [] => (c, None)
  | opt :: opts =>
      match opt c with
      | (c, Some e) => (c, Some e)
      | (c, None) => apply_options opts c
      end
  end.

(** The first address that answers. *)
Fixpoint dial_first (rpcs : list string) : option ethclient :=
  match rpcs with
  | [] => None
  | rpc :: rpcs => match ethclient_Dial rpc with inl c => Some c | inr _ => dial_first rpcs end
  end.

Definition set_cli (e : option ethclient) (c : Client) : Client :=
  mkClient (RpcAddrs c) (ChainID c) (GasFeeCap c) (GasLimit c) e (Account c) (sk c) (Contracts c).

Definition default_gas (c : Client) : Client :=
  mkClient (RpcAddrs c) (ChainID c) (Some (default 108694000460 (GasFeeCap c)))
    (if GasLimit c =? 0 then 30000000 else GasLimit c) (cli c) (Account c) (sk c) (Contracts c).

Definition NewClient (opts : list Option) : Client * error :=
  let msg := "new ethereum client error" in
  match apply_options opts Client_new with
  | (c, Some e) => (c, Wrap (Some e) msg)
  | (c, None) =>
      if decide (RpcAddrs c = []) then (c, Wrap (errors_New "no RPC address is configured") msg)
      else
        let c := match dial_first (RpcAddrs c) with Some e => set_cli (Some e) c | None => c end in
        match cli c with
        | None => (c, Wrap (errors_New "chain RPC connection failed") msg)
        | Some _ => (default_gas c, None)
        end
  end.

Definition AddWorkContract (name : string) (contract : Contract) (c : Client) : outcome Client :=
  match Contracts c with
  | None => Panics NilMapWrite
  | Some m =>
      Returns (mkClient (RpcAddrs c) (ChainID c) (GasFeeCap c) (GasLimit c) (cli c) (Account c) (sk c)
                 (Some (<[name := contract]> m)))
  end.

Definition GetContractAddress (c : Client) (name : string) : option Contract :=
  m ← Contracts c; m !! name.

Definition GetPrivateKey (c : Client) : outcome private_key :=
  match sk c with Some k => Returns k | None => Panics NilDereference end.

Definition GetEthClient (c : Client) : option ethclient := cli c.

Definition VerifySign (c : Client) (hash sign : bytes) : outcome bool :=
  k ← GetPrivateKey c;
  Returns (VerifySignature (CompressPubkey (key_public k)) hash sign).

Definition GetSignature (c : Client) (data : bytes) : outcome (bytes + string) :=
  crypto_Sign data (sk c).

Definition the_ethclient (c : Client) : outcome ethclient :=
  match cli c with Some e => Returns e | None => Panics NilDereference end.

Definition NewTransactionOption (c : Client) (w : W) (value : string) : outcome (TransactOpts + string) :=
  e ← the_ethclient c;
  let gasTipCap := match SuggestGasTipCap w e with inl z => Some z | inr _ => None end in
  k ← GetPrivateKey c;
  match transactor_fault k 11330 with
  | Some e => Returns (inr (default "" (Wrap (Some e) "new transaction option error")))
  | None =>
      Returns (inl (mkTransactOpts k 11330 gasTipCap (GasFeeCap c) (GasLimit c)
        (if decide (value = "") then None else big_SetString value)))
  end.

(** The loop of [SubscribeFilterLogs] over the events it selects; [St] is what the
    callback captures.  A context always ends, so running out of events is its end. *)
Fixpoint filter_loop {St} (events : list (log_event Log)) (callback : Log -> St -> bool * St)
    (s : St) : error * St :=
  match events with
  | EvLog l :: events =>
      let '(loop, s) := callback l s in
      if loop then filter_loop events callback s else (None, s)
  | EvErr err :: _ => (err, s)
  | EvDone :: _ | [] => (errors_New "timeout", s)
  end.

Definition SubscribeFilterLogs (c : Client) {St} (w : W) (q : list address)
    (callback : Log -> St -> bool * St) (s : St) : outcome ((error * St) * W) :=
  e ← the_ethclient c;
  match client_SubscribeFilterLogs w e q with
  | (inr err, w) => Returns ((Some err, s), w)
  | (inl events, w) => Returns (filter_loop events callback s, w)
  end.
End client.
Arguments TransactOpts W {_ _} : assert.
Arguments Client W {_ _} Contract : assert.
