(* ===== verification/CacheProto.v ===== *)
(** * The cache protocol contract: cd2n-lib/protocol/cache_evm_proto.go

    Registration, orders, rewards and the credit orders of a node, on top of the
    generated contract bindings (protocol/contract/cache_proto.go). *)

From S2P Require Import Prelude GoStrings External EvmClient.

(** ** The generated bindings

    The contract's methods with the types of its ABI: [bind.BoundContract], which is
    go-ethereum's, encodes the arguments and decodes the results. *)

Record NodeInfo := mkNodeInfo {
  Created : bool;
  Collerate : option Z;
  TokenId : option Z;
  info_PeerId : bytes;
}.
Definition NodeInfo_zero : NodeInfo := mkNodeInfo false None None [].

Section abi.
Context `{EthCrypto}.

Record Order := mkOrder {
  order_Value : option Z;
  Creater : address;
  order_Node : address;
  Term : option Z;
}.

(** The constant methods the program calls, with the type of what they return. *)
Inductive constant_call : Type -> Type :=
  | CallNode (arg0 : address) : constant_call (bool * Z * Z * bytes)
  | CallOrder (arg0 : bytes) : constant_call (Z * address * address * Z)
  | CallGetCurrencyTerm : constant_call Z.

(** The transactions. *)
Inductive transaction_call :=
  | TxCacheOrderPayment (nodeAcc : address)
  | TxClaim
  | TxExit
  | TxOrderClaim (orderId : bytes)
  | TxStaking (nodeAcc tokenAcc : address) (tokenId : Z) (peerId sign : bytes).

(** The events; the first topic of a log says which one it is. *)
Inductive contract_event :=
  | EventClaim (nodeAcc : address) (reward : Z)
  | EventExit (nodeAcc : address)
  | EventOrderPayment (orderId : bytes) (nodeAcc : address)
  | EventStaking (nodeAcc : address) (tokenId : Z).
End abi.

Class BoundContract (W : Type) `{EthClient W} := {
  bound : Type;
  NewBoundContract : address -> option ethclient -> bound + string;
  bound_Call : forall {A}, bound -> W -> constant_call A -> A + string;
  tx : Type;
  tx_Hash_Hex : tx -> string;
  bound_Transact : bound -> W -> TransactOpts W -> transaction_call -> (tx + string) * W;
  bound_UnpackLog : bound -> Log -> contract_event + string;
  zero_address : address;
}.
Arguments BoundContract W {_ _} : assert.

Section bindings.
Context {W : Type} `{BoundContract W}.

Definition NewCacheProto (addr : address) (backend : option ethclient) : bound + string :=
  NewBoundContract addr backend.

Definition Node (c : bound) (w : W) (arg0 : address) : NodeInfo * error :=
  match bound_Call c w (CallNode arg0) with
  | inr e => (NodeInfo_zero, Some e)
  | inl (created, collerate, tokenId, peerId) =>
      (mkNodeInfo created (Some collerate) (Some tokenId) peerId, None)
  end.

Definition Order_get (c : bound) (w : W) (arg0 : bytes) : Order * error :=
  match bound_Call c w (CallOrder arg0) with
  | inr e => (mkOrder None zero_address zero_address None, Some e)
  | inl (value, creater, node, term) => (mkOrder (Some value) creater node (Some term), None)
  end.

Definition GetCurrencyTerm (c : bound) (w : W) : Z + string := bound_Call c w CallGetCurrencyTerm.

Definition CacheOrderPayment (c : bound) (w : W) (opts : TransactOpts W) (nodeAcc : address) :=
  bound_Transact c w opts (TxCacheOrderPayment nodeAcc).
Definition Claim (c : bound) (w : W) (opts : TransactOpts W) := bound_Transact c w opts TxClaim.
Definition Exit (c : bound) (w : W) (opts : TransactOpts W) := bound_Transact c w opts TxExit.
Definition OrderClaim (c : bound) (w : W) (opts : TransactOpts W) (orderId : bytes) :=
  bound_Transact c w opts (TxOrderClaim orderId).
Definition Staking (c : bound) (w : W) (opts : TransactOpts W) (nodeAcc tokenAcc : address)
    (tokenId : Z) (peerId sign : bytes) :=
  bound_Transact c w opts (TxStaking nodeAcc tokenAcc tokenId peerId sign).

Definition bad_event : string := "event signature mismatch".

Definition ParseClaim (c : bound) (log : Log) : (address * Z) + string :=
  match bound_UnpackLog c log with
  | inl (EventClaim a r) => inl (a, r)
  | inl _ => inr bad_event
  | inr e => inr e
  end.

Definition ParseOrderPayment (c : bound) (log : Log) : (bytes * address) + string :=
  match bound_UnpackLog c log with
  | inl (EventOrderPayment o a) => inl (o, a)
  | inl _ => inr bad_event
  | inr e => inr e
  end.

Definition ParseStaking (c : bound) (log : Log) : (address * Z) + string :=
  match bound_UnpackLog c log with
  | inl (EventStaking a t) => inl (a, t)
  | inl _ => inr bad_event
  | inr e => inr e
  end.
End bindings.

(** ** CacheProtoContract *)

Section contract.
Context {W : Type} `{BoundContract W} `{PkgErrors} `{Base58}.

(** The two functions are what the client provides: [NewTransactionOption] and
    [SubscribeFilterLogs]. *)
Record CacheProtoContract := mkCacheProtoContract {
  Address : address;
  pc_Node : address;
  NewOption : W -> string -> outcome (TransactOpts W + string);
  LogFilter : forall St : Type, W -> list address -> (Log -> St -> bool * St) -> St ->
              outcome ((error * St) * W);
  CacheProto : bound;
}.

Definition NodeInfo_String (info : NodeInfo) : string := of_bytes (info_PeerId info).

Definition NewProtoContract (client : option ethclient) (hexAddr nodeAcc : string)
    (optFunc : W -> string -> outcome (TransactOpts W + string))
    (filter : forall St : Type, W -> list address -> (Log -> St -> bool * St) -> St ->
              outcome ((error * St) * W)) : option CacheProtoContract * error :=
  let addr := HexToAddress hexAddr in
  match NewCacheProto addr client with
  | inr e => (None, Wrap (Some e) "new cache protocol evm contract error")
  | inl contract =>
      (Some (mkCacheProtoContract addr (HexToAddress nodeAcc) optFunc filter contract), None)
  end.

Definition CallFunc (pc : CacheProtoContract) (funcName : string) : option unit * error := (None, None).

Definition QueryRegisterInfo (pc : CacheProtoContract) (w : W) (nodeAcc : address) : NodeInfo * error :=
  let msg := "query node register info error" in
  match Node (CacheProto pc) w nodeAcc with
  | (info, Some e) => (info, Wrap (Some e) msg)
  | (info, None) =>
      if decide (info_PeerId info = [] \/ Created info = false)
      then (info, Wrap (errors_New "node not found.") msg)
      else (mkNodeInfo (Created info) (Collerate info) (TokenId info)
              (to_bytes (base58_Encode (info_PeerId info))), None)
  end.

Definition QueryCacheOrder (pc : CacheProtoContract) (w : W) (orderId : bytes) : Order * error :=
  match Order_get (CacheProto pc) w orderId with
  | (order, Some e) => (order, Wrap (Some e) "query cache order info error")
  | (order, None) => (order, None)
  end.

Definition QueryCurrencyTerm (pc : CacheProtoContract) (w : W) : option Z * error :=
  match GetCurrencyTerm (CacheProto pc) w with
  | inr e => (None, Wrap (Some e) "query currency term error")
  | inl term => (Some term, None)
  end.

Definition zero_id : bytes := replicate 32 x00.

(** [s] is the [orderId] the callback sets. *)
Definition on_OrderPayment (pc : CacheProtoContract) (nodeAcc : address) (l : Log) (s : option bytes)
    : bool * option bytes :=
  match ParseOrderPayment (CacheProto pc) l with
  | inr _ => (true, s)
  | inl (orderId, node) => if decide (node = nodeAcc) then (false, Some orderId) else (true, s)
  end.

Definition CreateCacheOrder (pc : CacheProtoContract) (w : W) (nodeAcc : address) (value : string)
    : outcome ((string * bytes * error) * W) :=
  let msg := "create and payment cache order error" in
  opts ← NewOption pc w value;
  match opts with
  | inr e => Returns (("", zero_id, Wrap (Some e) msg), w)
  | inl opts =>
      match CacheOrderPayment (CacheProto pc) w opts nodeAcc with
      | (inr e, w) => Returns (("", zero_id, Wrap (Some e) msg), w)
      | (inl tx, w) =>
          '(err, orderId, w) ← LogFilter pc _ w [Address pc] (on_OrderPayment pc nodeAcc) None;
          match err, orderId with
          | Some e, _ => Returns ((tx_Hash_Hex tx, zero_id, Wrap (Some e) msg), w)
          | None, None =>
              Returns ((tx_Hash_Hex tx, zero_id, Wrap (errors_New "order ID not obtained") msg), w)
          | None, Some orderId => Returns ((tx_Hash_Hex tx, orderId, None), w)
          end
      end
  end.

Definition on_Staking (pc : CacheProtoContract) (nodeAcc : address) (l : Log) (s : unit) : bool * unit :=
  match ParseStaking (CacheProto pc) l with
  | inr _ => (true, s)
  | inl (node, _) => (negb (bool_decide (node = nodeAcc)), s)
  end.

Definition RegisterNode (pc : CacheProtoContract) (w : W) (nodeAcc tokenAcc : address)
    (peerId tokenId value : string) (sign : bytes) : outcome (error * W) :=
  let msg := "register cache node error" in
  match big_SetString tokenId with
  | None => Returns (Wrap (errors_New "bad token Id") msg, w)
  | Some bigId =>
      match base58_Decode peerId with
      | inr e => Returns (Wrap (Some e) msg, w)
      | inl bPeerId =>
          opts ← NewOption pc w value;
          match opts with
          | inr e => Returns (Wrap (Some e) msg, w)
          | inl opts =>
              match Staking (CacheProto pc) w opts nodeAcc tokenAcc bigId bPeerId sign with
              | (inr e, w) => Returns (Wrap (Some e) msg, w)
              | (inl hash, w) =>
                  '(err, _, w) ← LogFilter pc _ w [Address pc] (on_Staking pc nodeAcc) tt;
                  match err with
                  | Some e => Returns (Wrap (Some e) msg, w)
                  | None => Returns (None, w)
                  end
              end
          end
      end
  end.

Definition ClaimOrder (pc : CacheProtoContract) (w : W) (orderId : bytes) : outcome (error * W) :=
  let msg := "claim order error" in
  opts ← NewOption pc w "";
  match opts with
  | inr e => Returns (Wrap (Some e) msg, w)
  | inl opts =>
      match Claim (CacheProto pc) w opts with
      | (inr e, w) => Returns (Wrap (Some e) msg, w)
      | (inl _, w) => Returns (None, w)
      end
  end.

(** [s] is the [reward] string. *)
Definition on_Claim (pc : CacheProtoContract) (nodeAcc : address) (l : Log) (s : string) : bool * string :=
  match ParseClaim (CacheProto pc) l with
  | inr _ => (true, s)
  | inl (node, reward) => if decide (node = nodeAcc) then (false, big_String reward) else (true, s)
  end.

Definition ClaimWorkReward (pc : CacheProtoContract) (w : W) (nodeAcc : address)
    : outcome ((string * error) * W) :=
  let msg := "claim work reward error" in
  opts ← NewOption pc w "";
  match opts with
  | inr e => Returns (("0", Wrap (Some e) msg), w)
  | inl opts =>
      match Claim (CacheProto pc) w opts with
      | (inr e, w) => Returns (("0", Wrap (Some e) msg), w)
      | (inl _, w) =>
          '(err, reward, w) ← LogFilter pc _ w [Address pc] (on_Claim pc nodeAcc) "0";
          match err with
          | Some e => Returns ((reward, Wrap (Some e) msg), w)
          | None => Returns ((reward, None), w)
          end
      end
  end.

(** One tick of [ClaimWorkRewardServer]; the outcome of the claim is only logged. *)
Definition claim_tick (pc : CacheProtoContract) (nodeAcc : address) (term : Z) (w : W) : outcome (Z * W) :=
  match QueryCurrencyTerm pc w with
  | (_, Some _) | (None, _) => Returns (term, w)
  | (Some t, None) =>
      if big_Int64 t <=? term then Returns (term, w)
      else
        let term := i64 (term + 1) in
        '(_, w) ← ClaimWorkReward pc w nodeAcc; Returns (term, w)
  end.

(** The server over the ticks received before its context ends; between two ticks
    the chain moves on by itself, which [advance] does. *)
Fixpoint claim_loop (pc : CacheProtoContract) (nodeAcc : address) (ticks : list (W -> W))
    (term : Z) (w : W) : outcome (Z * W) :=
  match ticks with
  | [] => Returns (term, w)
  | advance :: ticks =>
      '(term, w) ← claim_tick pc nodeAcc term (advance w);
      claim_loop pc nodeAcc ticks term w
  end.

Definition ClaimWorkRewardServer (pc : CacheProtoContract) (nodeAcc : address) (ticks : list (W -> W))
    (w : W) : outcome (error * W) :=
  match QueryRegisterInfo pc w nodeAcc with
  | (_, Some e) => Returns (Some e, w)
  | (_, None) => '(_, w) ← claim_loop pc nodeAcc ticks 1 w; Returns (None, w)
  end.

Definition on_Exit (pc : CacheProtoContract) (nodeAcc : address) (l : Log) (s : unit) : bool * unit :=
  match ParseClaim (CacheProto pc) l with
  | inr _ => (true, s)
  | inl (node, _) => if decide (node = nodeAcc) then (false, s) else (true, s)
  end.

Definition ExitNetwork (pc : CacheProtoContract) (w : W) (nodeAcc : address) : outcome (error * W) :=
  let msg := "node exit network error" in
  opts ← NewOption pc w "";
  match opts with
  | inr e => Returns (Wrap (Some e) msg, w)
  | inl opts =>
      match Exit (CacheProto pc) w opts with
      | (inr e, w) => Returns (Wrap (Some e) msg, w)
      | (inl _, w) =>
          '(err, _, w) ← LogFilter pc _ w [Address pc] (on_Exit pc nodeAcc) tt;
          match err with
          | Some e => Returns (Wrap (Some e) msg, w)
          | None => Returns (None, w)
          end
      end
  end.

Definition CreateCreditOrder_impl (pc : CacheProtoContract) (w : W) (key nodeId value : string)
    : outcome ((string * string * error) * W) :=
  let msg := "create credit order" in
  match base58_Decode nodeId with
  | inr e => Returns (("", "", Wrap (Some e) msg), w)
  | inl bPeerId =>
      match QueryRegisterInfo pc w (HexToAddress key) with
      | (_, Some e) => Returns (("", "", Wrap (Some e) msg), w)
      | (info, None) =>
          if decide (info_PeerId info = bPeerId) then
            '(tx, orderId, err, w) ← CreateCacheOrder pc w (HexToAddress key) value;
            match err with
            | Some e => Returns (("", "", Wrap (Some e) msg), w)
            | None => Returns ((tx, hex_EncodeToString orderId, None), w)
            end
          else Returns (("", "", Wrap (errors_New "peer ID does not match the registered one") msg), w)
      end
  end.

(** [[32]byte(data)]: the first 32 bytes, or a panic on a shorter slice. *)
Definition to_array32 (data : bytes) : outcome bytes :=
  if (length data <? 32)%nat then Panics ArrayConversion else Returns (take 32 data).

(** [term.Cmp(order.Term.Add(order.Term, 4)) == 1]; a nil [Term] panics. *)
Definition term_expired (term : option Z) (order : Order) : outcome bool :=
  match term, Term order with
  | Some t, Some o => Returns (o + 4 <? t)
  | _, _ => Panics NilDereference
  end.

Definition CheckCreditOrder_impl (pc : CacheProtoContract) (w : W) (pubkey data sign : bytes)
    : outcome ((string * error) * W) :=
  let msg := "check credit order error" in
  if VerifySignature pubkey (Keccak256Hash data) sign
  then Returns (("", Wrap (errors_New "bad signature") msg), w)
  else
    orderId ← to_array32 data;
    match QueryCacheOrder pc w orderId with
    | (_, Some e) => Returns (("", Wrap (Some e) msg), w)
    | (order, None) =>
        if decide (order_Node order ≠ pc_Node pc) then Returns (("", Wrap None msg), w)
        else
          match QueryCurrencyTerm pc w with
          | (_, Some e) => Returns (("", Wrap (Some e) msg), w)
          | (term, None) =>
              expired ← term_expired term order;
              if (expired : bool) then Returns (("", Wrap None msg), w)
              else
                '(err, w) ← ClaimOrder pc w orderId;
                match err with
                | Some e => Returns (("", Wrap (Some e) msg), w)
                | None =>
                    Returns ((match order_Value order with
                              | Some v => big_String v | None => "<nil>" end, None), w)
                end
          end
    end.

(** The contract as the credit manager's [Order2Credit]. *)
Definition contract_orders (pc : CacheProtoContract) : Order2Credit W := {|
  CreateCreditOrder := CreateCreditOrder_impl pc;
  CheckCreditOrder := CheckCreditOrder_impl pc |}.
End contract.
Arguments CacheProtoContract W {_ _ _} : assert.
