(* ===== verification/CacheProtoFacts.v ===== *)
(** * Properties of the Ethereum client and the cache contract

    What a subscription returns, what each contract operation reports, and which
    transactions are sent. *)

From S2P Require Import Prelude GoStrings External EvmClient CacheProto.

(** ** Subscriptions *)

Section filter.
Context {Log St A : Type} (f : Log -> option A) (g : A -> St -> St).

(** What the events of a subscription give to a callback that waits for the first
    log [f] recognises: its value, or the error the subscription ends with. *)
Fixpoint first_match (events : list (log_event Log)) : A + error :=
  match events with
  | EvLog l :: events => match f l with Some a => inl a | None => first_match events end
  | EvErr e :: _ => inr e
  | EvDone :: _ | [] => inr (errors_New "timeout")
  end.

Definition waits_for (callback : Log -> St -> bool * St) : Prop :=
  forall l s, callback l s = match f l with Some a => (false, g a s) | None => (true, s) end.

Lemma first_match_none (ls : list Log) events :
  Forall (fun l => f l = None) ls -> first_match (map EvLog ls ++ events)%list = first_match events.
Proof. intros Hl. induction Hl as [|l ls Hl _ IH]; cbn; [done|by rewrite Hl]. Qed.

Lemma first_match_some (ls : list Log) l a events :
  Forall (fun l => f l = None) ls -> f l = Some a ->
  first_match (map EvLog ls ++ EvLog l :: events)%list = inl a.
Proof. intros Hl Ha. rewrite first_match_none by done. cbn. by rewrite Ha. Qed.
End filter.

Section client.
Context {W : Type} `{EthClient W} `{PkgErrors} {Contract : Type}.

Lemma filter_loop_first {St A} (f : Log -> option A) (g : A -> St -> St) callback events s :
  waits_for f g callback ->
  filter_loop events callback s
    = match first_match f events with inl a => (None, g a s) | inr e => (e, s) end.
Proof.
  intros Hc. induction events as [|[l|e|] events IH]; cbn; try done.
  rewrite Hc. by destruct (f l).
Qed.

(** The filter of a connected client whose subscription is accepted. *)
Lemma SubscribeFilterLogs_first {St A} (f : Log -> option A) (g : A -> St -> St)
    (c : Client W Contract) e w w' q callback events s :
  waits_for f g callback -> cli c = Some e ->
  client_SubscribeFilterLogs w e q = (inl events, w') ->
  SubscribeFilterLogs c w q callback s
    = Returns (match first_match f events with inl a => (None, g a s) | inr err => (err, s) end, w').
Proof.
  intros Hc He Hs. unfold SubscribeFilterLogs, the_ethclient. rewrite He. cbn. rewrite Hs.
  by rewrite (filter_loop_first f g) by done.
Qed.

(** A transaction is always signed for chain 11330, whatever chain id the client
    is configured with, and an amount that is not a decimal number is not an error:
    the transaction is sent with no value at all. *)
Theorem NewTransactionOption_fixed_chain (c : Client W Contract) (w : W) (value : string)
    (opts : TransactOpts W) :
  NewTransactionOption c w value = Returns (inl opts) ->
  opts_chain opts = 11330
  /\ (big_SetString value = None -> opts_Value opts = None)
  /\ (forall v, value = big_String v -> opts_Value opts = Some v).
Proof.
  unfold NewTransactionOption. intros (e & _ & Ho)%outcome_bind_Returns.
  apply outcome_bind_Returns in Ho as (k & _ & Ho).
  destruct (transactor_fault k 11330); [done|]. injection Ho as <-. cbn.
  split_and!; [done| |].
  - intros Hv. by case_decide.
  - intros v ->. rewrite decide_False; [apply big_SetString_String|].
    intros Hv. pose proof (big_SetString_String v) as Hs. rewrite Hv in Hs. done.
Qed.

Lemma dial_first_Some rpcs e :
  dial_first rpcs = Some e <->
  exists before rpc after, rpcs = (before ++ rpc :: after)%list /\ ethclient_Dial rpc = inl e
    /\ Forall (fun r => exists err, ethclient_Dial r = inr err) before.
Proof.
  split.
  - induction rpcs as [|r rpcs IH]; cbn; [done|].
    destruct (ethclient_Dial r) as [e'|err] eqn:E.
    + intros [= ->]. by exists [], r, rpcs.
    + intros (b & r' & a & -> & Hr & Hb)%IH. exists (r :: b), r', a.
      split_and!; [done|done|]. constructor; eauto.
  - intros (b & r & a & -> & Hr & Hb). induction Hb as [|r' b [err Hr'] _ IH]; cbn.
    + by rewrite Hr.
    + by rewrite Hr'.
Qed.

(** A client [NewClient] reports as good is connected to the first configured
    address that answers, has the configured key, and its gas limits are set: those
    given, or the defaults. *)
Theorem NewClient_connected (hexKey : string) (id : Z) (rpcs : list string) (fee limit : Z)
    (c : Client W Contract) :
  NewClient [AccountPrivateKey hexKey; ChainID_option id; ConnectionRpcAddresss rpcs; EthereumGas fee limit]
    = (c, None) ->
  (exists before rpc after e, rpcs = (before ++ rpc :: after)%list /\ ethclient_Dial rpc = inl e
     /\ Forall (fun r => exists err, ethclient_Dial r = inr err) before /\ cli c = Some e)
  /\ (exists k, HexToECDSA hexKey = inl k /\ sk c = Some k
      /\ Account c = Some (PubkeyToAddress (key_public k)))
  /\ ChainID c = id /\ GasFeeCap c = Some fee
  /\ GasLimit c = (if limit =? 0 then 30000000 else limit).
Proof.
  unfold NewClient. cbn [apply_options]. unfold AccountPrivateKey at 1.
  destruct (HexToECDSA hexKey) as [k|e] eqn:Ek; [|intros [= _ Hw]; by apply Wrap_eq_None in Hw].
  cbn [ChainID_option apply_options]. unfold ConnectionRpcAddresss at 1.
  case_decide as Hr; [intros [= _ Hw]; by apply Wrap_eq_None in Hw|].
  cbn [EthereumGas apply_options RpcAddrs]. rewrite decide_False by done.
  destruct (dial_first rpcs) as [e|] eqn:Ed; cbn [set_cli cli].
  - intros [= <-]. cbn. split_and!; try done; [|by exists k].
    apply dial_first_Some in Ed as (b & r & a & ? & ? & ?). by exists b, r, a, e.
  - intros [= _ Hw]. by apply Wrap_eq_None in Hw.
Qed.
End client.

(** ** The contract's operations *)

Section contract.
Context {W : Type} `{BoundContract W} `{PkgErrors} `{Base58}.

(** What each callback recognises. *)
Definition order_to (pc : CacheProtoContract W) (nodeAcc : address) (l : Log) : option bytes :=
  match ParseOrderPayment (CacheProto pc) l with
  | inl (orderId, node) => if decide (node = nodeAcc) then Some orderId else None
  | inr _ => None
  end.

Definition claim_of (pc : CacheProtoContract W) (nodeAcc : address) (l : Log) : option Z :=
  match ParseClaim (CacheProto pc) l with
  | inl (node, reward) => if decide (node = nodeAcc) then Some reward else None
  | inr _ => None
  end.

Lemma on_OrderPayment_waits pc nodeAcc :
  waits_for (order_to pc nodeAcc) (fun a _ => Some a) (on_OrderPayment pc nodeAcc).
Proof. intros l s. unfold order_to, on_OrderPayment. steps. Qed.

Lemma on_Claim_waits pc nodeAcc :
  waits_for (claim_of pc nodeAcc) (fun r _ => big_String r) (on_Claim pc nodeAcc).
Proof. intros l s. unfold claim_of, on_Claim. steps. Qed.

Lemma on_Exit_waits pc nodeAcc :
  waits_for (claim_of pc nodeAcc) (fun _ s => s) (on_Exit pc nodeAcc).
Proof. intros l s. unfold claim_of, on_Exit. steps. Qed.

(** The contract object of a connected client, as the program builds it. *)
Definition client_contract {Contract} (c : Client W Contract) (addr node : address) (b : bound)
    : CacheProtoContract W :=
  mkCacheProtoContract addr node (NewTransactionOption c) (@SubscribeFilterLogs W _ _ Contract c) b.

Lemma client_LogFilter {Contract St A} (f : Log -> option A) (g : A -> St -> St)
    (c : Client W Contract) pc addr node b e w w' callback events s :
  pc = client_contract c addr node b -> waits_for f g callback -> cli c = Some e ->
  client_SubscribeFilterLogs w e [addr] = (inl events, w') ->
  LogFilter pc St w [Address pc] callback s
    = Returns (match first_match f events with inl a => (None, g a s) | inr err => (err, s) end, w').
Proof. intros ->. by apply SubscribeFilterLogs_first. Qed.

(** Once its payment is accepted, [CreateCacheOrder] returns the id of the first
    [OrderPayment] to the node among the logs of its subscription, whoever paid for
    that order; without one it reports the end of the subscription as an error,
    although the payment has been sent. *)
Theorem CreateCacheOrder_first_event {Contract} (c : Client W Contract) (e : ethclient)
    (addr node nodeAcc : address) (b : bound) (w w1 w2 : W) (value : string)
    (opts : TransactOpts W) (t : tx) (events : list (log_event Log)) :
  let pc := client_contract c addr node b in
  cli c = Some e -> NewTransactionOption c w value = Returns (inl opts) ->
  bound_Transact b w opts (TxCacheOrderPayment nodeAcc) = (inl t, w1) ->
  client_SubscribeFilterLogs w1 e [addr] = (inl events, w2) ->
  let '(orderId, err) :=
    match first_match (order_to pc nodeAcc) events with
    | inl orderId => (orderId, None)
    | inr None => (zero_id, errors_New "order ID not obtained")
    | inr (Some err) => (zero_id, Some err)
    end in
  CreateCacheOrder pc w nodeAcc value
    = Returns ((tx_Hash_Hex t, orderId, Wrap err "create and payment cache order error"), w2).
Proof.
  intros pc Hc Ho Ht Hs. unfold CreateCacheOrder. cbn [NewOption client_contract pc].
  rewrite Ho. cbn [mbind outcome_bind]. unfold CacheOrderPayment. change (CacheProto pc) with b.
  rewrite Ht.
  rewrite (client_LogFilter _ _ c pc addr node b e _ _ _ _ _ eq_refl (on_OrderPayment_waits pc nodeAcc) Hc Hs).
  cbn [mbind outcome_bind].
  destruct (first_match _ events) as [orderId|[err|]]; by rewrite ?Wrap_nil.
Qed.

(** [ExitNetwork] waits for a [Claim] event: unless the node happens to claim a
    reward at the same time, it reports a timeout although the exit was accepted and
    its [Exit] event seen. *)
Theorem ExitNetwork_times_out {Contract} (c : Client W Contract) (e : ethclient)
    (addr node nodeAcc : address) (b : bound) (w w1 w2 : W)
    (opts : TransactOpts W) (t : tx) (logs : list Log) :
  let pc := client_contract c addr node b in
  cli c = Some e -> NewTransactionOption c w "" = Returns (inl opts) ->
  bound_Transact b w opts TxExit = (inl t, w1) ->
  client_SubscribeFilterLogs w1 e [addr] = (inl (map EvLog logs ++ [EvDone])%list, w2) ->
  Forall (fun l => forall reward, bound_UnpackLog b l ≠ inl (EventClaim nodeAcc reward)) logs ->
  ExitNetwork pc w nodeAcc
    = Returns (Wrap (errors_New "timeout") "node exit network error", w2).
Proof.
  intros pc Hc Ho Ht Hs Hl. unfold ExitNetwork. cbn [NewOption client_contract pc].
  rewrite Ho. cbn [mbind outcome_bind]. unfold Exit. change (CacheProto pc) with b.
  rewrite Ht.
  rewrite (client_LogFilter _ _ c pc addr node b e _ _ _ _ _ eq_refl (on_Exit_waits pc nodeAcc) Hc Hs).
  cbn [mbind outcome_bind]. rewrite first_match_none; [done|].
  eapply Forall_impl; [exact Hl|]. intros l Hn. unfold claim_of, ParseClaim. cbn [CacheProto pc client_contract].
  destruct (bound_UnpackLog b l) as [[a r| | |]|] eqn:Eu; try done.
  rewrite decide_False; [done|]. intros ->. by apply (Hn r).
Qed.

(** [CheckCreditOrder] decides the other way round: a proof whose signature
    verifies is refused as badly signed before the chain is asked anything, and an
    order is paid out only for a signature that does {e not} verify. *)
Theorem CheckCreditOrder_inverted (pc : CacheProtoContract W) (w w' : W)
    (pubkey data sign : bytes) (value : string) (err : error) :
  CheckCreditOrder_impl pc w pubkey data sign = Returns ((value, err), w') ->
  (VerifySignature pubkey (Keccak256Hash data) sign = true ->
     value = "" /\ is_Some err /\ w' = w)
  /\ (value ≠ "" -> VerifySignature pubkey (Keccak256Hash data) sign = false
       /\ err = None
       /\ exists order, QueryCacheOrder pc w (take 32 data) = (order, None)
           /\ order_Node order = pc_Node pc).
Proof.
  unfold CheckCreditOrder_impl.
  destruct (VerifySignature _ _ _).
  { intros [= <- <- <-]. split; [|done]. intros _. split_and!; [done| |done].
    apply Wrap_not_nil. }
  intros Hr. split; [done|]. intros Hv.
  apply outcome_bind_Returns in Hr as (orderId & Ha & Hr).
  unfold to_array32 in Ha. destruct (_ <? 32)%nat; [done|]. injection Ha as <-.
  destruct (QueryCacheOrder pc w (take 32 data)) as [order [e|]]; [congruence|].
  case_decide as Hn; [congruence|].
  destruct (QueryCurrencyTerm pc w) as [term [e|]]; [congruence|].
  apply outcome_bind_Returns in Hr as ([|] & Hx & Hr); [congruence|].
  apply outcome_bind_Returns in Hr as ([[e|] w1] & Hx' & Hr); [congruence|].
  assert (err = None) by congruence. split_and!; [done|done|].
  exists order. split; [done|]. by destruct (decide (order_Node order = pc_Node pc)).
Qed.

(** For an order of another node, or one more than four terms old,
    [CheckCreditOrder] builds its error from a nil one: it returns an empty amount and
    no error. *)
Theorem CheckCreditOrder_silent (pc : CacheProtoContract W) (w : W)
    (pubkey data sign : bytes) (order : Order) (value created now : Z) :
  VerifySignature pubkey (Keccak256Hash data) sign = false -> (32 <= length data)%nat ->
  QueryCacheOrder pc w (take 32 data) = (order, None) ->
  Term order = Some created -> QueryCurrencyTerm pc w = (Some now, None) ->
  order_Node order ≠ pc_Node pc \/ created + 4 < now ->
  CheckCreditOrder_impl pc w pubkey data sign = Returns (("", None), w).
Proof.
  intros Hv Hd Hq Ht Hn Hbad. unfold CheckCreditOrder_impl, to_array32. rewrite Hv.
  rewrite (proj2 (Nat.ltb_ge _ _)) by done. cbn [mbind outcome_bind]. rewrite Hq.
  case_decide as Hx; [by rewrite Wrap_nil|].
  destruct Hbad as [|Hlt]; [done|]. rewrite Hn. unfold term_expired. rewrite Ht.
  cbn [mbind outcome_bind]. rewrite (proj2 (Z.ltb_lt _ _)) by done. by rewrite Wrap_nil.
Qed.

(** An account registered with peer id [pid] cannot be paid for: the peer id
    [base58(pid)] it announces is decoded and then compared with the encoded form, so
    [CreateCreditOrder] refuses it, and no order is ever created. *)
Theorem CreateCreditOrder_refuses (pc : CacheProtoContract W) (w : W)
    (key value : string) (info : NodeInfo) :
  Node (CacheProto pc) w (HexToAddress key) = (info, None) ->
  Created info = true -> info_PeerId info ≠ [] ->
  to_bytes (base58_Encode (info_PeerId info)) ≠ info_PeerId info ->
  CreateCreditOrder_impl pc w key (base58_Encode (info_PeerId info)) value
    = Returns (("", "", Wrap (errors_New "peer ID does not match the registered one")
                          "create credit order"), w).
Proof.
  intros Hn Hc Hp Hne. unfold CreateCreditOrder_impl. rewrite base58_Decode_Encode by done.
  unfold QueryRegisterInfo. rewrite Hn. rewrite decide_False by (intros [?|?]; congruence).
  cbn [info_PeerId]. by rewrite decide_False.
Qed.
End contract.

(** ** Transactions *)

Section transactions.
Context {W : Type} `{BoundContract W} `{PkgErrors} `{Base58}.

(** What a node does with its contract, one operation or server tick at a time. *)
Inductive contract_step (pc : CacheProtoContract W) (w : W) : W -> Prop :=
  | step_CreateCacheOrder nodeAcc value r w' :
      CreateCacheOrder pc w nodeAcc value = Returns (r, w') -> contract_step pc w w'
  | step_RegisterNode nodeAcc tokenAcc peerId tokenId value sign r w' :
      RegisterNode pc w nodeAcc tokenAcc peerId tokenId value sign = Returns (r, w') ->
      contract_step pc w w'
  | step_ClaimOrder orderId r w' :
      ClaimOrder pc w orderId = Returns (r, w') -> contract_step pc w w'
  | step_claim_tick nodeAcc term r w' :
      claim_tick pc nodeAcc term w = Returns (r, w') -> contract_step pc w w'
  | step_ExitNetwork nodeAcc r w' :
      ExitNetwork pc w nodeAcc = Returns (r, w') -> contract_step pc w w'
  | step_CreateCreditOrder key nodeId value r w' :
      CreateCreditOrder_impl pc w key nodeId value = Returns (r, w') -> contract_step pc w w'
  | step_CheckCreditOrder pubkey data sign r w' :
      CheckCreditOrder_impl pc w pubkey data sign = Returns (r, w') -> contract_step pc w w'.

(** A property of the chain that every transaction but [orderClaim] keeps. *)
Record kept (pc : CacheProtoContract W) (I : W -> Prop) : Prop := {
  kept_Transact : forall b w opts call r w', (forall id, call ≠ TxOrderClaim id) ->
    bound_Transact b w opts call = (r, w') -> I w -> I w';
  kept_LogFilter : forall St w q cb (s : St) r w',
    LogFilter pc St w q cb s = Returns (r, w') -> I w -> I w';
}.

Ltac run :=
  match goal with
  | H : mbind _ _ = Returns _ |- _ => apply outcome_bind_Returns in H as (? & ? & H)
  | H : match ?x with _ => _ end = Returns _ |- _ => destruct x eqn:?; simplify_eq; try done
  end.

Ltac keeps Ht Hl :=
  let sent := (eapply Ht; [|eassumption|assumption]; done) in
  first [assumption | sent | eapply Hl; [eassumption|]; first [assumption | sent]].

Lemma CreateCacheOrder_keeps pc I w nodeAcc value r w' :
  kept pc I -> CreateCacheOrder pc w nodeAcc value = Returns (r, w') -> I w -> I w'.
Proof.
  intros [Ht Hl] Hs Hw. unfold CreateCacheOrder, CacheOrderPayment in Hs.
  repeat run; keeps Ht Hl.
Qed.

Lemma RegisterNode_keeps pc I w nodeAcc tokenAcc peerId tokenId value sign r w' :
  kept pc I -> RegisterNode pc w nodeAcc tokenAcc peerId tokenId value sign = Returns (r, w') ->
  I w -> I w'.
Proof.
  intros [Ht Hl] Hs Hw. unfold RegisterNode, Staking in Hs.
  repeat run; keeps Ht Hl.
Qed.

Lemma ClaimOrder_keeps pc I w orderId r w' :
  kept pc I -> ClaimOrder pc w orderId = Returns (r, w') -> I w -> I w'.
Proof.
  intros [Ht Hl] Hs Hw. unfold ClaimOrder, Claim in Hs. repeat run; keeps Ht Hl.
Qed.

Lemma ClaimWorkReward_keeps pc I w nodeAcc r w' :
  kept pc I -> ClaimWorkReward pc w nodeAcc = Returns (r, w') -> I w -> I w'.
Proof.
  intros [Ht Hl] Hs Hw. unfold ClaimWorkReward, Claim in Hs.
  repeat run; keeps Ht Hl.
Qed.

Lemma ExitNetwork_keeps pc I w nodeAcc r w' :
  kept pc I -> ExitNetwork pc w nodeAcc = Returns (r, w') -> I w -> I w'.
Proof.
  intros [Ht Hl] Hs Hw. unfold ExitNetwork, Exit in Hs.
  repeat run; keeps Ht Hl.
Qed.

Lemma contract_step_keeps pc I w w' : kept pc I -> contract_step pc w w' -> I w -> I w'.
Proof.
  intros Hk [? ? ? ? Hs|? ? ? ? ? ? ? ? Hs|? ? ? Hs|? ? ? ? Hs|? ? ? Hs|? ? ? ? ? Hs|? ? ? ? ? Hs].
  - by eapply CreateCacheOrder_keeps.
  - by eapply RegisterNode_keeps.
  - by eapply ClaimOrder_keeps.
  - unfold claim_tick in Hs. intros Hw. repeat run; eauto; by eapply ClaimWorkReward_keeps.
  - by eapply ExitNetwork_keeps.
  - unfold CreateCreditOrder_impl in Hs. intros Hw. repeat run; eauto; by eapply CreateCacheOrder_keeps.
  - unfold CheckCreditOrder_impl in Hs. intros Hw. repeat run; eauto; by eapply ClaimOrder_keeps.
Qed.

(** C16: No order is ever claimed, also not by [ClaimOrder] and [CheckCreditOrder], which
    mean to: a property of the chain that every transaction but [orderClaim] keeps, and that
    waiting for events keeps, is kept by whatever a node does with its contract, in any
    sequence: orders, registration, claims of orders, the ticks of the reward server, the
    exit, and the credit orders of clients and nodes. *)
Theorem orders_never_claimed (pc : CacheProtoContract W) (I : W -> Prop) (w w' : W) :
  kept pc I -> rtc (contract_step pc) w w' -> I w -> I w'.
Proof.
  intros Hk Hr. induction Hr as [|w w1 w2 Hs _ IH]; [done|].
  intros Hw. eapply IH, contract_step_keeps; eauto.
Qed.

(** ** Rewards *)

(** The client behind the contract is connected and has a key, so that its two functions do
    not panic. *)
Record calls_return (pc : CacheProtoContract W) : Prop := {
  returns_NewOption : forall w v, exists r, NewOption pc w v = Returns r;
  returns_LogFilter : forall St w q cb (s : St), exists r, LogFilter pc St w q cb s = Returns r;
}.

Lemma ClaimWorkReward_returns pc w acc : calls_return pc ->
  exists r w', ClaimWorkReward pc w acc = Returns (r, w').
Proof.
  intros [Ho Hl]. unfold ClaimWorkReward. destruct (Ho w "") as [[opts|e] ->]; cbn [mbind outcome_bind]; [|by eexists _, _].
  destruct (Claim _ _ _) as [[h|e] w1]; [|by eexists _, _].
  destruct (Hl string w1 [Address pc] (on_Claim pc acc) "0") as [[[err reward] w2] ->]. cbn [mbind outcome_bind].
  destruct err; by eexists _, _.
Qed.

Lemma claim_tick_term pc nodeAcc term w T term' w' :
  (forall t, QueryCurrencyTerm pc w = (Some t, None) -> 0 <= t <= T) -> T < 2 ^ 63 -> 0 <= term ->
  claim_tick pc nodeAcc term w = Returns (term', w') ->
  (term' = term /\ w' = w) \/
  (term' = term + 1 /\ term < T /\ exists r, ClaimWorkReward pc w nodeAcc = Returns (r, w')).
Proof.
  intros HT Hm Hp. unfold claim_tick.
  destruct (QueryCurrencyTerm pc w) as [[t|] [e|]] eqn:Eq; try (intros [= <- <-]; by left).
  specialize (HT _ eq_refl). rewrite big_Int64_id by lia.
  destruct (Z.leb_spec t term); [intros [= <- <-]; by left|].
  rewrite i64_id by (unfold is_i64; lia).
  intros ([r w1] & Hc & [= <- <-])%outcome_bind_Returns. right. split_and!; [done|lia|by exists r].
Qed.

(** The reward server claims at most once a tick and never more terms than the
    chain has had: while the chain's term stays within [0..T], after any ticks the
    server stands at a term between where it started and [T], having moved by at most
    one per tick. *)
Theorem claim_loop_bounded (pc : CacheProtoContract W) (I : W -> Prop) (nodeAcc : address)
    (ticks : list (W -> W)) (term T term' : Z) (w w' : W) :
  (forall w t, I w -> QueryCurrencyTerm pc w = (Some t, None) -> 0 <= t <= T) ->
  kept pc I -> Forall (fun advance => forall w, I w -> I (advance w)) ticks -> I w ->
  T < 2 ^ 63 -> 0 <= term <= T ->
  claim_loop pc nodeAcc ticks term w = Returns (term', w') ->
  term <= term' <= T /\ term' - term <= len ticks.
Proof.
  intros HT Hk Ha Hw Hm. revert term w Hw.
  induction Ha as [|advance ticks Ha _ IH]; intros term w Hw Hp; cbn [claim_loop].
  - intros [= <- <-]. rewrite len_nil. lia.
  - intros ([t1 w1] & Hs & Hl)%outcome_bind_Returns. rewrite len_cons.
    specialize (Ha w Hw).
    destruct (claim_tick_term _ _ _ _ T _ _ (fun t => HT (advance w) t Ha) Hm (proj1 Hp) Hs)
      as [[-> ->]|(-> & Hlt & r & Hr)].
    + apply IH in Hl; [lia|done|lia].
    + apply IH in Hl; [lia|by eapply ClaimWorkReward_keeps|lia].
Qed.
End transactions.

(** ** A sample chain *)

(** The transactions sent so far, what subscriptions deliver, and the answers of the
    constant methods. *)
Record Chain := mkChain {
  txs : list (@transaction_call sample_crypto);
  ch_events : list (log_event (@contract_event sample_crypto));
  ch_node : bool * Z * Z * bytes;
  ch_order : Z * string * string * Z;
  ch_term : Z;
}.

Definition sample_client : @EthClient sample_crypto Chain.
Proof.
  refine (@Build_EthClient sample_crypto Chain string
    (fun rpc => if decide (rpc = "") then inr "no address" else inl rpc)
    (@contract_event sample_crypto)
    (fun _ _ => inl 7)
    (fun w _ _ => (inl (ch_events w), w))
    bytes
    (fun s => if decide (s = "") then inr "invalid length" else inl (to_bytes s))
    (fun k => k) (fun k => k)
    (fun h k => match k with Some k => Returns (inl (k ++ h)%list) | None => Panics NilDereference end)
    (fun _ _ => None)).
Defined.

Definition sample_answer {A} (w : Chain) (c : @constant_call sample_crypto A) : A + string :=
  match c in constant_call A return A + string with
  | CallNode _ => inl (ch_node w)
  | CallOrder _ => inl (ch_order w)
  | CallGetCurrencyTerm => inl (ch_term w)
  end.

Definition sample_contract : @BoundContract Chain sample_crypto sample_client.
Proof.
  refine (@Build_BoundContract Chain sample_crypto sample_client
    unit (fun _ _ => inl tt)
    (fun A _ w c => sample_answer w c)
    string (fun t => t)
    (fun _ w _ call => (inl "0x77", mkChain (txs w ++ [call])%list (ch_events w) (ch_node w) (ch_order w) (ch_term w)))
    (fun _ l => inl l) "0x0").
Defined.

Definition sample_base58 : Base58.
Proof.
  refine {| base58_Encode b := of_bytes (x5a :: b);
    base58_Decode s := match to_bytes s with c :: b => inl b | [] => inr "invalid base58" end |}.
  - intros b _. by rewrite to_of_bytes.
  - by eexists.
Defined.

#[local] Existing Instance sample_crypto.
#[local] Existing Instance sample_client.
#[local] Existing Instance sample_contract.
#[local] Existing Instance sample_base58.

Definition sample_eth (key : string) : Client Chain unit :=
  fst (NewClient [AccountPrivateKey key; ChainID_option 1; ConnectionRpcAddresss [""; "wss://rpc"];
                  EthereumGas 5 0]).

Definition sample_chain : Chain :=
  mkChain [] [EvLog (EventOrderPayment (replicate 32 x11) "0xother");
              EvLog (EventExit "0xnode");
              EvLog (EventOrderPayment (replicate 32 x22) "0xnode"); EvDone]
    (true, 0, 1, [x01; x02]) (5, "0xpayer", "0xother", 2) 9.

Definition sample_bound : @bound Chain sample_crypto sample_client sample_contract := tt.

Definition sample_pc : CacheProtoContract Chain :=
  client_contract (sample_eth "key") "0xcontract" "0xnode" sample_bound.

Definition sample_opts (value : option Z) : TransactOpts Chain :=
  mkTransactOpts (to_bytes "key") 11330 (Some 7) (Some 5) 30000000 value.

Lemma NewTransactionOption_fixed_chain_witness :
  opts_chain (sample_opts None) = 11330
  /\ (big_SetString "1.5" = None -> opts_Value (sample_opts None) = None)
  /\ (forall v, "1.5" = big_String v -> opts_Value (sample_opts None) = Some v).
Proof. by apply (NewTransactionOption_fixed_chain (sample_eth "key") sample_chain "1.5"). Defined.

Lemma NewClient_connected_witness :
  cli (sample_eth "key") = Some "wss://rpc" /\ ChainID (sample_eth "key") = 1.
Proof.
  destruct (NewClient_connected "key" 1 [""; "wss://rpc"] 5 0 (sample_eth "key") eq_refl)
    as ((_ & _ & _ & _ & _) & _ & Hid & _). by split.
Defined.

(** The chain after one more transaction. *)
Definition sent (c : transaction_call) (w : Chain) : Chain :=
  mkChain (txs w ++ [c])%list (ch_events w) (ch_node w) (ch_order w) (ch_term w).

Lemma CreateCacheOrder_first_event_witness :
  CreateCacheOrder sample_pc sample_chain "0xnode" "12"
    = Returns (("0x77", replicate 32 x22, None), sent (TxCacheOrderPayment "0xnode") sample_chain).
Proof.
  exact (CreateCacheOrder_first_event (sample_eth "key") "wss://rpc" "0xcontract" "0xnode" "0xnode" sample_bound
    sample_chain (sent (TxCacheOrderPayment "0xnode") sample_chain)
    (sent (TxCacheOrderPayment "0xnode") sample_chain) "12" (sample_opts (Some 12)) "0x77"
    (ch_events sample_chain) eq_refl eq_refl eq_refl eq_refl).
Defined.

Definition exit_chain : Chain :=
  mkChain [] (map EvLog [EventExit "0xnode"; EventClaim "0xother" 3] ++ [EvDone])%list
    (ch_node sample_chain) (ch_order sample_chain) 9.

Lemma ExitNetwork_times_out_witness :
  ExitNetwork sample_pc exit_chain "0xnode"
    = Returns (Wrap (errors_New "timeout") "node exit network error", sent TxExit exit_chain).
Proof.
  refine (ExitNetwork_times_out (sample_eth "key") "wss://rpc" "0xcontract" "0xnode" "0xnode" sample_bound
    exit_chain (sent TxExit exit_chain) (sent TxExit exit_chain) (sample_opts None) "0x77"
    [EventExit "0xnode"; EventClaim "0xother" 3] eq_refl eq_refl eq_refl eq_refl _).
  repeat constructor; intros r [=].
Defined.

Lemma CheckCreditOrder_inverted_witness :
  VerifySignature [x01] (Keccak256Hash [x05]) [x01] = true
  /\ is_Some (Wrap (errors_New "bad signature") "check credit order error").
Proof.
  split; [reflexivity|].
  assert (Hr : CheckCreditOrder_impl sample_pc sample_chain [x01] [x05] [x01]
    = Returns (("", Wrap (errors_New "bad signature") "check credit order error"), sample_chain))
    by reflexivity.
  exact (proj1 (proj2 (proj1 (CheckCreditOrder_inverted sample_pc _ _ _ _ _ _ _ Hr) eq_refl))).
Defined.

Lemma CheckCreditOrder_silent_witness :
  CheckCreditOrder_impl sample_pc sample_chain [x01] (replicate 32 x05) [x02]
    = Returns (("", None), sample_chain).
Proof.
  apply (CheckCreditOrder_silent sample_pc sample_chain [x01] (replicate 32 x05) [x02]
    (@mkOrder sample_crypto (Some 5) "0xpayer" "0xother" (Some 2)) 5 2 9); try reflexivity.
  by right.
Defined.

Lemma CreateCreditOrder_refuses_witness :
  CreateCreditOrder_impl sample_pc sample_chain "0xnode" (base58_Encode [x01; x02]) "12"
    = Returns (("", "", Wrap (errors_New "peer ID does not match the registered one")
                          "create credit order"), sample_chain).
Proof.
  by apply (CreateCreditOrder_refuses sample_pc sample_chain "0xnode" "12"
    (mkNodeInfo true (Some 0) (Some 1) [x01; x02])).
Defined.

Definition no_claim (w : Chain) : Prop :=
  Forall (fun c => match c with TxOrderClaim _ => False | _ => True end) (txs w).

Lemma orders_never_claimed_witness :
  rtc (contract_step sample_pc) sample_chain (sent TxClaim sample_chain)
  /\ no_claim (sent TxClaim sample_chain).
Proof.
  assert (rtc (contract_step sample_pc) sample_chain (sent TxClaim sample_chain)) as Hr.
  { by apply rtc_once, (step_ClaimOrder sample_pc sample_chain (replicate 32 x05) None). }
  split; [exact Hr|].
  apply (orders_never_claimed sample_pc no_claim sample_chain); [|exact Hr|constructor].
  split.
  - intros b w opts call r w' Hc [= <- <-] Hw. unfold no_claim. cbn.
    apply Forall_app. split; [done|]. constructor; [|done]. destruct call; try done. by eapply Hc.
  - intros St w q cb s r w' [= <- <-]. done.
Defined.

Lemma claim_loop_bounded_witness :
  claim_loop sample_pc "0xnode" [sent TxExit; fun w : Chain => w] 1 exit_chain
    = Returns (3, sent TxClaim (sent TxClaim (sent TxExit exit_chain)))
  /\ 1 <= 3 <= 9 /\ 3 - 1 <= len [sent TxExit; fun w : Chain => w].
Proof.
  split; [reflexivity|].
  apply (claim_loop_bounded sample_pc (fun w => ch_term w = 9) "0xnode"
    [sent TxExit; fun w : Chain => w] 1 9 3 exit_chain
    (sent TxClaim (sent TxClaim (sent TxExit exit_chain)))); try done.
  - intros w t Hw [= <-]. by rewrite Hw.
  - split; [by intros b w opts call r w' _ [= _ <-]|by intros St w q cb s r w' [= _ <-]].
  - by repeat constructor.
Defined.
