(* ===== verification/CacheActor.v ===== *)
(** * The cache actor: cd2n-node/actors/cache_actor.go

    Serves cached files to clients over streams, counts requests and cached fragments
    per segment in a leveldb store, and keeps the queue of segments to download. *)

From S2P Require Import Prelude GoStrings Encoding Json JsonFacts Codec Types Stream GoOs External Credit.
From Stdlib Require Import SpecFloat.

Definition ORIGIN_SITE_TAG := "origin_site_tag".
Definition SITE_RESOURCE_CACHE := "site resource cache".
Definition NODE_RESOURCE_CACHE := "node resource cache".
Definition BusyLine : Z := 1024.

Record DownloadTask := mkDownloadTask { Source : string; Doing : bool; task_Option : string }.

Record DownloadResponse := mkDownloadResponse {
  ResrcPath : string;
  Key : string;
  OriginNode : bytes;
}.

Inductive request_data := ReqCache (r : CacheRequest) | ReqOther.
Record DownloadRequest := mkDownloadRequest { req_Option : string; req_Data : request_data }.

(** [C], [R] and [DB] are the file cache, the record store and the credit store;
    [dlQueue] is [None] until the download server runs. *)
Record CacheActor (C R DB : Type) := mkCacheActor {
  fileCache : C;
  record : R;
  dlQueue : option (gmap string DownloadTask);
  creditMg : Credit DB;
  reqNum : Z;
  act_Account : slice byte;
}.
Arguments mkCacheActor {C R DB} _ _ _ _ _ _.
Arguments fileCache {C R DB} _.
Arguments record {C R DB} _.
Arguments dlQueue {C R DB} _.
Arguments creditMg {C R DB} _.
Arguments reqNum {C R DB} _.
Arguments act_Account {C R DB} _.

Section setters.
Context {C R DB : Type}.
Abbreviation actor := (CacheActor C R DB).
Definition set_cache (x : C) (a : actor) : actor :=
  mkCacheActor x (record a) (dlQueue a) (creditMg a) (reqNum a) (act_Account a).
Definition set_record (x : R) (a : actor) : actor :=
  mkCacheActor (fileCache a) x (dlQueue a) (creditMg a) (reqNum a) (act_Account a).
Definition set_queue (x : option (gmap string DownloadTask)) (a : actor) : actor :=
  mkCacheActor (fileCache a) (record a) x (creditMg a) (reqNum a) (act_Account a).
Definition set_credit (x : Credit DB) (a : actor) : actor :=
  mkCacheActor (fileCache a) (record a) (dlQueue a) x (reqNum a) (act_Account a).
End setters.

(** ** Streams of the libp2p server side *)

Record net_stream := mkStream {
  s_in : reader;
  s_out : bytes;        (** what was written so far *)
  s_reset : bool;
  s_fault : error;      (** what every write fails with *)
}.

Definition stream_Write (s : net_stream) (b : bytes) : net_stream * error :=
  match s_fault s with
  | Some e => (s, Some e)
  | None =>
      if s_reset s then (s, errors_New "stream reset")
      else (mkStream (s_in s) (s_out s ++ b)%list false None, None)
  end.

Definition stream_Reset (s : net_stream) : net_stream :=
  mkStream (s_in s) (s_out s) true (s_fault s).

(** [0.8] rounded to a float64. *)
Definition float_0_8 : spec_float := S754_finite false 7205759403792794 (-53).

Section cacheactor.
Context {C R DB W : Type} `{FileCache FS C} {RecDB : LevelDB R} `{LevelDB DB} `{GoTime}
  `{JsonMessages} `{FloatText} `{PkgErrors} `{EthCrypto} `{Order2Credit W} `{CessConfig}
  `{NetUrl} `{OsFaults}.
Abbreviation actor := (CacheActor C R DB).

(** A nil [*sync.Map] panics on every method. *)
Definition the_queue (a : actor) : outcome (gmap string DownloadTask) :=
  match dlQueue a with Some q => Returns q | None => Panics NilDereference end.

Definition queue_Delete (k : string) (a : actor) : outcome actor :=
  q ← the_queue a; Returns (set_queue (Some (delete k q)) a).

Definition queue_Store (k : string) (t : DownloadTask) (a : actor) : outcome actor :=
  q ← the_queue a; Returns (set_queue (Some (<[k := t]> q)) a).

(** ** The counters *)

Definition record_Put (k : string) (v : bytes) (a : actor) : actor * error :=
  let '(r, e) := db_Put (record a) k v in (set_record r a, e).

Definition GetFileRecord (a : actor) (key rType : string) : Z * bool :=
  if decide (rType ≠ RECORD_FRAGMENTS /\ rType ≠ RECORD_REQUESTS) then (0, false)
  else match db_Get (record a) (key +:+ rType) with
       | inr _ => (0, false)
       | inl v =>
           if len v <? 4 then (0, false)
           else match BigEndian_Uint32 (take 4 v) with Returns n => (n, true) | Panics _ => (0, false) end
       end.

Definition PutFileRecord (a : actor) (key rType : string) (value : Z) : actor * error :=
  if decide (rType ≠ RECORD_FRAGMENTS /\ rType ≠ RECORD_REQUESTS) then (a, errors_New "bad record type")
  else record_Put (key +:+ rType) (BigEndian_PutUint32 (u32 value)) a.

(** [binary.BigEndian.Uint32(v)] of a long enough slice. *)
Definition uint32_of (v : bytes) : Z :=
  match BigEndian_Uint32 v with Returns n => n | Panics _ => 0 end.

Definition on_add_item (k : string) (a : actor) : actor :=
  if ParseRequestURI_ok k then a
  else
    let '(k, _) := filepath_Split k in
    match db_Get (record a) (k +:+ RECORD_FRAGMENTS) with
    | inr ErrNotFound => fst (record_Put (k +:+ RECORD_FRAGMENTS) (BigEndian_PutUint32 1) a)
    | inr _ => a
    | inl v =>
        let buf := if len v <? 4 then BigEndian_PutUint32 1
                   else BigEndian_PutUint32 (u32 (1 + uint32_of v)) in
        fst (record_Put (k +:+ RECORD_FRAGMENTS) buf a)
    end.

(** [PutUint32(v[:4], value)] overwrites the four bytes that are stored back. *)
Definition on_delete_item (k : string) (a : actor) : actor :=
  let '(k, _) := filepath_Split k in
  match db_Get (record a) (k +:+ RECORD_FRAGMENTS) with
  | inr _ => a
  | inl v =>
      if len v <? 4 then a
      else
        let value := uint32_of (take 4 v) in
        let value := if 0 <? value then value - 1 else value in
        let a := fst (record_Put (k +:+ RECORD_FRAGMENTS) (BigEndian_PutUint32 value) a) in
        if value <? DataShards
        then fst (record_Put (k +:+ RECORD_REQUESTS) (BigEndian_PutUint32 0) a)
        else a
  end.

Definition on_cache_event (a : actor) (e : cache_event) : actor :=
  match e with ItemAdded k => on_add_item k a | ItemDeleted k => on_delete_item k a end.

Definition run_callbacks (a : actor) (es : list cache_event) : actor := foldl on_cache_event a es.

(** [leveldb.OpenFile("./file_record")] gives the store or fails; the download queue
    and the account are left unset. *)
Definition NewCacher (cache : C) (mg : Credit DB) (open : R + string) : option actor :=
  match open with
  | inr _ => None
  | inl db => Some (mkCacheActor cache db None mg 0 None)
  end.

Definition move_to_cache (a : actor) (fs : FS) (hash fpath : string) : error * (actor * FS) :=
  let '((err, es), (c, fs)) := MoveFileToCache (fileCache a) fs hash fpath in
  (err, (run_callbacks (set_cache c a) es, fs)).

(** ** Messages *)

Inductive message :=
  | MsgRequest (r : CacheRequest)
  | MsgResponse (r : DownloadResponse)
  | MsgResponses (rs : list DownloadResponse).

(** Each response of a batch: what could be moved is credited to its origin. *)
Fixpoint receive_responses (now : time) (a : actor) (fs : FS) (rs : list DownloadResponse)
    : outcome (actor * FS) :=
  match rs with
  | [] => Returns (a, fs)
  | resp :: rs =>
      match move_to_cache a fs (Key resp) (ResrcPath resp) with
      | (Some _, (a, fs)) => receive_responses now a fs rs
      | (None, (a, fs)) =>
          if decide (of_bytes (OriginNode resp) = ORIGIN_SITE_TAG) then receive_responses now a fs rs
          else
            mg ← AddCreditPoint now (creditMg a) (Bytes2Hex (OriginNode resp)) FragmentSize;
            receive_responses now (set_credit mg a) fs rs
      end
  end.

(** The result is what is sent back to the sender, if anything. *)
Definition Receive (now : time) (a : actor) (fs : FS) (m : message)
    : outcome (option string * (actor * FS)) :=
  match m with
  | MsgRequest req =>
      match GetCacheRecord (fileCache a) (WantFile req) with
      | (inr _, c) => Returns (None, (set_cache c a, fs))
      | (inl fpath, c) =>
          match os_Stat fs fpath with
          | inr _ => Returns (None, (set_cache c a, fs))
          | inl _ => Returns (Some fpath, (set_cache c a, fs))
          end
      end
  | MsgResponse resp =>
      let hash := GetSha256Hash (to_bytes (filepath_Base (Key resp))) in
      match move_to_cache a fs hash (ResrcPath resp) with
      | (Some _, (a, fs)) => Returns (None, (a, fs))
      | (None, (a, fs)) => a ← queue_Delete hash a; Returns (None, (a, fs))
      end
  | MsgResponses resps =>
      a ← match resps with
          | first :: _ =>
              match strings_Split (Key first) slash with
              | h0 :: h1 :: _ =>
                  if 4 <=? len resps then queue_Delete (filepath_Join [h0; h1]) a else Returns a
              | _ => Returns a
              end
          | [] => Returns a
          end;
      '(a, fs) ← receive_responses now a fs resps;
      Returns (None, (a, fs))
  end.

(** ** Restoring files at start-up *)

(** [filepath.Walk] calls back for every entry, in order, until a callback fails. *)
Definition restore_entry (a : actor) (path : string) (info : FileInfo) : actor :=
  if fi_isdir info then a
  else
    let add k :=
      let '(es, c) := AddCacheRecord (fileCache a) k path in run_callbacks (set_cache c a) es in
    if fi_size info =? sdk_FragmentSize then
      match rev (strings_Split path slash) with
      | l1 :: l2 :: l3 :: _ :: _ => add (filepath_Join [l1; l2; l3])
      | _ => a
      end
    else if 0 <? fi_size info then add (filepath_Base path)
    else a.

Fixpoint RestoreCacheFiles (a : actor) (entries : list (string * (FileInfo + string))) : actor * error :=
  match entries with
  | [] => (a, None)
  | (_, inr e) :: _ => (a, Some e)
  | (path, inl info) :: entries => RestoreCacheFiles (restore_entry a path info) entries
  end.

(** ** Queries *)

(** Whether the requests, the load and the account's level make it worth caching. *)
Definition worth_caching (level req : Z) (ratio : spec_float) : bool :=
  (level =? LEVEL_OWNER)
  || (SFltb ratio float_0_8 && (level <? LEVEL_UNTRUST))
  || ((level <? LEVEL_COMMON) && (2 <=? req)) || (4 <? req).

(** The cached fragments of a segment. *)
Fixpoint matching_files (key : string) (ks : list string) : list string :=
  match ks with
  | [] => []
  | k :: ks =>
      if decide (k = key) then k :: matching_files key ks
      else if strings_Contains k key then snd (filepath_Split k) :: matching_files key ks
      else matching_files key ks
  end.

Definition QueryCacheResource (a : actor) (acc key : string) (isUrl : bool)
    : outcome (list string * actor) :=
  let option := if isUrl then SITE_RESOURCE_CACHE else NODE_RESOURCE_CACHE in
  let source := key in
  let key := if isUrl then GetSha256Hash (to_bytes (filepath_Base key)) else key in
  let '(req, _) := GetFileRecord a key RECORD_REQUESTS in
  let req := req + 1 in
  let '(a, _) := PutFileRecord a key RECORD_REQUESTS req in
  let '(citem, _) := GetCreditRecord (creditMg a) acc in
  a ← (if worth_caching (Level citem) req (GetLoadRatio (fileCache a)) then
         q ← the_queue a;
         match q !! key with
         | Some _ => Returns a
         | None => Returns (set_queue (Some (<[key := mkDownloadTask source false option]> q)) a)
         end
       else Returns a);
  if isUrl then Returns (if cache_GetItem (fileCache a) key then [key] else [], a)
  else
    let '(count, _) := GetFileRecord a key RECORD_FRAGMENTS in
    if count <=? 0 then Returns ([], a)
    else Returns (matching_files key (cache_keys (fileCache a)), a).

(** [reqNum.Load] is called three times; other goroutines may change it between. *)
Definition GetCacheInfo (now : time) (loads : Z * Z * Z) (a : actor) (userAcc : string)
    : CacheInfo * actor :=
  let '(n1, n2, n3) := loads in
  let addr := HexToAddress (Owner (creditMg a)) in
  let ratio := GetLoadRatio (fileCache a) in
  let '((limit, ok), mg) := IsLimited now (creditMg a) userAcc in
  let credit := if ok then i64 (- i64 limit) else i64 limit in
  let status := if (BusyLine <? n1) && (0 <? i64 (n3 - n1)) then CACHE_BUSY else CACHE_IDLE in
  (mkCacheInfo ratio status (c_Price (creditMg a)) (Some (address_Bytes addr)) "" credit 0,
   set_credit mg a).

Definition SetRequestNumber (delta : Z) (a : actor) : actor :=
  mkCacheActor (fileCache a) (record a) (dlQueue a) (creditMg a) (i64 (reqNum a + delta)) (act_Account a).
Definition GetRequestNumber (a : actor) : Z := reqNum a.

(** ** The stream service *)

Definition WriteJsonResponse (s : net_stream) (status : string) (data : any) : net_stream * error :=
  match enc_Response (mkResponse status data) with
  | None => (stream_Reset s, errors_New marshal_message)
  | Some j =>
      match stream_Write s (print j) with
      | (s, Some e) => (stream_Reset s, Some e)
      | (s, None) => (s, None)
      end
  end.

(** The handlers share the world [(actor, W)]; the chain is reached by the credit check. *)
Definition check_credit (now : time) (w : W) (a : actor) (req : CacheRequest)
    : outcome (bool * (actor * W)) :=
  '(b, (mg, w)) ← CheckCredit now w (creditMg a) (elems (AccountId req)) (elems (Data req)) (elems (Sign req));
  Returns (b, (set_credit mg a, w)).

Definition serve_dail (now : time) (loads : Z * Z * Z) (a : actor) (s : net_stream) (req : CacheRequest)
    : actor * net_stream :=
  let userAcc := address_Hex (BytesToAddress (elems (AccountId req))) in
  let '(info, a) := GetCacheInfo now loads a userAcc in
  (a, fst (WriteJsonResponse s STATUS_OK (AnyResponse (mkCacheResponse STATUS_OK None info)))).

(** The inner function of the query case: the status, the files, and the state. *)
Definition query_status (now : time) (w : W) (a : actor) (userAcc : string) (paths : list string)
    (req : CacheRequest) : outcome ((string * slice string) * (actor * W)) :=
  '(ok, (a, w)) ← check_credit now w a req;
  if negb ok then Returns ((STATUS_FROZEN, None), (a, w))
  else
    let answer key isUrl :=
      '(fragments, a) ← QueryCacheResource a userAcc key isUrl;
      if 0 <? len fragments then Returns ((STATUS_HIT, Some fragments), (a, w))
      else Returns ((STATUS_MISS, None), (a, w)) in
    if decide (WantUrl req ≠ "") then answer (WantUrl req) true
    else
      match paths with
      | p0 :: p1 :: _ =>
          let key := filepath_Join [p0; p1] in
          q ← the_queue a;
          match q !! key with
          | Some _ => Returns ((STATUS_LOADING, None), (a, w))
          | None => answer key false
          end
      | _ => Returns ((STATUS_OK, None), (a, w))
      end.

Definition serve_query (now : time) (loads : Z * Z * Z) (w : W) (a : actor) (s : net_stream)
    (paths : list string) (req : CacheRequest) : outcome ((actor * W) * net_stream) :=
  match DecompressPubkey (elems (AccountId req)) with
  | inr e => Returns ((a, w), fst (WriteJsonResponse s STATUS_ERROR (AnyString e)))
  | inl pk =>
      let userAcc := address_Hex (PubkeyToAddress pk) in
      let '(info, a) := GetCacheInfo now loads a userAcc in
      '((status, fs), (a, w)) ← query_status now w a userAcc paths req;
      Returns ((a, w), fst (WriteJsonResponse s STATUS_OK (AnyResponse (mkCacheResponse status fs info))))
  end.

Definition error_reply (s : net_stream) (e : string) : net_stream :=
  fst (WriteJsonResponse s STATUS_ERROR (AnyString e)).

(** From the cached file's name on: send it, then book its size. *)
Definition send_cached (now : time) (w : W) (fs : FS) (a : actor) (s : net_stream) (req : CacheRequest)
    (fname : string) : outcome ((actor * W) * net_stream) :=
  match GetCacheRecord (fileCache a) fname with
  | (inr e, c) => Returns ((set_cache c a, w), error_reply s e)
  | (inl fpath, c) =>
      let a := set_cache c a in
      match os_Stat fs fpath with
      | inr e => Returns ((a, w), error_reply s e)
      | inl f =>
          match os_ReadFile fs fpath with
          | inr e => Returns ((a, w), error_reply s e)
          | inl bytes =>
              let s := match stream_Write s bytes with
                       | (s, Some _) => stream_Reset s
                       | (s, None) => s
                       end in
              match DecompressPubkey (elems (AccountId req)) with
              | inr e => Returns ((a, w), error_reply s e)
              | inl pk =>
                  mg ← AddCreditPoint now (creditMg a) (address_Hex (PubkeyToAddress pk)) (i64 (- fi_size f));
                  Returns ((set_credit mg a, w), s)
              end
          end
      end
  end.

Definition serve_download (now : time) (w : W) (fs : FS) (a : actor) (s : net_stream)
    (paths : list string) (req : CacheRequest) : outcome ((actor * W) * net_stream) :=
  if decide (WantUrl req ≠ "")
  then send_cached now w fs a s req (GetSha256Hash (to_bytes (filepath_Base (WantUrl req))))
  else
    match paths with
    | p0 :: p1 :: p2 :: _ =>
        '(ok, (a, w)) ← check_credit now w a req;
        if negb ok then Returns ((a, w), error_reply s "failed credit check")
        else send_cached now w fs a s req (filepath_Join [p0; p1; p2])
    | _ => Returns ((a, w), error_reply s "illegal file Id and segment Id")
    end.

(** A handler that waits for the rest of a request for ever has done nothing. *)
Definition CacheService (now : time) (loads : Z * Z * Z) (w : W) (fs : FS) (a : actor) (s : net_stream)
    : outcome ((actor * W) * net_stream) :=
  match ReadData (s_in s) with
  | None => Returns ((a, w), s)
  | Some (inr e) => Returns ((a, w), error_reply s e)
  | Some (inl data) =>
      match Unmarshal dec_CacheRequest data CacheRequest_zero with
      | (_, Some e) => Returns ((a, w), error_reply s e)
      | (req, None) =>
          let paths := strings_Split (WantFile req) slash in
          if decide (Option req = OPTION_DAIL) then
            let '(a, s) := serve_dail now loads a s req in Returns ((a, w), s)
          else if decide (Option req = OPTION_QUERY) then serve_query now loads w a s paths req
          else if decide (Option req = OPTION_DOWNLOAD) then serve_download now w fs a s paths req
          else Returns ((a, w), stream_Reset s)
      end
  end.

(** ** The download server *)

(** One entry of the queue, as a thread ranges over it: the request sent to the
    resource actor, if any. *)
Definition serve_task (key : string) (task : DownloadTask) (a : actor)
    : outcome (option DownloadRequest * actor) :=
  let sent := mkDownloadTask (Source task) true (task_Option task) in
  if decide (task_Option task = NODE_RESOURCE_CACHE) then
    if decide (length (strings_Split (Source task) slash) ≠ 2%nat) then Returns (None, a)
    else
      let '(count, ok) := GetFileRecord a key RECORD_FRAGMENTS in
      if ok && (DataShards <=? count) then a ← queue_Delete key a; Returns (None, a)
      else
        a ← queue_Store key sent a;
        Returns (Some (mkDownloadRequest NODE_RESOURCE_CACHE (ReqCache
          (mkCacheRequest "" "" (Source task) (act_Account a) None None))), a)
  else
    let '(item, c) := GetCacheRecord (fileCache a) key in
    let a := set_cache c a in
    a ← match item with
        | inl p => if decide (p ≠ "") then queue_Delete key a else Returns a
        | inr _ => Returns a
        end;
    a ← queue_Store key sent a;
    Returns (Some (mkDownloadRequest SITE_RESOURCE_CACHE (ReqCache
      (mkCacheRequest "" (Source task) "" (act_Account a) None None))), a).

(** [Range] calls [serve_task] once for each of the keys it visits that is still
    queued; its order is not specified. *)
Fixpoint range_tasks (keys : list string) (a : actor) : outcome (list DownloadRequest * actor) :=
  match keys with
  | [] => Returns ([], a)
  | k :: keys =>
      q ← the_queue a;
      match q !! k with
      | None => range_tasks keys a
      | Some task =>
          '(req, a) ← serve_task k task a;
          '(reqs, a) ← range_tasks keys a;
          Returns (match req with Some r => r :: reqs | None => reqs end, a)
      end
  end.

(** The number of threads, given [runtime.NumCPU]. *)
Definition thread_number (numCPU threadNum : Z) : Z :=
  if threadNum <=? 0 then Z.quot numCPU 4 + 1 else threadNum.

(** Starting the server: refused when it runs already or without a resource actor.
    When the context ends all threads stop and the queue is dropped. *)
Definition start_download_server (resrcActor : bool) (a : actor) : option actor :=
  match dlQueue a with
  | Some _ => None
  | None => if resrcActor then Some (set_queue (Some ∅) a) else None
  end.

Definition stop_download_server (a : actor) : actor := set_queue None a.

(** A run of the server: its threads' passes, in the order they happen. *)
Fixpoint download_passes (passes : list (list string)) (a : actor)
    : outcome (list DownloadRequest * actor) :=
  match passes with
  | [] => Returns ([], a)
  | keys :: passes =>
      '(r1, a) ← range_tasks keys a; '(r2, a) ← download_passes passes a;
      Returns ((r1 ++ r2)%list, a)
  end.

Definition RunDownloadServer (resrcActor : bool) (passes : list (list string)) (a : actor)
    : outcome (list DownloadRequest * actor) :=
  match start_download_server resrcActor a with
  | None => Returns ([], a)
  | Some a => '(reqs, a) ← download_passes passes a; Returns (reqs, stop_download_server a)
  end.
End cacheactor.
