(* ===== verification/CacheActorFacts.v ===== *)
(** * Properties of the cache actor

    The counters kept per segment, what a query can answer, the replies of the stream
    service, the booking of downloads and the download queue. *)

From S2P Require Import Prelude GoStrings Encoding Json JsonFacts Codec Types Stream GoOs External Credit.
From S2P Require Import CreditFacts CacheActor.
From Stdlib Require Import SpecFloat.

(** Closes [Forall plain_name [..]] from the hypotheses on the names. *)
Ltac plains := repeat first [apply Forall_nil_2 | apply Forall_cons_2]; done.

(** ** Keys *)

Lemma string_app_inj_r s t u : s +:+ u = t +:+ u -> s = t.
Proof.
  intros H. apply (f_equal to_bytes) in H. rewrite !to_bytes_app in H.
  apply app_inv_tail in H. apply (f_equal of_bytes) in H. by rewrite !of_to_bytes in H.
Qed.

(** The last character of the prefix of a fragment counter: none or a slash. *)
Lemma filepath_Split_dir k :
  fst (filepath_Split k) = "" \/ exists d, fst (filepath_Split k) = d +:+ "/".
Proof.
  unfold filepath_Split. destruct (rev (strings_Split k slash)) as [|f [|d ds]]; [by left|by left|].
  right. by eexists.
Qed.

(** The key of a segment as queries use it. *)
Definition segment_key (q : string) : Prop :=
  exists f s, plain_name f /\ plain_name s /\ q = f +:+ "/" +:+ s.

Lemma segment_key_Join f s : plain_name f -> plain_name s -> segment_key (filepath_Join [f; s]).
Proof.
  intros Hf Hs. exists f, s. split_and!; [done|done|].
  rewrite filepath_Join_plain; [done|done|plains].
Qed.

Lemma string_snoc s : s ≠ "" -> exists l b, to_bytes s = (l ++ [b])%list /\
  has_char slash s = has_char slash (of_bytes l) || bool_decide (b = x2f).
Proof.
  intros Hs. destruct (exists_last (l := to_bytes s)) as (l & b & Hl); [by destruct s|].
  exists l, b. split; [done|]. rewrite <- (of_to_bytes s), Hl.
  rewrite !has_char_of_bytes, existsb_app. cbn. rewrite orb_false_r. f_equal.
  apply bool_decide_ext. split; [|by intros ->].
  intros Hb. apply (f_equal byte_of_ascii) in Hb. by rewrite byte_of_ascii_of_byte in Hb.
Qed.

(** It ends with no slash. *)
Lemma segment_key_no_slash q d : segment_key q -> q ≠ "" /\ q ≠ d +:+ "/".
Proof.
  intros (f & s & Hf & (Hs & _ & _ & Hn) & ->). split.
  - destruct Hf as (Hf & _). by destruct f.
  - intros He. apply (f_equal to_bytes) in He. rewrite !to_bytes_app in He.
    destruct (string_snoc s Hs) as (l & b & Hl & Hc). rewrite Hl in He.
    rewrite !(app_assoc _ _ [b]) in He. change (to_bytes "/") with [x2f] in He.
    apply app_inj_tail in He as [_ ->].
    rewrite Hn, bool_decide_true, orb_true_r in Hc by done. done.
Qed.

(** The keys the actor writes: counters of fragments under a directory of the cache,
    counters of requests under anything. *)
Definition written_key (k : string) : Prop :=
  (exists d, (d = "" \/ exists x, d = x +:+ "/") /\ k = d +:+ RECORD_FRAGMENTS)
  \/ exists d, k = d +:+ RECORD_REQUESTS.

Lemma written_not_segment q k :
  segment_key q -> written_key k -> k ≠ q +:+ RECORD_FRAGMENTS.
Proof.
  intros Hq [(d & Hd & ->)|(d & ->)] He.
  - apply string_app_inj_r in He as ->. destruct (segment_key_no_slash q "" Hq) as [Hne _].
    destruct Hd as [->|[x ->]]; [done|]. by destruct (segment_key_no_slash _ x Hq).
  - apply (f_equal to_bytes) in He. rewrite !to_bytes_app in He.
    change (to_bytes RECORD_REQUESTS) with (to_bytes "-reque" ++ [x73; x74; x73])%list in He.
    change (to_bytes RECORD_FRAGMENTS) with (to_bytes "-fragme" ++ [x6e; x74; x73])%list in He.
    rewrite !app_assoc in He. by apply app_inj_2 in He as [_ ?].
Qed.

(** ** Counters *)

Section counters.
Context {C R DB W : Type} `{FileCache FS C} {RecDB : LevelDB R} `{LevelDB DB} `{GoTime}
  `{JsonMessages} `{FloatText} `{PkgErrors} `{EthCrypto} `{Order2Credit W} `{CessConfig}
  `{NetUrl} `{OsFaults}.
Abbreviation actor := (CacheActor C R DB).

Lemma take_PutUint32 v : take 4 (BigEndian_PutUint32 v) = BigEndian_PutUint32 v.
Proof. done. Qed.

Lemma Uint32_PutUint32 v : BigEndian_Uint32 (BigEndian_PutUint32 v) = Returns (u32 v).
Proof. pose proof (BigEndian_round_trip v []) as Hr. by rewrite app_nil_r in Hr. Qed.

(** Writing one counter. *)
Lemma record_Put_Get k v (a a' : actor) :
  record_Put k v a = (a', None) -> db_Get (record a') k = inl v.
Proof.
  unfold record_Put. destruct (db_Put _ _ _) as [r e] eqn:E. intros [= <- ->]. by eapply db_Get_Put.
Qed.

Lemma GetFileRecord_stored (a : actor) key rType v :
  rType = RECORD_FRAGMENTS \/ rType = RECORD_REQUESTS ->
  db_Get (record a) (key +:+ rType) = inl (BigEndian_PutUint32 v) ->
  GetFileRecord a key rType = (u32 v, true).
Proof.
  intros Ht Hg. unfold GetFileRecord. rewrite decide_False by (intros [? ?]; tauto).
  rewrite Hg, take_PutUint32, Uint32_PutUint32. done.
Qed.

(** A counter that was stored is read back modulo [2^32]; other record types are
    refused, and nothing is stored. *)
Theorem FileRecord_round_trip (a a' : actor) (key rType : string) (value : Z) (e : error) :
  PutFileRecord a key rType value = (a', e) ->
  (e = None -> GetFileRecord a' key rType = (value mod 2 ^ 32, true))
  /\ (rType ≠ RECORD_FRAGMENTS -> rType ≠ RECORD_REQUESTS -> is_Some e /\ a' = a).
Proof.
  unfold PutFileRecord. case_decide as Ht.
  - intros [= <- <-]. split; [done|]. intros _ _. split; [by eexists|done].
  - intros Hp. split; [|by intros ? ?; destruct Ht].
    intros ->. rewrite (GetFileRecord_stored a' key rType (u32 value)).
    + unfold u32. by rewrite Z.mod_mod.
    + destruct (decide (rType = RECORD_FRAGMENTS)); [by left|].
      destruct (decide (rType = RECORD_REQUESTS)); [by right|]. by destruct Ht.
    + by eapply record_Put_Get.
Qed.

(** ** What the actor writes to the counters' store *)

Definition record_write (r r' : R) : Prop :=
  exists k v e, written_key k /\ db_Put r k v = (r', e).

Abbreviation writes a a' := (rtc record_write (record a) (record a')).

Lemma written_fragments k : written_key (fst (filepath_Split k) +:+ RECORD_FRAGMENTS).
Proof. left. eexists. split; [|done]. apply filepath_Split_dir. Qed.
Lemma written_requests d : written_key (d +:+ RECORD_REQUESTS).
Proof. right. by eexists. Qed.

Lemma record_Put_writes k v (a : actor) : written_key k -> writes a (fst (record_Put k v a)).
Proof.
  intros Hk. unfold record_Put. destruct (db_Put (record a) k v) as [r e] eqn:E. cbn.
  apply rtc_once. by exists k, v, e.
Qed.

(** The callbacks write counters only. *)
Lemma run_callbacks_frame es (a : actor) : exists r, run_callbacks a es = set_record r a.
Proof.
  assert (Hone : forall e (a : actor), exists r, on_cache_event a e = set_record r a).
  { intros [k|k] []; cbn; unfold on_add_item, on_delete_item, record_Put;
      repeat case_match; simplify_eq/=; by eexists. }
  revert a. induction es as [|e es IH]; intros a; [exists (record a); by destruct a|].
  cbn. destruct (Hone e a) as [r ->]. destruct (IH (set_record r a)) as [r' Hr']. exists r'.
  unfold run_callbacks in Hr'. by rewrite Hr'.
Qed.

Lemma PutFileRecord_frame (a : actor) k t v : exists r, fst (PutFileRecord a k t v) = set_record r a.
Proof.
  unfold PutFileRecord, record_Put. case_decide; [exists (record a); by destruct a|].
  destruct (db_Put _ _ _) as [r e]. by exists r.
Qed.

Lemma on_add_item_writes k (a : actor) : writes a (on_add_item k a).
Proof.
  unfold on_add_item. case_match; [done|].
  pose proof (written_fragments k) as Hw. destruct (filepath_Split k) as [d f]. cbn in Hw.
  destruct (db_Get _ _) as [v|[|e]]; [by apply record_Put_writes|by apply record_Put_writes|done].
Qed.

Lemma on_delete_item_writes k (a : actor) : writes a (on_delete_item k a).
Proof.
  unfold on_delete_item. pose proof (written_fragments k) as Hw.
  destruct (filepath_Split k) as [d f]. cbn in Hw.
  destruct (db_Get _ _) as [v|e]; [|done]. case_match; [done|].
  destruct (_ <? DataShards); [|by apply record_Put_writes].
  etrans; [|apply record_Put_writes, written_requests]. by apply record_Put_writes.
Qed.

Lemma run_callbacks_writes es (a : actor) : writes a (run_callbacks a es).
Proof.
  revert a. induction es as [|e es IH]; intros a; [done|]. cbn.
  etrans; [|apply IH]. destruct e; [apply on_add_item_writes|apply on_delete_item_writes].
Qed.

Lemma move_to_cache_writes (a a' : actor) fs hash fpath err fs' :
  move_to_cache a fs hash fpath = (err, (a', fs')) -> writes a a'.
Proof.
  unfold move_to_cache. destruct (MoveFileToCache _ _ _ _) as [[e es] [c fs1]].
  intros [= <- <- <-]. apply (run_callbacks_writes es (set_cache c a)).
Qed.

Lemma queue_Delete_record k (a a' : actor) : queue_Delete k a = Returns a' -> record a' = record a.
Proof. unfold queue_Delete. by intros (q & _ & [= <-])%outcome_bind_Returns. Qed.
Lemma queue_Store_record k t (a a' : actor) : queue_Store k t a = Returns a' -> record a' = record a.
Proof. unfold queue_Store. by intros (q & _ & [= <-])%outcome_bind_Returns. Qed.

Lemma receive_responses_writes now (a a' : actor) fs rs fs' :
  receive_responses now a fs rs = Returns (a', fs') -> writes a a'.
Proof.
  revert a fs. induction rs as [|resp rs IH]; intros a fs; cbn; [by intros [= <- _]|].
  destruct (move_to_cache _ _ _ _) as [[e|] [a1 fs1]] eqn:Em.
  - intros Hr%IH. etrans; [by eapply move_to_cache_writes|done].
  - case_decide.
    + intros Hr%IH. etrans; [by eapply move_to_cache_writes|done].
    + intros (mg & _ & Hr%IH)%outcome_bind_Returns.
      etrans; [by eapply move_to_cache_writes|done].
Qed.

Lemma Receive_writes now (a a' : actor) fs m r fs' :
  Receive now a fs m = Returns (r, (a', fs')) -> writes a a'.
Proof.
  destruct m as [req|resp|resps]; cbn.
  - destruct (GetCacheRecord _ _) as [[p|e] c]; [destruct (os_Stat _ _)|]; by intros [= <- <- <-].
  - destruct (move_to_cache _ _ _ _) as [[e|] [a1 fs1]] eqn:Em.
    + intros [= <- <- <-]. by eapply move_to_cache_writes.
    + intros (a2 & Hq%queue_Delete_record & [= <- <- <-])%outcome_bind_Returns.
      rewrite Hq. by eapply move_to_cache_writes.
  - intros (a1 & Hq & Hr)%outcome_bind_Returns.
    apply outcome_bind_Returns in Hr as ([a2 fs2] & Hr & [= <- <- <-]).
    apply receive_responses_writes in Hr.
    assert (record a1 = record a) as Hrec; [|by rewrite Hrec in Hr].
    repeat case_match; simplify_eq; try done; by apply queue_Delete_record in Hq.
Qed.

Lemma RestoreCacheFiles_writes (a a' : actor) entries e :
  RestoreCacheFiles a entries = (a', e) -> writes a a'.
Proof.
  revert a. induction entries as [|[p [info|err]] entries IH]; intros a; cbn; [by intros [= <- _]| |by intros [= <- _]].
  intros Hr%IH. etrans; [|exact Hr]. unfold restore_entry.
  repeat case_match; done || apply (run_callbacks_writes _ (set_cache _ a)).
Qed.

Lemma PutFileRecord_writes (a : actor) key v :
  writes a (fst (PutFileRecord a key RECORD_REQUESTS v)).
Proof.
  unfold PutFileRecord. case_decide; [done|]. apply record_Put_writes, written_requests.
Qed.

Lemma QueryCacheResource_writes (a a' : actor) acc key isUrl files :
  QueryCacheResource a acc key isUrl = Returns (files, a') -> writes a a'.
Proof.
  unfold QueryCacheResource. set (k := if isUrl then _ else _).
  destruct (GetFileRecord a k _) as [req b].
  pose proof (PutFileRecord_writes a k (req + 1)) as Hp.
  destruct (PutFileRecord _ _ _ _) as [a1 e]. cbn in Hp.
  destruct (GetCreditRecord (creditMg a1) acc) as [citem b'].
  intros (a2 & Hq & Hr)%outcome_bind_Returns.
  assert (record a2 = record a1) as Hrec.
  { destruct (worth_caching _ _ _); [|congruence].
    apply outcome_bind_Returns in Hq as (q & _ & Hq). destruct (q !! k); by injection Hq as <-. }
  assert (a' = a2) as ->; [|by rewrite Hrec].
  destruct isUrl; [congruence|]. destruct (GetFileRecord _ _ _) as [count ?].
  by destruct (count <=? 0); simplify_eq.
Qed.

Lemma query_status_writes now (w w' : W) (a a' : actor) userAcc paths req st :
  query_status now w a userAcc paths req = Returns (st, (a', w')) -> writes a a'.
Proof.
  unfold query_status, check_credit.
  intros ([ok [a1 w1]] & Hc & Hr)%outcome_bind_Returns.
  apply outcome_bind_Returns in Hc as ([b [mg w2]] & _ & [= <- <- <-]).
  destruct (negb b); [by simplify_eq|].
  assert (forall key isUrl, ('(fragments, a) ← QueryCacheResource (set_credit mg a) userAcc key isUrl;
    if 0 <? len fragments then Returns ((STATUS_HIT, Some fragments), (a, w2))
    else Returns ((STATUS_MISS, None), (a, w2))) = Returns (st, (a', w')) -> writes a a') as Ha.
  { intros key isUrl ([fs a3] & Hq & Hx)%outcome_bind_Returns.
    apply QueryCacheResource_writes in Hq. by destruct (0 <? len fs); simplify_eq. }
  case_decide; [by apply Ha in Hr|].
  destruct paths as [|p0 [|p1 ps]]; [by simplify_eq|by simplify_eq|].
  apply outcome_bind_Returns in Hr as (q & _ & Hr).
  destruct (q !! _); [by simplify_eq|by apply Ha in Hr].
Qed.

Lemma send_cached_record now (w w' : W) fs (a a' : actor) s s' req fname :
  send_cached now w fs a s req fname = Returns ((a', w'), s') -> record a' = record a.
Proof.
  unfold send_cached. destruct (GetCacheRecord _ _) as [[p|e] c]; [|by intros; simplify_eq].
  destruct (os_Stat _ _); [|by intros; simplify_eq].
  destruct (os_ReadFile _ _); [|by intros; simplify_eq].
  destruct (DecompressPubkey _); [|by intros; simplify_eq].
  by intros (mg & _ & [= <- _ _])%outcome_bind_Returns.
Qed.

Lemma CacheService_writes now loads (w w' : W) fs (a a' : actor) s s' :
  CacheService now loads w fs a s = Returns ((a', w'), s') -> writes a a'.
Proof.
  unfold CacheService. destruct (ReadData _) as [[data|e]|]; [|by intros; simplify_eq..].
  destruct (Unmarshal _ _ _) as [req [e|]]; [by intros; simplify_eq|].
  assert (forall acc info a1, GetCacheInfo now loads a acc = (info, a1) -> record a1 = record a) as Hi.
  { intros acc info a1. unfold GetCacheInfo. destruct loads as [[? ?] ?].
    destruct (IsLimited _ _ _) as [[? ?] ?]. by intros [= _ <-]. }
  case_decide.
  { unfold serve_dail. destruct (GetCacheInfo _ _ _ _) as [info a1] eqn:Eg.
    apply Hi in Eg. intros [= <- _ _]. by rewrite Eg. }
  case_decide.
  { unfold serve_query. destruct (DecompressPubkey _) as [pk|e]; [|by intros; simplify_eq].
    destruct (GetCacheInfo _ _ _ _) as [info a1] eqn:Eg. apply Hi in Eg.
    intros ([[st fr] [a2 w2]] & Hq & [= <- _ _])%outcome_bind_Returns.
    apply query_status_writes in Hq. by rewrite Eg in Hq. }
  case_decide; [|by intros; simplify_eq].
  unfold serve_download. case_decide; [by intros ->%send_cached_record|].
  destruct (strings_Split _ _) as [|p0 [|p1 [|p2 ps]]]; try by (intros; simplify_eq).
  unfold check_credit. intros ([ok [a1 w1]] & Hc & Hr)%outcome_bind_Returns.
  apply outcome_bind_Returns in Hc as ([b [mg w2]] & _ & [= <- <- <-]).
  destruct (negb b); [by simplify_eq|]. by apply send_cached_record in Hr as ->.
Qed.

Lemma serve_task_record key task (a a' : actor) r :
  serve_task key task a = Returns (r, a') -> record a' = record a.
Proof.
  unfold serve_task. case_decide.
  - case_decide; [by intros; simplify_eq|]. destruct (GetFileRecord _ _ _) as [count ok].
    destruct (ok && _).
    + by intros (a1 & Hq%queue_Delete_record & [= _ <-])%outcome_bind_Returns.
    + by intros (a1 & Hq%queue_Store_record & [= _ <-])%outcome_bind_Returns.
  - destruct (GetCacheRecord _ _) as [item c].
    intros (a1 & Hd & Hr)%outcome_bind_Returns.
    apply outcome_bind_Returns in Hr as (a2 & Hs%queue_Store_record & [= _ <-]).
    rewrite Hs. destruct item as [p|e]; [case_decide|]; by (simplify_eq || apply queue_Delete_record in Hd).
Qed.

Lemma range_tasks_record keys (a a' : actor) rs :
  range_tasks keys a = Returns (rs, a') -> record a' = record a.
Proof.
  revert a rs. induction keys as [|k keys IH]; intros a rs; cbn; [by intros [= _ <-]|].
  intros (q & _ & Hr)%outcome_bind_Returns. destruct (q !! k); [|by eapply IH].
  apply outcome_bind_Returns in Hr as ([r a1] & Ht%serve_task_record & Hr).
  apply outcome_bind_Returns in Hr as ([rs' a2] & Hr & [= _ ->]).
  apply IH in Hr. by rewrite Hr.
Qed.

(** ** A running node *)

Inductive actor_step (a : actor) : actor -> Prop :=
  | step_Receive now fs m r a' fs' :
      Receive now a fs m = Returns (r, (a', fs')) -> actor_step a a'
  | step_CacheService now loads (w w' : W) fs s s' a' :
      CacheService now loads w fs a s = Returns ((a', w'), s') -> actor_step a a'
  | step_Restore entries a' e :
      RestoreCacheFiles a entries = (a', e) -> actor_step a a'
  | step_range keys rs a' :
      range_tasks keys a = Returns (rs, a') -> actor_step a a'
  | step_start a' :
      start_download_server true a = Some a' -> actor_step a a'
  | step_stop :
      actor_step a (stop_download_server a)
  | step_evict c es :
      actor_step a (run_callbacks (set_cache c a) es).

Lemma actor_step_writes a a' : actor_step a a' -> writes a a'.
Proof.
  intros [? ? ? ? ? ? Hs|? ? ? ? ? ? ? ? Hs|? ? ? Hs|? ? ? Hs|? Hs| |c es].
  - by eapply Receive_writes.
  - by eapply CacheService_writes.
  - by eapply RestoreCacheFiles_writes.
  - by rewrite (range_tasks_record _ _ _ _ Hs).
  - unfold start_download_server in Hs. destruct (dlQueue a); [done|]. by injection Hs as <-.
  - done.
  - exact (run_callbacks_writes es (set_cache c a)).
Qed.

(** No segment has a counter under the key queries use. *)
Definition uncounted (r : R) : Prop :=
  forall q, segment_key q -> exists e, db_Get r (q +:+ RECORD_FRAGMENTS) = inr e.

Lemma record_write_uncounted r r' : uncounted r -> record_write r r' -> uncounted r'.
Proof.
  intros Hu (k & v & e & Hk & Hp) q Hq. destruct (Hu q Hq) as [e' He].
  exists e'. rewrite (db_Get_Put_ne _ _ _ _ _ _ (written_not_segment q k Hq Hk) Hp). done.
Qed.

Lemma writes_uncounted r r' : uncounted r -> rtc record_write r r' -> uncounted r'.
Proof. intros Hu Hw. induction Hw as [|r r1 r2 Hw _ IH]; [done|]. by eapply IH, record_write_uncounted. Qed.

Lemma uncounted_reachable (a a' : actor) :
  uncounted (record a) -> rtc actor_step a a' -> uncounted (record a').
Proof.
  intros Hu Hr. induction Hr as [|a a1 a2 Hs _ IH]; [done|]. apply IH.
  by eapply writes_uncounted, actor_step_writes.
Qed.

Lemma GetFileRecord_uncounted (a : actor) q :
  uncounted (record a) -> segment_key q -> GetFileRecord a q RECORD_FRAGMENTS = (0, false).
Proof.
  intros Hu Hq. destruct (Hu q Hq) as [e He]. unfold GetFileRecord.
  rewrite decide_False by (intros [? ?]; tauto). by rewrite He.
Qed.

Lemma QueryCacheResource_uncounted (a a' : actor) acc q files :
  uncounted (record a) -> segment_key q ->
  QueryCacheResource a acc q false = Returns (files, a') -> files = [].
Proof.
  intros Hu Hq Hr. pose proof (QueryCacheResource_writes a a' acc q false files Hr) as Hw.
  unfold QueryCacheResource in Hr. destruct (GetFileRecord a q RECORD_REQUESTS) as [req b].
  destruct (PutFileRecord _ _ _ _) as [a1 e].
  destruct (GetCreditRecord (creditMg a1) acc) as [citem b'].
  apply outcome_bind_Returns in Hr as (a2 & _ & Hr).
  assert (a2 = a') as ->.
  { destruct (GetFileRecord a2 _ _) as [count ?]. by destruct (count <=? 0); injection Hr as _ ->. }
  rewrite GetFileRecord_uncounted in Hr; [by injection Hr as <-| |done].
  by eapply writes_uncounted.
Qed.

Lemma query_uncounted (a a' : actor) (now : time) (w w' : W) (userAcc f s : string)
    (rest : list string) (req : CacheRequest) (status : string) (cached : slice string) :
  uncounted (record a) -> plain_name f -> plain_name s -> WantUrl req = "" ->
  query_status now w a userAcc (f :: s :: rest) req = Returns ((status, cached), (a', w')) ->
  status ≠ STATUS_HIT /\ cached = None.
Proof.
  intros Hu Hf Hs Hurl Hq.
  unfold query_status, check_credit in Hq.
  apply outcome_bind_Returns in Hq as ([ok [a1 w1]] & Hc & Hq).
  apply outcome_bind_Returns in Hc as ([b [mg w2]] & _ & [= <- <- <-]).
  destruct (negb b); [by injection Hq as <- <- _ _|].
  rewrite decide_False in Hq by (rewrite Hurl; tauto).
  apply outcome_bind_Returns in Hq as (q & _ & Hq).
  destruct (q !! _); [by injection Hq as <- <- _ _|].
  apply outcome_bind_Returns in Hq as ([fs a3] & Hq & Hx).
  apply QueryCacheResource_uncounted in Hq as ->; [|done|by apply segment_key_Join].
  by injection Hx as <- <- _ _.
Qed.

(** C27: Whatever a node does from an empty store of counters (receiving fragments,
    restoring its directory, serving clients), it never answers [hit] to a query for
    a segment: fragments are counted under the key with a slash that [filepath.Split]
    leaves, and looked up without it. *)
Theorem segments_never_hit (a0 a a' : actor) (now : time) (w w' : W) (userAcc f s : string)
    (rest : list string) (req : CacheRequest) (status : string) (cached : slice string) :
  (forall k, exists e, db_Get (record a0) k = inr e) -> rtc actor_step a0 a ->
  plain_name f -> plain_name s -> WantUrl req = "" ->
  query_status now w a userAcc (f :: s :: rest) req = Returns ((status, cached), (a', w')) ->
  status ≠ STATUS_HIT /\ cached = None.
Proof.
  intros Hempty Hr. apply query_uncounted. eapply uncounted_reachable; [|done]. intros q _. apply Hempty.
Qed.

(** ** What the counters count *)

Definition segment_dir (f s : string) : string := strings_Join [f; s] "/" +:+ "/".

Lemma Split_fragment f s h :
  plain_name f -> plain_name s -> plain_name h ->
  filepath_Split (filepath_Join [f; s; h]) = (segment_dir f s, h).
Proof. intros. apply (filepath_Split_Join [f; s] h); [done|plains|done]. Qed.

(** Fragment keys are not URLs when they have no colon. *)
Lemma fragment_not_url f s h :
  plain_name f -> plain_name s -> plain_name h ->
  has_char ":"%char f = false -> has_char ":"%char s = false -> has_char ":"%char h = false ->
  ParseRequestURI_ok (filepath_Join [f; s; h]) = false.
Proof.
  intros Hf Hs Hh Cf Cs Ch.
  rewrite filepath_Join_plain by (done || plains).
  apply ParseRequestURI_relative.
  - cbn [strings_Join]. rewrite !has_char_app, Cf, Cs, Ch. done.
  - destruct (Join_plain_split f [s; h]) as [t ->]. by apply plain_not_rooted.
Qed.

(** The counter of a segment, stored as four bytes or not at all. *)
Definition counts (a : actor) (d : string) (n : Z) : Prop :=
  is_u32 n /\
  (db_Get (record a) (d +:+ RECORD_FRAGMENTS) = inl (BigEndian_PutUint32 n)
   \/ n = 0 /\ db_Get (record a) (d +:+ RECORD_FRAGMENTS) = inr ErrNotFound).

Lemma counts_read (a : actor) d n : counts a d n -> fst (GetFileRecord a d RECORD_FRAGMENTS) = n.
Proof.
  intros [Hn [Hg|[-> Hg]]].
  - rewrite (GetFileRecord_stored a d _ n) by auto. cbn. by apply u32_id.
  - unfold GetFileRecord. rewrite decide_False by (intros [? ?]; tauto). by rewrite Hg.
Qed.

Lemma counts_record (a a' : actor) d n : record a = record a' -> counts a d n -> counts a' d n.
Proof. intros Hr [Hn Hc]. split; [done|]. by rewrite <- Hr. Qed.

(** An abstract counter, and what an event of the cache does to it. *)
Definition count_event (n : Z) (e : cache_event) : Z :=
  match e with ItemAdded _ => u32 (n + 1) | ItemDeleted _ => Z.max 0 (n - 1) end.

Definition event_key (e : cache_event) : string :=
  match e with ItemAdded k | ItemDeleted k => k end.

Context (puts : forall (d : R) k v, exists d', db_Put d k v = (d', None)).

Lemma record_Put_counts (a : actor) d n :
  is_u32 n -> counts (fst (record_Put (d +:+ RECORD_FRAGMENTS) (BigEndian_PutUint32 n) a)) d n.
Proof.
  intros Hn. split; [done|]. left. unfold record_Put.
  destruct (puts (record a) (d +:+ RECORD_FRAGMENTS) (BigEndian_PutUint32 n)) as [r Hr].
  rewrite Hr. by eapply db_Get_Put.
Qed.

Lemma record_Put_other (a : actor) d k v n :
  k ≠ d +:+ RECORD_FRAGMENTS -> counts a d n -> counts (fst (record_Put k v a)) d n.
Proof.
  intros Hk [Hn Hc]. split; [done|]. unfold record_Put.
  destruct (db_Put (record a) k v) as [r e] eqn:E. cbn.
  by rewrite (db_Get_Put_ne _ _ _ _ _ _ Hk E).
Qed.

Lemma requests_not_fragments d d' : d +:+ RECORD_REQUESTS ≠ d' +:+ RECORD_FRAGMENTS.
Proof.
  intros He. apply (f_equal to_bytes) in He. rewrite !to_bytes_app in He.
  change (to_bytes RECORD_REQUESTS) with (to_bytes "-reque" ++ [x73; x74; x73])%list in He.
  change (to_bytes RECORD_FRAGMENTS) with (to_bytes "-fragme" ++ [x6e; x74; x73])%list in He.
  rewrite !app_assoc in He. by apply app_inj_2 in He as [_ ?].
Qed.

Lemma uint32_of_Put n : is_u32 n -> uint32_of (BigEndian_PutUint32 n) = n.
Proof. intros Hn. unfold uint32_of. rewrite Uint32_PutUint32. by apply u32_id. Qed.

Lemma on_event_counts (a : actor) e d h n :
  filepath_Split (event_key e) = (d, h) -> ParseRequestURI_ok (event_key e) = false ->
  counts a d n -> counts (on_cache_event a e) d (count_event n e).
Proof.
  intros Hd Hu Hc. destruct e as [k|k]; cbn in *.
  - unfold on_add_item. rewrite Hu, Hd. destruct Hc as [Hn [Hg|[-> Hg]]]; rewrite Hg.
    + change (len (BigEndian_PutUint32 n) <? 4) with false. cbn match.
      rewrite uint32_of_Put, (Z.add_comm 1) by done. apply record_Put_counts, u32_range.
    + by apply record_Put_counts.
  - unfold on_delete_item. rewrite Hd. destruct Hc as [Hn [Hg|[-> Hg]]]; rewrite Hg.
    + change (len (BigEndian_PutUint32 n) <? 4) with false. cbn match.
      rewrite take_PutUint32, uint32_of_Put by done.
      replace (if 0 <? n then n - 1 else n) with (Z.max 0 (n - 1))
        by (unfold is_u32 in Hn; destruct (Z.ltb_spec 0 n); lia).
      assert (counts (fst (record_Put (d +:+ RECORD_FRAGMENTS)
        (BigEndian_PutUint32 (Z.max 0 (n - 1))) a)) d (Z.max 0 (n - 1))) as Hp.
      { apply record_Put_counts. unfold is_u32 in *. lia. }
      destruct (_ <? DataShards); [|exact Hp].
      apply record_Put_other; [apply requests_not_fragments|exact Hp].
    + split; [done|]. right. by split.
Qed.

Lemma on_event_other (a : actor) e d d' h n :
  filepath_Split (event_key e) = (d', h) -> d' ≠ d -> counts a d n -> counts (on_cache_event a e) d n.
Proof.
  intros Hd Hne Hc.
  assert (d' +:+ RECORD_FRAGMENTS ≠ d +:+ RECORD_FRAGMENTS) as Hk by (intros ?%string_app_inj_r; done).
  destruct e as [k|k]; cbn in *.
  - unfold on_add_item. case_match; [done|]. rewrite Hd.
    destruct (db_Get _ _) as [v|[|e]]; [by apply record_Put_other|by apply record_Put_other|done].
  - unfold on_delete_item. rewrite Hd. destruct (db_Get _ _) as [v|e]; [|done].
    case_match; [done|]. pose proof requests_not_fragments.
    destruct (_ <? DataShards); by repeat apply record_Put_other.
Qed.

(** C26: The callbacks implement a counter per directory of the cache: after any events,
    the counter stored for a segment's directory is that of the events of its
    fragments alone, up for each one added and down to zero for each one deleted. This is
    for keys that are not URLs, and a store that takes what is written. *)
Theorem callbacks_count (f s : string) (es : list cache_event) (a : actor) (n : Z) :
  Forall (fun e => ParseRequestURI_ok (event_key e) = false) es ->
  counts a (segment_dir f s) n ->
  counts (run_callbacks a es) (segment_dir f s)
    (foldl count_event n (filter (fun e => fst (filepath_Split (event_key e)) = segment_dir f s) es)).
Proof.
  intros He. revert a n. induction He as [|e es Hu _ IH]; intros a n Hc; [done|].
  cbn [run_callbacks foldl]. unfold run_callbacks in IH.
  destruct (filepath_Split (event_key e)) as [d h] eqn:Ed.
  rewrite filter_cons, Ed. cbn. case_decide as Hd.
  - subst d. apply IH. by eapply on_event_counts.
  - apply IH. by eapply on_event_other.
Qed.
End counters.
