(* ===== verification/LedgerFacts.v ===== *)
(** * The credit ledger of a running node

    The invariant a node keeps on its credit store while it serves, and what each
    operation of the stream service does to the accounts: a node only ever credits whole
    fragments, so no divisor of a trust level is zero. *)

From S2P Require Import Prelude GoStrings Encoding Json JsonFacts Codec Types Stream GoOs External Credit.
From S2P Require Import CreditFacts CacheActor CacheActorFacts.

Section ledger.
Context `{LevelDB DB} `{GoTime} `{JsonMessages} `{PkgErrors} `{EthCrypto} `{Order2Credit W}.

(** A record of which only whole fragments were received. *)
Definition ledger_record (r : RecordItem) : Prop :=
  wf_RecordItem r /\ (FragmentSize | ReceivedResource r).

Definition ledger_ok (c : Credit DB) : Prop :=
  forall k v, db_Get (Record_db c) k = inl v ->
    exists r, ledger_record r /\ v = print (enc_RecordItem r).

Definition counters (c : Credit DB) (acc : string) : Z * Z :=
  let r := fst (GetCreditRecord c acc) in (SentResource r, ReceivedResource r).

Lemma ledger_store c : ledger_ok c -> store_ok c.
Proof. intros Hc k v Hv. destruct (Hc k v Hv) as (r & [Hr _] & ->). by exists r. Qed.

Lemma ledger_zero : ledger_record RecordItem_zero.
Proof. split; [apply wf_RecordItem_zero|apply Z.divide_0_r]. Qed.

Lemma ledger_Get c key : ledger_ok c ->
  exists r, ledger_record r /\ GetCreditRecord c key = (r, false).
Proof.
  intros Hc. destruct (GetCreditRecord_ok c key (ledger_store c Hc)) as (r & _ & Hg & [->|Hr]).
  - exists RecordItem_zero. by split; [apply ledger_zero|].
  - destruct (Hc key _ Hr) as (r' & Hr' & He). exists r'. split; [done|].
    rewrite He in Hr. apply GetCreditRecord_stored; [apply Hr'|done].
Qed.

Lemma ledger_Put now c key r : ledger_ok c -> ledger_record r -> ledger_ok (fst (PutCreditRecord now c key r)).
Proof.
  intros Hc [Hr Hd] k v. unfold PutCreditRecord.
  destruct (db_Put _ _ _) as [d e] eqn:E. cbn.
  destruct (db_Put_cases _ _ _ _ _ E) as [Hne Heq].
  destruct (decide (k = key)) as [->|Hk]; [|rewrite Hne by done; apply Hc].
  destruct Heq as [->| ->]; [|apply Hc]. intros [= <-].
  exists (set_LastAccess now r). split; [|done]. split; [auto with credit|done].
Qed.

(** Whether the write succeeds or not, an account has the new counters or the old ones,
    and the others keep theirs. *)
Lemma Put_counters now c key r : ledger_ok c -> ledger_record r ->
  let c' := fst (PutCreditRecord now c key r) in
  (counters c' key = (SentResource r, ReceivedResource r) \/ counters c' key = counters c key) /\
  forall acc, acc ≠ key -> counters c' acc = counters c acc.
Proof.
  intros Hc [Hr _]. cbn zeta. unfold counters. split.
  - destruct (PutCreditRecord now c key r) as [c' [e|]] eqn:Ep; cbn [fst].
    + right. unfold PutCreditRecord in Ep. destruct (db_Put _ _ _) as [d e'] eqn:E.
      injection Ep as <- ->. unfold GetCreditRecord. cbn. by rewrite (db_Get_Put_failed _ _ _ _ _ E).
    + left. by rewrite (Get_Put_same now c key r c' Hr Ep).
  - intros acc Hne. by rewrite Get_Put_other.
Qed.

(** Storing an account's own record again. *)
Lemma Put_own now c key : ledger_ok c ->
  let c' := fst (PutCreditRecord now c key (fst (GetCreditRecord c key))) in
  ledger_ok c' /\ forall acc, counters c' acc = counters c acc.
Proof.
  intros Hc. destruct (ledger_Get c key Hc) as (r & Hr & Hg). rewrite Hg. cbn [fst].
  split; [by apply ledger_Put|]. intros acc.
  destruct (Put_counters now c key r Hc Hr) as [Hk Hother].
  destruct (decide (acc = key)) as [->|Hne]; [|by apply Hother].
  destruct Hk as [->|Hk]; [unfold counters; by rewrite Hg|done].
Qed.

(** The divisor of a level is never zero. *)
Lemma level_of_fragments sent received : is_u64 received -> (FragmentSize | received) ->
  exists l, level_of sent received = Returns l.
Proof.
  intros Hu Hd. unfold level_of. destruct (Z.eqb_spec (u64 (received + 1)) 0) as [He|]; [|by eexists].
  apply u64_succ_zero in He; [|done]. subst received.
  apply Z.mod_divide in Hd; [|done]. by vm_compute in Hd.
Qed.

Lemma divide_u64 n : (FragmentSize | n) -> (FragmentSize | u64 n).
Proof.
  intros Hn. unfold u64. rewrite Z.mod_eq by done. apply Z.divide_sub_r; [done|].
  apply Z.divide_mul_l. by exists (2 ^ 41).
Qed.

(** What a node books: bytes sent, or whole fragments received. *)
Definition bookable (resource : Z) : Prop := resource <= 0 \/ (FragmentSize | resource).

Lemma AddCreditPoint_ledger now c key resource :
  ledger_ok c -> bookable resource ->
  exists c' r, AddCreditPoint now c key resource = Returns c' /\ ledger_ok c'
    /\ ledger_record r /\ c' = fst (PutCreditRecord now c key r)
    /\ SentResource r = (if resource <? 0 then u64 (fst (counters c key) + u64 (i64 (- resource))) else fst (counters c key))
    /\ (resource <= 0 -> ReceivedResource r = snd (counters c key)).
Proof.
  intros Hc Hb. unfold AddCreditPoint, counters. destruct (ledger_Get c key Hc) as (r & [Hr Hd] & ->).
  cbn [fst snd]. set (r1 := if resource <? 0 then _ else _).
  assert (Hr1 : ledger_record r1).
  { unfold r1. destruct (Z.ltb_spec resource 0) as [Hn|Hn].
    - split; [auto with credit|done].
    - split; [auto with credit|]. cbn. apply divide_u64, Z.divide_add_r; [done|].
      apply divide_u64. destruct Hb as [Hb|Hb]; [|done]. replace resource with 0 by lia. apply Z.divide_0_r. }
  destruct (level_of_fragments (SentResource r1) (ReceivedResource r1)) as [l Hl]; [apply Hr1|apply Hr1|].
  unfold relevel. rewrite Hl. cbn [mbind outcome_bind]. exists (fst (PutCreditRecord now c key (set_Level l r1))), (set_Level l r1).
  assert (Hl1 : ledger_record (set_Level l r1)).
  { split; [|apply Hr1]. eapply wf_relevel; [apply Hr1|]. unfold relevel. by rewrite Hl. }
  split_and!; [done|by apply ledger_Put|done|done| |].
  - unfold r1. by destruct (resource <? 0).
  - intros Hle. unfold r1. destruct (Z.ltb_spec resource 0); [done|]. replace resource with 0 by lia. cbn.
    destruct Hr. rewrite Z.add_0_r. by apply u64_id.
Qed.

(** The check neither books anything nor reaches the chain, whatever it decides. *)
Lemma CheckCredit_ledger now (w : W) c pk data sign : ledger_ok c ->
  exists b c', CheckCredit now w c pk data sign = Returns (b, (c', w)) /\ ledger_ok c'
    /\ forall acc, counters c' acc = counters c acc.
Proof.
  intros Hc. unfold CheckCredit. destruct (DecompressPubkey pk) as [k|e]; [|by eexists _, c].
  set (key := address_Hex (PubkeyToAddress k)).
  destruct (Put_own now c key Hc) as [Ho Hs]. destruct (ledger_Get c key Hc) as (r & _ & Hg).
  rewrite Hg in *. cbn [negb fst] in *. by eexists _, _.
Qed.
End ledger.

(** ** What one stream does to the actor *)

Section service.
Context {C R DB W : Type} `{FileCache FS C} {RecDB : LevelDB R} `{LevelDB DB} `{GoTime}
  `{JsonMessages} `{FloatText} `{PkgErrors} `{EthCrypto} `{Order2Credit W} `{CessConfig}
  `{NetUrl} `{OsFaults}.
Abbreviation actor := (CacheActor C R DB).

(** The actor of a running node: the download queue is there, the ledger in order. *)
Record serving (a : actor) : Prop := {
  serving_queue : is_Some (dlQueue a);
  serving_ledger : ledger_ok (creditMg a);
}.

(** [acc] was charged [n] bytes, or, when the store fails, nothing; the cache was looked
    up at most once. *)
Record charged (acc : string) (n : Z) (a a' : actor) : Prop := {
  charged_account : counters (creditMg a') acc
      = (u64 (fst (counters (creditMg a) acc) + n), snd (counters (creditMg a) acc))
    \/ counters (creditMg a') acc = counters (creditMg a) acc;
  charged_others : forall acc', acc' ≠ acc -> counters (creditMg a') acc' = counters (creditMg a) acc';
  charged_cache : fileCache a' = fileCache a \/ exists k, fileCache a' = snd (GetCacheRecord (fileCache a) k);
}.

(** Nothing charged, and the same cache. *)
Definition uncharged (a a' : actor) : Prop :=
  fileCache a' = fileCache a /\ forall acc, counters (creditMg a') acc = counters (creditMg a) acc.

Lemma uncharged_refl a : uncharged a a.
Proof. done. Qed.

Lemma uncharged_trans a b c : uncharged a b -> uncharged b c -> uncharged a c.
Proof. intros [? Hab] [? Hbc]. split; [congruence|]. intros acc. by rewrite Hbc, Hab. Qed.

#[local] Instance uncharged_preorder : PreOrder uncharged.
Proof. split; [exact uncharged_refl|exact uncharged_trans]. Qed.

Lemma uncharged_charged acc a a' : uncharged a a' -> charged acc 0 a a'.
Proof. intros [Hc Hu]. split; [by right|by intros|by left]. Qed.

(** The files are ones an [int64] can count. *)
Definition sized (fs : FS) : Prop := map_Forall (fun _ b => len b < 2 ^ 63) (files fs).

Lemma check_credit_serving now (w : W) (a : actor) req : serving a ->
  exists b a', check_credit now w a req = Returns (b, (a', w)) /\ serving a' /\ uncharged a a'
    /\ dlQueue a' = dlQueue a /\ record a' = record a.
Proof.
  intros [Hq Hl]. unfold check_credit.
  destruct (CheckCredit_ledger now w (creditMg a) (elems (AccountId req)) (elems (Data req)) (elems (Sign req)) Hl)
    as (b & c & -> & Hc & Hs). exists b, (set_credit c a). by repeat split.
Qed.

Lemma GetCacheInfo_serving now loads (a : actor) acc : serving a ->
  let a' := snd (GetCacheInfo now loads a acc) in
  serving a' /\ uncharged a a' /\ dlQueue a' = dlQueue a /\ record a' = record a.
Proof.
  intros [Hq Hl]. unfold GetCacheInfo, IsLimited. destruct loads as [[n1 n2] n3].
  destruct (Put_own now (creditMg a) acc Hl) as [Ho Hs].
  destruct (ledger_Get (creditMg a) acc Hl) as (r & _ & Hg). rewrite Hg in *. by repeat split.
Qed.

Lemma QueryCacheResource_serving (a : actor) acc key isUrl : serving a ->
  exists fs a', QueryCacheResource a acc key isUrl = Returns (fs, a') /\ serving a' /\ uncharged a a'.
Proof.
  intros [Hq Hl]. unfold QueryCacheResource. set (k := if isUrl then _ else _).
  destruct (GetFileRecord a k _) as [req b].
  destruct (PutFileRecord_frame a k RECORD_REQUESTS (req + 1)) as [r Hr].
  destruct (PutFileRecord a k RECORD_REQUESTS (req + 1)) as [a1 e]. cbn in Hr. subst a1.
  destruct (GetCreditRecord (creditMg (set_record r a)) acc) as [item b'].
  destruct Hq as [q Hq].
  set (res := if worth_caching _ _ _ then _ else _).
  assert (exists q', res = Returns (set_queue (Some q') (set_record r a))) as [q' ->].
  { unfold res, the_queue. cbn [dlQueue set_record]. rewrite Hq. cbn [mbind outcome_bind].
    destruct (worth_caching _ _ _); [destruct (q !! k); [exists q|by eexists]|exists q];
      destruct a; cbn in *; by subst. }
  cbn [mbind outcome_bind].
  assert (serving (set_queue (Some q') (set_record r a))) by (split; [by eexists|done]).
  destruct isUrl; [by eexists _, _|].
  destruct (GetFileRecord _ _ _) as [count ?]. by case_match; eexists _, _.
Qed.

Lemma query_status_serving now (w : W) (a : actor) acc paths req : serving a ->
  exists st a', query_status now w a acc paths req = Returns (st, (a', w)) /\ serving a' /\ uncharged a a'.
Proof.
  intros Ha. unfold query_status.
  destruct (check_credit_serving now w a req Ha) as (b & a1 & -> & Ha1 & Hu1 & _). cbn [mbind outcome_bind].
  destruct (negb b); [by eexists _, a1|].
  assert (Hanswer : forall key isUrl, exists st a', ('(fragments, a) ← QueryCacheResource a1 acc key isUrl;
    if 0 <? len fragments then Returns ((STATUS_HIT, Some fragments), (a, w))
    else Returns ((STATUS_MISS, None), (a, w))) = Returns (st, (a', w)) /\ serving a' /\ uncharged a a').
  { intros key isUrl. destruct (QueryCacheResource_serving a1 acc key isUrl Ha1) as (fs & a2 & -> & Ha2 & Hu2).
    cbn [mbind outcome_bind]. assert (uncharged a a2) by by etrans.
    by destruct (0 <? len fs); eexists _, a2. }
  case_decide; [apply Hanswer|].
  destruct paths as [|p0 [|p1 ps]]; [by eexists _, a1..|].
  destruct (serving_queue a1 Ha1) as [q Hq]. unfold the_queue. rewrite Hq. cbn [mbind outcome_bind].
  destruct (q !! _); [by eexists _, a1|apply Hanswer].
Qed.

Lemma serve_query_serving now loads (w : W) (a : actor) s paths req : serving a ->
  exists a' s', serve_query now loads w a s paths req = Returns ((a', w), s') /\ serving a' /\ uncharged a a'.
Proof.
  intros Ha. unfold serve_query. destruct (DecompressPubkey _) as [pk|e]; [|by eexists a, _].
  set (acc := address_Hex (PubkeyToAddress pk)).
  destruct (GetCacheInfo_serving now loads a acc Ha) as (Ha1 & Hu1 & _).
  destruct (GetCacheInfo now loads a acc) as [info a1]. cbn [snd] in *.
  destruct (query_status_serving now w a1 acc paths req Ha1) as ([st fs] & a2 & -> & Ha2 & Hu2).
  cbn [mbind outcome_bind]. eexists a2, _. split_and!; [done|done|by etrans].
Qed.

Lemma send_cached_serving now (w : W) fs (a : actor) s req fname : serving a -> sized fs ->
  exists a' s' acc n, send_cached now w fs a s req fname = Returns ((a', w), s') /\ serving a' /\ charged acc n a a'.
Proof.
  intros [Hq Hl] Hsz. unfold send_cached.
  assert (Hsame : forall c acc, c = snd (GetCacheRecord (fileCache a) fname) ->
    serving (set_cache c a) /\ charged acc 0 a (set_cache c a)).
  { intros c acc ->. repeat split; try done; [by right|]. right. by exists fname. }
  destruct (GetCacheRecord (fileCache a) fname) as [[p|e] c] eqn:Eg; cbn [snd] in Hsame.
  2: { destruct (Hsame c "" eq_refl). by eexists _, _, "", 0. }
  destruct (Hsame c "" eq_refl) as [Hs Hch].
  destruct (os_Stat fs p) as [f|e] eqn:Est; [|by eexists _, _, "", 0].
  destruct (os_ReadFile fs p) as [b|e] eqn:Erd; [|by eexists _, _, "", 0].
  cbn zeta.
  destruct (DecompressPubkey _) as [pk|e]; [|by eexists _, _, "", 0].
  set (acc := address_Hex (PubkeyToAddress pk)).
  assert (Hf : fi_size f = len b).
  { unfold os_Stat, os_ReadFile in *. repeat case_match; by simplify_eq. }
  assert (Hb : len b < 2 ^ 63).
  { unfold os_ReadFile in Erd. repeat case_match; simplify_eq. by eapply Hsz. }
  pose proof (len_nonneg b). rewrite Hf, i64_id by (unfold is_i64; lia).
  destruct (AddCreditPoint_ledger now (creditMg (set_cache c a)) acc (- len b) Hl) as (c' & r & -> & Hl' & Hr & -> & Hsent & Hrec).
  { left. lia. }
  cbn [mbind outcome_bind creditMg set_cache] in *.
  destruct (Put_counters now (creditMg a) acc r Hl Hr) as [Hk Ho].
  eexists (set_credit (fst (PutCreditRecord now (creditMg a) acc r)) (set_cache c a)), _, acc, (len b).
  split_and!; [done|by split|]. split; [|done|right; exists fname; by rewrite Eg].
  destruct Hk as [Hk|Hk]; [left|by right]. cbn [creditMg set_credit set_cache].
  rewrite Hk, Hsent, Hrec by lia. f_equal.
  destruct (Z.ltb_spec (- len b) 0).
  - f_equal. rewrite Z.opp_involutive, i64_id, u64_id by (unfold is_i64, is_u64; lia). done.
  - replace (len b) with 0 by lia. rewrite Z.add_0_r.
    destruct (ledger_Get (creditMg a) acc Hl) as (r0 & [[] _] & Hg). unfold counters. rewrite Hg. cbn.
    by rewrite u64_id.
Qed.

Lemma serve_download_serving now (w : W) fs (a : actor) s paths req : serving a -> sized fs ->
  exists a' s' acc n, serve_download now w fs a s paths req = Returns ((a', w), s') /\ serving a' /\ charged acc n a a'.
Proof.
  intros Ha Hsz. unfold serve_download. case_decide; [by apply send_cached_serving|].
  assert (charged "" 0 a a) by (by apply uncharged_charged, uncharged_refl).
  destruct paths as [|p0 [|p1 [|p2 ps]]]; [by eexists a, _, "", 0..|].
  destruct (check_credit_serving now w a req Ha) as (b & a1 & -> & Ha1 & [Hc1 Hu1] & _). cbn [mbind outcome_bind].
  destruct (negb b); [eexists a1, _, "", 0; split_and!; [done|done|by apply uncharged_charged]|].
  destruct (send_cached_serving now w fs a1 s req (filepath_Join [p0; p1; p2]) Ha1 Hsz)
    as (a2 & s2 & acc & n & -> & Ha2 & [Hn Ho Hc]).
  exists a2, s2, acc, n. split_and!; [done|done|]. split; [by rewrite <- Hu1|intros acc' Hne; by rewrite Ho, Hu1|by rewrite <- Hc1].
Qed.

(** The stream holds no request for a download. *)
Definition no_download (st : net_stream) : Prop :=
  match ReadData (s_in st) with
  | None | Some (inr _) => True
  | Some (inl data) =>
      match Unmarshal dec_CacheRequest data CacheRequest_zero with
      | (_, Some _) => True
      | (req, None) => Option req ≠ OPTION_DOWNLOAD
      end
  end.

#[export] Instance no_download_dec st : Decision (no_download st).
Proof. unfold no_download. repeat case_match; apply _. Defined.

(** Such a stream charges nobody. *)
Lemma CacheService_asks now loads (w : W) fs (a : actor) s : serving a -> no_download s ->
  exists a' s', CacheService now loads w fs a s = Returns ((a', w), s') /\ serving a' /\ uncharged a a'.
Proof.
  intros Ha. unfold CacheService, no_download.
  destruct (ReadData _) as [[data|e]|]; [|intros _; by eexists a, _..].
  destruct (Unmarshal _ _ _) as [req [e|]]; [intros _; by eexists a, _|]. intros Ho.
  case_decide.
  { unfold serve_dail. set (acc := address_Hex _).
    destruct (GetCacheInfo_serving now loads a acc Ha) as (Ha1 & Hu1 & _).
    destruct (GetCacheInfo now loads a acc) as [info a1]. by eexists a1, _. }
  case_decide; [by apply serve_query_serving|]. rewrite decide_False by done. by eexists a, _.
Qed.

(** Whatever bytes a client sends, the handler returns, the actor goes on serving, the
    chain is not touched and at most one account is charged. *)
Lemma CacheService_serving now loads (w : W) fs (a : actor) s : serving a -> sized fs ->
  exists a' s' acc n, CacheService now loads w fs a s = Returns ((a', w), s') /\ serving a' /\ charged acc n a a'.
Proof.
  intros Ha Hsz. destruct (decide (no_download s)) as [Hn|Hd].
  { destruct (CacheService_asks now loads w fs a s Ha Hn) as (a' & s' & E & Ha' & Hu).
    exists a', s', "", 0. split_and!; [done|done|by apply uncharged_charged]. }
  revert Hd. unfold CacheService, no_download.
  destruct (ReadData _) as [[data|e]|]; [|tauto..].
  destruct (Unmarshal _ _ _) as [req [e|]]; [tauto|]. intros Ho%dec_stable.
  rewrite Ho, !decide_False, decide_True by done. by apply serve_download_serving.
Qed.

(** ** Messages, evictions and the download server *)

Lemma run_callbacks_serving c es (a : actor) : serving a -> serving (run_callbacks (set_cache c a) es).
Proof. intros [Hq Hl]. by destruct (run_callbacks_frame es (set_cache c a)) as [r ->]. Qed.

Lemma move_to_cache_serving (a : actor) fs hash p : serving a ->
  serving (fst (snd (move_to_cache a fs hash p))).
Proof.
  intros Ha. unfold move_to_cache. destruct (MoveFileToCache _ _ _ _) as [[e es] [c fs']]. cbn.
  by apply run_callbacks_serving.
Qed.

Lemma queue_Delete_serving k (a : actor) : serving a ->
  exists a', queue_Delete k a = Returns a' /\ serving a'.
Proof.
  intros [[q Hq] Hl]. unfold queue_Delete, the_queue. rewrite Hq. cbn.
  eexists. split; [done|]. by split; [eexists|].
Qed.

Lemma queue_Store_serving k t (a : actor) : serving a ->
  exists a', queue_Store k t a = Returns a' /\ serving a'.
Proof.
  intros [[q Hq] Hl]. unfold queue_Store, the_queue. rewrite Hq. cbn.
  eexists. split; [done|]. by split; [eexists|].
Qed.

Lemma receive_responses_serving now rs : forall (a : actor) fs, serving a ->
  exists a' fs', receive_responses now a fs rs = Returns (a', fs') /\ serving a'.
Proof.
  induction rs as [|resp rs IH]; intros a fs Ha; cbn [receive_responses]; [by eexists _, _|].
  pose proof (move_to_cache_serving a fs (Key resp) (ResrcPath resp) Ha) as Hm.
  destruct (move_to_cache _ _ _ _) as [[e|] [a1 fs1]]; cbn [fst snd] in Hm; [by apply IH|].
  case_decide; [by apply IH|].
  destruct (AddCreditPoint_ledger now (creditMg a1) (Bytes2Hex (OriginNode resp)) FragmentSize) as (c & r & -> & Hc & _).
  - apply Hm.
  - right. apply Z.divide_refl.
  - cbn [mbind outcome_bind]. apply IH. split; [apply Hm|done].
Qed.

Lemma Receive_serving now (a : actor) fs m : serving a ->
  exists reply a' fs', Receive now a fs m = Returns (reply, (a', fs')) /\ serving a'.
Proof.
  intros Ha. destruct m as [req|resp|resps]; cbn [Receive].
  - assert (forall c, serving (set_cache c a)) by (by destruct Ha).
    destruct (GetCacheRecord _ _) as [[p|e] c]; [destruct (os_Stat fs p)|]; by eexists _, _, _.
  - pose proof (move_to_cache_serving a fs (GetSha256Hash (to_bytes (filepath_Base (Key resp)))) (ResrcPath resp) Ha) as Hm.
    destruct (move_to_cache _ _ _ _) as [[e|] [a1 fs1]]; cbn [fst snd] in Hm; [by eexists _, _, _|].
    destruct (queue_Delete_serving (GetSha256Hash (to_bytes (filepath_Base (Key resp)))) a1 Hm) as (a2 & -> & Ha2).
    by eexists _, _, _.
  - set (cleared := match resps with [] => _ | _ => _ end).
    assert (exists a1, cleared = Returns a1 /\ serving a1) as (a1 & -> & Ha1).
    { unfold cleared. destruct resps as [|first rest]; [by eexists|].
      destruct (strings_Split _ _) as [|h0 [|h1 hs]]; [by eexists..|].
      case_match; [by apply queue_Delete_serving|by eexists]. }
    cbn [mbind outcome_bind].
    destruct (receive_responses_serving now resps a1 fs Ha1) as (a2 & fs2 & -> & Ha2).
    by eexists _, _, _.
Qed.

Lemma serve_task_serving key task (a : actor) : serving a ->
  exists req a', serve_task key task a = Returns (req, a') /\ serving a'.
Proof.
  intros Ha. unfold serve_task. case_decide.
  - case_decide; [by eexists _, _|]. destruct (GetFileRecord _ _ _) as [count ok].
    destruct (ok && _).
    + destruct (queue_Delete_serving key a Ha) as (a1 & -> & Ha1). by eexists _, _.
    + destruct (queue_Store_serving key (mkDownloadTask (Source task) true (task_Option task)) a Ha) as (a1 & -> & Ha1).
      by eexists _, _.
  - destruct (GetCacheRecord _ _) as [item c]. assert (Hc : serving (set_cache c a)) by (by destruct Ha).
    set (deleted := match item with inl _ => _ | inr _ => _ end).
    assert (exists a1, deleted = Returns a1 /\ serving a1) as (a1 & -> & Ha1).
    { unfold deleted. destruct item; [case_decide; [by apply queue_Delete_serving|]|]; by eexists. }
    cbn [mbind outcome_bind].
    destruct (queue_Store_serving key (mkDownloadTask (Source task) true (task_Option task)) a1 Ha1) as (a2 & -> & Ha2).
    by eexists _, _.
Qed.
End service.
