(* ===== verification/CreditRace.v ===== *)
(** * Concurrent bookings

    [AddCreditPoint] (cd2n-lib/credit/credit.go) reads an account's record, changes it and
    writes it back, without a lock, and every stream of the node runs it on a goroutine of
    its own (the handler set in cd2n-node/run/cmd/cmd.go). Here the read and the write of
    several bookings are separate steps of a transition system. *)

From S2P Require Import Prelude GoStrings Encoding Json JsonFacts Codec Types External Credit CreditFacts LedgerFacts.

(** What a goroutine books, and how far it is. *)
Record booking := mkBooking { bk_account : string; bk_bytes : Z }.

Inductive progress `{GoTime} :=
  | NotYet
  | Read (r : RecordItem)   (** holding the record it read *)
  | Booked.

Section sums.
Context {A : Type} (f : A -> Z).

Definition sum_of (l : list A) : Z := foldr (fun x s => f x + s) 0 l.

Lemma sum_of_insert l i x y : l !! i = Some x -> sum_of (<[i := y]> l) = sum_of l - f x + f y.
Proof.
  revert i. induction l as [|z l IH]; intros [|i] Hi; [done|done| |].
  - injection Hi as ->. change (f y + sum_of l = f x + sum_of l - f x + f y). lia.
  - change (f z + sum_of (<[i := y]> l) = f z + sum_of l - f x + f y). rewrite IH by done. lia.
Qed.

Lemma sum_of_cons x l : sum_of (x :: l) = f x + sum_of l.
Proof. done. Qed.

Lemma sum_of_app l k : sum_of (l ++ k)%list = sum_of l + sum_of k.
Proof. induction l as [|x l IH]; [done|]. cbn [app]. rewrite !sum_of_cons, IH. lia. Qed.

#[export] Instance sum_of_Permutation : Proper ((≡ₚ) ==> (=)) sum_of.
Proof. induction 1; rewrite ?sum_of_cons; lia. Qed.

Lemma sum_of_submseteq l k : Forall (fun x => 0 <= f x) k -> l ⊆+ k -> 0 <= sum_of l <= sum_of k.
Proof.
  intros Hk (j & Hj)%submseteq_Permutation. rewrite Hj in Hk |- *. rewrite sum_of_app.
  assert (Hnn : forall m, Forall (fun x => 0 <= f x) m -> 0 <= sum_of m)
    by (induction 1; rewrite ?sum_of_cons; [done|lia]).
  apply Forall_app in Hk as [Hl Hj']. specialize (Hnn _ Hl) as H1. specialize (Hnn _ Hj') as H2. lia.
Qed.
End sums.

Lemma sum_of_le {A} (f g : A -> Z) l : (forall x, x ∈ l -> f x <= g x) -> sum_of f l <= sum_of g l.
Proof.
  induction l as [|x l IH]; intros Hl; [done|]. change (f x + sum_of f l <= g x + sum_of g l).
  pose proof (Hl x ltac:(by left)). assert (sum_of f l <= sum_of g l) by (apply IH; intros; apply Hl; by right). lia.
Qed.

Section race.
Context `{LevelDB DB} `{GoTime} `{JsonMessages} `{PkgErrors} `{EthCrypto} `{Order2Credit W}.
Abbreviation thread := (booking * progress)%type.

Record bookings := mkBookings { bs_credit : Credit DB; bs_threads : list thread }.

(** The record a booking writes back. *)
Definition booked_record (b : booking) (r : RecordItem) : outcome RecordItem :=
  relevel (add_Sent (u64 (bk_bytes b)) r).

Inductive booking_step : bookings -> bookings -> Prop :=
  | read_record c ts i b :
      ts !! i = Some (b, NotYet) ->
      booking_step (mkBookings c ts)
        (mkBookings c (<[i := (b, Read (fst (GetCreditRecord c (bk_account b))))]> ts))
  | write_record now c ts i b r r' :
      ts !! i = Some (b, Read r) -> booked_record b r = Returns r' ->
      booking_step (mkBookings c ts)
        (mkBookings (fst (PutCreditRecord now c (bk_account b) r')) (<[i := (b, Booked)]> ts)).

Definition bookings_start (c : Credit DB) (bs : list booking) : bookings :=
  mkBookings c (map (fun b => (b, NotYet)) bs).

Definition all_booked (s : bookings) : Prop := Forall (fun t => snd t = Booked) (bs_threads s).

(** What the threads that are done have booked for an account, and what all will. *)
Definition booked_for (acc : string) (t : thread) : Z :=
  match t with
  | (b, Booked) => if decide (bk_account b = acc) then bk_bytes b else 0
  | _ => 0
  end.
Definition booked_of (acc : string) (ts : list thread) : list Z :=
  omap (fun t => match t with (b, Booked) => if decide (bk_account b = acc) then Some (bk_bytes b) else None | _ => None end) ts.
Definition due_for (acc : string) (t : thread) : Z :=
  if decide (bk_account (fst t) = acc) then bk_bytes (fst t) else 0.

(** A booking whose write follows its read at once is [AddCreditPoint]. *)
Lemma booking_alone now (c : Credit DB) b : 0 < bk_bytes b < 2 ^ 63 ->
  AddCreditPoint now c (bk_account b) (- bk_bytes b)
    = (r ← booked_record b (fst (GetCreditRecord c (bk_account b)));
       Returns (fst (PutCreditRecord now c (bk_account b) r))).
Proof.
  intros Hb. unfold AddCreditPoint, booked_record. destruct (GetCreditRecord c (bk_account b)) as [r bad].
  cbn [fst]. rewrite (proj2 (Z.ltb_lt _ _)) by lia. by rewrite Z.opp_involutive, i64_id by (unfold is_i64; lia).
Qed.

(** ** What an account may have been charged *)

Section account.
Context (acc : string) (base total : Z).

Definition sent_of (c : Credit DB) : Z := fst (counters c acc).

(** The first value plus some of the bookings written so far, at least one of them when
    [some] holds. *)
Definition charged_for (ts : list thread) (some : Prop) (sent : Z) : Prop :=
  exists l, l ⊆+ booked_of acc ts /\ (some -> l ≠ []) /\ sent = base + sum_of id l.

Record race_inv (s : bookings) : Prop := {
  ri_ledger : ledger_ok (bs_credit s);
  ri_bytes : Forall (fun t => 0 <= bk_bytes (fst t)) (bs_threads s);
  ri_total : sum_of (due_for acc) (bs_threads s) = total;
  ri_sent : charged_for (bs_threads s) (booked_of acc (bs_threads s) ≠ []) (sent_of (bs_credit s));
  ri_held : forall b r, (b, Read r) ∈ bs_threads s -> ledger_record r
    /\ (bk_account b = acc -> charged_for (bs_threads s) False (SentResource r));
}.

Lemma booked_sum (ts : list thread) : sum_of (booked_for acc) ts = sum_of id (booked_of acc ts).
Proof.
  induction ts as [|[b p] ts IH]; [done|]. rewrite sum_of_cons, IH. unfold booked_of. cbn [omap list_omap booked_for].
  destruct p; [done|done|]. by case_decide.
Qed.

Lemma booked_insert (ts : list thread) i b p p' : ts !! i = Some (b, p) -> p ≠ Booked ->
  booked_of acc (<[i := (b, p')]> ts)
    ≡ₚ match p' with Booked => if decide (bk_account b = acc) then [bk_bytes b] else [] | _ => [] end ++ booked_of acc ts.
Proof.
  intros Hi Hp. pose proof (lookup_lt_Some _ _ _ Hi). rewrite insert_take_drop by done.
  rewrite <- (take_drop_middle ts i (b, p)) at 3 by done. unfold booked_of. rewrite !omap_app. cbn.
  destruct p; [| |done]; destruct p'; cbn; try done; case_decide; try done; by rewrite <- Permutation_middle.
Qed.

Lemma charged_more (ts ts' : list thread) some sent :
  booked_of acc ts ⊆+ booked_of acc ts' -> charged_for ts some sent -> charged_for ts' some sent.
Proof. intros Hs (l & Hl & ?). exists l. split; [by etrans|done]. Qed.

Lemma booked_due (ts : list thread) : Forall (fun t => 0 <= bk_bytes (fst t)) ts ->
  sum_of (booked_for acc) ts <= sum_of (due_for acc) ts.
Proof.
  intros Hb. apply sum_of_le. intros [b p] Ht. rewrite Forall_forall in Hb. specialize (Hb _ Ht). cbn [fst] in Hb.
  unfold booked_for, due_for. cbn [fst]. destruct p; case_decide; lia.
Qed.

Lemma elem_of_insert_inv (ts : list thread) i t x : x ∈ <[i := t]> ts -> x = t \/ x ∈ ts.
Proof.
  intros (j & Hj)%list_elem_of_lookup_1. destruct (decide (i = j)) as [->|Hne].
  - left. apply list_lookup_insert_Some in Hj as [(_ & -> & _)|(? & _)]; done.
  - right. rewrite list_lookup_insert_ne in Hj by done. by eapply list_elem_of_lookup_2.
Qed.

(** A thread that changes its progress only. *)
Lemma threads_bytes (ts : list thread) i b p p' : ts !! i = Some (b, p) ->
  Forall (fun t => 0 <= bk_bytes (fst t)) ts -> Forall (fun t => 0 <= bk_bytes (fst t)) (<[i := (b, p')]> ts).
Proof. intros Hi Hb. apply Forall_insert; [done|]. exact (Forall_lookup_1 _ _ _ _ Hb Hi). Qed.

Lemma threads_due (ts : list thread) i b p p' : ts !! i = Some (b, p) ->
  sum_of (due_for acc) (<[i := (b, p')]> ts) = sum_of (due_for acc) ts.
Proof. intros Hi. rewrite (sum_of_insert _ ts i (b, p)) by done. unfold due_for. cbn. lia. Qed.

Lemma booked_record_spec b r r' : ledger_record r -> booked_record b r = Returns r' ->
  ledger_record r' /\ SentResource r' = u64 (SentResource r + u64 (bk_bytes b)).
Proof.
  intros [Hwf Hdiv] Hr. split.
  - split; [eapply wf_relevel; [|exact Hr]; auto with credit|].
    unfold booked_record, relevel in Hr. by apply outcome_bind_Returns in Hr as (l & _ & [= <-]).
  - unfold booked_record, relevel in Hr. by apply outcome_bind_Returns in Hr as (l & _ & [= <-]).
Qed.

Lemma race_read c ts i b : ts !! i = Some (b, NotYet) -> race_inv (mkBookings c ts) ->
  race_inv (mkBookings c (<[i := (b, Read (fst (GetCreditRecord c (bk_account b))))]> ts)).
Proof.
  intros Hi [Hl Hb Hdue Hs Hh]. cbn [bs_credit bs_threads] in *. set (p := Read _).
  pose proof (booked_insert ts i b NotYet p Hi ltac:(done)) as Hsame. cbn [app p] in Hsame.
  assert (Hin : forall some sent, charged_for ts some sent -> charged_for (<[i := (b, p)]> ts) some sent)
    by (intros some sent; apply charged_more; by rewrite Hsame).
  split; cbn [bs_credit bs_threads]; [done|by eapply threads_bytes|by rewrite (threads_due ts i b NotYet)| |].
  - apply Hin. destruct Hs as (l & ? & Hne & ?). exists l. split_and!; [done| |done].
    intros Hn. apply Hne. intros E. apply Hn. rewrite E in Hsame. by apply Permutation_nil_r in Hsame.
  - intros b' r' [[= -> ->]|Hr']%elem_of_insert_inv.
    + destruct (ledger_Get c (bk_account b) Hl) as (r0 & Hr0 & Hg). rewrite Hg. split; [done|]. intros Ha.
      apply Hin. rewrite Ha in Hg. unfold sent_of, counters in Hs. rewrite Hg in Hs.
      destruct Hs as (l & ? & _ & ?). by exists l.
    + destruct (Hh b' r' Hr') as [? Hw]. split; [done|]. intros Ha. by apply Hin, Hw.
Qed.

Lemma booked_nonneg (ts : list thread) : Forall (fun t => 0 <= bk_bytes (fst t)) ts ->
  Forall (fun x => 0 <= id x) (booked_of acc ts).
Proof.
  intros Hb. apply Forall_forall. intros x ([b p] & Hx & Ht)%list_elem_of_omap. rewrite Forall_forall in Hb.
  specialize (Hb _ Hx). destruct p; [done|done|]. case_decide; [|done]. by injection Ht as <-.
Qed.

(** Some of the bookings come to no more than all that are due. *)
Lemma charged_total (ts : list thread) l : Forall (fun t => 0 <= bk_bytes (fst t)) ts ->
  sum_of (due_for acc) ts = total -> l ⊆+ booked_of acc ts -> 0 <= sum_of id l <= total.
Proof.
  intros Hb Hdue Hl. pose proof (booked_due ts Hb) as Hle. rewrite booked_sum, Hdue in Hle.
  pose proof (sum_of_submseteq id l _ (booked_nonneg ts Hb) Hl). lia.
Qed.

Lemma race_write now c ts i b r r' : base + total < 2 ^ 64 -> 0 <= base ->
  (forall (d : DB) k v, exists d', db_Put d k v = (d', None)) ->
  ts !! i = Some (b, Read r) -> booked_record b r = Returns r' -> race_inv (mkBookings c ts) ->
  race_inv (mkBookings (fst (PutCreditRecord now c (bk_account b) r')) (<[i := (b, Booked)]> ts)).
Proof.
  intros Htot Hbase Hput Hi Hr [Hl Hb Hdue Hs Hh]. cbn [bs_credit bs_threads] in *.
  destruct (Hh b r) as [Hrec Hw]; [by eapply list_elem_of_lookup_2|].
  assert (Hbb : 0 <= bk_bytes b) by exact (Forall_lookup_1 _ _ _ _ Hb Hi).
  destruct (booked_record_spec b r r' Hrec Hr) as [Hr1 Hsent].
  destruct (Put_effect now c (bk_account b) r' Hput (ledger_store c Hl) (proj1 Hr1)) as (_ & Hg & Hothers).
  set (c' := fst (PutCreditRecord now c (bk_account b) r')) in *.
  pose proof (booked_insert ts i b (Read r) Booked Hi ltac:(done)) as Hins. cbn in Hins.
  pose proof (threads_bytes ts i b _ Booked Hi Hb) as Hb'.
  pose proof (threads_due ts i b _ Booked Hi) as Hdue'. rewrite Hdue in Hdue'.
  assert (Hmore : booked_of acc ts ⊆+ booked_of acc (<[i := (b, Booked)]> ts))
    by (rewrite Hins; case_decide; [by apply submseteq_cons|done]).
  split; cbn [bs_credit bs_threads]; [by apply ledger_Put|done|done| |].
  - unfold sent_of, counters in *. cbn [fst] in *. destruct (decide (bk_account b = acc)) as [Ha|Ha].
    + destruct (Hw Ha) as (l & Hsub & _ & Hr0). rewrite Ha in Hg. rewrite Hg. cbn [fst SentResource set_LastAccess].
      exists (bk_bytes b :: l). split_and!; [rewrite Hins; by apply submseteq_skip|done|].
      pose proof (charged_total _ (bk_bytes b :: l) Hb' Hdue' ltac:(rewrite Hins; by apply submseteq_skip)) as Hsum.
      pose proof (charged_total _ l Hb Hdue Hsub) as Hsum0. rewrite sum_of_cons in Hsum |- *. change (id (bk_bytes b)) with (bk_bytes b) in *.
      rewrite Hsent, Hr0, (u64_id (bk_bytes b)), u64_id by (unfold is_u64; lia). lia.
    + rewrite Hothers by congruence. cbn [app] in Hins. destruct Hs as (l & Hsub & Hne & ?).
      exists l. split_and!; [by etrans| |done]. intros Hn. apply Hne. intros E. apply Hn.
      rewrite E in Hins. by apply Permutation_nil_r in Hins.
  - intros b' r'' [?|Hin]%elem_of_insert_inv; [done|]. destruct (Hh b' r'' Hin) as [? Hw']. split; [done|].
    intros Ha. eapply charged_more; [exact Hmore|by apply Hw'].
Qed.

Lemma race_run s s' : base + total < 2 ^ 64 -> 0 <= base ->
  (forall (d : DB) k v, exists d', db_Put d k v = (d', None)) ->
  rtc booking_step s s' -> race_inv s -> race_inv s'.
Proof.
  intros Htot Hbase Hput Hrun. induction Hrun as [s|s s1 s' Hstep _ IH]; [done|]. intros Hs. apply IH.
  destruct Hstep; [by apply race_read|by eapply race_write].
Qed.

Lemma race_start c bs : ledger_ok c -> Forall (fun b => 0 <= bk_bytes b) bs -> base = sent_of c ->
  total = sum_of (due_for acc) (bs_threads (bookings_start c bs)) -> race_inv (bookings_start c bs).
Proof.
  intros Hl Hb -> ->.
  assert (Hz : booked_of acc (bs_threads (bookings_start c bs)) = []).
  { cbn. clear. by induction bs as [|b bs IH]. }
  split; cbn [bs_credit]; [done| |done| |].
  - unfold bookings_start. cbn. by apply Forall_map.
  - exists []. rewrite Hz. split_and!; [done|done|]. change (bs_credit (bookings_start c bs)) with c. change (sum_of id []) with 0. lia.
  - intros b r Hin. cbn in Hin. apply list_elem_of_In, in_map_iff in Hin as (? & [= ] & _).
Qed.
End account.

Lemma booked_record_returns b r : ledger_record r -> exists r', booked_record b r = Returns r'.
Proof.
  intros [Hwf Hd]. unfold booked_record, relevel.
  destruct (level_of_fragments (SentResource (add_Sent (u64 (bk_bytes b)) r)) (ReceivedResource r)) as [l Hlev];
    [apply Hwf|done|].
  cbn [ReceivedResource add_Sent] in *. rewrite Hlev. by eexists.
Qed.

(** A booking that nothing interrupts. *)
Lemma first_booked (now : time) (c : Credit DB) b bs :
  (forall (d : DB) k v, exists d', db_Put d k v = (d', None)) -> ledger_ok c ->
  exists s, rtc booking_step (bookings_start c (b :: bs)) s
    /\ fst (counters (bs_credit s) (bk_account b)) = u64 (fst (counters c (bk_account b)) + u64 (bk_bytes b))
    /\ bs_threads s = (b, Booked) :: map (fun b => (b, NotYet)) bs.
Proof.
  intros Hput Hl. destruct (ledger_Get c (bk_account b) Hl) as (r & Hr & Hg).
  destruct (booked_record_returns b r Hr) as [r' E]. destruct (booked_record_spec _ _ _ Hr E) as [Hr' Hs].
  eexists. split.
  - eapply rtc_l; [apply (read_record c _ 0 b); reflexivity|]. rewrite Hg. cbn [fst].
    eapply rtc_l; [apply (write_record now c _ 0 b r r'); [reflexivity|exact E]|]. apply rtc_refl.
  - destruct (Put_effect now c (bk_account b) r' Hput (ledger_store c Hl) (proj1 Hr')) as (_ & Hg2 & _).
    unfold counters. cbn [bs_credit bs_threads]. by rewrite Hg2, Hg.
Qed.

(** C11: Bookings that run at the same time may be lost but are never invented: in every
    state of any interleaving of their reads and writes, what an account has been charged is
    exactly what it was charged before plus some of the bookings that were written for it,
    each at most once, and at least one of them as soon as one was written; so it lies
    between the first value and that value plus all of them. *)
Theorem concurrent_bookings_bounded (c : Credit DB) (bs : list booking) (s : bookings) (acc : string)
    (Hput : forall (d : DB) k v, exists d', db_Put d k v = (d', None))
    (Hl : ledger_ok c) (Hb : Forall (fun b => 0 <= bk_bytes b) bs)
    (Htotal : fst (counters c acc) + sum_of (due_for acc) (bs_threads (bookings_start c bs)) < 2 ^ 64)
    (Hrun : rtc booking_step (bookings_start c bs) s) :
  let before := fst (counters c acc) in
  let sent := fst (counters (bs_credit s) acc) in
  let written := booked_of acc (bs_threads s) in
  ledger_ok (bs_credit s)
  /\ (exists l, l ⊆+ written /\ (written ≠ [] -> l ≠ []) /\ sent = before + sum_of id l)
  /\ before <= sent <= before + sum_of id written.
Proof.
  destruct (ledger_Get c acc Hl) as (r & [[_ [Hr _] _ _] _] & Hg).
  assert (H0le : 0 <= fst (counters c acc)) by (unfold counters; by rewrite Hg).
  destruct (race_run acc _ _ _ s Htotal H0le Hput Hrun) as [Hl' Hbs Hdue Hs _]; [by apply race_start|].
  intros before sent written. split_and!; [exact Hl'|exact Hs| |].
  all: destruct Hs as (l & Hsub & _ & Hsent); unfold sent, before, sent_of in *; rewrite Hsent.
  - pose proof (charged_total acc _ _ l Hbs Hdue Hsub). lia.
  - pose proof (sum_of_submseteq id l written (booked_nonneg acc _ Hbs) Hsub). lia.
Qed.

(** C7: And they are lost: of any two downloads by one account that are booked at the same
    time there is an interleaving, the two reads before the two writes, after which both
    are booked and the account has been charged for the second alone. *)
Theorem concurrent_booking_lost (c : Credit DB) (acc : string) (n1 n2 : Z) (now : time)
    (Hput : forall (d : DB) k v, exists d', db_Put d k v = (d', None))
    (Hl : ledger_ok c) (Hn1 : 0 < n1 < 2 ^ 63) (Hn2 : 0 < n2 < 2 ^ 63) (Htotal : fst (counters c acc) + n2 < 2 ^ 64) :
  exists s, rtc booking_step (bookings_start c [mkBooking acc n1; mkBooking acc n2]) s /\ all_booked s
    /\ fst (counters (bs_credit s) acc) = fst (counters c acc) + n2.
Proof.
  destruct (ledger_Get c acc Hl) as (r & Hr & Hg).
  destruct (booked_record_returns (mkBooking acc n1) r Hr) as [r1 E1].
  destruct (booked_record_returns (mkBooking acc n2) r Hr) as [r2 E2].
  destruct (booked_record_spec _ _ _ Hr E1) as [Hr1 _]. destruct (booked_record_spec _ _ _ Hr E2) as [Hr2 Hs2].
  pose proof (ledger_Put now c acc r1 Hl Hr1) as Hl1. set (c1 := fst (PutCreditRecord now c acc r1)) in *.
  exists (mkBookings (fst (PutCreditRecord now c1 acc r2)) [(mkBooking acc n1, Booked); (mkBooking acc n2, Booked)]).
  split_and!; [|by repeat constructor|].
  - unfold bookings_start. cbn [map].
    eapply rtc_l; [apply (read_record c _ 0 (mkBooking acc n1)); reflexivity|].
    eapply rtc_l; [apply (read_record c _ 1 (mkBooking acc n2)); reflexivity|]. cbn [bk_account list_insert insert]. rewrite Hg. cbn [fst].
    eapply rtc_l; [apply (write_record now c _ 0 (mkBooking acc n1) r r1); [reflexivity|exact E1]|].
    eapply rtc_l; [apply (write_record now c1 _ 1 (mkBooking acc n2) r r2); [reflexivity|exact E2]|]. apply rtc_refl.
  - destruct (Put_effect now c1 acc r2 Hput (ledger_store c1 Hl1) (proj1 Hr2)) as (_ & Hg2 & _).
    unfold counters in *. rewrite Hg in *. cbn [bs_credit]. rewrite Hg2. cbn [fst SentResource set_LastAccess] in *. rewrite Hs2.
    destruct Hr as [[_ [? _] _ _] _]. cbn [bk_bytes]. rewrite (u64_id n2), u64_id by (unfold is_u64; lia). done.
Qed.
End race.

Section witnesses.
#[local] Existing Instance sample_crypto.
#[local] Existing Instance sample_time.
#[local] Existing Instance sample_messages.

Lemma sample_ledger_ok : ledger_ok sample_credit.
Proof. intros k v. cbn. by rewrite lookup_empty. Qed.

Lemma one_booked : exists s, rtc booking_step
  (bookings_start sample_credit [mkBooking "0xa" 100; mkBooking "0xb" 7]) s /\ fst (counters (bs_credit s) "0xa") = 100
  /\ booked_of "0xa" (bs_threads s) = [100].
Proof.
  destruct (first_booked (0 : @time sample_time) sample_credit (mkBooking "0xa" 100) [mkBooking "0xb" 7] map_db_puts sample_ledger_ok)
    as (s & Hrun & Hs & Ht). exists s. split; [exact Hrun|]. split; [etrans; [exact Hs|]; by vm_compute|].
  rewrite Ht. by vm_compute.
Qed.

Lemma concurrent_bookings_bounded_witness :
  exists s, rtc booking_step (bookings_start sample_credit [mkBooking "0xa" 100; mkBooking "0xb" 7]) s
    /\ booked_of "0xa" (bs_threads s) = [100]
    /\ exists l, l ⊆+ [100] /\ ([100] ≠ [] -> l ≠ []) /\ 100 = 0 + sum_of id l.
Proof.
  destruct one_booked as (s & Hrun & Hs & Ht). exists s. split; [exact Hrun|]. split; [exact Ht|].
  destruct (concurrent_bookings_bounded sample_credit [mkBooking "0xa" 100; mkBooking "0xb" 7] s "0xa")
    as (_ & Hlast & _);
    [exact map_db_puts|exact sample_ledger_ok|by repeat constructor|by vm_compute|exact Hrun|].
  rewrite Hs, Ht in Hlast. exact Hlast.
Defined.

Lemma concurrent_booking_lost_witness :
  exists s, rtc booking_step (bookings_start sample_credit [mkBooking "0xa" 100; mkBooking "0xa" 7]) s
    /\ all_booked s /\ fst (counters (bs_credit s) "0xa") = 7.
Proof.
  apply (concurrent_booking_lost sample_credit "0xa" 100 7 (0 : @time sample_time) map_db_puts sample_ledger_ok);
    [lia|lia|by vm_compute].
Defined.
End witnesses.
