(* ===== verification/CacheServiceFacts.v ===== *)
(** * Properties of the stream service and the download queue

    What a client gets for each request, what is booked for it, and what happens to
    the tasks of the download queue. *)

From S2P Require Import Prelude GoStrings Encoding Json JsonFacts Codec Types Stream GoOs External Credit.
From S2P Require Import CreditFacts CacheActor CacheActorFacts.
From Stdlib Require Import SpecFloat.

Section service.
Context {C R DB W : Type} `{FileCache FS C} {RecDB : LevelDB R} `{LevelDB DB} `{GoTime}
  `{JsonMessages} `{FloatText} `{PkgErrors} `{EthCrypto} `{Order2Credit W} `{CessConfig}
  `{NetUrl} `{OsFaults}.
Abbreviation actor := (CacheActor C R DB).

(** A stream on which the client has sent this and nothing was written. The client's side
    stays open, as [SendRequestToCacher] closes the stream only after the reply. *)
Definition client_stream (data : bytes) : net_stream := mkStream (one_piece data) [] false None.

(** The same from a client that closes its side. *)
Definition half_closed_stream (data : bytes) : net_stream := mkStream (buffer_reader data) [] false None.

(** The text of a request, on which a message may not end at a multiple of 1024. *)
Definition request_text (req : CacheRequest) : bytes := print (enc_CacheRequest req).
Definition sendable (req : CacheRequest) : Prop :=
  wf_CacheRequest req /\ (length (request_text req) mod 1024 ≠ 0)%nat.

Definition dispatch (now : time) (loads : Z * Z * Z) (w : W) (fs : FS) (a : actor) (s : net_stream)
    (req : CacheRequest) : outcome ((actor * W) * net_stream) :=
  let paths := strings_Split (WantFile req) slash in
  if decide (Option req = OPTION_DAIL) then
    let '(a, s) := serve_dail now loads a s req in Returns ((a, w), s)
  else if decide (Option req = OPTION_QUERY) then serve_query now loads w a s paths req
  else if decide (Option req = OPTION_DOWNLOAD) then serve_download now w fs a s paths req
  else Returns ((a, w), stream_Reset s).

Lemma CacheService_receives now loads (w : W) fs (a : actor) req :
  sendable req ->
  CacheService now loads w fs a (client_stream (request_text req))
    = dispatch now loads w fs a (client_stream (request_text req)) req.
Proof.
  intros [Hw Hl]. unfold CacheService, client_stream. cbn [s_in].
  rewrite ReadData_open_piece, (proj2 (Nat.eqb_neq _ _)) by done.
  unfold request_text. rewrite (Unmarshal_print dec_CacheRequest _ CacheRequest_zero req);
    [done|by apply wf_enc_CacheRequest|apply dec_enc_CacheRequest].
Qed.

(** ** Credit checks on a well-formed store *)

Lemma check_credit_passes now (w : W) (a : actor) req pk :
  store_ok (creditMg a) -> DecompressPubkey (elems (AccountId req)) = inl pk ->
  let acc := address_Hex (PubkeyToAddress pk) in
  check_credit now w a req = Returns (true,
    (set_credit (fst (PutCreditRecord now (creditMg a) acc (fst (GetCreditRecord (creditMg a) acc)))) a, w)).
Proof.
  intros Hs Hk acc. unfold check_credit, CheckCredit. rewrite Hk. fold acc.
  destruct (GetCreditRecord_ok (creditMg a) acc Hs) as (r & _ & Hg & _). by rewrite Hg.
Qed.

(** ** Downloads *)

Definition can_read (fs : FS) (p : string) (content : bytes) : Prop :=
  os_fault OpStat p = None /\ os_fault OpRead p = None /\ files fs !! p = Some content
  /\ len content < 2 ^ 63.

Lemma send_cached_ok now (w : W) fs (a : actor) data req pk fname p c content :
  GetCacheRecord (fileCache a) fname = (inl p, c) -> can_read fs p content ->
  DecompressPubkey (elems (AccountId req)) = inl pk ->
  send_cached now w fs a (client_stream data) req fname =
    (mg ← AddCreditPoint now (creditMg a) (address_Hex (PubkeyToAddress pk)) (- len content);
     Returns ((set_credit mg (set_cache c a), w), mkStream (one_piece data) content false None)).
Proof.
  intros Hg (Hst & Hrd & Hf & Hlen) Hk. unfold send_cached, os_Stat, os_ReadFile.
  rewrite Hg, Hst, Hrd, Hf, Hk. cbn.
  pose proof (len_nonneg content).
  by rewrite i64_id by (unfold is_i64; lia).
Qed.

(** Booking bytes sent, none included. *)
Lemma book_sent (mg : Credit DB) now acc n l :
  store_ok mg -> (forall (d : DB) k v, exists d', db_Put d k v = (d', None)) -> 0 <= n < 2 ^ 63 ->
  let r := fst (GetCreditRecord mg acc) in
  let sent := u64 (SentResource r + n) in
  level_of sent (ReceivedResource r) = Returns l ->
  exists mg', AddCreditPoint now mg acc (- n) = Returns mg'
    /\ GetCreditRecord mg' acc = (mkRecordItem _ l sent (ReceivedResource r) (CheckedTimes r) now, false)
    /\ (forall acc', acc' ≠ acc -> GetCreditRecord mg' acc' = GetCreditRecord mg acc').
Proof.
  intros Hs Hput Hn r sent Hl.
  pose proof (AddCreditPoint_effect mg now acc (- n) Hs ltac:(lia) Hput) as He. cbv zeta in He.
  destruct (GetCreditRecord_ok mg acc Hs) as (r' & [] & Hget & _).
  assert (r' = r) as -> by (unfold r; by rewrite Hget). fold r in He.
  assert ((if - n <? 0 then u64 (SentResource r - - n) else SentResource r) = sent) as E1.
  { unfold sent. destruct (Z.ltb_spec (- n) 0); [f_equal; lia|].
    rewrite u64_id; unfold is_u64 in *; lia. }
  assert ((if - n <? 0 then ReceivedResource r else u64 (ReceivedResource r + - n)) = ReceivedResource r) as E2.
  { destruct (Z.ltb_spec (- n) 0); [done|]. rewrite u64_id; unfold is_u64 in *; lia. }
  rewrite E1, E2, Hl in He. destruct He as (mg' & ? & _ & ? & ?). by exists mg'.
Qed.

Lemma serve_cached_fragment (now : time) (loads : Z * Z * Z) (w : W) (fs : FS) (a : actor)
    (req : CacheRequest) (pk : pubkey) (f s h p : string) (c : C) (content : bytes) (l : Z) :
  sendable req -> Option req = OPTION_DOWNLOAD -> WantUrl req = "" ->
  plain_name f -> plain_name s -> plain_name h -> WantFile req = filepath_Join [f; s; h] ->
  DecompressPubkey (elems (AccountId req)) = inl pk ->
  store_ok (creditMg a) -> (forall (d : DB) k v, exists d', db_Put d k v = (d', None)) ->
  GetCacheRecord (fileCache a) (WantFile req) = (inl p, c) -> can_read fs p content ->
  let acc := address_Hex (PubkeyToAddress pk) in
  let r := fst (GetCreditRecord (creditMg a) acc) in
  let sent := u64 (SentResource r + len content) in
  level_of sent (ReceivedResource r) = Returns l ->
  exists mg, CacheService now loads w fs a (client_stream (request_text req))
      = Returns ((set_credit mg (set_cache c a), w),
                 mkStream (one_piece (request_text req)) content false None)
    /\ GetCreditRecord mg acc = (mkRecordItem _ l sent (ReceivedResource r) (CheckedTimes r) now, false)
    /\ (forall acc', acc' ≠ acc -> GetCreditRecord mg acc' = GetCreditRecord (creditMg a) acc').
Proof.
  intros Hreq Ho Hu Hpf Hps Hph Hw Hk Hs Hput Hg Hc acc r sent Hl.
  rewrite CacheService_receives by done. unfold dispatch. rewrite Ho, Hw.
  rewrite !decide_False by done. rewrite decide_True by done.
  rewrite Split_filepath_Join by (done || plains).
  unfold serve_download. rewrite decide_False by (rewrite Hu; tauto).
  rewrite (check_credit_passes now w a req pk Hs Hk). fold acc. cbn [mbind outcome_bind negb].
  destruct (GetCreditRecord_ok (creditMg a) acc Hs) as (r' & Hr' & Hget & _).
  assert (r' = r) as -> by (unfold r; by rewrite Hget).
  destruct (Put_effect now (creditMg a) acc r Hput Hs Hr') as (Hs1 & Hg1 & Ho1). fold r.
  set (mg1 := fst (PutCreditRecord _ _ _ _)) in *.
  rewrite <- Hw. erewrite send_cached_ok; [|done|done|done]. fold acc. cbn [creditMg set_credit].
  pose proof (len_nonneg content). destruct Hc as (_ & _ & _ & Hlen).
  destruct (book_sent mg1 now acc (len content) l Hs1) as (mg & -> & Hmg & Hothers).
  - exact Hput.
  - lia.
  - by rewrite Hg1.
  - exists mg. split; [done|]. rewrite Hg1 in Hmg. split; [exact Hmg|].
    intros acc' Hne. by rewrite Hothers, Ho1.
Qed.

(** A download of a cached fragment by an account with a valid key sends exactly
    the file's bytes and books exactly its size as sent to that account: nothing else
    of the account's counters changes, and no other account. *)
Theorem download_serves_fragment (now : time) (loads : Z * Z * Z) (w : W) (fs : FS) (a : actor)
    (req : CacheRequest) (pk : pubkey) (f s h p : string) (c : C) (content : bytes) (l : Z) :
  sendable req -> Option req = OPTION_DOWNLOAD -> WantUrl req = "" ->
  plain_name f -> plain_name s -> plain_name h -> WantFile req = filepath_Join [f; s; h] ->
  DecompressPubkey (elems (AccountId req)) = inl pk ->
  store_ok (creditMg a) -> (forall (d : DB) k v, exists d', db_Put d k v = (d', None)) ->
  GetCacheRecord (fileCache a) (WantFile req) = (inl p, c) -> can_read fs p content ->
  let acc := address_Hex (PubkeyToAddress pk) in
  let r := fst (GetCreditRecord (creditMg a) acc) in
  let sent := u64 (SentResource r + len content) in
  level_of sent (ReceivedResource r) = Returns l ->
  exists mg, CacheService now loads w fs a (client_stream (request_text req))
      = Returns ((set_credit mg (set_cache c a), w),
                 mkStream (one_piece (request_text req)) content false None)
    /\ GetCreditRecord mg acc = (mkRecordItem _ l sent (ReceivedResource r) (CheckedTimes r) now, false)
    /\ (forall acc', acc' ≠ acc -> GetCreditRecord mg acc' = GetCreditRecord (creditMg a) acc').
Proof. apply serve_cached_fragment. Qed.

(** A download by URL sends the cached file first and looks at the account last:
    with a key that does not decode, the client still gets the whole file, followed by
    the text of an error message, and nothing is booked. *)
Theorem url_download_unpaid (now : time) (loads : Z * Z * Z) (w : W) (fs : FS) (a : actor)
    (req : CacheRequest) (p e : string) (c : C) (content : bytes) :
  sendable req -> Option req = OPTION_DOWNLOAD -> WantUrl req ≠ "" ->
  DecompressPubkey (elems (AccountId req)) = inr e ->
  GetCacheRecord (fileCache a) (GetSha256Hash (to_bytes (filepath_Base (WantUrl req)))) = (inl p, c) ->
  can_read fs p content ->
  CacheService now loads w fs a (client_stream (request_text req))
    = Returns ((set_cache c a, w),
        mkStream (one_piece (request_text req))
          (content ++ print (JObj [("status", JStr STATUS_ERROR); ("data", JStr e)]))%list false None).
Proof.
  intros Hreq Ho Hu Hk Hg (Hst & Hrd & Hf & _). rewrite CacheService_receives by done.
  unfold dispatch. rewrite Ho, !decide_False, decide_True by done.
  unfold serve_download. rewrite decide_True by done.
  unfold send_cached, os_Stat, os_ReadFile. rewrite Hg, Hst, Hrd, Hf, Hk. done.
Qed.

(** A request for a segment reaching a node whose download server is not running
    dereferences the nil queue and panics: the stream handler takes the process down. *)
Theorem query_before_server_panics (now : time) (loads : Z * Z * Z) (w : W) (fs : FS) (a : actor)
    (req : CacheRequest) (pk : pubkey) (f s : string) :
  sendable req -> Option req = OPTION_QUERY -> WantUrl req = "" ->
  plain_name f -> plain_name s -> WantFile req = filepath_Join [f; s] ->
  DecompressPubkey (elems (AccountId req)) = inl pk -> store_ok (creditMg a) -> dlQueue a = None ->
  CacheService now loads w fs a (client_stream (request_text req)) = Panics NilDereference.
Proof.
  intros Hreq Ho Hu Hf Hs Hw Hk Hstore Hq. rewrite CacheService_receives by done.
  unfold dispatch. rewrite Ho, Hw, Split_filepath_Join by (done || plains).
  rewrite decide_False, decide_True by done. unfold serve_query. rewrite Hk.
  unfold GetCacheInfo. destruct loads as [[n1 n2] n3].
  destruct (IsLimited _ _ _) as [[limit ok] mg] eqn:El.
  assert (store_ok mg) as Hmg.
  { replace mg with (snd (IsLimited now (creditMg a) (address_Hex (PubkeyToAddress pk)))) by by rewrite El.
    by apply IsLimited_store. }
  unfold query_status. erewrite check_credit_passes by done. cbn [mbind outcome_bind negb].
  rewrite decide_False by (rewrite Hu; tauto). unfold the_queue.
  cbn [dlQueue set_credit]. by rewrite Hq.
Qed.

(** ** Errors *)

Definition error_text (e : string) : bytes :=
  print (JObj [("status", JStr STATUS_ERROR); ("data", JStr e)]).

(** C40: The error paths of the service, for the text of a client that keeps its side of the
    stream open, as this program's does: a text whose length is a multiple of 1024 is never
    answered, the handler waits for more of it, and only a client that closes its side is
    told [EOF]; a text that is no JSON request, or a query with an undecodable key, or a
    download without file, segment and fragment id, is answered with exactly one error
    message and changes nothing; an unknown option resets the stream. *)
Theorem CacheService_errors (now : time) (loads : Z * Z * Z) (w : W) (fs : FS) (a : actor)
    (data : bytes) (req : CacheRequest) (e : string) :
  let replied s := (a, w, mkStream (one_piece data) (error_text s) false None) in
  ((length data mod 1024 = 0)%nat ->
     CacheService now loads w fs a (client_stream data) = Returns (a, w, client_stream data)
     /\ CacheService now loads w fs a (half_closed_stream data)
          = Returns (a, w, mkStream (buffer_reader data) (error_text EOF) false None))
  /\ ((length data mod 1024 ≠ 0)%nat -> snd (Unmarshal dec_CacheRequest data CacheRequest_zero) = Some e ->
     CacheService now loads w fs a (client_stream data) = Returns (replied e))
  /\ (data = request_text req -> sendable req -> Option req = OPTION_QUERY ->
     DecompressPubkey (elems (AccountId req)) = inr e ->
     CacheService now loads w fs a (client_stream data) = Returns (replied e))
  /\ (data = request_text req -> sendable req -> Option req = OPTION_DOWNLOAD -> WantUrl req = "" ->
     (length (strings_Split (WantFile req) slash) < 3)%nat ->
     CacheService now loads w fs a (client_stream data)
       = Returns (replied "illegal file Id and segment Id"))
  /\ (data = request_text req -> sendable req ->
     Option req ∉ [OPTION_DAIL; OPTION_QUERY; OPTION_DOWNLOAD] ->
     CacheService now loads w fs a (client_stream data)
       = Returns (a, w, mkStream (one_piece data) [] true None)).
Proof.
  intros replied. split_and!.
  - intros Hl. unfold CacheService. cbn [s_in client_stream half_closed_stream].
    by rewrite ReadData_open_piece, ReadData_one_piece, (proj2 (Nat.eqb_eq _ _)).
  - intros Hl Hu. unfold CacheService. cbn [s_in client_stream].
    rewrite ReadData_open_piece, (proj2 (Nat.eqb_neq _ _)) by done.
    destruct (Unmarshal _ _ _) as [r [e'|]]; [|done]. by injection Hu as ->.
  - intros -> Hs Ho Hk. rewrite CacheService_receives by done. unfold dispatch.
    rewrite Ho, decide_False, decide_True by done. unfold serve_query. by rewrite Hk.
  - intros -> Hs Ho Hu Hl. rewrite CacheService_receives by done. unfold dispatch.
    rewrite Ho, !decide_False, decide_True by done. unfold serve_download.
    rewrite decide_False by (rewrite Hu; tauto).
    destruct (strings_Split _ _) as [|p0 [|p1 [|p2 ps]]]; try done. cbn in Hl. lia.
  - intros -> Hs Ho. rewrite CacheService_receives by done. unfold dispatch.
    rewrite !not_elem_of_cons in Ho. destruct Ho as (? & ? & ? & _).
    by rewrite !decide_False.
Qed.

(** Unless other goroutines raise the number of requests while it runs,
    [GetCacheInfo] reports the node as idle, whatever that number is. *)
Theorem GetCacheInfo_idle (now : time) (n1 n2 n3 : Z) (a : actor) (userAcc : string) :
  is_i64 n1 -> is_i64 n3 -> n3 <= n1 -> n1 - n3 <= 2 ^ 63 ->
  info_Status (fst (GetCacheInfo now (n1, n2, n3) a userAcc)) = CACHE_IDLE.
Proof.
  unfold is_i64. intros Hn1 Hn3 Hle Hd. unfold GetCacheInfo.
  rewrite i64_id by (unfold is_i64; lia). rewrite (proj2 (Z.ltb_ge 0 _)) by lia.
  rewrite andb_false_r. by destruct (IsLimited _ _ _) as [[limit ok] mg].
Qed.

(** ** The download queue *)

(** What [serve_task] needs of a task to ask for its data. *)
Definition task_ready (a : actor) (key : string) (t : DownloadTask) : Prop :=
  task_Option t = NODE_RESOURCE_CACHE ->
    length (strings_Split (Source t) slash) = 2%nat
    /\ fst (GetFileRecord a key RECORD_FRAGMENTS) < DataShards.

Definition sent_task (t : DownloadTask) : DownloadTask := mkDownloadTask (Source t) true (task_Option t).

Lemma serve_task_stays key t (a : actor) q :
  dlQueue a = Some q -> task_ready a key t ->
  exists r a', serve_task key t a = Returns (Some r, a')
    /\ dlQueue a' = Some (<[key := sent_task t]> q) /\ record a' = record a.
Proof.
  intros Hq Hr. unfold serve_task, queue_Store, queue_Delete, the_queue, task_ready in *.
  case_decide as Ho.
  - destruct (Hr Ho) as [Hl Hc]. rewrite decide_False by tauto.
    destruct (GetFileRecord a key _) as [count ok]. cbn in Hc.
    rewrite (proj2 (Z.leb_gt _ _)), andb_false_r by done. rewrite Hq. cbn.
    by eexists _, _.
  - destruct (GetCacheRecord (fileCache a) key) as [[p|e] c]; cbn; rewrite Hq; cbn.
    + case_decide; cbn; rewrite ?Hq; cbn; eexists _, _; (split; [done|]); [|done].
      split; [|done]. cbn. by rewrite insert_delete_eq.
    + by eexists _, _.
Qed.

(** A pass of the download server never removes a task that still lacks fragments,
    and never one for a URL, downloaded or not: a URL's task is stored again right
    after it is deleted.  Each pass asks the resource actor again for each of them,
    in progress or not. *)
Theorem tasks_requested_again (keys : list string) (a : actor) (q : gmap string DownloadTask) :
  dlQueue a = Some q -> NoDup keys -> (forall k, k ∈ keys -> is_Some (q !! k)) ->
  (forall k t, q !! k = Some t -> task_ready a k t) ->
  exists rs a', range_tasks keys a = Returns (rs, a') /\ length rs = length keys
    /\ exists q', dlQueue a' = Some q'
        /\ forall k, q' !! k = (if decide (k ∈ keys) then sent_task else id) <$> q !! k.
Proof.
  intros Hq Hnd. revert a q Hq. induction Hnd as [|k keys Hk _ IH]; intros a q Hq Hin Hready.
  - exists [], a. split_and!; [done|done|]. exists q. split; [done|]. intros k.
    by destruct (q !! k).
  - destruct (Hin k) as [t Ht]; [left|]. cbn [range_tasks]. unfold the_queue at 1.
    rewrite Hq. cbn [mbind outcome_bind]. rewrite Ht.
    destruct (serve_task_stays k t a q Hq (Hready k t Ht)) as (r & a1 & Hs & Hq1 & Hrec).
    rewrite Hs. cbn [mbind outcome_bind].
    destruct (IH a1 _ Hq1) as (rs & a2 & Hr & Hl & q2 & Hq2 & Hlk).
    { intros k' Hk'. rewrite lookup_insert_ne by (intros ->; done). apply Hin. by right. }
    { intros k' t'. rewrite lookup_insert_Some. intros Hk'.
      assert (exists t0, q !! k' = Some t0 /\ (t' = sent_task t0 \/ t' = t0)) as (t0 & H0t & Heq)
        by naive_solver.
      pose proof (Hready k' t0 H0t) as Hr. unfold task_ready, GetFileRecord in *. rewrite Hrec.
      by destruct Heq as [->| ->]. }
    rewrite Hr. cbn. exists (r :: rs), a2. split_and!; [done|cbn; by rewrite Hl|].
    exists q2. split; [done|]. intros k'. rewrite Hlk.
    destruct (decide (k' = k)) as [->|Hne].
    + rewrite lookup_insert_eq, Ht, !decide_False, decide_True by (done || by left). done.
    + rewrite lookup_insert_ne by done. f_equal.
      apply decide_ext. rewrite elem_of_cons. naive_solver.
Qed.

(** Restoring the cache directory registers a fragment at
    [.../fid/sid/fragment] under the reversed key [fragment/sid/fid], which no client
    ever asks for. *)
Theorem restore_reverses_key (a : actor) (path f s h : string) (dirs : list string) :
  dirs ≠ [] -> strings_Split path slash = (dirs ++ [f; s; h])%list ->
  RestoreCacheFiles a [(path, inl (mkFileInfo sdk_FragmentSize false))]
    = (let '(es, c) := AddCacheRecord (fileCache a) (filepath_Join [h; s; f]) path in
       run_callbacks (set_cache c a) es, None).
Proof.
  intros Hd Hp. cbn [RestoreCacheFiles]. unfold restore_entry. cbn [fi_isdir fi_size].
  rewrite Z.eqb_refl, Hp, rev_app_distr. cbn [rev app].
  destruct (rev dirs) as [|x l] eqn:E; [|done].
  apply (f_equal (@rev _)) in E. by rewrite rev_involutive in E.
Qed.

(** ** Credits for fragments received *)

Lemma hexdigit_not_x n : 0 <= n < 16 -> hexdigit n ≠ x78.
Proof.
  intros Hn He. apply (f_equal bval) in He. unfold hexdigit in He.
  rewrite bval_to_byte in He. change (bval x78) with 120 in He.
  destruct (Z.ltb_spec n 10); rewrite Z.mod_small in He by lia; lia.
Qed.

(** An account's record is under [0x...]; hexadecimal digits have no prefix. *)
Lemma Bytes2Hex_not_address b acc : Bytes2Hex b ≠ address_Hex acc.
Proof.
  rewrite Bytes2Hex_hex. intros He. pose proof (address_Hex_prefix acc) as Hp.
  rewrite <- He in Hp. unfold hex_EncodeToString in Hp. destruct b as [|x b]; [done|].
  assert (hexdigit (bval x mod 16) ≠ x78) as Hx by (apply hexdigit_not_x, Z.mod_pos_bound; lia).
  revert Hp. cbn [hex_encode]. generalize (hexdigit (bval x / 16)). intros d.
  change (of_bytes (d :: hexdigit (bval x mod 16) :: hex_encode b)) with
    (String (ascii_of_byte d) (String (ascii_of_byte (hexdigit (bval x mod 16))) (of_bytes (hex_encode b)))).
  cbn [strings_HasPrefix]. rewrite !andb_true_iff, !bool_decide_eq_true.
  intros (_ & Hc & _). apply Hx. apply (f_equal byte_of_ascii) in Hc.
  by rewrite byte_of_ascii_of_byte in Hc.
Qed.

Lemma receive_responses_credit now rs (a a' : actor) fs fs' acc :
  receive_responses now a fs rs = Returns (a', fs') ->
  GetCreditRecord (creditMg a') (address_Hex acc) = GetCreditRecord (creditMg a) (address_Hex acc).
Proof.
  assert (forall es (a : actor), creditMg (run_callbacks a es) = creditMg a) as Hcb.
  { intros es a1. by destruct (run_callbacks_frame es a1) as [r' ->]. }
  assert (forall (a : actor) fs h p e a' fs', move_to_cache a fs h p = (e, (a', fs')) ->
    creditMg a' = creditMg a) as Hmv.
  { intros a1 fs1 h p e a2 fs2. unfold move_to_cache.
    destruct (MoveFileToCache _ _ _ _) as [[e' es] [c fs3]]. intros [= _ <- _]. by rewrite Hcb. }
  revert a fs. induction rs as [|resp rs IH]; intros a fs; cbn; [by intros [= <- _]|].
  destruct (move_to_cache _ _ _ _) as [[e|] [a1 fs1]] eqn:Em; apply Hmv in Em.
  - intros Hr%IH. by rewrite Hr, Em.
  - case_decide; [intros Hr%IH; by rewrite Hr, Em|].
    intros (mg & Ha & Hr%IH)%outcome_bind_Returns. rewrite Hr. cbn [creditMg set_credit].
    rewrite (AddCreditPoint_other _ _ _ _ _ _ Ha); [by rewrite Em|].
    apply not_eq_sym, Bytes2Hex_not_address.
Qed.

(** The points for fragments received from a cache node are credited under the
    bare hexadecimal digits of its account, while every check reads the record under
    its [0x] form: receiving fragments never changes the record of any account. *)
Theorem received_points_lost (now : time) (a a' : actor) (fs fs' : FS) (rs : list DownloadResponse)
    (r : option string) (acc : address) :
  Receive now a fs (MsgResponses rs) = Returns (r, (a', fs')) ->
  GetCreditRecord (creditMg a') (address_Hex acc) = GetCreditRecord (creditMg a) (address_Hex acc).
Proof.
  cbn. intros (a1 & Hq & Hr)%outcome_bind_Returns.
  apply outcome_bind_Returns in Hr as ([a2 fs2] & Hr & [= <- <- <-]).
  rewrite (receive_responses_credit _ _ _ _ _ _ _ Hr). f_equal.
  unfold queue_Delete in Hq. repeat case_match; simplify_eq; try done;
    by apply outcome_bind_Returns in Hq as (q & _ & [= <-]).
Qed.
End service.
