(* ===== verification/PriceFacts.v ===== *)
(** * The price a node announces

    No operation of the cache actor changes the price of its credit manager: what a node
    announces is what it was started with, so that a client can decode what any node of a
    network answers, whatever it has done before. *)

From S2P Require Import Prelude GoStrings Encoding Json Codec Types Stream GoOs External Credit CreditFacts.
From S2P Require Import CacheActor CacheActorFacts.

Section price.
Context {C R DB W : Type} `{FileCache FS C} {RecDB : LevelDB R} `{LevelDB DB} `{GoTime}
  `{JsonMessages} `{FloatText} `{PkgErrors} `{EthCrypto} `{Order2Credit W} `{CessConfig}
  `{NetUrl} `{OsFaults}.
Abbreviation actor := (CacheActor C R DB).

Definition node_price (a : actor) : string := c_Price (creditMg a).

Lemma Put_price now (c : Credit DB) key r : c_Price (fst (PutCreditRecord now c key r)) = c_Price c.
Proof. apply Put_keeps. Qed.

Lemma AddCreditPoint_price now (c c' : Credit DB) key n : AddCreditPoint now c key n = Returns c' -> c_Price c' = c_Price c.
Proof.
  unfold AddCreditPoint. destruct (GetCreditRecord c key) as [r b].
  intros (r' & _ & [= <-])%outcome_bind_Returns. apply Put_price.
Qed.

Lemma IsLimited_price now (c : Credit DB) key : c_Price (snd (IsLimited now c key)) = c_Price c.
Proof. unfold IsLimited. destruct (GetCreditRecord c key) as [r []]; [done|]. apply Put_price. Qed.

Lemma CheckCredit_price now (w w' : W) (c c' : Credit DB) pk data sign b :
  CheckCredit now w c pk data sign = Returns (b, (c', w')) -> c_Price c' = c_Price c.
Proof.
  unfold CheckCredit. destruct (DecompressPubkey pk) as [k|e]; [|by intros [= _ <- _]].
  destruct (GetCreditRecord _ _) as [r ok]. destruct (negb ok); [intros [= _ <- _]; apply Put_price|].
  destruct (calcLimit c r) as [? ok1]. case_decide; [by intros [= _ <- _]|].
  intros ([[v e] w1] & _ & Hc)%outcome_bind_Returns. cbn in Hc.
  destruct e; [by injection Hc as _ <- _|]. destruct (big_SetString v); [|by injection Hc as _ <- _].
  destruct (big_SetString _); [|by injection Hc as _ <- _].
  apply outcome_bind_Returns in Hc as (r' & _ & Hc). destruct (calcLimit c r') as [? ok2].
  injection Hc as _ <- _. apply Put_price.
Qed.

Lemma check_credit_frame now (w w' : W) (a a' : actor) req b :
  check_credit now w a req = Returns (b, (a', w')) -> node_price a' = node_price a /\ record a' = record a.
Proof.
  unfold check_credit. intros ([b' [c' w1]] & Hc%CheckCredit_price & [= _ <- _])%outcome_bind_Returns. by split.
Qed.

Lemma GetCacheInfo_price now loads (a : actor) acc : node_price (snd (GetCacheInfo now loads a acc)) = node_price a.
Proof.
  unfold GetCacheInfo. destruct loads as [[n1 n2] n3]. pose proof (IsLimited_price now (creditMg a) acc) as Hp.
  by destruct (IsLimited _ _ _) as [[limit ok] mg].
Qed.

Lemma QueryCacheResource_credit (a a' : actor) acc key isUrl files :
  QueryCacheResource a acc key isUrl = Returns (files, a') -> creditMg a' = creditMg a.
Proof.
  unfold QueryCacheResource. set (k := if isUrl then _ else _).
  destruct (GetFileRecord a k _) as [req b].
  destruct (PutFileRecord_frame a k RECORD_REQUESTS (req + 1)) as [r Hp]. apply (f_equal creditMg) in Hp.
  destruct (PutFileRecord _ _ _ _) as [a1 e]. cbn in Hp.
  destruct (GetCreditRecord (creditMg a1) acc) as [citem b'].
  intros (a2 & Hq & Hr)%outcome_bind_Returns.
  assert (creditMg a2 = creditMg a1) as Hrec.
  { destruct (worth_caching _ _ _); [|congruence].
    apply outcome_bind_Returns in Hq as (q & _ & Hq). destruct (q !! k); by injection Hq as <-. }
  assert (a' = a2) as ->; [|by rewrite Hrec].
  destruct isUrl; [congruence|]. destruct (GetFileRecord _ _ _) as [count ?].
  by destruct (count <=? 0); simplify_eq.
Qed.

(** What the query case answers before it looks at the cache's files, or a status it looked
    up there. *)
Lemma query_status_price now (w w' : W) (a a' : actor) acc paths req r :
  query_status now w a acc paths req = Returns (r, (a', w')) -> node_price a' = node_price a.
Proof.
  unfold query_status. intros ([ok [a1 w1]] & [Hp _]%check_credit_frame & Hq)%outcome_bind_Returns.
  rewrite <- Hp. destruct (negb ok); [by injection Hq as _ <- _|].
  assert (Hans : forall key isUrl, ('(fragments, a2) ← QueryCacheResource a1 acc key isUrl;
    if 0 <? len fragments then Returns ((STATUS_HIT, Some fragments), (a2, w1))
    else Returns ((STATUS_MISS, None), (a2, w1))) = Returns (r, (a', w')) -> node_price a' = node_price a1).
  { intros key isUrl ([fs a2] & Hc%QueryCacheResource_credit & Hx)%outcome_bind_Returns. unfold node_price.
    rewrite <- Hc. by destruct (0 <? len fs); injection Hx as _ <- _. }
  case_decide; [by eapply Hans|].
  destruct paths as [|p0 [|p1 ps]]; [by injection Hq as _ <- _..|].
  apply outcome_bind_Returns in Hq as (q & _ & Hq). destruct (q !! _); [by injection Hq as _ <- _|by eapply Hans].
Qed.

Lemma send_cached_price now (w w' : W) fs (a a' : actor) s s' req fname :
  send_cached now w fs a s req fname = Returns ((a', w'), s') -> node_price a' = node_price a.
Proof.
  unfold send_cached. destruct (GetCacheRecord _ _) as [[p|e] c]; [|by intros [= <- _ _]].
  destruct (os_Stat _ _); [|by intros [= <- _ _]]. destruct (os_ReadFile _ _); [|by intros [= <- _ _]].
  destruct (DecompressPubkey _); [|by intros [= <- _ _]].
  by intros (mg & Hm%AddCreditPoint_price & [= <- _ _])%outcome_bind_Returns.
Qed.

Lemma CacheService_price now loads (w w' : W) fs (a a' : actor) s s' :
  CacheService now loads w fs a s = Returns ((a', w'), s') -> node_price a' = node_price a.
Proof.
  unfold CacheService. destruct (ReadData _) as [[data|e]|]; [|by intros [= <- _ _]..].
  destruct (Unmarshal _ _ _) as [req [e|]]; [by intros [= <- _ _]|].
  case_decide.
  { unfold serve_dail. set (acc := address_Hex _). pose proof (GetCacheInfo_price now loads a acc) as Hi.
    destruct (GetCacheInfo _ _ _ _) as [info a1]. by intros [= <- _ _]. }
  case_decide.
  { unfold serve_query. destruct (DecompressPubkey _) as [pk|e]; [|by intros [= <- _ _]].
    set (acc := address_Hex _). pose proof (GetCacheInfo_price now loads a acc) as Hi.
    destruct (GetCacheInfo _ _ _ _) as [info a1]. cbn in Hi. rewrite <- Hi.
    intros ([[st fr] [a2 w2]] & Hq%query_status_price & [= <- _ _])%outcome_bind_Returns. done. }
  case_decide; [|by intros [= <- _ _]].
  unfold serve_download. case_decide; [by apply send_cached_price|].
  destruct (strings_Split _ _) as [|p0 [|p1 [|p2 ps]]]; try by intros [= <- _ _].
  intros ([ok [a1 w1]] & [Hp _]%check_credit_frame & Hr)%outcome_bind_Returns. rewrite <- Hp.
  destruct (negb ok); [by injection Hr as <- _ _|]. by eapply send_cached_price.
Qed.

Lemma run_callbacks_price es (a : actor) : node_price (run_callbacks a es) = node_price a.
Proof. by destruct (run_callbacks_frame es a) as [r ->]. Qed.

Lemma move_to_cache_price (a a' : actor) fs hash p err fs' :
  move_to_cache a fs hash p = (err, (a', fs')) -> node_price a' = node_price a.
Proof.
  unfold move_to_cache. destruct (MoveFileToCache _ _ _ _) as [[e es] [c fs1]].
  intros [= _ <- _]. exact (run_callbacks_price es (set_cache c a)).
Qed.

Lemma receive_responses_price now (a a' : actor) fs rs fs' :
  receive_responses now a fs rs = Returns (a', fs') -> node_price a' = node_price a.
Proof.
  revert a fs. induction rs as [|resp rs IH]; intros a fs; cbn; [by intros [= <- _]|].
  destruct (move_to_cache _ _ _ _) as [[e|] [a1 fs1]] eqn:Em; apply move_to_cache_price in Em; rewrite <- Em.
  - apply IH.
  - case_decide; [apply IH|].
    intros (mg & Hm%AddCreditPoint_price & Hr%IH)%outcome_bind_Returns. by rewrite Hr.
Qed.

Lemma queue_Delete_price k (a a' : actor) : queue_Delete k a = Returns a' -> node_price a' = node_price a.
Proof. unfold queue_Delete. by intros (q & _ & [= <-])%outcome_bind_Returns. Qed.
Lemma queue_Store_price k t (a a' : actor) : queue_Store k t a = Returns a' -> node_price a' = node_price a.
Proof. unfold queue_Store. by intros (q & _ & [= <-])%outcome_bind_Returns. Qed.

Lemma Receive_price now (a a' : actor) fs m r fs' :
  Receive now a fs m = Returns (r, (a', fs')) -> node_price a' = node_price a.
Proof.
  destruct m as [req|resp|resps]; cbn.
  - destruct (GetCacheRecord _ _) as [[p|e] c]; [destruct (os_Stat _ _)|]; by intros [= _ <- _].
  - destruct (move_to_cache _ _ _ _) as [[e|] [a1 fs1]] eqn:Em; apply move_to_cache_price in Em; rewrite <- Em.
    + by intros [= _ <- _].
    + by intros (a2 & Hq%queue_Delete_price & [= _ <- _])%outcome_bind_Returns.
  - intros (a1 & Hq & ([a2 fs2] & Hr%receive_responses_price & [= _ <- _])%outcome_bind_Returns)%outcome_bind_Returns.
    rewrite Hr. repeat case_match; simplify_eq; try done; by apply queue_Delete_price in Hq.
Qed.

Lemma RestoreCacheFiles_price (a a' : actor) entries e :
  RestoreCacheFiles a entries = (a', e) -> node_price a' = node_price a.
Proof.
  revert a. induction entries as [|[p [info|err]] entries IH]; intros a; cbn; [by intros [= <- _]| |by intros [= <- _]].
  intros Hr%IH. rewrite Hr. unfold restore_entry.
  repeat case_match; done || apply (run_callbacks_price _ (set_cache _ a)).
Qed.

Lemma serve_task_price key task (a a' : actor) r :
  serve_task key task a = Returns (r, a') -> node_price a' = node_price a.
Proof.
  unfold serve_task. case_decide.
  - case_decide; [by intros [= _ <-]|]. destruct (GetFileRecord _ _ _) as [count ok]. destruct (ok && _).
    + by intros (a1 & Hq%queue_Delete_price & [= _ <-])%outcome_bind_Returns.
    + by intros (a1 & Hq%queue_Store_price & [= _ <-])%outcome_bind_Returns.
  - destruct (GetCacheRecord _ _) as [item c].
    intros (a1 & Hd & (a2 & Hs%queue_Store_price & [= _ <-])%outcome_bind_Returns)%outcome_bind_Returns.
    rewrite Hs. destruct item as [p|e]; [case_decide|]; by (simplify_eq || apply queue_Delete_price in Hd).
Qed.

Lemma range_tasks_price keys (a a' : actor) rs : range_tasks keys a = Returns (rs, a') -> node_price a' = node_price a.
Proof.
  revert a rs. induction keys as [|k keys IH]; intros a rs; cbn; [by intros [= _ <-]|].
  intros (q & _ & Hr)%outcome_bind_Returns. destruct (q !! k); [|by eapply IH].
  apply outcome_bind_Returns in Hr as ([r a1] & Ht%serve_task_price & Hr).
  apply outcome_bind_Returns in Hr as ([rs' a2] & Hr & [= _ ->]). apply IH in Hr. by rewrite Hr.
Qed.

Lemma actor_step_price (a a' : actor) : actor_step (W := W) a a' -> node_price a' = node_price a.
Proof.
  intros [? ? ? ? ? ? Hs|? ? ? ? ? ? ? ? Hs|? ? ? Hs|? ? ? Hs|? Hs| |c es].
  - by eapply Receive_price.
  - by eapply CacheService_price.
  - by eapply RestoreCacheFiles_price.
  - by eapply range_tasks_price.
  - unfold start_download_server in Hs. destruct (dlQueue a); [done|]. by injection Hs as <-.
  - done.
  - exact (run_callbacks_price es (set_cache c a)).
Qed.
End price.
