(* ===== verification/CacheSamples.v ===== *)
(** * Sample runs of the cache node

    A file cache kept as a list, in which the theorems on the cache actor and its
    stream service are applied to concrete states. *)

From S2P Require Import Prelude GoStrings Encoding Json JsonFacts Codec Types Stream GoOs External Credit.
From S2P Require Import CreditFacts CacheActor CacheActorFacts CacheServiceFacts.
From Stdlib Require Import SpecFloat.

(** Keys and paths; nothing is ever evicted. *)
Abbreviation list_cache := (list (string * string)).

Definition find_path (c : list_cache) (k : string) : option string :=
  snd <$> List.find (fun e => bool_decide (fst e = k)) c.

#[local] Instance sample_cache : FileCache FS list_cache := {
  GetCacheRecord c k := (match find_path c k with Some p => inl p | None => inr "not found" end, c);
  cache_GetItem c k := match find_path c k with Some _ => true | None => false end;
  cache_keys c := map fst c;
  GetLoadRatio _ := S754_zero false;
  AddCacheRecord c k p := ([ItemAdded k], (k, p) :: c);
  MoveFileToCache c fs k p :=
    match files fs !! p with
    | None => ((Some "no such file", []), (c, fs))
    | Some _ => ((None, [ItemAdded k]), ((k, p) :: c, fs))
    end;
}.

#[local] Program Instance sample_url : NetUrl := {
  ParseRequestURI_ok s := has_char ":"%char s || strings_HasPrefix s "/";
}.
Next Obligation. intros s Hc Hp. cbn. by rewrite Hc, Hp. Qed.

#[local] Existing Instance sample_crypto.
#[local] Existing Instance sample_config.
#[local] Existing Instance sample_time.
#[local] Existing Instance sample_messages.
#[local] Existing Instance sample_float_text.
#[local] Existing Instance sample_orders.

Abbreviation sample_actor := (CacheActor list_cache (gmap string bytes) (gmap string bytes)).

Definition sample_node : sample_actor := mkCacheActor [] ∅ (Some ∅) sample_credit 0 None.

Definition sample_request (option url file : string) (key : bytes) : CacheRequest :=
  mkCacheRequest option url file (Some key) None None.

(** A client's compressed key (in the sample curve). *)
Definition client_key : bytes := (to_bytes "0x" ++ replicate 31 x61)%list.

(** Times of the sample clock. *)
Definition clock (z : Z) : @time sample_time := z.

Definition sample_pk : @pubkey sample_crypto := client_key.

Ltac sample_sendable :=
  split; [split; by apply ascii_text|vm_compute; discriminate].

(** The fragment [fid/sid/frag] in the cache, with its contents on disk. *)
Definition cached_node : sample_actor :=
  mkCacheActor [("fid/sid/frag", "/cache/frag")] ∅ (Some ∅) sample_credit 0 None.
Definition cached_fs : FS := mkFS {[ "/cache/frag" := to_bytes "contents" ]} ∅.

Lemma FileRecord_round_trip_witness :
  (None (A := string) = None -> GetFileRecord (fst (PutFileRecord sample_node "k" RECORD_REQUESTS (2 ^ 32 + 5)))
     "k" RECORD_REQUESTS = ((2 ^ 32 + 5) mod 2 ^ 32, true))
  /\ (RECORD_REQUESTS ≠ RECORD_FRAGMENTS -> RECORD_REQUESTS ≠ RECORD_REQUESTS ->
      is_Some (None (A := string)) /\ fst (PutFileRecord sample_node "k" RECORD_REQUESTS (2 ^ 32 + 5)) = sample_node).
Proof.
  apply (FileRecord_round_trip sample_node (fst (PutFileRecord sample_node "k" RECORD_REQUESTS (2 ^ 32 + 5)))
    "k" RECORD_REQUESTS (2 ^ 32 + 5) None). reflexivity.
Defined.

(** The node after it received a fragment from the storage network. *)
Definition received_node : sample_actor :=
  match Receive (clock 5) sample_node cached_fs (MsgResponses
    [mkDownloadResponse "/cache/frag" "fid/sid/frag" (to_bytes ORIGIN_SITE_TAG)]) with
  | Returns (_, (a, _)) => a
  | Panics _ => sample_node
  end.

Lemma received_reachable : rtc (actor_step (W := unit)) sample_node received_node.
Proof.
  apply rtc_once.
  apply (step_Receive sample_node (clock 5) cached_fs (MsgResponses
    [mkDownloadResponse "/cache/frag" "fid/sid/frag" (to_bytes ORIGIN_SITE_TAG)]) None received_node cached_fs).
  reflexivity.
Qed.

Definition query_result : (string * slice string) * (sample_actor * unit) :=
  match query_status (clock 6) tt received_node "0xa" ["fid"; "sid"] (sample_request OPTION_QUERY "" "fid/sid" client_key) with
  | Returns r => r
  | Panics _ => ((STATUS_HIT, None), (received_node, tt))
  end.

Lemma segments_never_hit_witness : fst (fst query_result) ≠ STATUS_HIT /\ snd (fst query_result) = None.
Proof.
  apply (segments_never_hit (W := unit) sample_node received_node (fst (snd query_result)) (clock 6) tt tt "0xa"
    "fid" "sid" [] (sample_request OPTION_QUERY "" "fid/sid" client_key)
    (fst (fst query_result)) (snd (fst query_result)));
    [by exists ErrNotFound|exact received_reachable|by vm_compute|by vm_compute|reflexivity|reflexivity].
Defined.

Lemma callbacks_count_witness :
  counts (run_callbacks sample_node [ItemAdded "fid/sid/a"; ItemAdded "fid/sid/b"; ItemAdded "f2/s2/c";
            ItemDeleted "fid/sid/a"]) (segment_dir "fid" "sid") 1.
Proof.
  apply (callbacks_count (fun d k v => map_db_puts d k v) "fid" "sid"
    [ItemAdded "fid/sid/a"; ItemAdded "fid/sid/b"; ItemAdded "f2/s2/c"; ItemDeleted "fid/sid/a"] sample_node 0).
  - by repeat constructor.
  - split; [done|]. by right.
Defined.

Definition download_request : CacheRequest := sample_request OPTION_DOWNLOAD "" "fid/sid/frag" client_key.

Lemma download_serves_fragment_witness :
  exists mg, CacheService (clock 9) (0, 0, 0) tt cached_fs cached_node (client_stream (request_text download_request))
      = Returns ((set_credit mg cached_node, tt),
                 mkStream (one_piece (request_text download_request)) (to_bytes "contents") false None)
    /\ SentResource (fst (GetCreditRecord mg (address_Hex (PubkeyToAddress sample_pk)))) = 8.
Proof.
  edestruct (download_serves_fragment (clock 9) (0, 0, 0) tt cached_fs cached_node download_request sample_pk
    "fid" "sid" "frag" "/cache/frag" (fileCache cached_node) (to_bytes "contents") 3)
    as (mg & Hs & Hg & Ho); cycle -1.
  - exists mg. split; [exact Hs|]. rewrite Hg. cbn [fst SentResource]. by vm_compute.
  - sample_sendable.
  - done.
  - done.
  - by vm_compute.
  - by vm_compute.
  - by vm_compute.
  - by vm_compute.
  - by vm_compute.
  - exact sample_store_ok.
  - exact map_db_puts.
  - by vm_compute.
  - by split_and!; vm_compute.
  - by vm_compute.
Defined.

Definition url_request : CacheRequest := sample_request OPTION_DOWNLOAD "http://site/page" "" [].
Definition url_node : sample_actor :=
  mkCacheActor [(GetSha256Hash (to_bytes "page"), "/cache/frag")] ∅ (Some ∅) sample_credit 0 None.

Lemma url_download_unpaid_witness :
  CacheService (clock 9) (0, 0, 0) tt cached_fs url_node (client_stream (request_text url_request))
    = Returns ((url_node, tt),
        mkStream (one_piece (request_text url_request))
          (to_bytes "contents" ++ print (JObj [("status", JStr STATUS_ERROR); ("data", JStr "invalid public key")]))%list
          false None).
Proof.
  apply (url_download_unpaid (clock 9) (0, 0, 0) tt cached_fs url_node url_request "/cache/frag" "invalid public key"
    (fileCache url_node) (to_bytes "contents"));
    [sample_sendable|done|done|done|reflexivity|by split_and!].
Defined.

Definition segment_query : CacheRequest := sample_request OPTION_QUERY "" "fid/sid" client_key.

Lemma query_before_server_panics_witness :
  CacheService (clock 9) (0, 0, 0) tt cached_fs (stop_download_server cached_node)
    (client_stream (request_text segment_query)) = Panics NilDereference.
Proof.
  apply (query_before_server_panics (clock 9) (0, 0, 0) tt cached_fs (stop_download_server cached_node) segment_query
    sample_pk "fid" "sid"); [sample_sendable|done|done|by vm_compute|by vm_compute|reflexivity|reflexivity|exact sample_store_ok|done].
Defined.

Lemma CacheService_errors_witness :
  CacheService (clock 9) (0, 0, 0) tt cached_fs cached_node (client_stream (replicate 1024 x20))
    = Returns (cached_node, tt, client_stream (replicate 1024 x20))
  /\ CacheService (clock 9) (0, 0, 0) tt cached_fs cached_node (half_closed_stream (replicate 1024 x20))
    = Returns (cached_node, tt, mkStream (buffer_reader (replicate 1024 x20)) (error_text EOF) false None).
Proof.
  apply (proj1 (CacheService_errors (clock 9) (0, 0, 0) tt cached_fs cached_node (replicate 1024 x20) segment_query "")).
  reflexivity.
Defined.

Lemma GetCacheInfo_idle_witness :
  info_Status (fst (GetCacheInfo (clock 9) (5000, 5000, 4999) cached_node "0xa")) = CACHE_IDLE.
Proof. apply (GetCacheInfo_idle (clock 9) 5000 5000 4999 cached_node "0xa"); by vm_compute || (split; by vm_compute). Defined.

Definition two_tasks : gmap string DownloadTask :=
  {[ "fid/sid" := mkDownloadTask "fid/sid" true NODE_RESOURCE_CACHE;
     "page" := mkDownloadTask "http://site/page" false SITE_RESOURCE_CACHE ]}.

Lemma tasks_requested_again_witness :
  exists rs a', range_tasks ["fid/sid"; "page"] (set_queue (Some two_tasks) url_node)
      = Returns (rs, a') /\ length rs = 2%nat
    /\ exists q', dlQueue a' = Some q'
       /\ forall k, q' !! k = (if decide (k ∈ ["fid/sid"; "page"]) then sent_task else id)
                               <$> two_tasks !! k.
Proof.
  apply (tasks_requested_again ["fid/sid"; "page"]
    (set_queue (Some two_tasks) url_node) two_tasks); [reflexivity|by apply (bool_decide_unpack _); vm_compute| |].
  - intros k Hk. apply elem_of_cons in Hk as [->|Hk]; [by eexists|].
    apply list_elem_of_singleton in Hk as ->. by eexists.
  - intros k t Ht. unfold two_tasks in Ht.
    apply lookup_insert_Some in Ht as [[<- <-]|[_ Ht]]; [by split|].
    apply lookup_singleton_Some in Ht as [_ <-]. by intros ?.
Defined.

Lemma restore_reverses_key_witness :
  RestoreCacheFiles sample_node [("/srv/cache/fid/sid/frag", inl (mkFileInfo sdk_FragmentSize false))]
    = (let '(es, c) := AddCacheRecord (fileCache sample_node) (filepath_Join ["frag"; "sid"; "fid"]) "/srv/cache/fid/sid/frag" in
       run_callbacks (set_cache c sample_node) es, None).
Proof.
  apply (restore_reverses_key sample_node "/srv/cache/fid/sid/frag" "fid" "sid" "frag" [""; "srv"; "cache"]); done.
Defined.

(** A fragment that came from the cache node with account [0x0a0b]. *)
Definition from_neighbor : message :=
  MsgResponses [mkDownloadResponse "/cache/frag" "fid/sid/frag" [x0a; x0b]].

Definition neighbor_node : sample_actor :=
  match Receive (clock 5) sample_node cached_fs from_neighbor with
  | Returns (_, (a, _)) => a
  | Panics _ => sample_node
  end.

Lemma received_points_lost_witness :
  ReceivedResource (fst (GetCreditRecord (creditMg neighbor_node) "0a0b")) = FragmentSize
  /\ GetCreditRecord (creditMg neighbor_node) (address_Hex (HexToAddress "0x0a0b"))
     = GetCreditRecord (creditMg sample_node) (address_Hex (HexToAddress "0x0a0b")).
Proof.
  split; [by vm_compute|].
  apply (received_points_lost (clock 5) sample_node neighbor_node cached_fs cached_fs
    [mkDownloadResponse "/cache/frag" "fid/sid/frag" [x0a; x0b]] None (HexToAddress "0x0a0b")).
  reflexivity.
Defined.
