(* ===== verification/Storage.v ===== *)
(** * Fetching from the storage network: cd2n-lib/lib.go, lines 108-313

    Fragments are read from the storage miners the chain names, segments restored from
    them by erasure code, and the file recovered from its segments. *)

From S2P Require Import Prelude GoStrings GoOs External.

(** ** cess-go-sdk: the chain's metadata and the storage client *)

Record FragmentInfo := mkFragmentInfo { frag_Hash : string; Miner : bytes }.
Record SegmentInfo := mkSegmentInfo { seg_Hash : string; FragmentList : list FragmentInfo }.
Record FileMetadata := mkFileMetadata { SegmentList : list SegmentInfo; FileSize : Z }.

(** [N] is the state of the network. *)
Class StorageNet (N : Type) := {
  QueryFile : N -> string -> FileMetadata + string;
  QueryMinerItems : N -> bytes -> string + string;    (** the miner's peer id *)
  ReadDataAction : N -> FS -> string -> string -> string -> error * (N * FS);
  RSRestore : FS -> string -> list string -> error * FS;
  AesCbcDecrypt : bytes -> bytes -> bytes + string;
  (** bytes of a freshly read slice's capacity beyond its length *)
  spare_capacity : bytes -> nat;
}.

(** [buf[:n]]: up to the capacity, which reads zeros beyond the length. *)
Definition slice_to (spare : nat) (b : bytes) (n : Z) : outcome bytes :=
  if (0 <=? n) && (n <=? len b + Z.of_nat spare)
  then Returns (take (Z.to_nat n) (b ++ replicate spare x00)%list)
  else Panics SliceOutOfRange.

Section storage.
Context {NET : Type} `{StorageNet NET} `{CessConfig} `{OsFaults} `{PkgErrors}.
Abbreviation world := (NET * FS)%type.

(** The fragments of a matching segment: the first one named is fetched, with the
    hash of the {e segment}. *)
Fixpoint fetch_fragment (w : world) (fpath segmentHash fragmentHash : string)
    (frags : list FragmentInfo) : error * world :=
  match frags with
  | [] => (None, w)
  | f :: frags =>
      if decide (frag_Hash f ≠ fragmentHash) then fetch_fragment w fpath segmentHash fragmentHash frags
      else
        match QueryMinerItems (fst w) (Miner f) with
        | inr e => (Some e, w)
        | inl peer => ReadDataAction (fst w) (snd w) peer segmentHash fpath
        end
  end.

Fixpoint fetch_in_segments (w : world) (fpath segmentHash fragmentHash : string)
    (segs : list SegmentInfo) : error * world :=
  match segs with
  | [] => (None, w)
  | s :: segs =>
      if decide (seg_Hash s ≠ segmentHash) then fetch_in_segments w fpath segmentHash fragmentHash segs
      else
        match fetch_fragment w fpath segmentHash fragmentHash (FragmentList s) with
        | (Some e, w) => (Some e, w)
        | (None, w) => fetch_in_segments w fpath segmentHash fragmentHash segs
        end
  end.

Definition DownloadFragmentFromStorage (w : world) (fpath fileHash segmentHash fragmentHash : string)
    : error * world :=
  let msg := "download fragment from storage error" in
  match QueryFile (fst w) fileHash with
  | inr e => (Wrap (Some e) msg, w)
  | inl fmeta =>
      let '(err, w) := fetch_in_segments w fpath segmentHash fragmentHash (SegmentList fmeta) in
      (Wrap err msg, w)
  end.

(** Fetches fragments in order until enough were; failures are skipped. *)
Fixpoint gather (w : world) (fdir : string) (count : Z) (paths : list string)
    (frags : list FragmentInfo) : (Z * list string) * world :=
  match frags with
  | [] => ((count, paths), w)
  | f :: frags =>
      if DataShards <=? count then ((count, paths), w)
      else
        match QueryMinerItems (fst w) (Miner f) with
        | inr _ => gather w fdir count paths frags
        | inl peer =>
            let fragmentPath := filepath_Join [fdir; frag_Hash f] in
            match ReadDataAction (fst w) (snd w) peer (frag_Hash f) fragmentPath with
            | (Some _, w) => gather w fdir count paths frags
            | (None, w) => gather w fdir (count + 1) (paths ++ [fragmentPath])%list frags
            end
        end
  end.

Fixpoint gather_segments (w : world) (fdir segmentHash : string) (count : Z) (paths : list string)
    (segs : list SegmentInfo) : (Z * list string) * world :=
  match segs with
  | [] => ((count, paths), w)
  | s :: segs =>
      if decide (seg_Hash s ≠ segmentHash) then gather_segments w fdir segmentHash count paths segs
      else
        let '((count, paths), w) := gather w fdir count paths (FragmentList s) in
        gather_segments w fdir segmentHash count paths segs
  end.

Definition DownloadSegmentFromStorage (w : world) (fdir fileHash segmentHash : string)
    : (string * error) * world :=
  let segmentPath := filepath_Join [fdir; segmentHash] in
  match QueryFile (fst w) fileHash with
  | inr e => ((segmentPath, Wrap (Some e) "download fragment from storage error"), w)
  | inl fmeta =>
      let msg := "download segment from storage error" in
      let '((count, paths), w) := gather_segments w fdir segmentHash 0 [] (SegmentList fmeta) in
      if count <? DataShards then
        ((segmentPath, Wrap (errors_New "not enough fragments were downloaded") msg), w)
      else
        match RSRestore (snd w) segmentPath paths with
        | (Some e, fs) => ((segmentPath, Wrap (Some e) msg), (fst w, fs))
        | (None, fs) => ((segmentPath, None), (fst w, remove_all fs paths))
        end
  end.

(** ** Recovery *)

(** The first of the paths whose last element is the segment's hash. *)
Definition path_of_segment (segmentspath : list string) (s : SegmentInfo) : option string :=
  List.find (fun p => bool_decide (filepath_Base p = seg_Hash s)) segmentspath.

(** The number of bytes kept of the last segment, in [uint64]. *)
Definition last_bytes (size : Z) (cipher : string) (writecount : Z) : Z :=
  u64 (size - u64 (writecount * (if decide (cipher ≠ "") then SegmentSize - 16 else SegmentSize))).

(** [write] is the writer's [Write], on what it holds; its errors are ignored by the code. *)
Fixpoint recover_loop (write : bytes -> bytes -> bytes * error) (fs : FS) (segmentspath : list string)
    (size total : Z) (cipher : string) (segs : list SegmentInfo) (writecount : Z) (out : bytes) : outcome ((Z * error) * bytes) :=
  match segs with
  | [] => Returns ((writecount, None), out)
  | s :: segs =>
      match path_of_segment segmentspath s with
      | None => recover_loop write fs segmentspath size total cipher segs writecount out
      | Some p =>
          match os_ReadFile fs p with
          | inr e => Returns ((writecount, Some e), out)
          | inl buf =>
              match (if decide (cipher ≠ "") then AesCbcDecrypt buf (to_bytes cipher) else inl buf) with
              | inr e => Returns ((writecount, Some e), out)
              | inl buf =>
                  chunk ← (if total <=? writecount + 1
                           then slice_to (spare_capacity buf) buf (last_bytes size cipher writecount)
                           else Returns buf);
                  recover_loop write fs segmentspath size total cipher segs (writecount + 1) (fst (write out chunk))
              end
          end
      end
  end.

Definition RecoveryFileViaSegments (write : bytes -> bytes -> bytes * error) (fs : FS) (segmentspath : list string) (fmeta : FileMetadata)
    (cipher : string) : outcome (error * bytes) :=
  let msg := "file recovery via segments failed" in
  '((writecount, err), out) ← recover_loop write fs segmentspath (big_Uint64 (FileSize fmeta))
    (len (SegmentList fmeta)) cipher (SegmentList fmeta) 0 [];
  match err with
  | Some e => Returns (Wrap (Some e) msg, out)
  | None =>
      if decide (writecount ≠ len (SegmentList fmeta)) then
        Returns (Wrap (errors_New "the number of processed segments is inconsistent") msg, out)
      else Returns (None, out)
  end.

(** ** Whole files *)

Inductive segment_result := SegDone (path : option string) | SegFailed (e : error).

(** One segment: a miner query that fails is fatal here, and so is the restoration. *)
Fixpoint fetch_segment (w : world) (fdir : string) (shash : string) (paths : list string)
    (frags : list FragmentInfo) : segment_result * world :=
  match frags with
  | [] => (SegDone None, w)
  | f :: frags =>
      match QueryMinerItems (fst w) (Miner f) with
      | inr e => (SegFailed (Wrap (Some e) "download file from storage error"), w)
      | inl peer =>
          let fragmentpath := filepath_Join [fdir; frag_Hash f] in
          match ReadDataAction (fst w) (snd w) peer (frag_Hash f) fragmentpath with
          | (Some _, w) => fetch_segment w fdir shash paths frags
          | (None, w) =>
              let paths := (paths ++ [fragmentpath])%list in
              let segmentpath := filepath_Join [fdir; shash] in
              if DataShards <=? len paths then
                match RSRestore (snd w) segmentpath paths with
                | (Some e, fs) => (SegFailed (Some e), (fst w, fs))
                | (None, fs) => (SegDone (Some segmentpath), (fst w, fs))
                end
              else fetch_segment w fdir shash paths frags
          end
      end
  end.

Fixpoint fetch_segments (w : world) (fdir : string) (segs : list SegmentInfo) (paths : list string)
    : (error + list string) * world :=
  match segs with
  | [] => (inr paths, w)
  | s :: segs =>
      match fetch_segment w fdir (seg_Hash s) [] (FragmentList s) with
      | (SegFailed e, w) => (inl e, w)
      | (SegDone None, w) => fetch_segments w fdir segs paths
      | (SegDone (Some p), w) => fetch_segments w fdir segs (paths ++ [p])%list
      end
  end.

(** The paths the deferred function removes. *)
Definition cleanup_paths (basedir : string) (fmeta : FileMetadata) : list string :=
  s ← SegmentList fmeta;
  filepath_Join [basedir; seg_Hash s]
    :: map (fun f => filepath_Join [basedir; frag_Hash f]) (FragmentList s).

Definition DownloadFileFromStorage (w : world) (fdir fileHash cipher : string)
    : outcome ((string * error) * world) :=
  let msg := "download file from storage error" in
  match os_Stat (snd w) fdir with
  | inr e => Returns (("", Wrap (Some e) msg), w)
  | inl _ =>
      let userfile := filepath_Join [fdir; fileHash] in
      match os_Create (snd w) userfile with
      | (fs, Some e) => Returns (("", Wrap (Some e) msg), (fst w, fs))
      | (fs, None) =>
          let w := (fst w, fs) in
          match QueryFile (fst w) fileHash with
          | inr e => Returns (("", Wrap (Some e) msg), w)
          | inl fmeta =>
              let clean w := (fst w, remove_all (snd w) (cleanup_paths fdir fmeta)) in
              match fetch_segments w fdir (SegmentList fmeta) [] with
              | (inl e, w) => Returns (("", e), clean w)
              | (inr segmentspath, w) =>
                  if decide (len segmentspath ≠ len (SegmentList fmeta)) then
                    Returns (("", Wrap (errors_New "the number of downloaded segments is inconsistent") msg), clean w)
                  else
                    '(err, out) ← RecoveryFileViaSegments (file_write userfile) (snd w) segmentspath fmeta cipher;
                    let w := (fst w, set_files (<[userfile := out]> (files (snd w))) (snd w)) in
                    match err with
                    | Some e => Returns (("", Wrap (Some e) msg), clean w)
                    | None => Returns ((userfile, None), clean w)
                    end
              end
          end
      end
  end.
End storage.
