(* ===== verification/StorageFacts.v ===== *)
(** * Properties of the storage downloads

    What is asked of the network, when a file is recovered and what is left behind. *)

From S2P Require Import Prelude GoStrings GoOs External Storage.

Section requests.
Context {NET : Type} `{StorageNet NET} `{CessConfig} `{OsFaults} `{PkgErrors}.
Abbreviation world := (NET * FS)%type.

Lemma fetch_fragment_first (w : world) fpath sid before f after :
  Forall (fun g => frag_Hash g ≠ frag_Hash f) before ->
  fetch_fragment w fpath sid (frag_Hash f) (before ++ f :: after) =
    match QueryMinerItems (fst w) (Miner f) with
    | inr e => (Some e, w)
    | inl peer => ReadDataAction (fst w) (snd w) peer sid fpath
    end.
Proof.
  induction 1 as [|g before Hg _ IH]; cbn [app fetch_fragment].
  - by rewrite decide_False by tauto.
  - by rewrite decide_True.
Qed.

Lemma fetch_in_segments_none (w : world) fpath sid fid segs :
  Forall (fun s => seg_Hash s = sid -> Forall (fun f => frag_Hash f ≠ fid) (FragmentList s)) segs ->
  fetch_in_segments w fpath sid fid segs = (None, w).
Proof.
  induction 1 as [|s segs Hs _ IH]; cbn [fetch_in_segments]; [done|].
  case_decide as Hd; [exact IH|].
  assert (Forall (fun f => frag_Hash f ≠ fid) (FragmentList s)) as Hf
    by (apply Hs; by destruct (decide (seg_Hash s = sid))).
  assert (fetch_fragment w fpath sid fid (FragmentList s) = (None, w)) as ->; [|exact IH].
  clear -Hf. induction Hf as [|f l Hf _ IH]; cbn; [done|]. by rewrite decide_True.
Qed.

(** [DownloadFragmentFromStorage] asks the miner of the fragment for the hash of
    the {e segment}: the fragment's own hash is never requested.  A fragment the file
    does not have is reported as downloaded, and nothing is fetched. *)
Theorem DownloadFragment_asks_segment (w : world) (fpath fileHash sid : string)
    (before after : list SegmentInfo) (s : SegmentInfo) (f : FragmentInfo)
    (fbefore fafter : list FragmentInfo) (size : Z) (peer : string) :
  QueryFile (fst w) fileHash = inl (mkFileMetadata (before ++ s :: after) size) ->
  Forall (fun s' => seg_Hash s' ≠ sid) (before ++ after) -> seg_Hash s = sid ->
  FragmentList s = (fbefore ++ f :: fafter)%list ->
  Forall (fun g => frag_Hash g ≠ frag_Hash f) fbefore ->
  QueryMinerItems (fst w) (Miner f) = inl peer ->
  DownloadFragmentFromStorage w fpath fileHash sid (frag_Hash f)
    = (let '(err, w') := ReadDataAction (fst w) (snd w) peer sid fpath in
       (Wrap err "download fragment from storage error", w'))
  /\ forall fid, Forall (fun g => frag_Hash g ≠ fid) (FragmentList s) ->
       DownloadFragmentFromStorage w fpath fileHash sid fid = (None, w).
Proof.
  intros Hq Hother Hs Hfl Hf Hm. apply Forall_app in Hother as [Hb Ha].
  assert (forall w fid, fetch_in_segments w fpath sid fid after = (None, w)) as Hafter.
  { intros. apply fetch_in_segments_none. eapply Forall_impl; [exact Ha|]. cbn. intros s' ? ?. done. }
  assert (forall fid, fetch_in_segments w fpath sid fid (before ++ s :: after) =
    match fetch_fragment w fpath sid fid (FragmentList s) with
    | (Some e, w) => (Some e, w) | (None, w) => (None, w) end) as Hfetch.
  { clear -Hb Hs Hafter. intros fid. induction Hb as [|s' b Hs' _ IH]; cbn [app fetch_in_segments].
    - rewrite decide_False by tauto. by destruct (fetch_fragment _ _ _ _ _) as [[e|] w1].
    - by rewrite decide_True. }
  unfold DownloadFragmentFromStorage. rewrite Hq. cbn [SegmentList]. split.
  - rewrite Hfetch, Hfl, fetch_fragment_first, Hm by done.
    by destruct (ReadDataAction _ _ _ _ _) as [[e|] w1].
  - intros fid Hn. rewrite Hfetch.
    assert (fetch_fragment w fpath sid fid (FragmentList s) = (None, w)) as ->; [|by rewrite Wrap_nil].
    clear -Hn. induction Hn as [|g l Hg _ IH]; cbn; [done|]. by rewrite decide_True.
Qed.
End requests.

(** ** Recovering a file *)

Section recovery.
Context {NET : Type} `{StorageNet NET} `{CessConfig} `{OsFaults} `{PkgErrors}.
Context (fdir : string) (seg_content : string -> bytes).
Hypothesis fdir_ne : fdir ≠ "".

Definition seg_path (s : SegmentInfo) : string := filepath_Join [fdir; seg_Hash s].

Lemma path_of_segment_ok (segs : list SegmentInfo) s :
  Forall (fun s => plain_name (seg_Hash s)) segs -> s ∈ segs ->
  path_of_segment (map seg_path segs) s = Some (seg_path s).
Proof.
  intros Hp Hin. unfold path_of_segment.
  destruct (List.find _ _) as [p|] eqn:E.
  - apply find_some in E as [Hl Hb]. apply bool_decide_eq_true in Hb.
    apply in_map_iff in Hl as (s' & <- & Hs'). apply list_elem_of_In in Hs'.
    rewrite Forall_forall in Hp. unfold seg_path in *.
    rewrite filepath_Base_Join2 in Hb by (done || by apply Hp). by rewrite Hb.
  - exfalso. eapply find_none in E; [|apply in_map, list_elem_of_In, Hin].
    rewrite Forall_forall in Hp. unfold seg_path in E.
    rewrite filepath_Base_Join2 in E by (done || by apply Hp). by rewrite bool_decide_true in E.
Qed.

(** A writer that never fails. *)
Definition writes_all (write : bytes -> bytes -> bytes * error) : Prop :=
  forall w b, write w b = ((w ++ b)%list, None).

Lemma file_write_all p : (forall w, write_fault p w = None) -> writes_all (file_write p).
Proof. intros Hp w b. unfold file_write. by rewrite Hp. Qed.

(** Every segment but the last is written whole, the last one up to the file's size. *)
Lemma recover_loop_ok write (Hwrite : writes_all write) (all segs : list SegmentInfo) fs size k out :
  Forall (fun s => plain_name (seg_Hash s)) all -> (forall s, s ∈ segs -> s ∈ all) ->
  (forall s, s ∈ segs -> os_fault OpRead (seg_path s) = None
     /\ files fs !! seg_path s = Some (seg_content (seg_Hash s))
     /\ len (seg_content (seg_Hash s)) = SegmentSize) ->
  segs ≠ [] -> 0 <= k ->
  (k + len segs - 1) * SegmentSize < size <= (k + len segs) * SegmentSize -> size < 2 ^ 64 ->
  recover_loop write fs (map seg_path all) size (k + len segs) "" segs k out
    = Returns ((k + len segs, None),
        out ++ take (Z.to_nat (size - k * SegmentSize)) (concat (map (fun s => seg_content (seg_Hash s)) segs)))%list.
Proof.
  intros Hp. pose proof cess_config_positive as (_ & _ & _ & HS).
  revert k out. induction segs as [|s segs IH]; intros k out Hin Hfs Hne Hk Hsize Hlt; [done|].
  cbn [recover_loop]. rewrite path_of_segment_ok by (done || (apply Hin; by left)).
  destruct (Hfs s) as (Hr & Hf & Hl); [by left|].
  unfold os_ReadFile. rewrite Hr, Hf. rewrite decide_False by tauto.
  rewrite len_cons in *. pose proof (len_nonneg segs).
  destruct segs as [|s' segs].
  - rewrite len_nil in *. rewrite (proj2 (Z.leb_le _ _)) by lia.
    unfold last_bytes. rewrite decide_False by tauto.
    rewrite (u64_id (k * SegmentSize)) by (unfold is_u64; nia).
    rewrite u64_id by (unfold is_u64; nia).
    unfold slice_to. rewrite (proj2 (Z.leb_le _ _)), (proj2 (Z.leb_le _ _)) by nia. cbn [andb].
    cbn [mbind outcome_bind recover_loop map concat]. rewrite app_nil_r.
    rewrite take_app_le by (unfold len in Hl; lia).
    rewrite Hwrite. by do 3 f_equal.
  - rewrite (proj2 (Z.leb_gt _ _)) by (rewrite len_cons in *; pose proof (len_nonneg segs); lia).
    cbn [mbind outcome_bind]. rewrite Hwrite. cbn [fst].
    replace (k + (1 + len (s' :: segs))) with (k + 1 + len (s' :: segs)) by lia.
    rewrite IH; [|by intros s1 Hs1; apply Hin; right|by intros s1 Hs1; apply Hfs; right|done|lia|nia|done].
    f_equal. f_equal. rewrite <- app_assoc. f_equal. change (map ?f (s :: ?l)) with (f s :: map f l).
    cbn [concat]. unfold len in Hl.
    rewrite take_app_ge by (rewrite len_cons in *; pose proof (len_nonneg segs); nia).
    f_equal. f_equal. nia.
Qed.

Lemma Recovery_ok write (Hwrite : writes_all write) (fs : FS) (fmeta : FileMetadata) :
  SegmentList fmeta ≠ [] -> Forall (fun s => plain_name (seg_Hash s)) (SegmentList fmeta) ->
  (forall s, s ∈ SegmentList fmeta -> os_fault OpRead (seg_path s) = None
     /\ files fs !! seg_path s = Some (seg_content (seg_Hash s))
     /\ len (seg_content (seg_Hash s)) = SegmentSize) ->
  (len (SegmentList fmeta) - 1) * SegmentSize < FileSize fmeta <= len (SegmentList fmeta) * SegmentSize ->
  FileSize fmeta < 2 ^ 64 ->
  RecoveryFileViaSegments write fs (map seg_path (SegmentList fmeta)) fmeta ""
    = Returns (None, take (Z.to_nat (FileSize fmeta))
                       (concat (map (fun s => seg_content (seg_Hash s)) (SegmentList fmeta)))).
Proof.
  intros Hne Hp Hfs Hsize Hlt. pose proof cess_config_positive as (_ & _ & _ & HS).
  assert (1 <= len (SegmentList fmeta)).
  { destruct (SegmentList fmeta) as [|s l]; [done|]. rewrite len_cons. pose proof (len_nonneg l). lia. }
  unfold RecoveryFileViaSegments. rewrite big_Uint64_id by (unfold is_u64; nia).
  rewrite <- (Z.add_0_l (len (SegmentList fmeta))) at 1.
  rewrite (recover_loop_ok write Hwrite (SegmentList fmeta) (SegmentList fmeta)) by (done || lia || nia).
  cbn [mbind outcome_bind]. rewrite decide_False by lia. by rewrite Z.mul_0_l, Z.sub_0_r.
Qed.

(** From the segments of a file, each restored under its hash, no cipher, and a writer that
    does not fail, [RecoveryFileViaSegments] writes exactly the first [FileSize] bytes of their
    concatenation, repeated segments included. *)
Theorem Recovery_restores write (Hwrite : writes_all write) (fs : FS) (fmeta : FileMetadata) :
  SegmentList fmeta ≠ [] -> Forall (fun s => plain_name (seg_Hash s)) (SegmentList fmeta) ->
  (forall s, s ∈ SegmentList fmeta -> os_fault OpRead (seg_path s) = None
     /\ files fs !! seg_path s = Some (seg_content (seg_Hash s))
     /\ len (seg_content (seg_Hash s)) = SegmentSize) ->
  (len (SegmentList fmeta) - 1) * SegmentSize < FileSize fmeta <= len (SegmentList fmeta) * SegmentSize ->
  FileSize fmeta < 2 ^ 64 ->
  RecoveryFileViaSegments write fs (map seg_path (SegmentList fmeta)) fmeta ""
    = Returns (None, take (Z.to_nat (FileSize fmeta))
                       (concat (map (fun s => seg_content (seg_Hash s)) (SegmentList fmeta)))).
Proof.
  intros Hne Hp Hfs Hsize Hlt. by apply (Recovery_ok write Hwrite fs fmeta).
Qed.
End recovery.

(** ** Downloading a file *)

Section download.
Context {NET : Type} `{StorageNet NET} `{CessConfig} `{OsFaults} `{PkgErrors}.
Context (fdir fileHash : string) (fmeta : FileMetadata).
Context (seg_content frag_content : string -> bytes) (avail : string -> bool).

Definition frag_path (h : string) : string := filepath_Join [fdir; h].
Abbreviation spath := (seg_path fdir).
Definition hashes (s : SegmentInfo) : list string := map frag_Hash (FragmentList s).

(** A segment whose fragments have distinct names and at least [DataShards] of whose
    fragments can be read. *)
Record segment_ok (s : SegmentInfo) : Prop := {
  so_name : plain_name (seg_Hash s);
  so_frags : Forall plain_name (hashes s);
  so_distinct : NoDup (hashes s);
  so_enough : DataShards <= len (filter (fun h => avail h = true) (hashes s));
}.

(** The metadata of a file whose fragments, segments and own name do not clash. *)
Record file_ok : Prop := {
  fo_dir : fdir ≠ "";
  fo_hash : plain_name fileHash;
  fo_segs : Forall segment_ok (SegmentList fmeta);
  fo_some : SegmentList fmeta ≠ [];
  fo_disjoint : forall s s', s ∈ SegmentList fmeta -> s' ∈ SegmentList fmeta -> seg_Hash s ∉ hashes s';
  fo_file : forall s, s ∈ SegmentList fmeta -> fileHash ≠ seg_Hash s /\ fileHash ∉ hashes s;
  fo_content : forall s, s ∈ SegmentList fmeta -> len (seg_content (seg_Hash s)) = SegmentSize;
  fo_size : (len (SegmentList fmeta) - 1) * SegmentSize < FileSize fmeta
            <= len (SegmentList fmeta) * SegmentSize;
  fo_bound : FileSize fmeta < 2 ^ 64;
}.

(** The storage network: miners are known, reading an available fragment stores its
    contents and any other read fails, and the erasure code restores a segment from
    any [DataShards] of its fragments; the disk does not fail. *)
Record network_ok : Prop := {
  no_query : forall n, QueryFile n fileHash = inl fmeta;
  no_miners : forall n m, exists peer, QueryMinerItems n m = inl peer;
  no_read : forall n fs peer h path, exists n',
    if avail h
    then ReadDataAction n fs peer h path = (None, (n', set_files (<[path := frag_content h]> (files fs)) fs))
    else exists e, ReadDataAction n fs peer h path = (Some e, (n', fs));
  no_restore : forall fs s hs, s ∈ SegmentList fmeta -> len hs = DataShards -> NoDup hs ->
    (forall h, h ∈ hs -> h ∈ hashes s /\ files fs !! frag_path h = Some (frag_content h)) ->
    RSRestore fs (spath s) (map frag_path hs)
      = (None, set_files (<[spath s := seg_content (seg_Hash s)]> (files fs)) fs);
  no_faults_here : forall op p, os_fault op p = None;
  no_write_faults : forall p w, write_fault p w = None;
}.

Hypothesis (Hfile : file_ok) (Hnet : network_ok).

Lemma frag_path_inj h h' : plain_name h -> plain_name h' -> frag_path h = frag_path h' -> h = h'.
Proof. intros Hh Hh' Hp. by eapply filepath_Join2_inj; [apply Hfile|..]. Qed.

Lemma segment_in s : s ∈ SegmentList fmeta -> segment_ok s.
Proof. pose proof (fo_segs Hfile) as Hs. rewrite Forall_forall in Hs. apply Hs. Qed.

Lemma hash_plain s h : s ∈ SegmentList fmeta -> h ∈ hashes s -> plain_name h.
Proof. intros Hs Hh. pose proof (so_frags _ (segment_in s Hs)) as Hf. rewrite Forall_forall in Hf. by apply Hf. Qed.

(** The files a download may touch before its clean-up. *)
Definition temporary (p : string) : Prop :=
  exists s, s ∈ SegmentList fmeta /\ (p = spath s \/ exists h, h ∈ hashes s /\ p = frag_path h).

Lemma segment_not_fragment s s' h :
  s ∈ SegmentList fmeta -> s' ∈ SegmentList fmeta -> h ∈ hashes s' -> spath s ≠ frag_path h.
Proof.
  intros Hs Hs' Hh He. apply (fo_disjoint Hfile s s' Hs Hs').
  apply frag_path_inj in He as ->; [done|by apply segment_in|by eapply hash_plain].
Qed.

Definition kept_segments (fs fs' : FS) : Prop :=
  forall s, s ∈ SegmentList fmeta -> files fs !! spath s = Some (seg_content (seg_Hash s)) ->
    files fs' !! spath s = Some (seg_content (seg_Hash s)).

(** One more fragment of [s] is read. *)
Lemma read_fragment_snoc s hs h fs :
  s ∈ SegmentList fmeta -> h ∈ hashes s -> h ∉ hs ->
  (forall x, x ∈ hs -> x ∈ hashes s /\ files fs !! frag_path x = Some (frag_content x)) ->
  forall x, x ∈ hs ++ [h] ->
    x ∈ hashes s /\ (<[frag_path h := frag_content h]> (files fs)) !! frag_path x = Some (frag_content x).
Proof.
  intros Hs Hh Hnew Hhs x [Hx| ->%list_elem_of_singleton]%elem_of_app.
  - destruct (Hhs x Hx) as [? Hg]. split; [done|]. rewrite lookup_insert_ne; [done|]. intros He.
    apply frag_path_inj in He; [|by eapply hash_plain|by eapply hash_plain]. congruence.
  - split; [done|]. by rewrite lookup_insert_eq.
Qed.

(** The loop over the fragments of [s]: [hs] are those read so far. *)
Lemma fetch_segment_ok s frags hs n fs :
  s ∈ SegmentList fmeta -> (forall f, f ∈ frags -> frag_Hash f ∈ hashes s) ->
  (forall h, h ∈ hs -> h ∈ hashes s /\ files fs !! frag_path h = Some (frag_content h)) ->
  NoDup (hs ++ map frag_Hash frags) -> len hs < DataShards ->
  DataShards <= len hs + len (filter (fun h => avail h = true) (map frag_Hash frags)) ->
  exists n' fs', fetch_segment (n, fs) fdir (seg_Hash s) (map frag_path hs) frags
      = (SegDone (Some (spath s)), (n', fs'))
    /\ files fs' !! spath s = Some (seg_content (seg_Hash s))
    /\ kept_segments fs fs' /\ dirs fs' = dirs fs
    /\ (forall p, ~ temporary p -> files fs' !! p = files fs !! p).
Proof.
  intros Hs. revert hs n fs. induction frags as [|f frags IH]; intros hs n fs Hin Hhs Hnd Hlt Hge.
  { cbn in Hge. rewrite len_nil in Hge. lia. }
  assert (frag_Hash f ∈ hashes s) as Hf by (apply Hin; left).
  cbn [fetch_segment fst snd]. destruct (no_miners Hnet n (Miner f)) as [peer ->].
  destruct (no_read Hnet n fs peer (frag_Hash f) (frag_path (frag_Hash f))) as [n1 Hread].
  cbn [map] in *. rewrite filter_cons in Hge. fold (frag_path (frag_Hash f)).
  destruct (avail (frag_Hash f)) eqn:Ha.
  2:{ destruct Hread as [e ->]. rewrite decide_False in Hge by done.
      apply IH; [by intros g Hg; apply Hin; right|done| |done|done].
      apply NoDup_app in Hnd as (? & Hd & [_ ?]%NoDup_cons). apply NoDup_app. split_and!; [done| |done].
      intros h Hh Hh'. apply (Hd h Hh). by right. }
  rewrite decide_True in Hge by done. rewrite len_cons in Hge. rewrite Hread. cbn [fst snd].
  set (fs1 := set_files _ fs). set (hs1 := (hs ++ [frag_Hash f])%list).
  assert (map frag_path hs ++ [frag_path (frag_Hash f)] = map frag_path hs1)%list as ->
    by (unfold hs1; by rewrite map_app).
  assert (forall h, h ∈ hs1 -> h ∈ hashes s /\ files fs1 !! frag_path h = Some (frag_content h)) as Hhs1.
  { apply read_fragment_snoc; [done..| |done].
    apply NoDup_app in Hnd as (_ & Hd & _). intros Hin'. apply (Hd _ Hin'). by left. }
  assert (NoDup (hs1 ++ map frag_Hash frags)) as Hnd1 by (unfold hs1; by rewrite <- app_assoc).
  assert (len hs1 = len hs + 1) as Hl1 by (unfold hs1; rewrite len_app, len_cons, len_nil; lia).
  assert (kept_segments fs fs1) as Hk1.
  { intros s' Hs' Hc. unfold fs1. cbn. rewrite lookup_insert_ne; [done|].
    apply not_eq_sym. by apply (segment_not_fragment s' s). }
  assert (forall p, ~ temporary p -> files fs1 !! p = files fs !! p) as Ho1.
  { intros p Hp. unfold fs1. cbn. rewrite lookup_insert_ne; [done|]. intros <-. apply Hp.
    exists s. split; [done|]. right. by eexists. }
  replace (len (map frag_path hs1)) with (len hs1) by (unfold len; by rewrite length_map).
  destruct (Z.leb_spec DataShards (len hs1)).
  - change (filepath_Join [fdir; seg_Hash s]) with (spath s). rewrite (no_restore Hnet fs1 s hs1 Hs); [|lia|by apply NoDup_app in Hnd1 as (? & _)|done].
    eexists _, _. split; [done|]. cbn. split_and!; [by rewrite lookup_insert_eq| |done|].
    + intros s' Hs' Hc. cbn. apply lookup_insert_Some.
      destruct (decide (spath s = spath s')) as [He|He]; [left|right; split; [done|by apply Hk1]].
      split; [done|]. unfold seg_path in He.
      apply filepath_Join2_inj in He as ->; [done|apply Hfile|by apply segment_in|by apply segment_in].
    + intros p Hp. rewrite lookup_insert_ne; [by apply Ho1|]. intros <-. apply Hp. exists s. auto.
  - destruct (IH hs1 n1 fs1) as (n' & fs' & Hr & Hc & Hk & Hd & Ho); [|done|done|lia|lia|].
    { intros g Hg. apply Hin. by right. }
    exists n', fs'. split_and!; [exact Hr|exact Hc| |by rewrite Hd|].
    + intros s' Hs' Hs1. by apply Hk, Hk1.
    + intros p Hp. by rewrite Ho, Ho1.
Qed.

Lemma DataShards_pos : 0 < DataShards.
Proof. apply cess_config_positive. Qed.

Lemma fetch_segments_ok segs paths n fs :
  (forall s, s ∈ segs -> s ∈ SegmentList fmeta) ->
  exists n' fs', fetch_segments (n, fs) fdir segs paths = (inr (paths ++ map spath segs)%list, (n', fs'))
    /\ (forall s, s ∈ segs -> files fs' !! spath s = Some (seg_content (seg_Hash s)))
    /\ kept_segments fs fs' /\ dirs fs' = dirs fs
    /\ (forall p, ~ temporary p -> files fs' !! p = files fs !! p).
Proof.
  revert paths n fs. induction segs as [|s segs IH]; intros paths n fs Hin.
  { exists n, fs. cbn [map fetch_segments]. rewrite app_nil_r. split_and!; try done.
    - intros s Hs. by apply not_elem_of_nil in Hs.
    - by intros s Hs. }
  assert (s ∈ SegmentList fmeta) as Hs by (apply Hin; left).
  pose proof (segment_in s Hs) as [_ _ Hnd Hen].
  destruct (fetch_segment_ok s (FragmentList s) [] n fs Hs) as (n1 & fs1 & Hr1 & Hc1 & Hk1 & Hd1 & Ho1).
  - intros f Hf. by apply list_elem_of_fmap_2.
  - by intros h Hh%not_elem_of_nil.
  - done.
  - rewrite len_nil. apply DataShards_pos.
  - rewrite len_nil. exact Hen.
  - destruct (IH (paths ++ [spath s])%list n1 fs1) as (n' & fs' & Hr & Hc & Hk & Hd & Ho);
      [by intros s' Hs'; apply Hin; right|].
    exists n', fs'. cbn [fetch_segments]. cbn [map] in Hr1. rewrite Hr1, Hr.
    rewrite <- app_assoc. split_and!; [done| | |by rewrite Hd|].
    + intros s' Hs'. apply elem_of_cons in Hs' as [->|Hs']; [by apply Hk|by apply Hc].
    + intros s' Hs' Hp. by apply Hk, Hk1.
    + intros p Hp. by rewrite Ho, Ho1.
Qed.

Lemma userfile_not_temporary : ~ temporary (filepath_Join [fdir; fileHash]).
Proof.
  intros (s & Hs & [He|(h & Hh & He)]); destruct (fo_file Hfile s Hs) as [Hu1 Hu2].
  - apply filepath_Join2_inj in He; [done|apply Hfile|apply Hfile|by apply segment_in].
  - apply filepath_Join2_inj in He as ->; [done|apply Hfile|apply Hfile|by eapply hash_plain].
Qed.

Lemma cleanup_temporary p : p ∈ cleanup_paths fdir fmeta <-> temporary p.
Proof.
  unfold cleanup_paths, temporary. rewrite list_elem_of_bind.
  setoid_rewrite elem_of_cons. split.
  - intros (s & [->|Hp] & Hs); exists s; (split; [done|]); [by left|right].
    apply list_elem_of_fmap in Hp as (f & -> & Hf).
    exists (frag_Hash f). split; [by apply list_elem_of_fmap_2|done].
  - intros (s & Hs & [->|(h & Hh & ->)]); exists s; (split; [|done]); [by left|right].
    apply list_elem_of_fmap in Hh as (f & -> & Hf). by apply list_elem_of_fmap_2 with (f := fun f => frag_path (frag_Hash f)).
Qed.

(** What is left after a download that ends: the file, and none of the temporaries. *)
Definition original : bytes :=
  take (Z.to_nat (FileSize fmeta)) (concat (map (fun s => seg_content (seg_Hash s)) (SegmentList fmeta))).

(** C1: Downloading a file restores it: when at least [DataShards] fragments of each
    segment can be read, [DownloadFileFromStorage] returns the path of a file holding
    exactly the original bytes, whatever other fragments are missing, and leaves
    nothing else behind. This is for a file without a cipher, on a disk that does not fail. *)
Theorem DownloadFile_restores (n : NET) (fs : FS) :
  fdir ∈ dirs fs -> files fs !! fdir = None ->
  exists n' fs', DownloadFileFromStorage (n, fs) fdir fileHash ""
      = Returns ((filepath_Join [fdir; fileHash], None), (n', fs'))
    /\ files fs' !! filepath_Join [fdir; fileHash] = Some original
    /\ (forall p, temporary p -> files fs' !! p = None)
    /\ (forall p, ~ temporary p -> p ≠ filepath_Join [fdir; fileHash] -> files fs' !! p = files fs !! p).
Proof.
  intros Hdir Hnf. unfold DownloadFileFromStorage, os_Stat, os_Create. cbn [fst snd].
  rewrite !(no_faults_here Hnet), Hnf, decide_True by done. cbn [fst snd].
  set (user := filepath_Join [fdir; fileHash]). set (fs0 := set_files _ fs).
  rewrite (no_query Hnet).
  destruct (fetch_segments_ok (SegmentList fmeta) [] n fs0) as (n1 & fs1 & Hr & Hc & _ & Hd & Ho); [done|].
  rewrite Hr. cbn [app]. rewrite decide_False by (unfold len; rewrite length_map; lia).
  rewrite (Recovery_ok fdir seg_content (fo_dir Hfile) (file_write user) (file_write_all _ (no_write_faults Hnet _)) fs1 fmeta).
  - cbn [mbind outcome_bind fst snd]. fold original. eexists _, _. split; [done|].
    assert (~ temporary user) as Hu by apply userfile_not_temporary.
    split_and!.
    + rewrite remove_all_files by by rewrite cleanup_temporary. cbn. by rewrite lookup_insert_eq.
    + intros p Hp. apply remove_all_gone; [by apply cleanup_temporary|apply Hnet].
    + intros p Hp Hne. rewrite remove_all_files by by rewrite cleanup_temporary. cbn.
      rewrite lookup_insert_ne by done. rewrite Ho by done. unfold fs0. cbn. by rewrite lookup_insert_ne.
  - apply Hfile.
  - eapply Forall_impl; [apply Hfile|]. by intros s [].
  - intros s Hs. split_and!; [apply Hnet|by apply Hc|by apply Hfile].
  - apply Hfile.
  - apply Hfile.
Qed.
End download.

(** ** A sample network

    Two data fragments of four bytes make a segment; the first fragment is lost. *)

Definition tiny_config : CessConfig.
Proof. by refine {| DataShards := 2; ParShards := 1; sdk_FragmentSize := 4; SegmentSize := 8 |}. Defined.

Definition tiny_content (s : string) : bytes := replicate 8 (if decide (s = "sa") then x01 else x02).
Definition tiny_avail (h : string) : bool := bool_decide (h ∉ ["a1"; "sa"; "sb"]).

Definition tiny_meta : FileMetadata :=
  mkFileMetadata
    [mkSegmentInfo "sa" [mkFragmentInfo "a1" [x01]; mkFragmentInfo "a2" [x02]; mkFragmentInfo "a3" [x03]];
     mkSegmentInfo "sb" [mkFragmentInfo "b1" [x01]; mkFragmentInfo "b2" [x02]; mkFragmentInfo "b3" [x03]]]
    13.

Definition tiny_net : StorageNet nat := {|
  QueryFile _ f := if decide (f = "fid") then inl tiny_meta else inr "not found";
  QueryMinerItems _ m := inl "peer";
  ReadDataAction n fs _ h p :=
    if tiny_avail h then (None, (S n, set_files (<[p := to_bytes h]> (files fs)) fs))
    else (Some "unreachable", (S n, fs));
  RSRestore fs p paths := (None, set_files (<[p := tiny_content (filepath_Base p)]> (files fs)) fs);
  AesCbcDecrypt b _ := inl b;
  spare_capacity _ := 512%nat |}.

#[local] Existing Instance tiny_net.
#[local] Existing Instance tiny_config.

Ltac in_cases H := repeat (apply elem_of_cons in H as [->|H]); try (by apply not_elem_of_nil in H).

Lemma tiny_file_ok : file_ok "/tmp" "fid" tiny_meta tiny_content tiny_avail.
Proof.
  split; try done.
  - repeat constructor; try (by vm_compute); cbn; rewrite ?not_elem_of_cons; set_solver.
  - intros s s' Hs Hs'. in_cases Hs; in_cases Hs'; cbn; set_solver.
  - intros s Hs. in_cases Hs; cbn; (split; [done|]); set_solver.
Qed.

Lemma tiny_network_ok : network_ok "/tmp" "fid" tiny_meta tiny_content to_bytes tiny_avail.
Proof.
  split; try done.
  - intros n m. by exists "peer".
  - intros n fs peer h path. exists (S n). cbn. destruct (tiny_avail h); [done|by eexists].
  - intros fs s hs Hs _ _ _. cbn. in_cases Hs; by vm_compute.
Qed.

Definition tiny_fs : FS := mkFS ∅ {[ "/tmp" ]}.

Lemma DownloadFile_restores_witness :
  exists n fs, DownloadFileFromStorage (0%nat, tiny_fs) "/tmp" "fid" ""
      = Returns (("/tmp/fid", None), (n, fs))
    /\ files fs !! "/tmp/fid" = Some (replicate 8 x01 ++ replicate 5 x02)%list.
Proof.
  destruct (DownloadFile_restores "/tmp" "fid" tiny_meta tiny_content to_bytes tiny_avail
    tiny_file_ok tiny_network_ok 0%nat tiny_fs) as (n & fs & Hr & Hf & _); [set_solver|done|].
  by exists n, fs.
Defined.

Lemma Recovery_restores_witness :
  RecoveryFileViaSegments (file_write "/tmp/fid")
    (mkFS {[ "/tmp/sa" := tiny_content "sa"; "/tmp/sb" := tiny_content "sb" ]} ∅)
    (map (seg_path "/tmp") (SegmentList tiny_meta)) tiny_meta ""
  = Returns (None, (replicate 8 x01 ++ replicate 5 x02)%list).
Proof.
  apply (Recovery_restores "/tmp" tiny_content ltac:(done) (file_write "/tmp/fid") (file_write_all "/tmp/fid" (fun _ => eq_refl : @write_fault no_faults _ _ = None))
    (mkFS {[ "/tmp/sa" := tiny_content "sa"; "/tmp/sb" := tiny_content "sb" ]} ∅) tiny_meta); try done.
  - by repeat constructor.
  - intros s Hs. in_cases Hs; by vm_compute.
Defined.

Lemma DownloadFragment_asks_segment_witness :
  DownloadFragmentFromStorage (0%nat, tiny_fs) "/tmp/x" "fid" "sb" "b2"
    = (Some "download fragment from storage error: unreachable", (1%nat, tiny_fs))
  /\ DownloadFragmentFromStorage (0%nat, tiny_fs) "/tmp/x" "fid" "sb" "zz" = (None, (0%nat, tiny_fs)).
Proof.
  destruct (DownloadFragment_asks_segment (0%nat, tiny_fs) "/tmp/x" "fid" "sb"
    (take 1 (SegmentList tiny_meta)) []
    (mkSegmentInfo "sb" [mkFragmentInfo "b1" [x01]; mkFragmentInfo "b2" [x02]; mkFragmentInfo "b3" [x03]])
    (mkFragmentInfo "b2" [x02]) [mkFragmentInfo "b1" [x01]] [mkFragmentInfo "b3" [x03]] 13 "peer")
    as [Hr Hn]; [done|by repeat constructor|done|done|by repeat constructor|done|].
  split; [exact Hr|]. apply Hn. by repeat constructor.
Defined.
