(* ===== verification/FileBox.v ===== *)
(** * File boxes: cd2n-client/client/files.go, lines 227-255 and 645-737

    Several small files are packed one after the other into a single file, in plates of
    one fragment size, with the names and offsets kept as metadata; a file is read back
    from the segment of its plate. *)

From S2P Require Import Prelude GoStrings GoOs External Storage.

Record FilePlate := mkFilePlate {
  SegmentHash : string;
  Files : list string;
  Indexs : list Z;
}.
Definition FilePlate_zero : FilePlate := mkFilePlate "" [] [].

Record FileBox := mkFileBox {
  FileHash : string;
  TotalSize : Z;
  PaddingSize : Z;
  Plates : list FilePlate;
}.
Definition FileBox_zero : FileBox := mkFileBox "" 0 0 [].

(** An entry of [os.ReadDir], with what its [Info] gives: the size, or an error. *)
Record dir_entry := mkEntry { entry_name : string; entry_isdir : bool; entry_info : Z + string }.

Definition DataInList (data : string) (list : list string) : bool :=
  existsb (fun elem => strings_Contains elem data) list.

(** The loop of [CompareSlice]: the lengths are equal. *)
Fixpoint compare_bytes (s1 s2 : bytes) : bool :=
  match s1, s2 with
  | x :: s1, y :: s2 => if decide (x = y) then compare_bytes s1 s2 else false
  | _, _ => true
  end.

Definition CompareSlice (s1 s2 : bytes) : bool :=
  if decide (length s1 ≠ length s2) then false else compare_bytes s1 s2.

(** [l[i:j]] and [l[i:]] within the length of a slice just read; see [slice_to]. *)
Definition slice_from_to (spare : nat) (b : bytes) (i j : Z) : outcome bytes :=
  if (0 <=? i) && (i <=? j) then
    d ← slice_to spare b j; Returns (drop (Z.to_nat i) d)
  else Panics SliceOutOfRange.

Definition slice_from (b : bytes) (i : Z) : outcome bytes :=
  if (0 <=? i) && (i <=? len b) then Returns (drop (Z.to_nat i) b) else Panics SliceOutOfRange.

Section box.
Context {NET : Type} `{StorageNet NET} `{CessConfig} `{OsFaults} `{PkgErrors}.

(** What the loop over the entries carries: the box, the current plate, its size, the
    total size, and the file system with the box file's contents. *)
Record box_state := mkBoxState {
  bs_box : FileBox;
  bs_plate : FilePlate;
  bs_size : Z;
  bs_total : Z;
  bs_out : bytes;
}.

Definition write_box (fpath : string) (s : box_state) (b : bytes) : box_state * error :=
  let '(out, e) := file_write fpath (bs_out s) b in
  (mkBoxState (bs_box s) (bs_plate s) (bs_size s) (bs_total s) out, e).

Definition set_plate (p : FilePlate) (s : box_state) : box_state :=
  mkBoxState (bs_box s) p (bs_size s) (bs_total s) (bs_out s).

(** Closes the current plate with padding. *)
Definition flush_plate (fpath : string) (s : box_state) : box_state * error :=
  let paddingSize := sdk_FragmentSize - bs_size s in
  let '(s, e) :=
    if 0 <? paddingSize then
      match write_box fpath s (replicate (Z.to_nat paddingSize) x00) with
      | (s, Some e) => (s, Some e)
      | (s, None) =>
          let p := bs_plate s in
          let b := bs_box s in
          (mkBoxState (mkFileBox (FileHash b) (TotalSize b) (PaddingSize b + paddingSize) (Plates b))
             (mkFilePlate (SegmentHash p) (Files p) (Indexs p ++ [bs_size s])%list)
             (bs_size s) (bs_total s) (bs_out s), None)
      end
    else (s, None) in
  match e with
  | Some e => (s, Some e)
  | None =>
      let b := bs_box s in
      (mkBoxState (mkFileBox (FileHash b) (TotalSize b) (PaddingSize b) (Plates b ++ [bs_plate s])%list)
         FilePlate_zero 0 (bs_total s) (bs_out s), None)
  end.

Definition add_file (name : string) (n : Z) (s : box_state) : box_state :=
  let p := bs_plate s in
  mkBoxState (bs_box s)
    (mkFilePlate (SegmentHash p) (Files p ++ [name])%list (Indexs p ++ [bs_size s])%list)
    (bs_size s + n) (bs_total s + n) (bs_out s).

Fixpoint box_loop (fs : FS) (dir fpath : string) (entries : list dir_entry) (s : box_state)
    : box_state * error :=
  match entries with
  | [] => (s, None)
  | e :: entries =>
      if entry_isdir e then box_loop fs dir fpath entries s
      else
        match entry_info e with
        | inr _ => box_loop fs dir fpath entries s
        | inl n =>
            if n <=? 0 then box_loop fs dir fpath entries s
            else
              match (if (bs_size s =? sdk_FragmentSize) || (sdk_FragmentSize <? n + bs_size s)
                     then flush_plate fpath s else (s, None)) with
              | (s, Some e) => (s, Some e)
              | (s, None) =>
                  let s := add_file (entry_name e) n s in
                  let now := set_files (<[fpath := bs_out s]> (files fs)) fs in
                  match os_ReadFile now (filepath_Join [dir; entry_name e]) with
                  | inr e => (s, Some e)
                  | inl bytes =>
                      match write_box fpath s bytes with
                      | (s, Some e) => (s, Some e)
                      | (s, None) => box_loop fs dir fpath entries s
                      end
                  end
              end
        end
  end.

(** The metadata returned at the end, from the loop's final state. *)
Definition finish_box (s : box_state) : outcome FileBox :=
  let b := bs_box s in
  let total := bs_total s + bs_size s + PaddingSize b in
  match rev (Plates b) with
  | [] => Panics IndexOutOfRange
  | p :: before =>
      let p := mkFilePlate (SegmentHash p) (Files p ++ [""])%list (Indexs p ++ [bs_size s])%list in
      Returns (mkFileBox (FileHash b) total (PaddingSize b) (rev before ++ [p])%list)
  end.

Definition CreateAFileBox (fs : FS) (fname dir : string) (entries : list dir_entry + string)
    : outcome ((FileBox * string * error) * FS) :=
  let msg := "create a file box error" in
  match entries with
  | inr e => Returns ((FileBox_zero, "", Wrap (Some e) msg), fs)
  | inl entries =>
      let fpath := filepath_Join [dir; fname] in
      match os_Create fs fpath with
      | (fs, Some e) => Returns ((FileBox_zero, "", Wrap (Some e) msg), fs)
      | (fs, None) =>
          let '(s, err) := box_loop fs dir fpath entries (mkBoxState FileBox_zero FilePlate_zero 0 0 []) in
          let fs := set_files (<[fpath := bs_out s]> (files fs)) fs in
          match err with
          | Some e => Returns ((bs_box s, "", Wrap (Some e) msg), fs)
          | None =>
              match os_fault OpSync fpath with
              | Some e => Returns ((bs_box s, "", Wrap (Some e) msg), fs)
              | None => box ← finish_box s; Returns ((box, fpath, None), fs)
              end
          end
      end
  end.

(** [UploadDirAsBoxFile] fills in the segments' hashes. *)
Definition set_segment_hashes (hs : list string) (ps : list FilePlate) : list FilePlate :=
  zip_with (fun h p => mkFilePlate h (Files p) (Indexs p)) hs ps.

(** ** Reading a file of a box back *)

(** The plate and position of a name: the last plate that has it, its first place there. *)
Fixpoint find_index (name : string) (fs : list string) : option nat :=
  match fs with
  | [] => None
  | f :: fs => if decide (f = name) then Some O else S <$> find_index name fs
  end.

Fixpoint find_in_plates (name : string) (i : nat) (ps : list FilePlate) (found : option (nat * nat))
    : option (nat * nat) :=
  match ps with
  | [] => found
  | p :: ps =>
      find_in_plates name (S i) ps
        (match find_index name (Files p) with Some j => Some (i, j) | None => found end)
  end.

Definition slice_plate (p : FilePlate) (didx : nat) (data : bytes) : outcome bytes :=
  let n := length (Indexs p) in
  if (didx + 1 <? n)%nat then
    i ← index (Indexs p) (Z.of_nat didx); j ← index (Indexs p) (Z.of_nat didx + 1);
    slice_from_to (spare_capacity data) data i j
  else if (n =? didx + 1)%nat then
    i ← index (Indexs p) (Z.of_nat didx); slice_from data i
  else Returns data.

(** [download] is [DownloadSegment] of the plate's segment into the temporary
    directory: its path or its error, and the files it leaves. *)
Definition DownloadFileInBox (fs : FS) (download : string -> (string * error) * FS)
    (elemFileName : string) (boxMeta : FileBox) : outcome ((bytes * error) * FS) :=
  let msg := "download file in box error" in
  match find_in_plates elemFileName 0 (Plates boxMeta) None with
  | None => Returns (([], Wrap (errors_New "data not found from box metadata") msg), fs)
  | Some (sidx, didx) =>
      p ← index (Plates boxMeta) (Z.of_nat sidx);
      match download (SegmentHash p) with
      | ((_, Some e), fs) => Returns (([], Wrap (Some e) msg), fs)
      | ((spath, None), fs) =>
          match os_ReadFile fs spath with
          | inr e => Returns (([], Wrap (Some e) msg), fs)
          | inl data => data ← slice_plate p didx data; Returns ((data, None), fs)
          end
      end
  end.
End box.
