(* ===== verification/FileBoxFacts.v ===== *)
(** * Properties of file boxes

    Packing is greedy packing into plates of one fragment; the files of a box of one plate
    are read back from a segment that begins with it, those of the open plate are not in
    the metadata. *)

From S2P Require Import Prelude GoStrings GoOs External Storage StorageFacts FileBox.

(** ** The specification: greedy packing *)

(** A file is its name and contents. *)
Abbreviation file := (string * bytes)%type.

Section pack.
Context `{CessConfig}.
#[local] Abbreviation FS_ := sdk_FragmentSize.

Definition bytes_of (fs : list file) : bytes := concat (map snd fs).
Definition size_of (fs : list file) : Z := len (bytes_of fs).

(** The closed plates, and the files of the open one. *)
Fixpoint pack (fs : list file) (cur : list file) : list (list file) * list file :=
  match fs with
  | [] => ([], cur)
  | f :: fs =>
      if (size_of cur =? FS_) || (FS_ <? len (snd f) + size_of cur)
      then let '(cs, last) := pack fs [f] in (cur :: cs, last)
      else pack fs (cur ++ [f])%list
  end.

Fixpoint offsets (o : Z) (cs : list bytes) : list Z :=
  match cs with [] => [] | c :: cs => o :: offsets (o + len c) cs end.

Definition open_plate (fs : list file) : FilePlate :=
  mkFilePlate "" (map fst fs) (offsets 0 (map snd fs)).

(** A closed plate ends with its size when it was padded. *)
Definition closed_plate (fs : list file) : FilePlate :=
  mkFilePlate "" (map fst fs)
    (offsets 0 (map snd fs) ++ (if size_of fs <? FS_ then [size_of fs] else []))%list.

Definition padding_of (fs : list file) : Z := Z.max 0 (FS_ - size_of fs).
Definition chunk_of (fs : list file) : bytes :=
  (bytes_of fs ++ replicate (Z.to_nat (FS_ - size_of fs)) x00)%list.

Definition sumZ (l : list Z) : Z := foldr Z.add 0 l.

Lemma sumZ_app l k : sumZ (l ++ k)%list = sumZ l + sumZ k.
Proof. induction l; cbn; [done|]. unfold sumZ in *. lia. Qed.

Lemma bytes_of_app fs gs : bytes_of (fs ++ gs) = (bytes_of fs ++ bytes_of gs)%list.
Proof. unfold bytes_of. by rewrite map_app, concat_app. Qed.

Lemma size_of_app fs gs : size_of (fs ++ gs) = size_of fs + size_of gs.
Proof. unfold size_of. by rewrite bytes_of_app, len_app. Qed.

Lemma size_of_one f : size_of [f] = len (snd f).
Proof. unfold size_of, bytes_of. cbn. by rewrite app_nil_r. Qed.

Lemma offsets_app o cs ds :
  offsets o (cs ++ ds)%list = (offsets o cs ++ offsets (o + len (concat cs)) ds)%list.
Proof.
  revert o. induction cs as [|c cs IH]; intros o; cbn.
  - f_equal. rewrite len_nil. lia.
  - rewrite IH, len_app. do 3 f_equal. lia.
Qed.

Lemma length_offsets o cs : length (offsets o cs) = length cs.
Proof. revert o. induction cs; intros; cbn; auto. Qed.
End pack.

(** ** Packing refines the specification *)

Section refinement.
Context {NET : Type} `{StorageNet NET} `{CessConfig} `{OsFaults} `{PkgErrors}.

(** The state of the loop that stands for closed plates [cs] and an open one. *)
Definition box_of (cs : list (list file)) (cur : list file) : box_state :=
  mkBoxState
    (mkFileBox "" 0 (sumZ (map padding_of cs)) (map closed_plate cs))
    (open_plate cur) (size_of cur)
    (sumZ (map size_of cs) + size_of cur)
    (concat (map chunk_of cs) ++ bytes_of cur).

Hypothesis writes_ok : forall p w, write_fault p w = None.

Lemma write_box_ok fpath s b :
  write_box fpath s b = (mkBoxState (bs_box s) (bs_plate s) (bs_size s) (bs_total s) (bs_out s ++ b)%list, None).
Proof. unfold write_box, file_write. by rewrite writes_ok. Qed.

Lemma flush_plate_ok fpath cs cur :
  flush_plate fpath (box_of cs cur) = (box_of (cs ++ [cur]) [], None).
Proof.
  unfold flush_plate. cbn [bs_size box_of].
  assert (box_of (cs ++ [cur]) [] = mkBoxState
    (mkFileBox "" 0 (sumZ (map padding_of cs) + padding_of cur) (map closed_plate cs ++ [closed_plate cur])%list)
    FilePlate_zero 0 (sumZ (map size_of cs) + size_of cur)
    ((concat (map chunk_of cs) ++ chunk_of cur) ++ [])%list) as ->.
  { unfold box_of. rewrite !map_app, !sumZ_app, concat_app. cbn [map sumZ foldr concat].
    rewrite !Z.add_0_r, !app_nil_r. done. }
  unfold padding_of, closed_plate, chunk_of. rewrite app_nil_r.
  destruct (Z.ltb_spec 0 (sdk_FragmentSize - size_of cur)).
  - rewrite write_box_ok. cbn. rewrite (proj2 (Z.ltb_lt _ _)), Z.max_r by lia.
    by rewrite <- app_assoc.
  - cbn. rewrite (proj2 (Z.ltb_ge _ _)), Z.max_l by lia.
    replace (Z.to_nat (sdk_FragmentSize - size_of cur)) with O by lia.
    cbn. by rewrite !app_nil_r, Z.add_0_r.
Qed.

Lemma add_file_ok fpath cs cur name b :
  write_box fpath (add_file name (len b) (box_of cs cur)) b = (box_of cs (cur ++ [(name, b)]), None).
Proof.
  rewrite write_box_ok. unfold box_of, open_plate. cbn.
  rewrite !map_app, size_of_app, size_of_one, bytes_of_app, offsets_app. cbn.
  rewrite app_nil_r, <- app_assoc, Z.add_assoc. done.
Qed.

(** The regular, non-empty files among the entries, with their contents; [None] when
    one cannot be read or is not of the size reported. *)
Definition entry_files (fs : FS) (dir fpath : string) (es : list dir_entry) (files_in : list file) : Prop :=
  Forall2 (fun e f => fst f = entry_name e /\ entry_info e = inl (len (snd f)) /\ 0 < len (snd f)
            /\ filepath_Join [dir; entry_name e] ≠ fpath
            /\ os_fault OpRead (filepath_Join [dir; entry_name e]) = None
            /\ files fs !! filepath_Join [dir; entry_name e] = Some (snd f))
    (filter (fun e => entry_isdir e = false) es) files_in.

Lemma box_loop_ok fs dir fpath es fl cs cur :
  entry_files fs dir fpath es fl ->
  box_loop fs dir fpath es (box_of cs cur)
    = (let '(ds, last) := pack fl cur in box_of (cs ++ ds) last, None).
Proof.
  unfold entry_files. revert fl cs cur. induction es as [|e es IH]; intros fl cs cur He.
  - inversion He; subst. cbn. by rewrite app_nil_r.
  - rewrite filter_cons in He. cbn [box_loop]. destruct (entry_isdir e) eqn:Ed.
    { rewrite decide_False in He by done. by apply IH. }
    rewrite decide_True in He by done. inversion He as [|? [name b] ? fl' Hf Hrest]; subst.
    destruct Hf as (Hn & Hi & Hpos & Hp & Hr & Hl). cbn [fst snd] in *. subst name.
    rewrite Hi. rewrite (proj2 (Z.leb_gt _ _)) by done. cbn [pack snd].
    assert (forall cs cur,
      (let now := set_files (<[fpath := bs_out (add_file (entry_name e) (len b) (box_of cs cur))]> (files fs)) fs in
       match os_ReadFile now (filepath_Join [dir; entry_name e]) with
       | inl bytes =>
           match write_box fpath (add_file (entry_name e) (len b) (box_of cs cur)) bytes with
           | (s, Some err) => (s, Some err)
           | (s, None) => box_loop fs dir fpath es s
           end
       | inr err => (add_file (entry_name e) (len b) (box_of cs cur), Some err)
       end) = (let '(ds, last) := pack fl' (cur ++ [(entry_name e, b)]) in box_of (cs ++ ds) last, None)) as Hgo.
    { intros cs' cur'. cbv zeta. unfold os_ReadFile. rewrite Hr. cbn [files set_files].
      rewrite lookup_insert_ne by done. rewrite Hl, add_file_ok. by apply IH. }
    cbn [bs_size box_of]. destruct ((size_of cur =? sdk_FragmentSize) || _).
    + rewrite flush_plate_ok, Hgo. cbn [app].
      destruct (pack fl' [(entry_name e, b)]) as [ds last]. by rewrite <- app_assoc.
    + apply Hgo.
Qed.

(** The metadata of a box: the open plate's files are not in it; its size is added to
    the last closed plate's offsets, under an empty name. *)
Definition box_metadata (cs : list (list file)) (last : list file) : FileBox :=
  mkFileBox "" (sumZ (map size_of cs) + 2 * size_of last + sumZ (map padding_of cs))
    (sumZ (map padding_of cs))
    (map closed_plate (removelast cs) ++
     match rev cs with
     | c :: _ => [mkFilePlate "" (map fst c ++ [""]) (Indexs (closed_plate c) ++ [size_of last])]
     | [] => []
     end)%list.

Lemma finish_box_ok cs last :
  finish_box (box_of cs last)
    = if decide (cs = []) then Panics IndexOutOfRange else Returns (box_metadata cs last).
Proof.
  destruct (decide (cs = [])) as [->|Hne]; [done|].
  destruct (exists_last Hne) as (ds & c & ->).
  unfold finish_box, box_metadata, box_of. cbn [bs_box Plates PaddingSize bs_total bs_size FileHash].
  rewrite removelast_last, map_app, !rev_app_distr. cbn [map rev app].
  rewrite rev_involutive. do 2 f_equal. lia.
Qed.

(** A directory and a box in it that the run can read and write without faults. *)
Record packable (fs : FS) (fname dir : string) (es : list dir_entry) (fl : list file) : Prop := {
  pk_create : os_fault OpCreate (filepath_Join [dir; fname]) = None;
  pk_sync : os_fault OpSync (filepath_Join [dir; fname]) = None;
  pk_files : entry_files fs dir (filepath_Join [dir; fname]) es fl;
}.

Lemma CreateAFileBox_ok fs fname dir es fl :
  packable fs fname dir es fl ->
  let fpath := filepath_Join [dir; fname] in
  let '(cs, last) := pack fl [] in
  CreateAFileBox fs fname dir (inl es)
    = if decide (cs = []) then Panics IndexOutOfRange
      else Returns ((box_metadata cs last, fpath, None),
             set_files (<[fpath := (concat (map chunk_of cs) ++ bytes_of last)%list]> (files fs)) fs).
Proof.
  intros [Hc Hs He] fpath. unfold CreateAFileBox, os_Create. fold fpath. fold fpath in Hc, Hs, He.
  rewrite Hc. change (mkBoxState FileBox_zero FilePlate_zero 0 0 []) with (box_of [] []).
  rewrite (box_loop_ok _ _ _ _ fl).
  - destruct (pack fl []) as [cs last]. cbn [app]. rewrite Hs, finish_box_ok.
    destruct (decide (cs = [])); [done|]. cbn. unfold set_files. cbn. by rewrite insert_insert_eq.
  - eapply Forall2_impl; [exact He|]. cbn. intros e f (? & ? & ? & ? & ? & ?).
    split_and!; try done. by rewrite lookup_insert_ne.
Qed.

(** C13: Packing a directory: [CreateAFileBox] writes the regular files in order into
    plates of one fragment, greedily, closing a plate with zeros when the next file
    does not fit; its metadata describes the closed plates, counts the open one's size
    twice in [TotalSize], and leaves its files out.  When no plate was closed it
    panics. *)
Theorem CreateAFileBox_packs (fs : FS) (fname dir : string) (es : list dir_entry) (fl : list file) :
  packable fs fname dir es fl ->
  let fpath := filepath_Join [dir; fname] in
  let '(cs, last) := pack fl [] in
  CreateAFileBox fs fname dir (inl es)
    = if decide (cs = []) then Panics IndexOutOfRange
      else Returns ((box_metadata cs last, fpath, None),
             set_files (<[fpath := (concat (map chunk_of cs) ++ bytes_of last)%list]> (files fs)) fs).
Proof. apply CreateAFileBox_ok. Qed.

Lemma pack_small fl cur :
  size_of cur + size_of fl <= sdk_FragmentSize -> Forall (fun f => 0 < len (snd f)) fl ->
  pack fl cur = ([], (cur ++ fl)%list).
Proof.
  intros Hs Hp. revert cur Hs. induction Hp as [|f fl Hf _ IH]; intros cur Hs; cbn [pack].
  - by rewrite app_nil_r.
  - rewrite (size_of_app [f] fl : size_of (f :: fl) = _), size_of_one in Hs.
    pose proof (len_nonneg (bytes_of fl)). fold (size_of fl) in *.
    rewrite (proj2 (Z.eqb_neq _ _)), (proj2 (Z.ltb_ge _ _)) by lia. cbn [orb].
    rewrite IH, <- app_assoc; [done|]. rewrite size_of_app, size_of_one. lia.
Qed.

(** A directory whose files fit in one fragment together cannot be packed:
    [CreateAFileBox] writes them all, then indexes an empty list of plates at -1. *)
Theorem small_directory_panics (fs : FS) (fname dir : string) (es : list dir_entry) (fl : list file) :
  packable fs fname dir es fl -> size_of fl <= sdk_FragmentSize ->
  CreateAFileBox fs fname dir (inl es) = Panics IndexOutOfRange.
Proof.
  intros Hp Hs. pose proof (CreateAFileBox_ok fs fname dir es fl Hp) as Hc. cbv zeta in Hc.
  rewrite pack_small in Hc; [done|done|]. destruct Hp as [_ _ He].
  unfold entry_files in He. clear -He.
  induction He as [|e f es' fl (_ & _ & ? & _) _ IH]; by constructor.
Qed.
End refinement.

(** ** Reading back *)

Section read_back.
Context {NET : Type} `{StorageNet NET} `{CessConfig} `{OsFaults} `{PkgErrors}.

Lemma size_of_cons f fs : size_of (f :: fs) = len (snd f) + size_of fs.
Proof. rewrite <- size_of_one. apply (size_of_app [f]). Qed.

Lemma offsets_lookup o fs j f :
  fs !! j = Some f -> offsets o (map snd fs) !! j = Some (o + size_of (take j fs)).
Proof.
  revert o j. induction fs as [|g fs IH]; intros o j Hj; [done|].
  destruct j as [|j]; cbn in *.
  - f_equal. change (size_of []) with 0. lia.
  - rewrite (IH _ _ Hj), size_of_cons. f_equal. lia.
Qed.

Lemma size_of_take_S fs j f : fs !! j = Some f -> size_of (take (S j) fs) = size_of (take j fs) + len (snd f).
Proof. intros Hj. by rewrite (take_S_r _ _ _ Hj), size_of_app, size_of_one. Qed.

(** The bytes of the [j]-th file of a plate. *)
Lemma slice_file fs j f spare tail :
  fs !! j = Some f ->
  slice_from_to spare (bytes_of fs ++ tail) (size_of (take j fs)) (size_of (take (S j) fs))
    = Returns (snd f).
Proof.
  intros Hj. rewrite (size_of_take_S _ _ _ Hj).
  pose proof (take_drop_middle _ _ _ Hj) as Hfs.
  assert (bytes_of fs = bytes_of (take j fs) ++ snd f ++ bytes_of (drop (S j) fs))%list as Hb.
  { rewrite <- Hfs at 1. by rewrite bytes_of_app. }
  pose proof (len_nonneg (bytes_of (take j fs))) as H1'. fold (size_of (take j fs)) in H1'.
  pose proof (len_nonneg (snd f)). pose proof (len_nonneg (bytes_of (drop (S j) fs))).
  pose proof (len_nonneg tail).
  unfold slice_from_to, slice_to.
  rewrite (proj2 (Z.leb_le _ _)), (proj2 (Z.leb_le _ _)) by lia. cbn [andb].
  rewrite (proj2 (Z.leb_le _ _)), (proj2 (Z.leb_le _ _))
    by (rewrite ?Hb, ?len_app; unfold size_of in *; lia). cbn [andb mbind outcome_bind].
  f_equal. unfold size_of, len in *.
  rewrite Hb, <- !app_assoc. rewrite Z2Nat.inj_add, !Nat2Z.id by lia.
  rewrite take_app_add, app_assoc. 
  replace (Z.to_nat (Z.of_nat (length (bytes_of (take j fs))))) with (length (bytes_of (take j fs))) by lia.
  rewrite drop_app_length, <- app_assoc. by rewrite take_app_length.
Qed.

(** The files of a plate come back from a segment that begins with the plate, but for the
    last one of a plate that is filled to the byte. *)
Lemma slice_plate_ok fs h names extra j f tail :
  fs !! j = Some f -> (S j < length fs)%nat \/ size_of fs < sdk_FragmentSize ->
  slice_plate (mkFilePlate h names (Indexs (closed_plate fs) ++ extra)) j (bytes_of fs ++ tail) = Returns (snd f).
Proof.
  intros Hj Hcase. pose proof (lookup_lt_Some _ _ _ Hj) as Hlt.
  unfold slice_plate, closed_plate. cbn [Indexs].
  set (ends := if size_of fs <? sdk_FragmentSize then [size_of fs] else []).
  assert (((offsets 0 (map snd fs) ++ ends) ++ extra) !! j = Some (size_of (take j fs))) as Hi.
  { rewrite <- app_assoc, lookup_app_l by (rewrite length_offsets, length_map; lia).
    by rewrite (offsets_lookup 0 fs j f Hj). }
  assert (((offsets 0 (map snd fs) ++ ends) ++ extra) !! S j = Some (size_of (take (S j) fs))) as Hn.
  { rewrite <- app_assoc. destruct (decide (S j < length fs)%nat) as [Hnext|Hlast].
    - destruct (lookup_lt_is_Some_2 fs (S j) Hnext) as [g Hg].
      rewrite lookup_app_l by (rewrite length_offsets, length_map; lia).
      by rewrite (offsets_lookup 0 fs (S j) g Hg).
    - destruct Hcase as [?|Hsize]; [done|]. unfold ends. rewrite (proj2 (Z.ltb_lt _ _)) by done.
      rewrite lookup_app_r by (rewrite length_offsets, length_map; lia).
      rewrite length_offsets, length_map. replace (S j - length fs)%nat with O by lia.
      cbn [app lookup list_lookup]. by rewrite take_ge by lia. }
  pose proof (lookup_lt_Some _ _ _ Hn) as Hlen.
  rewrite (proj2 (Nat.ltb_lt _ _)) by lia.
  rewrite (index_Returns _ (Z.of_nat j) (size_of (take j fs)) (Nat2Z.is_nonneg j) ltac:(by rewrite Nat2Z.id)).
  cbn [mbind outcome_bind].
  rewrite (index_Returns _ _ (size_of (take (S j) fs)));
    [|lia|by replace (Z.to_nat (Z.of_nat j + 1)) with (S j) by lia].
  by apply slice_file.
Qed.

(** *** Finding a name *)

Lemma find_index_None name fs : name ∉ fs -> find_index name fs = None.
Proof.
  induction fs as [|f fs IH]; cbn; [done|]. rewrite not_elem_of_cons. intros [Hne Hn].
  rewrite decide_False by congruence. by rewrite IH.
Qed.

Lemma find_index_NoDup fs j name extra :
  fs !! j = Some name -> NoDup fs -> find_index name (fs ++ extra) = Some j.
Proof.
  revert j. induction fs as [|f fs IH]; intros j Hj Hnd; [done|].
  apply NoDup_cons in Hnd as [Hn Hnd]. destruct j as [|j]; cbn in *.
  - injection Hj as ->. by rewrite decide_True.
  - rewrite decide_False; [by rewrite (IH j)|]. intros ->. apply Hn. by eapply list_elem_of_lookup_2.
Qed.

(** *** The plates of a packing *)

Lemma pack_concat fl cur :
  (concat (pack fl cur).1 ++ (pack fl cur).2 = cur ++ fl)%list.
Proof.
  revert cur. induction fl as [|f fl IH]; intros cur; cbn [pack]; [by rewrite app_nil_r|].
  destruct (_ || _).
  - specialize (IH [f]). destruct (pack fl [f]) as [cs last]. cbn in *. by rewrite <- app_assoc, IH.
  - by rewrite IH, <- app_assoc.
Qed.

(** No plate holds more than its size, and the open one is not empty once there is a file. *)
Lemma pack_sizes fl cur :
  Forall (fun f => len (snd f) <= sdk_FragmentSize) fl -> size_of cur <= sdk_FragmentSize ->
  Forall (fun c => size_of c <= sdk_FragmentSize) (pack fl cur).1 /\ size_of (pack fl cur).2 <= sdk_FragmentSize.
Proof.
  intros Hf. revert cur. induction Hf as [|f fl Hf _ IH]; intros cur Hc; cbn [pack]; [done|].
  destruct (_ || _) eqn:E.
  - specialize (IH [f]). rewrite size_of_one in IH. destruct (pack fl [f]) as [cs last]. cbn in *.
    destruct (IH Hf) as [Hcs Hl]. by split; [constructor|].
  - apply IH. apply orb_false_iff in E as [_ E%Z.ltb_ge]. rewrite size_of_app, size_of_one. lia.
Qed.

Lemma pack_last fl cur : cur ++ fl ≠ [] -> (pack fl cur).2 ≠ [].
Proof.
  revert cur. induction fl as [|f fl IH]; intros cur Hne; cbn [pack]; [by rewrite app_nil_r in Hne|].
  destruct (_ || _).
  - specialize (IH [f] ltac:(done)). by destruct (pack fl [f]).
  - apply IH. by rewrite <- app_assoc.
Qed.

Lemma len_chunk_of c : size_of c <= sdk_FragmentSize -> len (chunk_of c) = sdk_FragmentSize.
Proof.
  intros Hc. unfold chunk_of. rewrite len_app. fold (size_of c).
  unfold len. rewrite length_replicate. lia.
Qed.

Lemma len_chunks cs :
  Forall (fun c => size_of c <= sdk_FragmentSize) cs -> len (concat (map chunk_of cs)) = len cs * sdk_FragmentSize.
Proof.
  induction 1 as [|c cs Hc _ IH]; [done|]. cbn [map concat]. rewrite len_app, len_cons, len_chunk_of, IH by done. lia.
Qed.

(** *** A box of one plate *)

Definition one_plate_box (h : string) (c last : list file) (total padding : Z) : FileBox :=
  mkFileBox "" total padding [mkFilePlate h (map fst c ++ [""]) (Indexs (closed_plate c) ++ [size_of last])].

Lemma read_one_plate h c last total padding fs fs' download spath tail j f :
  NoDup (map fst c) -> c !! j = Some f -> (S j < length c)%nat \/ size_of c < sdk_FragmentSize ->
  download h = ((spath, None), fs') -> os_fault OpRead spath = None ->
  files fs' !! spath = Some (bytes_of c ++ tail)%list ->
  DownloadFileInBox fs download (fst f) (one_plate_box h c last total padding) = Returns ((snd f, None), fs').
Proof.
  intros Hnd Hj Hcase Hd Hr Hf. unfold DownloadFileInBox, one_plate_box. cbn [Plates find_in_plates Files].
  rewrite (find_index_NoDup (map fst c) j (fst f)) by (done || by rewrite list_lookup_fmap, Hj).
  rewrite (index_Returns [_] (Z.of_nat 0) _ (Nat2Z.is_nonneg 0) eq_refl). cbn [mbind outcome_bind SegmentHash].
  rewrite Hd. unfold os_ReadFile. rewrite Hr, Hf. by rewrite (slice_plate_ok c h _ _ j f).
Qed.

Lemma read_open_plate h c last total padding fs download name :
  name ∉ map fst c -> name ≠ "" ->
  DownloadFileInBox fs download name (one_plate_box h c last total padding)
  = Returns (([], Wrap (errors_New "data not found from box metadata") "download file in box error"), fs).
Proof.
  intros Hn Hne. unfold DownloadFileInBox, one_plate_box. cbn [Plates find_in_plates Files].
  by rewrite find_index_None by set_solver.
Qed.
End read_back.

(** ** A sample directory, with fragments of four bytes *)

#[local] Existing Instance tiny_net.
#[local] Existing Instance tiny_config.

Definition tiny_dir : FS :=
  mkFS {[ "/d/a" := [x01; x02; x03]; "/d/b" := [x04; x05; x06]; "/d/c" := [x07] ]} {[ "/d"; "/d/sub" ]}.
Definition tiny_entries : list dir_entry :=
  [mkEntry "a" false (inl 3); mkEntry "b" false (inl 3); mkEntry "c" false (inl 1); mkEntry "sub" true (inl 4096)].
Definition tiny_files : list file :=
  [("a", [x01; x02; x03]); ("b", [x04; x05; x06]); ("c", [x07])].

Lemma tiny_packable : packable tiny_dir "box" "/d" tiny_entries tiny_files.
Proof. split; [done|done|]. unfold entry_files. repeat constructor; done. Qed.

Lemma CreateAFileBox_packs_witness :
  CreateAFileBox tiny_dir "box" "/d" (inl tiny_entries)
    = Returns ((mkFileBox "" 12 1 [mkFilePlate "" ["a"; ""] [0; 3; 4]], "/d/box", None),
        set_files (<["/d/box" := [x01; x02; x03; x00; x04; x05; x06; x07]]> (files tiny_dir)) tiny_dir).
Proof.
  exact (CreateAFileBox_packs ltac:(done) tiny_dir "box" "/d" tiny_entries tiny_files tiny_packable).
Defined.

Lemma small_directory_panics_witness :
  CreateAFileBox tiny_dir "box" "/d" (inl (take 1 tiny_entries)) = Panics IndexOutOfRange.
Proof.
  apply (small_directory_panics ltac:(done) tiny_dir "box" "/d" (take 1 tiny_entries) (take 1 tiny_files));
    [|done].
  split; [done|done|]. unfold entry_files. repeat constructor; done.
Defined.
