(* ===== verification/SegmentFetch.v ===== *)
(** * Fetching a segment from several cachers at once

    [DownloadSegmentFromCachers] of cd2n-client/client/files.go (lines 416-478): one
    goroutine per cacher, sharing counters and a set of fragments under a lock.  Each
    step below is what one goroutine does in one critical section, or one download. *)

From S2P Require Import Prelude GoStrings External.

(** What the goroutines share: [dl], [dld], the map of fragments taken, the result, the
    accounts credited so far, latest first, and the fragments whose download succeeded. *)
Record shared := mkShared {
  dl : Z;
  dld : Z;
  cachedFragments : gset string;
  res : list string;
  credited : list string;
  fetched : list string;
}.

(** Where a goroutine is: at the top of its loop, in the loop over its fragments, before
    and after a download, before counting it, before crediting it, returned. *)
Inductive position :=
  | AtTop
  | AtFragments (rest : list string)
  | Downloading (fragment : string) (rest : list string)
  | Failed (fragment : string) (rest : list string)
  | Counting (fragment : string) (rest : list string)
  | Crediting (rest : list string)
  | Returned.

(** A goroutine: its cacher's account, that cacher's fragments, and its position. *)
Record goroutine := mkGoroutine { g_acc : string; g_fragments : list string; g_at : position }.

Definition move (p : position) (g : goroutine) : goroutine := mkGoroutine (g_acc g) (g_fragments g) p.

Section fetch.
Context `{CessConfig} (fdir : string).

(** One step of a goroutine; the outcome of a download is not determined here. *)
Inductive goroutine_step : goroutine * shared -> goroutine * shared -> Prop :=
  | at_top_done g s : g_at g = AtTop -> DataShards <= dld s ->
      goroutine_step (g, s) (move Returned g, s)
  | at_top_go g s : g_at g = AtTop -> dld s < DataShards -> dl s < DataShards ->
      goroutine_step (g, s)
        (move (AtFragments (g_fragments g)) g,
         mkShared (dl s + 1) (dld s) (cachedFragments s) (res s) (credited s) (fetched s))
  | at_top_spin g s : g_at g = AtTop -> dld s < DataShards -> DataShards <= dl s ->
      goroutine_step (g, s) (g, s)
  | fragments_end g s : g_at g = AtFragments [] -> goroutine_step (g, s) (move AtTop g, s)
  | fragments_done g s f rest : g_at g = AtFragments (f :: rest) -> DataShards <= dld s ->
      goroutine_step (g, s) (move Returned g, s)
  | fragments_skip g s f rest : g_at g = AtFragments (f :: rest) -> dld s < DataShards ->
      f ∈ cachedFragments s ->
      goroutine_step (g, s) (move (AtFragments rest) g, s)
  | fragments_take g s f rest : g_at g = AtFragments (f :: rest) -> dld s < DataShards ->
      f ∉ cachedFragments s ->
      goroutine_step (g, s)
        (move (Downloading f rest) g,
         mkShared (dl s) (dld s) ({[ f ]} ∪ cachedFragments s) (res s) (credited s) (fetched s))
  | download_ok g s f rest : g_at g = Downloading f rest ->
      goroutine_step (g, s)
        (move (Counting f rest) g,
         mkShared (dl s) (dld s) (cachedFragments s) (res s) (credited s) (f :: fetched s))
  | download_fails g s f rest : g_at g = Downloading f rest ->
      goroutine_step (g, s) (move (Failed f rest) g, s)
  | undo g s f rest : g_at g = Failed f rest ->
      goroutine_step (g, s)
        (move (Counting f rest) g,
         mkShared (dl s - 1) (dld s) (cachedFragments s ∖ {[ f ]}) (res s) (credited s) (fetched s))
  | count g s f rest : g_at g = Counting f rest ->
      goroutine_step (g, s)
        (move (Crediting rest) g,
         mkShared (dl s) (dld s + 1) (cachedFragments s) (res s ++ [filepath_Join [fdir; f]])%list (credited s) (fetched s))
  | credit g s rest : g_at g = Crediting rest ->
      goroutine_step (g, s)
        (move (AtFragments rest) g,
         mkShared (dl s) (dld s) (cachedFragments s) (res s) (g_acc g :: credited s) (fetched s)).

(** The goroutines interleave freely. *)
Inductive fetch_step : list goroutine * shared -> list goroutine * shared -> Prop :=
  | interleave before g after s g' s' : goroutine_step (g, s) (g', s') ->
      fetch_step (before ++ g :: after, s)%list (before ++ g' :: after, s')%list.

(** The start, one goroutine per cacher with its fragments, and the end, when
    [wg.Wait] returns and the result is [res]. *)
Definition fetch_start (peers : list (string * list string)) : list goroutine * shared :=
  (map (fun p => mkGoroutine (fst p) (snd p) AtTop) peers, mkShared 0 0 ∅ [] [] []).

Definition all_returned (gs : list goroutine) : Prop := Forall (fun g => g_at g = Returned) gs.

Definition DownloadSegmentFromCachers (peers : list (string * list string)) (result : list string) : Prop :=
  exists gs s, rtc fetch_step (fetch_start peers) (gs, s) /\ all_returned gs /\ result = res s.

(** ** No failure: what is taken is what is counted *)

(** Same steps, every download succeeding. *)
Definition no_failure (a b : list goroutine * shared) : Prop :=
  fetch_step a b /\ Forall (fun g => forall f rest, g_at g ≠ Failed f rest) (fst b).

Definition in_flight (g : goroutine) : Z :=
  match g_at g with Downloading _ _ | Counting _ _ => 1 | _ => 0 end.
Definition in_flights (gs : list goroutine) : Z := foldr (fun g n => in_flight g + n) 0 gs.

Lemma in_flights_app gs hs : in_flights (gs ++ hs)%list = in_flights gs + in_flights hs.
Proof. induction gs as [|g gs IH]; cbn; [done|]. unfold in_flights in *. lia. Qed.

Lemma in_flights_nonneg gs : 0 <= in_flights gs.
Proof.
  induction gs as [|g gs IH]; cbn; [done|]. fold (in_flights gs).
  assert (0 <= in_flight g) by (unfold in_flight; by case_match). lia.
Qed.

(** The fragments a goroutine may still take are its cacher's. *)
Definition pending_of (g : goroutine) : list string :=
  match g_at g with
  | AtFragments r | Downloading _ r | Failed _ r | Counting _ r | Crediting r => r
  | AtTop | Returned => []
  end.

Definition harmless (all : gset string) (g : goroutine) : Prop :=
  (forall f, f ∈ g_fragments g -> f ∈ all) /\ (forall f, f ∈ pending_of g -> f ∈ all)
  /\ g_at g ≠ Returned /\ (forall f rest, g_at g ≠ Failed f rest).

Record quiet (all : gset string) (gs : list goroutine) (s : shared) : Prop := {
  q_known : Forall (harmless all) gs;
  q_cached : cachedFragments s ⊆ all;
  q_count : dld s + in_flights gs = Z.of_nat (size (cachedFragments s));
}.

(** One goroutine keeps what it knows, and its share of the count. *)
Lemma quiet_goroutine all g s g' s' :
  dld s < DataShards -> harmless all g -> cachedFragments s ⊆ all ->
  goroutine_step (g, s) (g', s') -> (forall f rest, g_at g' ≠ Failed f rest) ->
  harmless all g' /\ cachedFragments s' ⊆ all
  /\ dld s' + in_flight g' - Z.of_nat (size (cachedFragments s'))
     = dld s + in_flight g - Z.of_nat (size (cachedFragments s)).
Proof.
  intros Hlt (Hg1 & Hg2 & Hg3 & Hg4) Hc Hs Hnf. unfold harmless, in_flight, pending_of in *.
  inversion Hs; subst; try lia;
    match goal with H : g_at ?x = _ |- _ => rewrite H in *; cbn in * end;
    try (by exfalso; eapply Hnf); try (by exfalso; eapply Hg4); split_and!; try done; try lia;
    try (by intros; apply Hg2; right).
  - apply union_subseteq. split; [|done]. apply singleton_subseteq_l, Hg2. left.
  - rewrite size_union by set_solver. rewrite size_singleton. lia.
Qed.

Lemma quiet_step all gs s gs' s' :
  Z.of_nat (size all) < DataShards -> quiet all gs s -> no_failure (gs, s) (gs', s') ->
  quiet all gs' s'.
Proof.
  intros Hall [Hk Hc Hn] [Hs Hnf]. cbn [fst] in Hnf. inversion Hs; subst.
  apply Forall_app in Hk as [Hb Hk]. apply Forall_cons in Hk as [Hg Ha].
  apply Forall_app in Hnf as [_ Hnf]. apply Forall_cons in Hnf as [Hg' _].
  rewrite in_flights_app in Hn. cbn [in_flights foldr] in Hn. fold (in_flights after) in Hn.
  assert (dld s < DataShards).
  { pose proof (in_flights_nonneg before). pose proof (in_flights_nonneg after).
    assert (0 <= in_flight g) by (unfold in_flight; by case_match).
    pose proof (subseteq_size _ _ Hc). lia. }
  edestruct quiet_goroutine as (Hg2 & Hc2 & Hn2); [eassumption..|].
  split; [|done|].
  - apply Forall_app. split; [done|]. by apply Forall_cons.
  - rewrite in_flights_app. cbn [in_flights foldr]. fold (in_flights after). lia.
Qed.

Lemma quiet_run all peers gs s :
  (forall acc fs f, (acc, fs) ∈ peers -> f ∈ fs -> f ∈ all) -> Z.of_nat (size all) < DataShards ->
  rtc no_failure (fetch_start peers) (gs, s) -> quiet all gs s.
Proof.
  intros Hp Hall Hrun.
  refine (rtc_ind_r (fun c => quiet all (fst c) (snd c)) (fetch_start peers) _ _ _ Hrun).
  - split; cbn [fst snd fetch_start cachedFragments dld].
    + apply Forall_map, Forall_forall. intros [acc fs] Hin. cbn.
      repeat split; try done; [intros f; by apply (Hp acc)|by intros ? ?%elem_of_nil].
    + set_solver.
    + rewrite size_empty. clear. induction peers as [|p peers IH]; [done|]. exact IH.
  - intros [gs1 s1] [gs2 s2] _ Hstep IH. by eapply quiet_step.
Qed.

(** ** Any run: how much is counted *)

(** A goroutine between taking a fragment and counting it. *)
Definition slot (g : goroutine) : Z :=
  match g_at g with Downloading _ _ | Failed _ _ | Counting _ _ => 1 | _ => 0 end.
Definition slots (gs : list goroutine) : Z := foldr (fun g n => slot g + n) 0 gs.

Lemma slots_app gs hs : slots (gs ++ hs)%list = slots gs + slots hs.
Proof. induction gs as [|g gs IH]; cbn; [done|]. unfold slots in *. lia. Qed.

Lemma slot_bounds g : 0 <= slot g <= 1.
Proof. unfold slot. by case_match. Qed.

Lemma slots_bounds gs : 0 <= slots gs <= Z.of_nat (length gs).
Proof.
  induction gs as [|g gs IH]; [done|]. cbn [slots foldr length]. fold (slots gs).
  pose proof (slot_bounds g). lia.
Qed.

Record counted (n : nat) (gs : list goroutine) (s : shared) : Prop := {
  c_length : length gs = n;
  c_res : Z.of_nat (length (res s)) = dld s;
  c_max : dld s + slots gs <= Z.max (DataShards - 1) 0 + Z.of_nat n;
  c_returned : Forall (fun g => g_at g = Returned -> DataShards <= dld s) gs;
}.

Lemma counted_goroutine g s g' s' :
  goroutine_step (g, s) (g', s') -> (g_at g = Returned -> DataShards <= dld s) ->
  Z.of_nat (length (res s)) = dld s ->
  Z.of_nat (length (res s')) = dld s' /\ dld s <= dld s'
  /\ (g_at g' = Returned -> DataShards <= dld s')
  /\ (dld s' + slot g' = dld s + slot g \/ (dld s' = dld s /\ dld s < DataShards)).
Proof.
  intros Hs Hr Hres. unfold slot in *.
  inversion Hs; subst; cbn [res dld move g_at] in *;
    match goal with H : g_at ?x = _ |- _ => rewrite H in * end;
    rewrite ?length_app; cbn [length]; split_and!; try done; try lia; by left; lia.
Qed.

Lemma counted_step n gs s gs' s' :
  counted n gs s -> fetch_step (gs, s) (gs', s') -> counted n gs' s'.
Proof.
  intros [Hl Hres Hm Hr] Hs. inversion Hs; subst.
  apply Forall_app in Hr as [Hb Hr]. apply Forall_cons in Hr as [Hg Ha].
  edestruct counted_goroutine as (Hres' & Hle & Hg' & Hn); [eassumption..|].
  rewrite slots_app in Hm. cbn [slots foldr] in Hm. fold (slots after) in Hm.
  split; [by rewrite !length_app|done| |].
  - rewrite slots_app. cbn [slots foldr]. fold (slots after).
    pose proof (slots_bounds before). pose proof (slots_bounds after).
    pose proof (slot_bounds g'). rewrite length_app in *. cbn [length] in *. lia.
  - apply Forall_app. split; [|apply Forall_cons; split; [done|]];
      (eapply Forall_impl; [eassumption|]; cbn; intros h Hh Hh'; specialize (Hh Hh'); lia).
Qed.

Lemma counted_run peers gs s :
  rtc fetch_step (fetch_start peers) (gs, s) -> counted (length peers) gs s.
Proof.
  intros Hrun.
  refine (rtc_ind_r (fun c => counted (length peers) (fst c) (snd c)) (fetch_start peers) _ _ _ Hrun).
  - split; cbn [fst snd fetch_start res dld length]; [by rewrite length_map|done| |].
    + pose proof (slots_bounds (map (fun p => mkGoroutine (fst p) (snd p) AtTop) peers)) as [_ Hs].
      rewrite length_map in Hs. lia.
    + by apply Forall_map, Forall_forall.
  - intros [gs1 s1] [gs2 s2] _ Hstep IH. by eapply counted_step.
Qed.

(** ** A run whose downloads all fail *)

Lemma goroutine_alone g s g' s' : goroutine_step (g, s) (g', s') -> fetch_step ([g], s) ([g'], s').
Proof. exact (interleave [] g [] s g' s'). Qed.

(** One pass over the fragments, every download failing. *)
Lemma failing_pass fs : forall g s,
  g_at g = AtFragments fs -> cachedFragments s = ∅ -> 0 <= DataShards - dld s <= Z.of_nat (length fs) ->
  exists g' s', rtc fetch_step ([g], s) ([g'], s') /\ g_at g' = Returned
    /\ res s' = (res s ++ map (fun f => filepath_Join [fdir; f]) (take (Z.to_nat (DataShards - dld s)) fs))%list
    /\ fetched s' = fetched s.
Proof.
  induction fs as [|f fs IH]; intros g s Hg Hc Hd; cbn [length] in Hd.
  - exists (move Returned (move AtTop g)), s. split_and!; [|done|by rewrite take_nil, app_nil_r|done].
    eapply rtc_l; [by apply goroutine_alone, fragments_end|].
    eapply rtc_l; [apply goroutine_alone, at_top_done; [done|lia]|]. done.
  - destruct (decide (DataShards <= dld s)).
    { exists (move Returned g), s. split_and!; [| |by replace (DataShards - dld s) with 0 by lia; rewrite app_nil_r|done].
      - eapply rtc_l; [eapply goroutine_alone, fragments_done; done|]. done.
      - done. }
    edestruct (IH (move (AtFragments fs) g)
      (mkShared (dl s - 1) (dld s + 1) ∅ (res s ++ [filepath_Join [fdir; f]])%list
         (g_acc g :: credited s) (fetched s))) as (g' & s' & Hrun & Hr & Hres & Hf);
      [done|done|cbn [dld]; lia|].
    exists g', s'. split_and!; [|done| |done].
    + eapply rtc_l; [eapply goroutine_alone, fragments_take; [done|lia|set_solver]|].
      eapply rtc_l; [by eapply goroutine_alone, download_fails|].
      eapply rtc_l; [by eapply goroutine_alone, undo|].
      eapply rtc_l; [by eapply goroutine_alone, count|].
      eapply rtc_l; [by eapply goroutine_alone, credit|].
      unfold move in *. cbn [dl dld cachedFragments res credited fetched g_acc g_fragments] in *.
      by replace (({[f]} ∪ cachedFragments s) ∖ {[f]}) with (∅ : gset string) by set_solver.
    + rewrite Hres. cbn [res dld].
      replace (Z.to_nat (DataShards - dld s)) with (S (Z.to_nat (DataShards - (dld s + 1)))) by lia.
      cbn [take map]. by rewrite <- app_assoc.
Qed.
Lemma goroutine_progress g s : g_at g ≠ Returned -> exists c, goroutine_step (g, s) c.
Proof.
  intros Hr. destruct (g_at g) as [|[|f rest]|f rest|f rest|f rest|rest|] eqn:Hg;
    try (by eexists; econstructor).
  - destruct (decide (DataShards <= dld s)); [by eexists; apply at_top_done|].
    destruct (decide (DataShards <= dl s)); eexists;
      [apply at_top_spin|apply at_top_go]; done || lia.
  - destruct (decide (DataShards <= dld s)); [by eexists; eapply fragments_done|].
    destruct (decide (f ∈ cachedFragments s)); eexists;
      [eapply fragments_skip|eapply fragments_take]; done || lia.
Qed.
End fetch.

(** ** The properties *)

(** C30: When [DownloadSegmentFromCachers] returns it has collected at least [DataShards]
    paths, and fewer than [DataShards] plus one for each goroutine: a download under way
    when the target is reached is still counted. *)
Theorem fetch_result_bounded `{CessConfig} fdir peers result
  (Hpeers : peers ≠ []) (Hrun : DownloadSegmentFromCachers fdir peers result) :
  DataShards <= Z.of_nat (length result) <= DataShards - 1 + Z.of_nat (length peers).
Proof.
  destruct Hrun as (gs & s & Hrun & Hret & ->). apply counted_run in Hrun as [Hl Hres Hm Hr].
  pose proof (slots_bounds gs) as [Hs _]. pose proof cess_config_positive as (Hd & _).
  split; [|lia]. destruct gs as [|g gs]; [by destruct peers|].
  apply Forall_cons in Hr as [Hr _]. apply Forall_cons in Hret as [Hret _].
  specialize (Hr Hret). lia.
Qed.

(** C8: If the cachers together hold fewer than [DataShards] distinct fragments of the
    segment, then as long as no download fails no goroutine returns, and there is always
    a step to take: [DownloadSegmentFromCachers] spins for ever. *)
Theorem too_few_fragments_spin `{CessConfig} fdir peers (all : gset string) gs s
  (Hpeers : peers ≠ []) (Hall : forall acc fs f, (acc, fs) ∈ peers -> f ∈ fs -> f ∈ all)
  (Hfew : Z.of_nat (size all) < DataShards)
  (Hrun : rtc (no_failure fdir) (fetch_start peers) (gs, s)) :
  Forall (fun g => g_at g ≠ Returned) gs /\ (exists next, fetch_step fdir (gs, s) next)
  /\ dld s < DataShards.
Proof.
  pose proof (quiet_run fdir all peers gs s Hall Hfew Hrun) as [Hk Hc Hn].
  assert (Hlen : length gs = length peers).
  { refine (c_length _ _ _ (counted_run fdir peers gs s _)).
    eapply rtc_subrel; [|exact Hrun]. by intros ? ? [? _]. }
  assert (Hnr : Forall (fun g => g_at g ≠ Returned) gs).
  { eapply Forall_impl; [exact Hk|]. by intros g (_ & _ & ? & _). }
  split_and!; [done| |].
  - destruct gs as [|g gs]; [by destruct peers|]. apply Forall_cons in Hnr as [Hg _].
    destruct (goroutine_progress fdir g s Hg) as [[g' s'] Hs].
    eexists. exact (interleave fdir [] g gs s g' s' Hs).
  - pose proof (in_flights_nonneg gs). pose proof (subseteq_size _ _ Hc). lia.
Qed.

(** A failed download is counted and returned like a good one: with one cacher that
    lists at least [DataShards] fragments there is a run in which every download fails, no
    fragment is fetched, and [DownloadSegmentFromCachers] returns [DataShards] paths. *)
Theorem failed_downloads_returned `{CessConfig} fdir acc fs
  (Hlist : DataShards <= Z.of_nat (length fs)) :
  exists gs s, rtc (fetch_step fdir) (fetch_start [(acc, fs)]) (gs, s) /\ all_returned gs
    /\ fetched s = []
    /\ res s = map (fun f => filepath_Join [fdir; f]) (take (Z.to_nat DataShards) fs).
Proof.
  pose proof cess_config_positive as (Hd & _).
  destruct (failing_pass fdir fs (mkGoroutine acc fs (AtFragments fs)) (mkShared 1 0 ∅ [] [] []))
    as (g' & s' & Hrun & Hret & Hres & Hf); [done|done|cbn; lia|].
  exists [g'], s'. split_and!; [|by constructor|done|by rewrite Hres; cbn; rewrite Z.sub_0_r].
  eapply rtc_l; [|exact Hrun].
  apply (goroutine_alone fdir (mkGoroutine acc fs AtTop) (mkShared 0 0 ∅ [] [] [])).
  by apply (at_top_go fdir (mkGoroutine acc fs AtTop)).
Qed.

(** ** Witnesses, with the constants of the package *)

Section witnesses.
#[local] Existing Instance sample_config.

Lemma failed_downloads_returned_witness :
  exists gs s, rtc (fetch_step "/d") (fetch_start [("acc", ["f1"; "f2"; "f3"; "f4"; "f5"])]) (gs, s)
    /\ all_returned gs /\ fetched s = [] /\ length (res s) = 4%nat.
Proof.
  destruct (failed_downloads_returned "/d" "acc" ["f1"; "f2"; "f3"; "f4"; "f5"])
    as (gs & s & Hrun & Hret & Hf & Hres); [by apply Z.leb_le|].
  exists gs, s. split_and!; [exact Hrun|exact Hret|exact Hf|]. by rewrite Hres.
Defined.

Lemma fetch_result_bounded_witness :
  exists result, DownloadSegmentFromCachers "/d" [("acc", ["f1"; "f2"; "f3"; "f4"])] result
    /\ 4 <= Z.of_nat (length result) <= 4.
Proof.
  destruct (failing_pass "/d" ["f1"; "f2"; "f3"; "f4"]
    (mkGoroutine "acc" ["f1"; "f2"; "f3"; "f4"] (AtFragments ["f1"; "f2"; "f3"; "f4"]))
    (mkShared 1 0 ∅ [] [] [])) as (g' & s' & Hrun & Hret & _); [done|done|by split; apply Z.leb_le|].
  assert (Hd : DownloadSegmentFromCachers "/d" [("acc", ["f1"; "f2"; "f3"; "f4"])] (res s')).
  { exists [g'], s'. split_and!; [|by constructor|done]. eapply rtc_l; [|exact Hrun].
    apply (goroutine_alone "/d" (mkGoroutine "acc" ["f1"; "f2"; "f3"; "f4"] AtTop)
      (mkShared 0 0 ∅ [] [] [])).
    by apply (at_top_go "/d" (mkGoroutine "acc" ["f1"; "f2"; "f3"; "f4"] AtTop)). }
  exists (res s'). split; [exact Hd|].
  exact (fetch_result_bounded "/d" [("acc", ["f1"; "f2"; "f3"; "f4"])] (res s') ltac:(done) Hd).
Defined.

(** One cacher with one fragment: it is fetched, then its goroutine is back at its top. *)
Definition spin_peers : list (string * list string) := [("acc", ["f1"])].
Definition spin_at (p : position) : goroutine := mkGoroutine "acc" ["f1"] p.

Lemma too_few_fragments_spin_witness :
  exists gs s, rtc (no_failure "/d") (fetch_start spin_peers) (gs, s) /\ fetched s = ["f1"]
    /\ Forall (fun g => g_at g ≠ Returned) gs.
Proof.
  assert (Hrun : rtc (no_failure "/d") (fetch_start spin_peers)
    ([spin_at AtTop], mkShared 1 1 {["f1"]} ["/d/f1"] ["acc"] ["f1"])).
  { assert (Hone : forall p s q s', goroutine_step "/d" (spin_at p, s) (spin_at q, s') ->
      (forall f rest, q ≠ Failed f rest) -> no_failure "/d" ([spin_at p], s) ([spin_at q], s')).
    { intros p s q s' Hs Hp. split; [by apply goroutine_alone|by constructor; [exact Hp|constructor]]. }
    set (s1 := mkShared 1 0 ∅ [] [] []). set (s2 := mkShared 1 0 ({["f1"]} ∪ ∅) [] [] []).
    set (s3 := mkShared 1 0 ({["f1"]} ∪ ∅) [] [] ["f1"]).
    set (s4 := mkShared 1 1 ({["f1"]} ∪ ∅) ["/d/f1"] [] ["f1"]).
    set (s5 := mkShared 1 1 ({["f1"]} ∪ ∅) ["/d/f1"] ["acc"] ["f1"]).
    apply rtc_l with ([spin_at (AtFragments ["f1"])], s1); [apply Hone; [|done]|].
    { exact (at_top_go "/d" (spin_at AtTop) (mkShared 0 0 ∅ [] [] []) eq_refl eq_refl eq_refl). }
    apply rtc_l with ([spin_at (Downloading "f1" [])], s2); [apply Hone; [|done]|].
    { exact (fragments_take "/d" (spin_at (AtFragments ["f1"])) s1 "f1" [] eq_refl eq_refl
        (not_elem_of_empty _)). }
    apply rtc_l with ([spin_at (Counting "f1" [])], s3); [apply Hone; [|done]|].
    { exact (download_ok "/d" (spin_at (Downloading "f1" [])) s2 "f1" [] eq_refl). }
    apply rtc_l with ([spin_at (Crediting [])], s4); [apply Hone; [|done]|].
    { exact (count "/d" (spin_at (Counting "f1" [])) s3 "f1" [] eq_refl). }
    apply rtc_l with ([spin_at (AtFragments [])], s5); [apply Hone; [|done]|].
    { exact (credit "/d" (spin_at (Crediting [])) s4 [] eq_refl). }
    apply rtc_l with ([spin_at AtTop], s5); [apply Hone; [|done]|].
    { exact (fragments_end "/d" (spin_at (AtFragments [])) s5 eq_refl). }
    apply rtc_refl. }
  assert (Hall : forall acc fs f, (acc, fs) ∈ spin_peers -> f ∈ fs -> f ∈ ({["f1"]} : gset string)).
  { intros a fs f [[= -> ->]|[]%elem_of_nil]%elem_of_cons Hf; set_solver. }
  assert (Hne : spin_peers ≠ []) by done.
  assert (Hfew : Z.of_nat (size ({["f1"]} : gset string)) < DataShards) by (apply Z.ltb_lt; reflexivity).
  eexists _, _. split; [exact Hrun|]. split; [reflexivity|].
  exact (proj1 (too_few_fragments_spin "/d" spin_peers {["f1"]} _ _ Hne Hall Hfew Hrun)).
Defined.
End witnesses.
