(* ===== verification/ResourceActor.v ===== *)
(** * The resource actor: cd2n-node/actors/resource_actor.go

    Fetches what the cache node lacks: segments from neighbouring cache nodes or from the
    storage network, and resources of web sites. The concurrent query of the neighbours is
    a step relation; what it found is an argument of the rest. *)

From S2P Require Import Prelude GoStrings Encoding Json Codec Types Stream GoOs Lib External Storage.
From S2P Require Import Credit CacheActor.

(** ** Interfaces: the libp2p host, cess-go-tools' selector, multihash, net/http *)

Class PeerHost (Net : Type) := {
  Connect : Net -> string -> error * Net;
  FindProviders : Net -> bytes -> (list string * error) * Net;
  Provide : Net -> bytes -> error * Net;
}.

Class Selector (Sel : Type) := {
  GetPeersNumber : Sel -> Z;
  NewPeersIterator : Sel -> Z -> list string + string;
  Feedback : Sel -> string -> bool -> Sel;
}.

Class Multihash := {
  multihash_Encode : bytes -> bytes + string;
  NewCidV1 : bytes -> bytes;
}.

(** The body, as much as arrives of it, and the error that cuts it short. *)
Class Http (Net : Type) := {
  http_Get : Net -> string -> ((Z * bytes * error) + string) * Net;
}.

(** ** State *)

Record CacheStrategy := mkCacheStrategy {
  MaxCachedSegmentNum : Z;
  AvgCachedSegmentNum : Z;
  MinCachedSegmentNum : Z;
  NeighborNum : Z;
}.

Definition or_default (n d : Z) : Z := if n =? 0 then d else n.

Definition NewResourceActor (s : CacheStrategy) : CacheStrategy :=
  mkCacheStrategy (or_default (MaxCachedSegmentNum s) 16) (or_default (AvgCachedSegmentNum s) 5)
    (or_default (MinCachedSegmentNum s) 3) (or_default (NeighborNum s) 64).

Record world (NET Net Sel : Type) := mkWorld {
  w_storage : NET;
  w_net : Net;
  w_selector : Sel;
  w_fs : FS;
}.
Arguments mkWorld {NET Net Sel} _ _ _ _.
Arguments w_storage {NET Net Sel} _.
Arguments w_net {NET Net Sel} _.
Arguments w_selector {NET Net Sel} _.
Arguments w_fs {NET Net Sel} _.

(** ** Shuffling *)

(** [segments[i], segments[j] = segments[j], segments[i]]. *)
Definition swap {A} (l : list A) (i j : nat) : list A :=
  match l !! i, l !! j with
  | Some x, Some y => <[j := x]> (<[i := y]> l)
  | _, _ => l
  end.

(** From index [i] down to 1; [intn i] is what [rand.Intn(i+1)] draws. *)
Fixpoint shuffle_from {A} (intn : nat -> nat) (i : nat) (l : list A) : list A :=
  match i with
  | O => l
  | S i' => shuffle_from intn i' (swap l i (intn i))
  end.

Definition ShuffleSegments {A} (intn : nat -> nat) (segments : list A) : list A :=
  shuffle_from intn (pred (length segments)) segments.

Section resource.
Context {NET Net Sel : Type} `{StorageNet NET} `{CacheNet Net} `{PeerHost Net} `{Selector Sel}
  `{Multihash} `{Http Net} `{CessConfig} `{OsFaults} `{PkgErrors} `{FloatText} `{JsonMessages}.
Context (TempDir : string).
Abbreviation world := (world NET Net Sel).

Definition set_net (n : Net) (w : world) : world := mkWorld (w_storage w) n (w_selector w) (w_fs w).
Definition set_netfs (p : Net * FS) (w : world) : world :=
  mkWorld (w_storage w) (fst p) (w_selector w) (snd p).
Definition set_storefs (p : NET * FS) (w : world) : world :=
  mkWorld (fst p) (w_net w) (w_selector w) (snd p).
Definition set_peers (p : Net * Sel) (w : world) : world :=
  mkWorld (w_storage w) (fst p) (snd p) (w_fs w).

Definition hashToCid (hash : string) : bytes + string :=
  match hex_DecodeString hash with
  | None => inr "encoding/hex: invalid input"
  | Some b => match multihash_Encode b with
              | inr e => inr e
              | inl mh => inl (NewCidV1 mh)
              end
  end.

(** ** Web resources *)

(** [io.Copy] of the body into the open file: the bytes stored and the error. *)
Definition copy_body (fpath : string) (body : bytes) (cut : error) : bytes * error :=
  match file_write fpath [] body with
  | (b, Some e) => (b, Some e)
  | (b, None) => (b, cut)
  end.

Definition downloadfile (net : Net) (fs : FS) (url fpath : string) : (Z * error) * (Net * FS) :=
  let msg := "download resource by http error" in
  match http_Get net url with
  | (inr e, net) => ((0, Wrap (Some e) msg), (net, fs))
  | (inl (_, body, cut), net) =>
      match os_Create fs fpath with
      | (fs, Some e) => ((0, Wrap (Some e) msg), (net, fs))
      | (fs, None) =>
          let '(content, err) := copy_body fpath body cut in
          let fs := set_files (<[fpath := content]> (files fs)) fs in
          match err with
          | Some e => ((0, Wrap (Some e) msg), (net, fs))
          | None => ((len content, None), (net, fs))
          end
      end
  end.

(** Announces the segment once. *)
Definition provide_once (provide : bool) (net : Net) (shash : string) : bool * Net :=
  if provide then (true, net)
  else
    match hashToCid shash with
    | inr _ => (false, net)
    | inl cid => match Provide net cid with (Some _, net) => (false, net) | (None, net) => (true, net) end
    end.

(** ** Segments from the neighbours *)

Definition share_request (acc : slice byte) (want : string) : CacheRequest :=
  mkCacheRequest "" "" want acc None None.

(** The files one neighbour lists; what was taken already is skipped. *)
Fixpoint share_files (w : world) (acc : slice byte) (fhash shash id : string) (origin : bytes)
    (taken : gset string) (count : Z) (provide : bool) (resps : list DownloadResponse) (fs : list string)
    : (gset string * Z * bool * list DownloadResponse) * world :=
  match fs with
  | [] => ((taken, count, provide, resps), w)
  | f :: fs =>
      if decide (f ∈ taken) then share_files w acc fhash shash id origin taken count provide resps fs
      else
        let fpath := filepath_Join [TempDir; f] in
        match DownloadFileFromCache (w_net w) (w_fs w) id fpath
                (share_request acc (filepath_Join [fhash; shash; f])) with
        | (Some _, nf) =>
            share_files (set_netfs nf w) acc fhash shash id origin taken count provide resps fs
        | (None, nf) =>
            let '(provide, net) := provide_once provide (fst nf) shash in
            share_files (set_netfs (net, snd nf) w) acc fhash shash id origin ({[ f ]} ∪ taken)
              (count + 1) provide
              (resps ++ [mkDownloadResponse fpath (filepath_Join [fhash; shash; f]) origin])%list fs
        end
  end.

(** The neighbours in the order the map is ranged over. *)
Fixpoint share_peers (w : world) (acc : slice byte) (fhash shash : string) (taken : gset string)
    (count : Z) (provide : bool) (resps : list DownloadResponse) (peers : list (string * CacheResponse))
    : list DownloadResponse * world :=
  match peers with
  | [] => (resps, w)
  | (id, r) :: peers =>
      if decide (resp_Status r = STATUS_LOADING)
      then share_peers w acc fhash shash taken count provide resps peers
      else if DataShards <=? count then (resps, w)
      else
        let '((taken, count, provide, resps), w) :=
          share_files w acc fhash shash id (elems (Account (Info r))) taken count provide resps
            (elems (CachedFiles r)) in
        share_peers w acc fhash shash taken count provide resps peers
  end.

Definition SharedSegmentFromNeighborCacher (w : world) (acc : slice byte) (fhash : string)
    (segment : SegmentInfo) (peers : list (string * CacheResponse)) : list DownloadResponse * world :=
  share_peers w acc fhash (seg_Hash segment) ∅ 0 false [] peers.

(** ** Segments from the storage network *)

(** Every fragment is filed under the requested segment [shash]. *)
Fixpoint store_fragments (w : world) (fhash shash : string) (count : Z) (provide : bool)
    (resps : list DownloadResponse) (frags : list FragmentInfo)
    : (bool * list DownloadResponse) * world :=
  match frags with
  | [] => ((provide, resps), w)
  | f :: frags =>
      if DataShards <=? count then ((provide, resps), w)
      else
        match QueryMinerItems (w_storage w) (Miner f) with
        | inr _ => store_fragments w fhash shash count provide resps frags
        | inl peer =>
            let fpath := filepath_Join [TempDir; frag_Hash f] in
            match ReadDataAction (w_storage w) (w_fs w) peer (frag_Hash f) fpath with
            | (Some _, nf) => store_fragments (set_storefs nf w) fhash shash count provide resps frags
            | (None, nf) =>
                let w := set_storefs nf w in
                let '(provide, net) := provide_once provide (w_net w) shash in
                store_fragments (set_net net w) fhash shash (count + 1) provide
                  (resps ++ [mkDownloadResponse fpath (filepath_Join [fhash; shash; frag_Hash f])
                               (to_bytes ORIGIN_SITE_TAG)])%list frags
            end
        end
  end.

(** [neighbors] is the query of the neighbours for a segment. *)
Section download.
Context (neighbors : Net * Sel -> string -> (list (string * CacheResponse) + string) * (Net * Sel)).
Context (strategy : CacheStrategy) (acc : slice byte) (fhash shash : string).

Fixpoint cache_segments (w : world) (cacheNum num : Z) (done provide : bool)
    (resps : list DownloadResponse) (segs : list SegmentInfo) : list DownloadResponse * world :=
  match segs with
  | [] => (resps, w)
  | segment :: segs =>
      if cacheNum <=? num then (resps, w)
      else
        let done := done || bool_decide (seg_Hash segment = shash) in
        if negb done && (cacheNum - 1 <=? num) then cache_segments w cacheNum num done provide resps segs
        else
          let '(cachedPeers, ns) := neighbors (w_net w, w_selector w) (seg_Hash segment) in
          let w := set_peers ns w in
          let from_storage (w : world) :=
            let '((provide, resps), w) := store_fragments w fhash shash 0 provide resps (FragmentList segment) in
            cache_segments w cacheNum (num + 1) done provide resps segs in
          match cachedPeers with
          | inr _ => from_storage w
          | inl peers =>
              if AvgCachedSegmentNum strategy <=? len peers
              then cache_segments w cacheNum num done provide resps segs
              else
                let '(shared, w) := SharedSegmentFromNeighborCacher w acc fhash segment peers in
                if 0 <? len shared
                then cache_segments w cacheNum (num + 1) done provide (resps ++ shared)%list segs
                else from_storage w
          end
  end.

(** How many segments to cache of a file of [n] segments. *)
Definition cache_number (n : Z) : outcome Z :=
  if NeighborNum strategy =? 0 then Panics DivideByZero
  else
    let cacheNum := i64 (MinCachedSegmentNum strategy + Z.quot n (NeighborNum strategy)) in
    Returns (if MaxCachedSegmentNum strategy <? cacheNum then MaxCachedSegmentNum strategy else cacheNum).

Definition DownloadStoragedFiles (intn : nat -> nat) (w : world)
    : outcome ((list DownloadResponse * error) * world) :=
  match QueryFile (w_storage w) fhash with
  | inr e => Returns (([], Wrap (Some e) "download fragments from storager error"), w)
  | inl fmeta =>
      cacheNum ← cache_number (len (SegmentList fmeta));
      let '(resps, w) := cache_segments w cacheNum 0 false false []
        (ShuffleSegments intn (SegmentList fmeta)) in
      Returns ((resps, None), w)
  end.
End download.

(** ** Messages *)

(** What is sent to the cache actor, if anything; [ready] when that actor exists. *)
Definition resource_Receive
    (neighbors : Net * Sel -> string -> (list (string * CacheResponse) + string) * (Net * Sel))
    (strategy : CacheStrategy) (intn : nat -> nat) (ready : bool) (w : world) (req : DownloadRequest)
    : outcome (option message * world) :=
  if negb ready then Returns (None, w)
  else if decide (req_Option req = NODE_RESOURCE_CACHE) then
    match req_Data req with
    | ReqOther => Returns (None, w)
    | ReqCache creq =>
        match strings_Split (WantFile creq) slash with
        | [h0; h1] =>
            '((resp, err), w) ← DownloadStoragedFiles neighbors strategy (AccountId creq) h0 h1 intn w;
            Returns (Some (MsgResponses resp), w)
        | _ => Returns (None, w)
        end
    end
  else if decide (req_Option req = SITE_RESOURCE_CACHE) then
    match req_Data req with
    | ReqOther => Returns (None, w)
    | ReqCache creq =>
        let fpath := filepath_Join [TempDir; GetSha256Hash (to_bytes (WantUrl creq))] in
        match downloadfile (w_net w) (w_fs w) (WantUrl creq) fpath with
        | ((_, Some _), nf) => Returns (None, set_netfs nf w)
        | ((_, None), nf) =>
            Returns (Some (MsgResponse (mkDownloadResponse fpath (WantUrl creq) (to_bytes ORIGIN_SITE_TAG))),
                     set_netfs nf w)
        end
    end
  else Returns (None, w).
End resource.
