(* ===== verification/NeighborQuery.v ===== *)
(** * Asking the neighbours for a segment

    [QuerySegmentFromNeighborCacher] of cd2n-node/actors/resource_actor.go (lines
    278-354): a goroutine offers peers over a bounded channel, others query them and
    collect the answers in a shared map, and the call returns when all have ended.
    Connecting to a peer and querying it is one step of a worker. *)

From S2P Require Import Prelude GoStrings Json Codec Types Stream GoOs Lib External Storage Credit CacheActor.
From S2P Require Import ResourceActor.

(** A worker: at [range peerCh], holding a positive answer, or returned. *)
Inductive worker :=
  | Waiting
  | Answered (p : string) (r : CacheResponse)
  | Ended.

(** [to_send] are the peers the provider goroutine has yet to offer, [buffer] the
    channel's content, [closed] whether it closed the channel, and so returned. *)
Record query (Net Sel : Type) := mkQuery {
  q_net : Net;
  q_sel : Sel;
  to_send : list string;
  buffer : list string;
  closed : bool;
  workers : list worker;
  cachedFilePeers : gmap string CacheResponse;
}.
Arguments mkQuery {Net Sel} _ _ _ _ _ _ _.
Arguments q_net {Net Sel} _.
Arguments q_sel {Net Sel} _.
Arguments to_send {Net Sel} _.
Arguments buffer {Net Sel} _.
Arguments closed {Net Sel} _.
Arguments workers {Net Sel} _.
Arguments cachedFilePeers {Net Sel} _.

(** The number of peers to ask and of workers, of the [n] peers known. *)
Definition peer_number (strategy : CacheStrategy) (n : Z) : Z :=
  let peerNum := n - 1 in
  if Z.quot (NeighborNum strategy) 3 <? peerNum then NeighborNum strategy else peerNum.

Definition worker_number (strategy : CacheStrategy) (n : Z) : Z :=
  let peerNum := peer_number strategy n in
  let threadNum := Z.quot (NeighborNum strategy) 3 in
  let threadNum := if peerNum <? threadNum then peerNum else threadNum in
  if threadNum <=? 0 then 1 else threadNum.

Section neighbor_query.
Context {Net Sel : Type} `{CacheNet Net} `{PeerHost Net} `{Selector Sel} `{Multihash}
  `{PkgErrors} `{FloatText} `{JsonMessages}.
Context (strategy : CacheStrategy) (acc : slice byte) (fileHash segmentHash : string).
Abbreviation query := (query Net Sel).

Definition segment_request : CacheRequest :=
  mkCacheRequest "" "" (filepath_Join [fileHash; segmentHash]) acc None None.

(** One peer: the answer when the segment is cached or being loaded there. *)
Definition ask_peer (net : Net) (sel : Sel) (p : string) : option CacheResponse * (Net * Sel) :=
  match Connect net p with
  | (Some _, net) => (None, (net, sel))
  | (None, net) =>
      match QueryFileInfoFromCache net p segment_request with
      | ((_, Some _), net) => (None, (net, Feedback sel p false))
      | ((resp, None), net) =>
          let sel := Feedback sel p true in
          if decide (resp_Status resp ≠ STATUS_HIT /\ resp_Status resp ≠ STATUS_LOADING)
          then (None, (net, sel)) else (Some resp, (net, sel))
      end
  end.

Definition with_workers (ws : list worker) (q : query) : query :=
  mkQuery (q_net q) (q_sel q) (to_send q) (buffer q) (closed q) ws (cachedFilePeers q).

(** [n] is the capacity of the channel. *)
Inductive query_step (n : Z) : query -> query -> Prop :=
  | offer q p ps : to_send q = p :: ps -> len (buffer q) < n ->
      query_step n q (mkQuery (q_net q) (q_sel q) ps (buffer q ++ [p])%list (closed q) (workers q)
                       (cachedFilePeers q))
  | close_channel q : to_send q = [] -> closed q = false ->
      query_step n q (mkQuery (q_net q) (q_sel q) [] (buffer q) true (workers q) (cachedFilePeers q))
  | ask q p ps before after answer ns :
      buffer q = p :: ps -> workers q = (before ++ Waiting :: after)%list ->
      ask_peer (q_net q) (q_sel q) p = (answer, ns) ->
      query_step n q (mkQuery (fst ns) (snd ns) (to_send q) ps (closed q)
        (before ++ (match answer with Some r => Answered p r | None => Waiting end) :: after)%list
        (cachedFilePeers q))
  | range_ends q before after :
      buffer q = [] -> closed q = true -> workers q = (before ++ Waiting :: after)%list ->
      query_step n q (with_workers (before ++ Ended :: after)%list q)
  | enough q p r before after :
      workers q = (before ++ Answered p r :: after)%list ->
      AvgCachedSegmentNum strategy <= Z.of_nat (size (cachedFilePeers q)) ->
      query_step n q (with_workers (before ++ Ended :: after)%list q)
  | collect q p r before after :
      workers q = (before ++ Answered p r :: after)%list ->
      Z.of_nat (size (cachedFilePeers q)) < AvgCachedSegmentNum strategy ->
      query_step n q (mkQuery (q_net q) (q_sel q) (to_send q) (buffer q) (closed q)
        (before ++ Waiting :: after)%list (<[p := r]> (cachedFilePeers q))).

(** The peers: first the providers the network names, then the selector's. *)
Definition find_providers (net : Net) : list string * Net :=
  match hashToCid segmentHash with
  | inr _ => ([], net)
  | inl cid => let '((ps, _), net) := FindProviders net cid in (ps, net)
  end.

Definition query_start (n : Z) (net : Net) (sel : Sel) (peers : list string) : query :=
  let '(ps, net) := find_providers net in
  mkQuery net sel (ps ++ peers)%list [] false (replicate (Z.to_nat n) Waiting) ∅.

(** [wg.Wait] returns when the provider and all workers have. *)
Definition query_done (q : query) : Prop :=
  closed q = true /\ Forall (fun w => w = Ended) (workers q).

Inductive QuerySegmentFromNeighborCacher (net : Net) (sel : Sel)
    : gmap string CacheResponse + string -> Net * Sel -> Prop :=
  | no_neighbor :
      GetPeersNumber sel - 1 <= 0 ->
      QuerySegmentFromNeighborCacher net sel (inr "no neighbor cache node") (net, sel)
  | no_iterator e :
      0 < GetPeersNumber sel - 1 ->
      NewPeersIterator sel (peer_number strategy (GetPeersNumber sel)) = inr e ->
      QuerySegmentFromNeighborCacher net sel (inr e) (net, sel)
  | queried peers q :
      0 < GetPeersNumber sel - 1 ->
      NewPeersIterator sel (peer_number strategy (GetPeersNumber sel)) = inl peers ->
      rtc (query_step (worker_number strategy (GetPeersNumber sel)))
        (query_start (worker_number strategy (GetPeersNumber sel)) net sel peers) q ->
      query_done q ->
      QuerySegmentFromNeighborCacher net sel (inl (cachedFilePeers q)) (q_net q, q_sel q).

(** ** What is collected *)

Definition positive (r : CacheResponse) : Prop :=
  resp_Status r = STATUS_HIT \/ resp_Status r = STATUS_LOADING.

Lemma ask_peer_positive net sel p r ns : ask_peer net sel p = (Some r, ns) -> positive r.
Proof.
  unfold ask_peer, positive. steps. intros [= -> <-].
  destruct (decide (resp_Status r = STATUS_HIT)); [by left|].
  destruct (decide (resp_Status r = STATUS_LOADING)); [by right|]. by destruct n1.
Qed.

Definition answer_ok (w : worker) : Prop :=
  match w with Answered _ r => positive r | _ => True end.

Record collecting (q : query) : Prop := {
  cq_size : Z.of_nat (size (cachedFilePeers q)) <= Z.max 0 (AvgCachedSegmentNum strategy);
  cq_found : map_Forall (fun _ r => positive r) (cachedFilePeers q);
  cq_workers : Forall answer_ok (workers q);
}.

Lemma size_insert_le {A} (m : gmap string A) k x : (size (<[k := x]> m) <= S (size m))%nat.
Proof. rewrite map_size_insert. destruct (m !! k); cbn; lia. Qed.

Lemma workers_replace (P : worker -> Prop) before w w' after :
  Forall P (before ++ w :: after)%list -> P w' -> Forall P (before ++ w' :: after)%list.
Proof.
  intros [Hb [_ Ha]%Forall_cons]%Forall_app Hw. apply Forall_app. split; [done|].
  by apply Forall_cons.
Qed.

Lemma collecting_step n q q' : collecting q -> query_step n q q' -> collecting q'.
Proof.
  intros [Hs Hf Hw] Hq. destruct Hq as [| |q p ps before after answer ns Hb Hws Ha
    |q before after Hb Hc Hws|q p r before after Hws Hsz|q p r before after Hws Hsz];
    try rewrite Hws in Hw; split; cbn [cachedFilePeers workers with_workers]; try done;
    try (by eapply workers_replace).
  - eapply workers_replace; [done|]. destruct answer; [by eapply ask_peer_positive|done].
  - pose proof (size_insert_le (cachedFilePeers q) p r). lia.
  - apply map_Forall_insert_2; [|done]. by apply Forall_app in Hw as [_ [? _]%Forall_cons].
Qed.

Lemma collecting_run n net sel peers q :
  rtc (query_step n) (query_start n net sel peers) q -> collecting q.
Proof.
  intros Hrun.
  refine (rtc_ind_r (fun q => collecting q) (query_start n net sel peers) _ _ _ Hrun).
  - unfold query_start. destruct (find_providers net) as [ps net'].
    split; cbn [cachedFilePeers workers]; [rewrite map_size_empty; lia|apply map_Forall_empty|].
    by apply Forall_replicate.
  - intros q1 q2 _ Hstep IH. by eapply collecting_step.
Qed.

(** The channel is closed only when every peer was offered. *)
Lemma closed_sent n net sel peers q :
  rtc (query_step n) (query_start n net sel peers) q -> closed q = true -> to_send q = [].
Proof.
  intros Hrun.
  refine (rtc_ind_r (fun q => closed q = true -> to_send q = []) (query_start n net sel peers) _ _ _ Hrun).
  - unfold query_start. by destruct (find_providers net).
  - intros q1 q2 _ Hstep IH. destruct Hstep as [q1 p ps Hs| | | | |];
      cbn [closed to_send with_workers]; try done.
    intros Hc. rewrite IH in Hs by done. done.
Qed.

(** ** What becomes of each peer *)

(** The peers whose answer a worker holds, and the workers that ended. *)
Definition held (ws : list worker) : list string :=
  w ← ws; match w with Answered p _ => [p] | _ => [] end.
Definition ended (ws : list worker) : nat :=
  length (w ← ws; match w with Ended => [tt] | _ => [] end).

Lemma held_app ws vs : held (ws ++ vs) = (held ws ++ held vs)%list.
Proof. apply bind_app. Qed.
Lemma ended_app ws vs : ended (ws ++ vs) = (ended ws + ended vs)%nat.
Proof. unfold ended. by rewrite bind_app, length_app. Qed.

(** With [total] distinct peers of which each answers: where they are. *)
Record accounted (n : Z) (total : nat) (q : query) : Prop := {
  ac_nodup : NoDup (to_send q ++ buffer q ++ held (workers q));
  ac_fresh : forall p, p ∈ (to_send q ++ buffer q ++ held (workers q))%list ->
    cachedFilePeers q !! p = None;
  ac_total : (total <= length (to_send q) + length (buffer q) + length (held (workers q))
    + size (cachedFilePeers q) + ended (workers q))%nat;
  ac_buffer : len (buffer q) <= n;
  ac_workers : len (workers q) = n;
}.

(** A worker that lets go of the answer of [p]. *)
Lemma held_replace w before after :
  (match w with Answered _ _ => False | _ => True end) ->
  held (before ++ w :: after) = (held before ++ held after)%list.
Proof. intros Hw. rewrite held_app. by destruct w. Qed.

Lemma drop_held (q : query) p r before after :
  NoDup (to_send q ++ buffer q ++ held (before ++ Answered p r :: after)) ->
  let rest := (to_send q ++ buffer q ++ held (before ++ Waiting :: after))%list in
  NoDup rest /\ (p ∉ rest)
  /\ (forall x, x ∈ rest -> x ∈ (to_send q ++ buffer q ++ held (before ++ Answered p r :: after))%list)
  /\ length (held (before ++ Answered p r :: after)) = S (length (held (before ++ Waiting :: after))).
Proof.
  intros Hn rest. subst rest. rewrite (held_replace Waiting) by done. rewrite held_app in *.
  change (held (Answered p r :: after)) with (p :: held after) in *.
  assert (Hp : (to_send q ++ buffer q ++ held before ++ p :: held after)%list
    ≡ₚ (p :: to_send q ++ buffer q ++ held before ++ held after)%list) by solve_Permutation.
  rewrite Hp in Hn. apply NoDup_cons in Hn as [Hin Hn].
  split_and!; [done|done| |rewrite !length_app; cbn [length]; lia].
  intros x Hx. rewrite Hp. by right.
Qed.

(** A worker takes a peer off the channel and gets its answer. *)
Lemma accounted_ask n total q net sel p ps r before after :
  accounted n total q -> buffer q = p :: ps -> workers q = (before ++ Waiting :: after)%list ->
  accounted n total (mkQuery net sel (to_send q) ps (closed q) (before ++ Answered p r :: after)%list
    (cachedFilePeers q)).
Proof.
  intros [Hn Hf Ht Hb Hw] Hbuf Hws. rewrite Hbuf, Hws, ?held_app, ?ended_app in *.
  change (held (Waiting :: after)) with (held after) in *.
  assert (Hp : (to_send q ++ (p :: ps) ++ held before ++ held after)%list
    ≡ₚ (to_send q ++ ps ++ held (before ++ Answered p r :: after))%list).
  { rewrite held_app. change (held (Answered p r :: after)) with (p :: held after). solve_Permutation. }
  split; cbn [to_send buffer workers cachedFilePeers]; [by rewrite <- Hp| | | |].
  - intros x. rewrite <- Hp. apply Hf.
  - rewrite held_app, ended_app, !length_app in *.
    change (held (Answered p r :: after)) with (p :: held after).
    change (ended (Answered p r :: after)) with (ended after).
    change (ended (Waiting :: after)) with (ended after) in *. cbn [length] in *. lia.
  - rewrite len_cons in Hb. lia.
  - by rewrite len_app, len_cons in *.
Qed.

Lemma accounted_step n total q q' :
  (forall net sel p, is_Some (fst (ask_peer net sel p))) ->
  accounted n total q -> query_step n q q' -> accounted n total q'.
Proof.
  intros Hask [Hn Hf Ht Hb Hw] Hq.
  destruct Hq as [q p ps Hs Hlt|q Hs Hc|q p ps before after answer ns Hbuf Hws Ha
    |q before after Hbuf Hc Hws|q p r before after Hws Hsz|q p r before after Hws Hsz];
    try rewrite Hws in *; try rewrite Hs in *; try rewrite Hbuf in *.
  - assert (Hp : ((p :: ps) ++ buffer q ++ held (workers q))%list
      ≡ₚ (ps ++ (buffer q ++ [p]) ++ held (workers q))%list) by solve_Permutation.
    split; cbn [to_send buffer workers cachedFilePeers]; [by rewrite <- Hp| | | |done].
    + intros x. rewrite <- Hp. apply Hf.
    + rewrite length_app. cbn [length] in *. lia.
    + autorewrite with golist. lia.
  - by split.
  - pose proof (Hask (q_net q) (q_sel q) p) as [r Hr]. rewrite Ha in Hr. cbn [fst] in Hr. subst answer.
    apply accounted_ask; try done. by split; rewrite ?Hbuf, ?Hws.
  - rewrite held_app, ended_app, !length_app in *.
    split; cbn [with_workers to_send buffer workers cachedFilePeers]; rewrite ?Hbuf, ?held_app; try done.
    + rewrite ended_app, length_app. change (ended (Ended :: after)) with (S (ended after)).
      change (ended (Waiting :: after)) with (ended after) in *.
      change (held (Ended :: after)) with (held after). change (held (Waiting :: after)) with (held after) in *. lia.
    + by rewrite len_app, len_cons in *.
  - destruct (drop_held q p r before after Hn) as (Hn' & _ & Hsub & Hlen).
    rewrite ended_app in Ht. change (ended (Answered p r :: after)) with (ended after) in Ht.
    rewrite (held_replace Waiting) in Hn', Hsub, Hlen by done.
    split; cbn [with_workers to_send buffer workers cachedFilePeers]; rewrite ?(held_replace Ended) by done;
      [done| | |done|].
    + intros x Hx. by apply Hf, Hsub.
    + rewrite ended_app. change (ended (Ended :: after)) with (S (ended after)).
      lia.
    + by rewrite len_app, len_cons in *.
  - destruct (drop_held q p r before after Hn) as (Hn' & Hp & Hsub & Hlen).
    rewrite ended_app in Ht. change (ended (Answered p r :: after)) with (ended after) in Ht.
    assert (Hnew : cachedFilePeers q !! p = None).
    { apply Hf. rewrite held_app. rewrite !elem_of_app. right. right. right. by left. }
    split; cbn [to_send buffer workers cachedFilePeers]; [done| | |done|].
    + intros x Hx. rewrite lookup_insert_ne by (intros ->; by apply Hp). by apply Hf, Hsub.
    + rewrite ended_app, map_size_insert_None by done.
      change (ended (Waiting :: after)) with (ended after). lia.
    + by rewrite len_app, len_cons in *.
Qed.
End neighbor_query.

Lemma worker_number_pos strategy n : 0 < worker_number strategy n.
Proof. unfold worker_number. repeat case_match; lia. Qed.

Section properties.
Context {Net Sel : Type} `{CacheNet Net} `{PeerHost Net} `{Selector Sel} `{Multihash}
  `{PkgErrors} `{FloatText} `{JsonMessages}.
Context (strategy : CacheStrategy) (acc : slice byte) (fileHash segmentHash : string).

Lemma accounted_run n net sel peers q :
  (forall net (sel : Sel) p, is_Some (fst (ask_peer acc fileHash segmentHash net sel p))) -> 0 <= n ->
  NoDup (fst (find_providers segmentHash net) ++ peers) ->
  rtc (query_step strategy acc fileHash segmentHash n) (query_start segmentHash n net sel peers) q ->
  accounted n (length (fst (find_providers segmentHash net) ++ peers)) q.
Proof.
  intros Hask Hn Hnd Hrun.
  refine (rtc_ind_r (fun q => accounted n _ q) (query_start segmentHash n net sel peers) _ _ _ Hrun).
  - unfold query_start. destruct (find_providers segmentHash net) as [ps net']. cbn [fst] in *.
    assert (Hh : forall k, held (replicate k Waiting) = []) by (intros k; by induction k).
    split; cbn [to_send buffer workers cachedFilePeers]; rewrite ?Hh, ?app_nil_r; try done.
    + cbn [length]. rewrite map_size_empty. lia.
    + rewrite len_replicate. lia.
  - intros q1 q2 _ Hstep IH. by eapply accounted_step.
Qed.

Lemma ended_le ws : (ended ws <= length ws)%nat.
Proof. induction ws as [|[]]; cbn in *; unfold ended in *; lia. Qed.

(** C18: What [QuerySegmentFromNeighborCacher] returns, in whatever order its goroutines
    ran: at most [AvgCachedSegmentNum] peers, each of which answered that it holds the
    segment or is loading it. *)
Theorem neighbor_answers_bounded (net : Net) (sel : Sel) m ns
    (Hret : QuerySegmentFromNeighborCacher strategy acc fileHash segmentHash net sel (inl m) ns) :
  Z.of_nat (size m) <= Z.max 0 (AvgCachedSegmentNum strategy)
  /\ map_Forall (fun _ r => resp_Status r = STATUS_HIT \/ resp_Status r = STATUS_LOADING) m.
Proof.
  inversion Hret as [| |peers q Hn Hit Hrun Hd]; subst.
  by destruct (collecting_run _ _ _ _ _ _ _ _ _ Hrun).
Qed.

(** C9: When more than [AvgCachedSegmentNum] plus twice the number of workers distinct
    peers all answer positively, [QuerySegmentFromNeighborCacher] never returns: its
    workers end once enough is collected, and the goroutine that offers the remaining
    peers stays blocked on the full channel. *)
Theorem neighbor_query_deadlocks (net : Net) (sel : Sel) peers q
    (Hask : forall net (sel : Sel) p, is_Some (fst (ask_peer acc fileHash segmentHash net sel p)))
    (Hdistinct : NoDup (fst (find_providers segmentHash net) ++ peers))
    (Hmany : Z.max 0 (AvgCachedSegmentNum strategy) + 2 * worker_number strategy (GetPeersNumber sel)
               < len (fst (find_providers segmentHash net) ++ peers))
    (Hrun : rtc (query_step strategy acc fileHash segmentHash (worker_number strategy (GetPeersNumber sel)))
      (query_start segmentHash (worker_number strategy (GetPeersNumber sel)) net sel peers) q) :
  ~ query_done q.
Proof.
  intros [Hc Hd]. pose proof (worker_number_pos strategy (GetPeersNumber sel)) as Hpos.
  set (n := worker_number strategy (GetPeersNumber sel)) in *.
  destruct (collecting_run _ _ _ _ _ _ _ _ _ Hrun) as [Hs _ _].
  pose proof (closed_sent _ _ _ _ _ _ _ _ _ Hrun Hc) as Hsent.
  destruct (accounted_run n net sel peers q Hask ltac:(lia) Hdistinct Hrun) as [_ _ Ht Hb Hw].
  assert (Hh : held (workers q) = []).
  { clear -Hd. by induction Hd as [|w ws -> _ IH]. }
  rewrite Hh, Hsent in Ht. cbn [length] in Ht. pose proof (ended_le (workers q)).
  unfold len in *. lia.
Qed.
End properties.

(** ** A sample network *)

(** Every peer can be reached, none provides anything by hash, and all give the same reply. *)
#[export] Instance sample_host {Net} : PeerHost Net | 100 := {
  Connect net _ := (None, net);
  FindProviders net _ := (([], None), net);
  Provide net _ := (None, net);
}.

Instance hit_net : CacheNet unit := {
  exchange _ _ _ := (Replied (print sample_reply), tt);
}.

(** The selector as the list of its peers. *)
#[export] Instance sample_selector : Selector (list string) | 100 := {
  GetPeersNumber l := len l;
  NewPeersIterator l n := inl (take (Z.to_nat n) l);
  Feedback l _ _ := l;
}.

#[export] Instance sample_multihash : Multihash | 100 := {
  multihash_Encode b := inl b;
  NewCidV1 b := b;
}.

Definition sample_strategy : CacheStrategy := NewResourceActor (mkCacheStrategy 0 0 0 0).

Section witnesses.
#[local] Existing Instance sample_float_text.
#[local] Existing Instance sample_messages.

Lemma hit_net_hits (net : unit) (sel : list string) p :
  ask_peer None "fid" "sid" net sel p = (Some sample_response, (tt, sel)).
Proof. destruct net. vm_compute. reflexivity. Qed.

Definition sample_neighbors : list string := map big_String (seqZ 0 65).

Lemma neighbor_query_deadlocks_witness :
  let n := worker_number sample_strategy (GetPeersNumber sample_neighbors) in
  n = 21 /\ ~ query_done (query_start "sid" n tt sample_neighbors (take 64 sample_neighbors)).
Proof.
  split; [vm_compute; reflexivity|].
  apply (neighbor_query_deadlocks sample_strategy None "fid" "sid" tt sample_neighbors
    (take 64 sample_neighbors)).
  - intros net sel p. rewrite hit_net_hits. by eexists.
  - refine (bool_decide_eq_true_1 _ _). vm_compute. reflexivity.
  - apply Z.ltb_lt. vm_compute. reflexivity.
  - apply rtc_refl.
Defined.

(** Two peers known: one is asked, and its answer returned. *)
Lemma neighbor_answers_bounded_witness :
  exists m, QuerySegmentFromNeighborCacher sample_strategy None "fid" "sid" tt ["a"; "b"]
    (inl m) (tt, ["a"; "b"]) /\ size m = 1%nat /\ Z.of_nat (size m) <= 5.
Proof.
  set (q := fun send buf cl ws m => mkQuery tt ["a"; "b"] send buf cl ws m : query unit (list string)).
  set (m := {["a" := sample_response]} : gmap string CacheResponse).
  assert (Hret : QuerySegmentFromNeighborCacher sample_strategy None "fid" "sid" tt ["a"; "b"]
    (inl m) (tt, ["a"; "b"])).
  { apply (queried _ _ _ _ _ _ ["a"] (q [] [] true [Ended] m)); [done|reflexivity| |by repeat constructor].
    apply rtc_l with (q [] ["a"] false [Waiting] ∅);
      [by apply (offer _ _ _ _ _ (q ["a"] [] false [Waiting] ∅) "a" [])|].
    apply rtc_l with (q [] ["a"] true [Waiting] ∅);
      [by apply (close_channel _ _ _ _ _ (q [] ["a"] false [Waiting] ∅))|].
    apply rtc_l with (q [] [] true [Answered "a" sample_response] ∅).
    { exact (ask _ _ _ _ _ (q [] ["a"] true [Waiting] ∅) "a" [] [] [] _ _ eq_refl eq_refl
        (hit_net_hits tt ["a"; "b"] "a")). }
    apply rtc_l with (q [] [] true [Waiting] m);
      [by apply (collect _ _ _ _ _ (q [] [] true [Answered "a" sample_response] ∅) "a" sample_response [] [])|].
    apply rtc_l with (q [] [] true [Ended] m);
      [by apply (range_ends _ _ _ _ _ (q [] [] true [Waiting] m) [] [])|].
    apply rtc_refl. }
  exists m. split; [exact Hret|]. split; [reflexivity|].
  exact (proj1 (neighbor_answers_bounded _ _ _ _ _ _ _ _ Hret)).
Defined.
End witnesses.
