(* ===== verification/ResourceFacts.v ===== *)
(** * Properties of the resource actor

    What [DownloadStoragedFiles] hands to the cache actor when the neighbours give
    nothing, and the shuffling of the segments. *)

From S2P Require Import Prelude GoStrings Encoding Json Codec Types Stream GoOs Lib External Storage.
From S2P Require Import Credit CacheActor ResourceActor NeighborQuery.

(** ** Shuffling *)

Lemma swap_Permutation {A} (l : list A) i j : swap l i j ≡ₚ l.
Proof.
  unfold swap. destruct (l !! i) as [x|] eqn:Ei; [|done]. destruct (l !! j) as [y|] eqn:Ej; [|done].
  destruct (decide (i = j)) as [->|Hij].
  { simplify_eq. by rewrite !list_insert_id by (done || by rewrite list_insert_id). }
  apply Permutation_inj. split; [by rewrite !length_insert|].
  exists (fun k => if decide (k = i) then j else if decide (k = j) then i else k). split.
  - intros a b. repeat case_decide; congruence.
  - intros k. destruct (decide (k = i)) as [->|Hki].
    + rewrite Ej, list_lookup_insert_ne by done. apply list_lookup_insert_eq. by eapply lookup_lt_Some.
    + case_decide as Hkj; [subst k|].
      * rewrite Ei. apply list_lookup_insert_eq. rewrite length_insert. by eapply lookup_lt_Some.
      * by rewrite !list_lookup_insert_ne by done.
Qed.

Lemma ShuffleSegments_Permutation {A} intn (l : list A) : ShuffleSegments intn l ≡ₚ l.
Proof.
  unfold ShuffleSegments. generalize (pred (length l)) as i. intros i. revert l.
  induction i as [|i IH]; intros l; cbn [shuffle_from]; [done|]. by rewrite IH, swap_Permutation.
Qed.

Section resource.
Context {NET Net Sel : Type} `{StorageNet NET} `{CacheNet Net} `{PeerHost Net} `{Selector Sel}
  `{Multihash} `{Http Net} `{CessConfig} `{OsFaults} `{PkgErrors} `{FloatText} `{JsonMessages}.
Context (TempDir fhash shash : string).
Abbreviation world := (world NET Net Sel).

(** The response for a fragment read from storage. *)
Definition stored_response (f : FragmentInfo) : DownloadResponse :=
  mkDownloadResponse (filepath_Join [TempDir; frag_Hash f])
    (filepath_Join [fhash; shash; frag_Hash f]) (to_bytes ORIGIN_SITE_TAG).

(** What is added: responses for fragments of the segment, [DataShards] at most. *)
Lemma store_fragments_spec frags : forall (w : world) count provide resps,
  exists provide' w' fs,
    store_fragments TempDir w fhash shash count provide resps frags
      = ((provide', (resps ++ map stored_response fs)%list), w')
    /\ fs ⊆ frags /\ len fs <= Z.max 0 (DataShards - count).
Proof.
  induction frags as [|f frags IH]; intros w count provide resps; cbn [store_fragments].
  { exists provide, w, []. split_and!; [by rewrite app_nil_r|done|unfold len; cbn; lia]. }
  destruct (Z.leb_spec DataShards count).
  { exists provide, w, []. split_and!; [by rewrite app_nil_r|set_solver|unfold len; cbn; lia]. }
  assert (Hskip : forall (w : world) provide, exists provide' w' fs,
    store_fragments TempDir w fhash shash count provide resps frags
      = ((provide', (resps ++ map stored_response fs)%list), w')
    /\ fs ⊆ f :: frags /\ len fs <= Z.max 0 (DataShards - count)).
  { intros w1 p1. destruct (IH w1 count p1 resps) as (p & w' & fs & -> & Hs & Hl).
    exists p, w', fs. split_and!; [done|set_solver|done]. }
  destruct (QueryMinerItems _ _) as [peer|]; [|apply Hskip].
  destruct (ReadDataAction _ _ _ _ _) as [[e|] nf]; [apply Hskip|].
  destruct (provide_once _ _ _) as [p1 n1].
  edestruct IH as (p & w' & fs & -> & Hs & Hl).
  exists p, w', (f :: fs). split_and!.
  - cbn [map]. by rewrite <- app_assoc.
  - set_solver.
  - rewrite len_cons. lia.
Qed.

(** When every read succeeds, exactly the first [DataShards] fragments are added. *)
Lemma store_fragments_ok frags : forall (w : world) count provide resps,
  (forall n m, exists peer, QueryMinerItems (N := NET) n m = inl peer) ->
  (forall n fs peer h p, exists nf, ReadDataAction (N := NET) n fs peer h p = (None, nf)) ->
  exists provide' w',
    store_fragments TempDir w fhash shash count provide resps frags
      = ((provide', (resps ++ map stored_response (take (Z.to_nat (DataShards - count)) frags))%list), w').
Proof.
  intros w count provide resps Hm Hr. revert w count provide resps.
  induction frags as [|f frags IH]; intros w count provide resps; cbn [store_fragments].
  { exists provide, w. by rewrite take_nil, app_nil_r. }
  destruct (Z.leb_spec DataShards count).
  { exists provide, w. replace (Z.to_nat (DataShards - count)) with 0%nat by lia. by rewrite app_nil_r. }
  destruct (Hm (w_storage w) (Miner f)) as [peer ->].
  destruct (Hr (w_storage w) (w_fs w) peer (frag_Hash f) (filepath_Join [TempDir; frag_Hash f])) as [nf ->].
  destruct (provide_once _ _ _) as [p1 n1].
  edestruct IH as (p & w' & ->). exists p, w'.
  replace (Z.to_nat (DataShards - count)) with (S (Z.to_nat (DataShards - (count + 1)))) by lia.
  cbn [take map]. by rewrite <- app_assoc.
Qed.

Section alone.
Context (neighbors : Net * Sel -> string -> (list (string * CacheResponse) + string) * (Net * Sel)).
Context (strategy : CacheStrategy) (acc : slice byte).
Context (Halone : forall ns h, exists e ns', neighbors ns h = (inr e, ns')).

Lemma cache_segments_stored segs : forall (w : world) cacheNum num done provide resps,
  exists w' fs,
    cache_segments TempDir neighbors strategy acc fhash shash w cacheNum num done provide resps segs
      = ((resps ++ map stored_response fs)%list, w')
    /\ (forall f, f ∈ fs -> exists s, s ∈ segs /\ f ∈ FragmentList s)
    /\ len fs <= DataShards * Z.max 0 (cacheNum - num).
Proof.
  pose proof cess_config_positive as (Hd & _).
  induction segs as [|s segs IH]; intros w cacheNum num done provide resps; cbn [cache_segments].
  { exists w, []. split_and!; [by rewrite app_nil_r|set_solver|unfold len; cbn; nia]. }
  destruct (Z.leb_spec cacheNum num).
  { exists w, []. split_and!; [by rewrite app_nil_r|set_solver|unfold len; cbn; nia]. }
  case_match.
  { destruct (IH w cacheNum num (done || bool_decide (seg_Hash s = shash)) provide resps)
      as (w' & fs & -> & Hf & Hl).
    exists w', fs. split_and!; [done| |done]. intros f Hin. destruct (Hf f Hin) as (s' & ? & ?).
    exists s'. split; [by right|done]. }
  destruct (Halone (w_net w, w_selector w) (seg_Hash s)) as (e & ns & ->).
  destruct (store_fragments_spec (FragmentList s) (set_peers ns w) 0 provide resps)
    as (p & w1 & fs1 & -> & Hs1 & Hl1).
  edestruct IH as (w' & fs & -> & Hf & Hl). exists w', (fs1 ++ fs)%list. split_and!.
  - by rewrite map_app, app_assoc.
  - intros f [Hin|Hin]%elem_of_app.
    + exists s. split; [by left|by apply Hs1].
    + destruct (Hf f Hin) as (s' & ? & ?). exists s'. split; [by right|done].
  - rewrite len_app. nia.
Qed.

Lemma cache_segments_requested segs : forall (w : world) cacheNum num provide resps,
  (forall n m, exists peer, QueryMinerItems (N := NET) n m = inl peer) ->
  (forall n fs peer h p, exists nf, ReadDataAction (N := NET) n fs peer h p = (None, nf)) ->
  num < cacheNum -> (exists s, s ∈ segs /\ seg_Hash s = shash) ->
  exists s, s ∈ segs /\ seg_Hash s = shash /\
    forall f, f ∈ take (Z.to_nat DataShards) (FragmentList s) ->
      stored_response f ∈ fst (cache_segments TempDir neighbors strategy acc fhash shash w cacheNum num
        false provide resps segs).
Proof.
  intros w cacheNum num provide resps Hm Hr. revert w num provide resps.
  induction segs as [|s segs IH]; intros w num provide resps Hn [s0 [Hin Hs0]]; [by apply elem_of_nil in Hin|].
  cbn [cache_segments]. rewrite (proj2 (Z.leb_gt _ _)) by lia. rewrite orb_false_l.
  destruct (decide (seg_Hash s = shash)) as [Hs|Hs].
  - rewrite bool_decide_true by done. cbn [negb andb].
    destruct (Halone (w_net w, w_selector w) (seg_Hash s)) as (e & ns & ->).
    destruct (store_fragments_ok (FragmentList s) (set_peers ns w) 0 provide resps Hm Hr) as (p & w1 & ->).
    edestruct (cache_segments_stored segs) as (w' & fs & -> & _). exists s. split_and!; [by left|done|].
    intros f Hf. rewrite Z.sub_0_r. cbn [fst]. rewrite !elem_of_app. left. right.
    apply list_elem_of_In, in_map, list_elem_of_In, Hf.
  - rewrite bool_decide_false by done. cbn [negb].
    assert (Hin' : exists s, s ∈ segs /\ seg_Hash s = shash).
    { exists s0. split; [|done]. apply elem_of_cons in Hin as [->|]; done. }
    assert (Hlift : forall resps' : list DownloadResponse, (exists s, s ∈ segs /\ seg_Hash s = shash /\
        forall f, f ∈ take (Z.to_nat DataShards) (FragmentList s) -> stored_response f ∈ resps') ->
      exists s1, s1 ∈ s :: segs /\ seg_Hash s1 = shash /\
        forall f, f ∈ take (Z.to_nat DataShards) (FragmentList s1) -> stored_response f ∈ resps').
    { intros r (s1 & ? & ? & ?). exists s1. split_and!; [by right|done|done]. }
    apply Hlift. destruct (Z.leb_spec (cacheNum - 1) num); cbn [andb].
    + by apply IH.
    + destruct (Halone (w_net w, w_selector w) (seg_Hash s)) as (e & ns & ->).
      destruct (store_fragments_ok (FragmentList s) (set_peers ns w) 0 provide resps Hm Hr) as (p & w1 & ->).
      apply IH; [lia|done].
Qed.
End alone.
End resource.

(** ** Properties *)

Section properties.
Context {NET Net Sel : Type} `{StorageNet NET} `{CacheNet Net} `{PeerHost Net} `{Selector Sel}
  `{Multihash} `{Http Net} `{CessConfig} `{OsFaults} `{PkgErrors} `{FloatText} `{JsonMessages}.
Context (TempDir fhash shash : string).
Context (neighbors : Net * Sel -> string -> (list (string * CacheResponse) + string) * (Net * Sel)).
Context (strategy : CacheStrategy) (acc : slice byte) (intn : nat -> nat).

(** C22: Without neighbours, when the storage miners answer and the strategy allows at
    least one segment, [DownloadStoragedFiles] always delivers the requested segment:
    however the segments were shuffled, the responses hold its first [DataShards]
    fragments. *)
Theorem DownloadStoragedFiles_requested (w : world NET Net Sel) fmeta cacheNum
    (Hfile : QueryFile (w_storage w) fhash = inl fmeta)
    (Hnum : cache_number strategy (len (SegmentList fmeta)) = Returns cacheNum) (Hone : 1 <= cacheNum)
    (Halone : forall ns h, exists e ns', neighbors ns h = (inr e, ns'))
    (Hminers : forall n m, exists peer, QueryMinerItems (N := NET) n m = inl peer)
    (Hreads : forall n fs peer h p, exists nf, ReadDataAction (N := NET) n fs peer h p = (None, nf))
    (Hin : exists s, s ∈ SegmentList fmeta /\ seg_Hash s = shash) :
  exists resps w' s,
    DownloadStoragedFiles TempDir neighbors strategy acc fhash shash intn w = Returns ((resps, None), w')
    /\ s ∈ SegmentList fmeta /\ seg_Hash s = shash
    /\ forall f, f ∈ take (Z.to_nat DataShards) (FragmentList s) ->
         stored_response TempDir fhash shash f ∈ resps.
Proof.
  unfold DownloadStoragedFiles. rewrite Hfile, Hnum. cbn [mbind outcome_bind].
  pose proof (ShuffleSegments_Permutation intn (SegmentList fmeta)) as Hp.
  destruct (cache_segments_requested TempDir fhash shash neighbors strategy acc Halone
    (ShuffleSegments intn (SegmentList fmeta)) w cacheNum 0 false [] Hminers Hreads)
    as (s & Hs & Hh & Hf); [lia|by setoid_rewrite Hp|].
  destruct (cache_segments _ _ _ _ _ _ _ _ _ _ _ _ _) as [resps w'].
  exists resps, w', s. split_and!; [done|by rewrite <- Hp|done|done].
Qed.

(** Without neighbours, every response of [DownloadStoragedFiles] files its fragment
    under the {e requested} segment, though the fragment comes from any segment of the
    file; and there are at most [DataShards] responses for each segment the strategy
    allows. *)
Theorem DownloadStoragedFiles_misfiles (w : world NET Net Sel) fmeta cacheNum
    (Hfile : QueryFile (w_storage w) fhash = inl fmeta)
    (Hnum : cache_number strategy (len (SegmentList fmeta)) = Returns cacheNum)
    (Halone : forall ns h, exists e ns', neighbors ns h = (inr e, ns')) :
  exists w' fs,
    DownloadStoragedFiles TempDir neighbors strategy acc fhash shash intn w
      = Returns ((map (stored_response TempDir fhash shash) fs, None), w')
    /\ (forall f, f ∈ fs -> exists s, s ∈ SegmentList fmeta /\ f ∈ FragmentList s)
    /\ len fs <= DataShards * Z.max 0 cacheNum.
Proof.
  unfold DownloadStoragedFiles. rewrite Hfile, Hnum. cbn [mbind outcome_bind].
  pose proof (ShuffleSegments_Permutation intn (SegmentList fmeta)) as Hp.
  destruct (cache_segments_stored TempDir fhash shash neighbors strategy acc Halone
    (ShuffleSegments intn (SegmentList fmeta)) w cacheNum 0 false false []) as (w' & fs & -> & Hf & Hl).
  exists w', fs. split_and!; [done| |by rewrite Z.sub_0_r in Hl].
  intros f (s & Hs & Hfs)%Hf. exists s. split; [by rewrite <- Hp|done].
Qed.
End properties.

(** ** A file of two segments, no neighbour *)

Definition tiny_shards : CessConfig.
Proof. by refine {| DataShards := 2; ParShards := 1; sdk_FragmentSize := 4; SegmentSize := 8 |}. Defined.

Definition two_segments : FileMetadata :=
  mkFileMetadata
    [mkSegmentInfo "sa" [mkFragmentInfo "a1" [x01]; mkFragmentInfo "a2" [x02]; mkFragmentInfo "a3" [x03]];
     mkSegmentInfo "sb" [mkFragmentInfo "b1" [x01]; mkFragmentInfo "b2" [x02]; mkFragmentInfo "b3" [x03]]]
    16.

Definition good_storage : StorageNet unit := {|
  QueryFile _ f := inl two_segments;
  QueryMinerItems _ m := inl "peer";
  ReadDataAction n fs _ h p := (None, (n, set_files (<[p := to_bytes h]> (files fs)) fs));
  RSRestore fs p paths := (None, fs);
  AesCbcDecrypt b _ := inl b;
  spare_capacity _ := 0%nat |}.

Section witnesses.
#[local] Existing Instance tiny_shards.
#[local] Existing Instance good_storage.
#[local] Existing Instance sample_float_text.
#[local] Existing Instance sample_messages.

Definition no_neighbors (ns : unit * list string) (h : string)
  : (list (string * CacheResponse) + string) * (unit * list string) := (inr "no neighbor cache node", ns).

Definition tiny_world : world unit unit (list string) := mkWorld tt tt [] (mkFS ∅ ∅).

(** Shuffled, the segment asked for comes last. *)
Lemma DownloadStoragedFiles_requested_witness :
  exists resps w',
    DownloadStoragedFiles "/t" no_neighbors sample_strategy None "fid" "sb" (fun i => i) tiny_world
      = Returns ((resps, None), w')
    /\ mkDownloadResponse "/t/b1" "fid/sb/b1" (to_bytes ORIGIN_SITE_TAG) ∈ resps.
Proof.
  destruct (DownloadStoragedFiles_requested "/t" "fid" "sb" no_neighbors sample_strategy None (fun i => i)
    tiny_world two_segments 3) as (resps & w' & s & Hr & Hs & Hh & Hf); try done.
  - intros ns h. by eexists _, _.
  - intros n m. by eexists.
  - intros n fs peer h p. by eexists.
  - eexists. split; [right; by left|done].
  - exists resps, w'. split; [exact Hr|].
    apply (Hf (mkFragmentInfo "b1" [x01])).
    apply elem_of_cons in Hs as [->|Hs]; [done|].
    apply list_elem_of_singleton in Hs as ->. by left.
Defined.

(** The fragments of the other segment are filed under [sb] too. *)
Lemma DownloadStoragedFiles_misfiles_witness :
  exists resps w',
    DownloadStoragedFiles "/t" no_neighbors sample_strategy None "fid" "sb" (fun i => i) tiny_world
      = Returns ((resps, None), w')
    /\ map Key resps = ["fid/sb/a1"; "fid/sb/a2"; "fid/sb/b1"; "fid/sb/b2"].
Proof.
  destruct (DownloadStoragedFiles_misfiles "/t" "fid" "sb" no_neighbors sample_strategy None (fun i => i)
    tiny_world two_segments 3) as (w' & fs & Hr & Hf & Hl); try done.
  - intros ns h. by eexists _, _.
  - exists (map (stored_response "/t" "fid" "sb") fs), w'. split; [exact Hr|]. revert Hr.
    generalize (map (stored_response "/t" "fid" "sb") fs). intros r Hr.
    vm_compute in Hr. by injection Hr as <- _.
Defined.
End witnesses.
