(* ===== verification/ClientFiles.v ===== *)
(** * Files of the client: cd2n-client/client/files.go, lines 27-178 and 257-357

    Downloading files and segments, from the cachers when they have them and from the
    storage network otherwise, and the transfers through a gateway. What the cachers
    answer and what is fetched from them are arguments: files CacherQuery and SegmentFetch
    hold the code that does it. *)

From S2P Require Import Prelude GoStrings Encoding Json Codec Types GoOs External Storage FileBox.

(** [X] is the rest of the world, the cachers among it. *)
Record cworld (NET X : Type) := mkCworld { cw_storage : NET; cw_fs : FS; cw_rest : X }.
Arguments mkCworld {NET X} _ _ _.
Arguments cw_storage {NET X} _.
Arguments cw_fs {NET X} _.
Arguments cw_rest {NET X} _.

(** cess-go-sdk's package process: splitting a file into chunks of a directory gives
    their total size and number; the transfers give a transaction. *)
Class Gateway (X : Type) := {
  SplitFileWithstandardSize : FS -> string -> string -> (Z * Z * error) * FS;
  UploadFileChunks : X -> FS -> string -> string -> string -> string -> string -> string -> string ->
    Z -> Z -> (string * error) * X;
  RetrieveFile : X -> FS -> string -> string -> string -> string -> error * (X * FS);
}.

(** [os.Mkdir] of a path that must not exist, and [os.RemoveAll] of a tree. *)
Definition os_Mkdir `{OsFaults} (fs : FS) (p : string) : FS * error :=
  match os_fault OpMkdir p with
  | Some e => (fs, Some e)
  | None =>
      if decide (p ∈ dirs fs \/ is_Some (files fs !! p)) then (fs, errors_New ("mkdir " +:+ p +:+ ": file exists"))
      else (mkFS (files fs) ({[ p ]} ∪ dirs fs), None)
  end.

Definition under (p q : string) : bool := bool_decide (q = p) || strings_HasPrefix q (p +:+ "/").

Definition os_RemoveAll `{OsFaults} (fs : FS) (p : string) : error * FS :=
  match os_fault OpRemove p with
  | Some e => (Some e, fs)
  | None => (None, mkFS (filter (fun kv => under p (fst kv) = false) (files fs))
                        (filter (fun q => under p q = false) (dirs fs)))
  end.

(** The metadata of a box as JSON; its slices are built by [append], so empty ones are
    nil. *)
Definition enc_slice (l : list json) : json := match l with [] => JNull | _ => JArr l end.

Definition enc_FilePlate (p : FilePlate) : json :=
  JObj [("segment_hash", JStr (SegmentHash p)); ("file_names", enc_slice (map JStr (Files p)));
        ("file_indexs", enc_slice (map enc_int (Indexs p)))].

Definition enc_FileBox (b : FileBox) : json :=
  JObj [("file_hash", JStr (FileHash b)); ("total_size", enc_int (TotalSize b));
        ("padding_size", enc_int (PaddingSize b)); ("file_plates", enc_slice (map enc_FilePlate (Plates b)))].

Section clientfiles.
Context {NET X : Type} `{StorageNet NET} `{Gateway X} `{CessConfig} `{OsFaults} `{PkgErrors}.
Abbreviation world := (cworld NET X).

Definition set_fs (fs : FS) (w : world) : world := mkCworld (cw_storage w) fs (cw_rest w).
Definition set_store (p : NET * FS) (w : world) : world := mkCworld (fst p) (snd p) (cw_rest w).
Definition set_rest (x : X) (w : world) : world := mkCworld (cw_storage w) (cw_fs w) x.

Section cached.
Context (query_cachers : world -> string -> (list (string * CacheResponse) + string) * world).
Context (fetch_cachers : world -> string -> list (string * CacheResponse) -> list string * world).

(** The fragments still missing, asked of the miners under the {e segment's} hash. The
    result is the error of the restoration, or whether there was one; the fragments
    are those read in the end. *)
Fixpoint top_up (all : list string -> list string) (w : world) (dir shash segPath : string)
    (fragments : list string) (frags : list FragmentInfo)
    : (option error * list string) * world :=
  match frags with
  | [] => ((None, fragments), w)
  | f :: frags =>
      if DataInList (frag_Hash f) fragments then top_up all w dir shash segPath fragments frags
      else
        match QueryMinerItems (cw_storage w) (Miner f) with
        | inr _ => top_up all w dir shash segPath fragments frags
        | inl peer =>
            let fragmentpath := filepath_Join [dir; frag_Hash f] in
            match ReadDataAction (cw_storage w) (cw_fs w) peer shash fragmentpath with
            | (Some _, nf) => top_up all (set_store nf w) dir shash segPath fragments frags
            | (None, nf) =>
                let w := set_store nf w in
                let fragments := (fragments ++ [fragmentpath])%list in
                if DataShards <=? len fragments then
                  let '(err, fs) := RSRestore (cw_fs w) segPath (all fragments) in
                  ((Some err, fragments), set_fs fs w)
                else top_up all w dir shash segPath fragments frags
            end
        end
  end.

Definition shards (fragments : list string) : list string := take (Z.to_nat DataShards) fragments.

(** One segment of [DownloadFile]: whether its path was added. *)
Definition client_segment (w : world) (fdir fhash : string) (segment : SegmentInfo)
    : (option string + error) * world :=
  let msg := "download file error" in
  let shash := seg_Hash segment in
  let from_storage (w : world) :=
    let '((segPath, err), nf) := DownloadSegmentFromStorage (cw_storage w, cw_fs w) fdir fhash shash in
    (match err with Some e => inr (Wrap (Some e) msg) | None => inl (Some segPath) end, set_store nf w) in
  match query_cachers w shash with
  | (inr _, w) => from_storage w
  | (inl [], w) => from_storage w
  | (inl cached, w) =>
      let '(fragments, w) := fetch_cachers w shash cached in
      let segPath := filepath_Join [fdir; shash] in
      if DataShards <=? len fragments then
        match RSRestore (cw_fs w) segPath (shards fragments) with
        | (Some e, fs) => (inr (Wrap (Some e) msg), set_fs fs w)
        | (None, fs) => (inl (Some segPath), set_fs (remove_all fs fragments) w)
        end
      else
        match top_up id w fdir shash segPath fragments (FragmentList segment) with
        | ((None, _), w) => (inl None, w)
        | ((Some (Some e), _), w) => (inr (Wrap (Some e) msg), w)
        | ((Some None, fragments), w) => (inl (Some segPath), set_fs (remove_all (cw_fs w) fragments) w)
        end
  end.

Fixpoint client_segments (w : world) (fdir fhash : string) (segmentPaths : list string)
    (segs : list SegmentInfo) : (error * list string) * world :=
  match segs with
  | [] => ((None, segmentPaths), w)
  | segment :: segs =>
      match client_segment w fdir fhash segment with
      | (inr e, w) => ((e, segmentPaths), w)
      | (inl None, w) => client_segments w fdir fhash segmentPaths segs
      | (inl (Some p), w) => client_segments w fdir fhash (segmentPaths ++ [p])%list segs
      end
  end.

Definition DownloadFile (w : world) (fdir fhash cipher : string)
    : outcome ((string * error) * world) :=
  let msg := "download file error" in
  match os_Stat (cw_fs w) fdir with
  | inr e => Returns (("", Wrap (Some e) msg), w)
  | inl _ =>
      let dlfile := filepath_Join [fdir; fhash] in
      match os_Create (cw_fs w) dlfile with
      | (fs, Some e) => Returns (("", Wrap (Some e) msg), set_fs fs w)
      | (fs, None) =>
          let w := set_fs fs w in
          match QueryFile (cw_storage w) fhash with
          | inr e => Returns ((dlfile, Wrap (Some e) msg), w)
          | inl fmeta =>
              let '((err, segmentPaths), w) := client_segments w fdir fhash [] (SegmentList fmeta) in
              let clean (w : world) := set_fs (remove_all (cw_fs w) segmentPaths) w in
              match err with
              | Some _ => Returns ((dlfile, err), clean w)
              | None =>
                  if decide (len segmentPaths ≠ len (SegmentList fmeta)) then
                    Returns ((dlfile, Wrap (errors_New "the number of downloaded segments is inconsistent") msg),
                             clean w)
                  else
                    '(err, out) ← RecoveryFileViaSegments (file_write dlfile) (cw_fs w) segmentPaths fmeta cipher;
                    let w := set_fs (set_files (<[dlfile := out]> (files (cw_fs w))) (cw_fs w)) w in
                    Returns ((dlfile, Wrap err msg), clean w)
              end
          end
      end
  end.

(** [DownloadSegment]'s loop over the segments of the file. *)
Fixpoint top_up_segments (w : world) (sdir shash segPath : string) (fragments : list string)
    (segs : list SegmentInfo) : (option error * list string) * world :=
  match segs with
  | [] => ((None, fragments), w)
  | segment :: segs =>
      if decide (seg_Hash segment ≠ shash) then top_up_segments w sdir shash segPath fragments segs
      else
        match top_up shards w sdir shash segPath fragments (FragmentList segment) with
        | ((None, fragments), w) => top_up_segments w sdir shash segPath fragments segs
        | r => r
        end
  end.

Definition DownloadSegment (w : world) (fhash shash sdir : string) : (string * error) * world :=
  let msg := "download file segment error" in
  match os_Stat (cw_fs w) sdir with
  | inr e => (("", Wrap (Some e) msg), w)
  | inl _ =>
      let from_storage (w : world) :=
        let '((segPath, err), nf) := DownloadSegmentFromStorage (cw_storage w, cw_fs w) sdir fhash shash in
        (match err with Some e => ("", Wrap (Some e) msg) | None => (segPath, None) end, set_store nf w) in
      match query_cachers w shash with
      | (inr _, w) => from_storage w
      | (inl [], w) => from_storage w
      | (inl cached, w) =>
          let '(fragments, w) := fetch_cachers w shash cached in
          let clean (fragments : list string) (w : world) := set_fs (remove_all (cw_fs w) fragments) w in
          let segPath := filepath_Join [sdir; shash] in
          if DataShards <=? len fragments then
            match RSRestore (cw_fs w) segPath (shards fragments) with
            | (Some e, fs) => (("", Wrap (Some e) msg), clean fragments (set_fs fs w))
            | (None, fs) => ((segPath, None), clean fragments (set_fs fs w))
            end
          else
            match QueryFile (cw_storage w) fhash with
            | inr e => (("", Wrap (Some e) msg), clean fragments w)
            | inl fmeta =>
                let '((r, fragments), w) := top_up_segments w sdir shash segPath fragments (SegmentList fmeta) in
                match r with
                | None => ((segPath, Wrap (errors_New "the number of downloaded fragment is inconsistent") msg),
                           clean fragments w)
                | Some (Some e) => (("", Wrap (Some e) msg), clean fragments w)
                | Some None => ((segPath, None), clean fragments w)
                end
            end
      end
  end.
End cached.

(** ** Through a gateway *)

Definition UploadFileToGateway (w : world) (tmpDir mnemonic url territory bucket fpath cipher : string)
    : (string * error) * world :=
  let msg := "upload file to gateway error" in
  let chunksDir := filepath_Join [tmpDir; GetSha256Hash (to_bytes fpath)] in
  match os_Mkdir (cw_fs w) chunksDir with
  | (fs, Some e) => (("", Wrap (Some e) msg), set_fs fs w)
  | (fs, None) =>
      match SplitFileWithstandardSize fs fpath chunksDir with
      | ((_, _, Some e), fs) => (("", Wrap (Some e) msg), set_fs fs w)
      | ((size, num, None), fs) =>
          let name := snd (filepath_Split fpath) in
          match UploadFileChunks (cw_rest w) fs url mnemonic chunksDir territory bucket name cipher num size with
          | ((_, Some e), x) => (("", Wrap (Some e) msg), set_rest x (set_fs fs w))
          | ((tx, None), x) =>
              match os_RemoveAll fs chunksDir with
              | (Some e, fs) => (("", Wrap (Some e) msg), set_rest x (set_fs fs w))
              | (None, fs) => ((tx, None), set_rest x (set_fs fs w))
              end
          end
      end
  end.

Definition UploadDirToGateway (w : world) (tmpDir mnemonic url territory bucket fname cipher dir : string)
    (entries : list dir_entry + string) : outcome ((string * bytes * error) * world) :=
  let msg := "upload dir to gateway error" in
  '((box, fpath, err), fs) ← CreateAFileBox (cw_fs w) fname dir entries;
  match err with
  | Some e => Returns (("", [], Wrap (Some e) msg), set_fs fs w)
  | None =>
      let chunksDir := filepath_Join [tmpDir; fname] in
      match os_MkdirAll fs chunksDir with
      | (fs, Some e) => Returns (("", [], Wrap (Some e) msg), set_fs fs w)
      | (fs, None) =>
          match SplitFileWithstandardSize fs fpath chunksDir with
          | ((_, _, Some e), fs) => Returns (("", [], Wrap (Some e) msg), set_fs fs w)
          | ((size, num, None), fs) =>
              match UploadFileChunks (cw_rest w) fs url mnemonic chunksDir territory bucket fname cipher num size with
              | ((_, Some e), x) => Returns (("", [], Wrap (Some e) msg), set_rest x (set_fs fs w))
              | ((tx, None), x) => Returns ((tx, print (enc_FileBox box), None), set_rest x (set_fs fs w))
              end
          end
      end
  end.

Definition DownloadFileFromGateway (w : world) (mnemonic url fpath fhash : string) : error * world :=
  let '(err, (x, fs)) := RetrieveFile (cw_rest w) (cw_fs w) url fhash mnemonic fpath in
  (Wrap err "download file from gateway error", set_rest x (set_fs fs w)).

(** The stat of the target and, when it is a directory, its removal. *)
Definition remove_directory (fs : FS) (p : string) : error * FS :=
  match os_Stat fs p with
  | inl f => if fi_isdir f then os_RemoveAll fs p else (None, fs)
  | inr _ => (None, fs)
  end.

Definition DownloadFileInBoxFromGateway (w : world) (tmpDir mnemonic url fhash elemFileName : string)
    (boxMeta : FileBox) : outcome ((bytes * error) * world) :=
  let msg := "download file in box from gateway error" in
  match find_in_plates elemFileName 0 (Plates boxMeta) None with
  | None => Returns (([], Wrap (errors_New "data not found from box metadata") msg), w)
  | Some (sidx, didx) =>
      match QueryFile (cw_storage w) fhash with
      | inr e => Returns (([], Wrap (Some e) msg), w)
      | inl fmeta =>
          if decide (len (SegmentList fmeta) ≠ len (Plates boxMeta)) then
            Returns (([], Wrap (errors_New "the number of segments in box metadata is inconsistent") msg), w)
          else
            segment ← index (SegmentList fmeta) (Z.of_nat sidx);
            plate ← index (Plates boxMeta) (Z.of_nat sidx);
            let fpath := filepath_Join [tmpDir; seg_Hash segment] in
            match remove_directory (cw_fs w) fpath with
            | (Some e, fs) => Returns (([], Wrap (Some e) msg), set_fs fs w)
            | (None, fs) =>
                match DownloadFileFromGateway (set_fs fs w) mnemonic url fpath (seg_Hash segment) with
                | (Some e, w) => Returns (([], Wrap (Some e) "download file in box error"), w)
                | (None, w) =>
                    match os_ReadFile (cw_fs w) fpath with
                    | inr e => Returns (([], Wrap (Some e) "download file in box error"), w)
                    | inl data => data ← slice_plate plate didx data; Returns ((data, None), w)
                    end
                end
            end
      end
  end.
End clientfiles.
