(* ===== verification/ClientFilesFacts.v ===== *)
(** * Properties of the client's downloads

    A file is restored whichever of its segments come from the cachers and whichever
    from the storage network, unless the cachers deliver too little of a segment. *)

From S2P Require Import Prelude GoStrings Encoding Json Codec Types GoOs External Storage StorageFacts FileBox ClientFiles.

(** ** A segment from storage *)

Section storage.
Context {NET : Type} `{StorageNet NET} `{CessConfig} `{OsFaults} `{PkgErrors}.
Context (fdir fileHash : string) (fmeta : FileMetadata).
Context (seg_content frag_content : string -> bytes) (avail : string -> bool).
Context (Hfile : file_ok fdir fileHash fmeta seg_content avail).
Context (Hnet : network_ok fdir fileHash fmeta seg_content frag_content avail).
Abbreviation spath := (seg_path fdir).
Abbreviation fpath := (frag_path fdir).

(** What changes are the fragments of [s]. *)
Definition only_fragments (s : SegmentInfo) (fs fs' : FS) : Prop :=
  dirs fs' = dirs fs /\ forall p, (forall h, h ∈ hashes s -> p ≠ fpath h) -> files fs' !! p = files fs !! p.

Lemma only_fragments_refl s fs : only_fragments s fs fs.
Proof. by split. Qed.

Lemma only_fragments_trans s fs1 fs2 fs3 :
  only_fragments s fs1 fs2 -> only_fragments s fs2 fs3 -> only_fragments s fs1 fs3.
Proof. intros [D1 F1] [D2 F2]. split; [by rewrite D2|]. intros p Hp. by rewrite F2, F1. Qed.

Lemma only_fragments_insert s h v fs :
  h ∈ hashes s -> only_fragments s fs (set_files (<[fpath h := v]> (files fs)) fs).
Proof.
  intros Hh. split; [done|]. intros p Hp. cbn. rewrite lookup_insert_ne; [done|].
  apply not_eq_sym. by apply Hp.
Qed.

Lemma only_fragments_remove s hs fs :
  (forall h, h ∈ hs -> h ∈ hashes s) -> only_fragments s fs (remove_all fs (map fpath hs)).
Proof.
  intros Hhs. split; [apply dirs_remove_all|]. intros p Hp. apply remove_all_files.
  rewrite list_elem_of_In, in_map_iff. intros (h & <- & Hh). apply list_elem_of_In in Hh.
  by apply (Hp h (Hhs h Hh)).
Qed.

(** Fragments read: distinct ones of [s], each with its contents. *)
Definition holding (s : SegmentInfo) (fs : FS) (hs : list string) : Prop :=
  NoDup hs /\ forall h, h ∈ hs -> h ∈ hashes s /\ files fs !! fpath h = Some (frag_content h).

Lemma holding_add s fs hs h :
  s ∈ SegmentList fmeta -> h ∈ hashes s -> h ∉ hs -> holding s fs hs ->
  holding s (set_files (<[fpath h := frag_content h]> (files fs)) fs) (hs ++ [h]).
Proof.
  intros Hs Hh Hn [Hnd Hhs]. split.
  - apply NoDup_app. split_and!; [done| |apply NoDup_singleton].
    intros x Hx Hx'. apply list_elem_of_singleton in Hx' as ->. done.
  - intros x Hx. apply elem_of_app in Hx as [Hx| ->%list_elem_of_singleton]; cbn.
    + destruct (Hhs x Hx) as [Hxs Hc]. split; [done|]. rewrite lookup_insert_ne; [done|].
      intros He. apply frag_path_inj with (fileHash := fileHash) (fmeta := fmeta)
        (seg_content := seg_content) (avail := avail) in He; [by subst|done| |];
        by eapply hash_plain.
    + by rewrite lookup_insert_eq.
Qed.

Lemma gather_ok s frags : forall hs n fs,
  s ∈ SegmentList fmeta -> (forall f, f ∈ frags -> frag_Hash f ∈ hashes s) ->
  holding s fs hs -> (forall f, f ∈ frags -> frag_Hash f ∉ hs) -> NoDup (map frag_Hash frags) ->
  len hs <= DataShards <= len hs + len (filter (fun h => avail h = true) (map frag_Hash frags)) ->
  exists hs' n' fs', gather (n, fs) fdir (len hs) (map fpath hs) frags
      = ((DataShards, map fpath hs'), (n', fs'))
    /\ holding s fs' hs' /\ len hs' = DataShards /\ only_fragments s fs fs'.
Proof.
  induction frags as [|f frags IH]; intros hs n fs Hs Hin Hh Hnew Hnd Hlen; cbn [gather].
  { cbn in Hlen. rewrite len_nil in Hlen. assert (len hs = DataShards) as <- by lia.
    exists hs, n, fs. split_and!; [done|done|done|apply only_fragments_refl]. }
  destruct (Z.leb_spec DataShards (len hs)).
  { assert (len hs = DataShards) as <- by lia.
    exists hs, n, fs. split_and!; [done|done|done|apply only_fragments_refl]. }
  cbn [map] in Hnd, Hlen. apply NoDup_cons in Hnd as [Hf Hnd]. cbn [fst snd].
  assert (Hfs : frag_Hash f ∈ hashes s) by (apply Hin; left).
  destruct (no_miners _ _ _ _ _ _ Hnet n (Miner f)) as [peer ->].
  destruct (no_read _ _ _ _ _ _ Hnet n fs peer (frag_Hash f) (fpath (frag_Hash f))) as [n1 Hread].
  fold (fpath (frag_Hash f)). rewrite filter_cons in Hlen.
  destruct (avail (frag_Hash f)).
  2:{ destruct Hread as [e ->]. rewrite decide_False in Hlen by done.
      apply IH; try done; [by intros g Hg; apply Hin; right|by intros g Hg; apply Hnew; right]. }
  rewrite decide_True in Hlen by done. rewrite len_cons in Hlen. rewrite Hread.
  replace (len hs + 1) with (len (hs ++ [frag_Hash f])) by (rewrite len_app, len_cons, len_nil; lia).
  replace (map fpath hs ++ [fpath (frag_Hash f)])%list with (map fpath (hs ++ [frag_Hash f]))
    by by rewrite map_app.
  destruct (IH (hs ++ [frag_Hash f])%list n1 (set_files (<[fpath (frag_Hash f) := frag_content (frag_Hash f)]> (files fs)) fs))
    as (hs' & n' & fs' & -> & Hh' & Hl' & Ho'); try done.
  - by intros g Hg; apply Hin; right.
  - apply holding_add; try done. apply Hnew. left.
  - intros g Hg Hgin. apply elem_of_app in Hgin as [Hgin|Hgin%list_elem_of_singleton].
    + by apply (Hnew g); [right|].
    + apply Hf. rewrite <- Hgin. apply list_elem_of_In, in_map, list_elem_of_In, Hg.
  - rewrite len_app, len_cons, len_nil. lia.
  - exists hs', n', fs'. split_and!; [done|done|done|].
    eapply only_fragments_trans; [|done]. by apply only_fragments_insert.
Qed.

(** A segment is in place, and nothing but temporaries changed. *)
Definition restored (s : SegmentInfo) (fs fs' : FS) : Prop :=
  files fs' !! spath s = Some (seg_content (seg_Hash s))
  /\ kept_segments fdir fmeta seg_content fs fs' /\ dirs fs' = dirs fs
  /\ forall p, ~ temporary fdir fmeta p -> files fs' !! p = files fs !! p.

Lemma only_fragments_segment s s' fs fs' :
  s ∈ SegmentList fmeta -> s' ∈ SegmentList fmeta -> only_fragments s' fs fs' ->
  files fs' !! spath s = files fs !! spath s.
Proof.
  intros Hs Hs' [_ Ho]. apply Ho. intros h Hh.
  by eapply (segment_not_fragment fdir fileHash fmeta seg_content avail Hfile s s').
Qed.

(** Reading fragments of [s], restoring it, and removing the fragments. *)
Lemma restored_intro s fs fs1 fs2 :
  s ∈ SegmentList fmeta -> only_fragments s fs fs1 ->
  only_fragments s (set_files (<[spath s := seg_content (seg_Hash s)]> (files fs1)) fs1) fs2 ->
  restored s fs fs2.
Proof.
  intros Hs Ho1 Ho2. unfold restored. split_and!.
  - rewrite (only_fragments_segment s s _ _ Hs Hs Ho2). cbn. by rewrite lookup_insert_eq.
  - intros s' Hs' Hc. rewrite (only_fragments_segment s' s _ _ Hs' Hs Ho2). cbn [files set_files].
    destruct (decide (seg_Hash s = seg_Hash s')) as [He|He].
    + unfold seg_path. rewrite He. by rewrite lookup_insert_eq.
    + rewrite lookup_insert_ne; [by rewrite (only_fragments_segment s' s _ _ Hs' Hs Ho1)|].
      intros Hp. apply He. unfold seg_path in Hp.
      apply filepath_Join2_inj in Hp; [done|apply Hfile|..];
        by apply (segment_in fdir fileHash fmeta seg_content avail Hfile).
  - destruct Ho1 as [D1 _], Ho2 as [D2 _]. by rewrite D2.
  - intros p Hp. destruct Ho1 as [_ F1], Ho2 as [_ F2].
    assert (forall h, h ∈ hashes s -> p ≠ fpath h) as Hne.
    { intros h Hh He. apply Hp. exists s. split; [done|]. right. by exists h. }
    rewrite F2 by done. cbn [files set_files]. rewrite lookup_insert_ne; [by apply F1|].
    intros <-. apply Hp. exists s. by auto.
Qed.

Lemma restored_same_hash s s' fs fs' :
  seg_Hash s' = seg_Hash s -> restored s' fs fs' -> restored s fs fs'.
Proof. intros He (Hc & Hr). unfold restored, seg_path in *. by rewrite He in Hc. Qed.

Lemma gather_full (w : NET * FS) paths frags : gather w fdir DataShards paths frags = ((DataShards, paths), w).
Proof. destruct frags; [done|]. cbn [gather]. by rewrite (proj2 (Z.leb_le _ _)) by lia. Qed.

Lemma gather_segments_full segs (w : NET * FS) sid paths :
  gather_segments w fdir sid DataShards paths segs = ((DataShards, paths), w).
Proof.
  induction segs as [|s segs IH]; cbn [gather_segments]; [done|].
  case_decide; [done|]. by rewrite gather_full.
Qed.

Lemma gather_segments_ok segs sid n fs :
  (forall s, s ∈ segs -> s ∈ SegmentList fmeta) -> (exists s, s ∈ segs /\ seg_Hash s = sid) ->
  exists s hs n' fs', s ∈ SegmentList fmeta /\ seg_Hash s = sid
    /\ gather_segments (n, fs) fdir sid 0 [] segs = ((DataShards, map fpath hs), (n', fs'))
    /\ holding s fs' hs /\ len hs = DataShards /\ only_fragments s fs fs'.
Proof.
  intros Hin Hex. induction segs as [|s segs IH]; [by destruct Hex as (s & Hs%not_elem_of_nil & _)|].
  cbn [gather_segments]. case_decide as Hd.
  - apply IH; [by intros s' Hs'; apply Hin; right|].
    destruct Hex as (s' & Hs' & He). exists s'. split; [|done].
    by apply elem_of_cons in Hs' as [->|].
  - assert (s ∈ SegmentList fmeta) as Hs by (apply Hin; left).
    pose proof (segment_in fdir fileHash fmeta seg_content avail Hfile s Hs) as [_ _ Hnd Hen].
    destruct (gather_ok s (FragmentList s) [] n fs) as (hs & n' & fs' & Hg & Hh & Hl & Ho); try done.
    + intros f Hf. by apply list_elem_of_fmap_2.
    + split; [apply NoDup_nil_2|]. by intros h Hh%not_elem_of_nil.
    + by intros f _ Hf%not_elem_of_nil.
    + rewrite len_nil. pose proof DataShards_pos. split; [lia|exact Hen].
    + cbn [map] in Hg. rewrite len_nil in Hg. rewrite Hg, gather_segments_full.
      exists s, hs, n', fs'. by split_and!.
Qed.

Lemma DownloadSegmentFromStorage_ok s n fs :
  s ∈ SegmentList fmeta ->
  exists n' fs', DownloadSegmentFromStorage (n, fs) fdir fileHash (seg_Hash s)
      = ((spath s, None), (n', fs')) /\ restored s fs fs'.
Proof.
  intros Hs. unfold DownloadSegmentFromStorage. cbn [fst snd]. rewrite (no_query _ _ _ _ _ _ Hnet).
  destruct (gather_segments_ok (SegmentList fmeta) (seg_Hash s) n fs) as
    (s1 & hs & n' & fs' & Hs1 & He & -> & Hh & Hl & Ho); [done|by exists s|].
  rewrite (proj2 (Z.ltb_ge _ _)) by lia. cbn [fst snd].
  destruct Hh as [Hnd Hhs].
  assert (spath s = spath s1) as -> by (unfold seg_path; by rewrite He).
  rewrite <- He. change (filepath_Join [fdir; seg_Hash s1]) with (spath s1).
  rewrite (no_restore _ _ _ _ _ _ Hnet fs' s1 hs) by done.
  eexists n', _. split; [reflexivity|].
  apply (restored_same_hash s s1); [done|].
  eapply restored_intro; [done|exact Ho|]. apply only_fragments_remove. intros h Hin. by apply Hhs.
Qed.
End storage.

(** ** The client *)

Section client.
Context {NET X : Type} `{StorageNet NET} `{Gateway X} `{CessConfig} `{OsFaults} `{PkgErrors}.
Context (fdir fileHash : string) (fmeta : FileMetadata).
Context (seg_content frag_content : string -> bytes) (avail : string -> bool).
Context (short : string -> bool).
Context (query_cachers : cworld NET X -> string -> (list (string * CacheResponse) + string) * cworld NET X).
Context (fetch_cachers : cworld NET X -> string -> list (string * CacheResponse) -> list string * cworld NET X).
Abbreviation spath := (seg_path fdir).
Abbreviation fpath := (frag_path fdir).

(** Querying the cachers leaves the files alone; what is fetched from them are fragments of
    the segment, the first [DataShards] of which are distinct and have their contents. The
    segments called [short] are those for which the cachers answer and then fewer than
    [DataShards] fragments arrive, none included. A miner asked for a segment's own hash has
    nothing under it, as miners hold fragments. *)
Record cachers_ok : Prop := {
  co_query : forall w sid, cw_fs (snd (query_cachers w sid)) = cw_fs w;
  co_answer : forall w s, s ∈ SegmentList fmeta -> short (seg_Hash s) = true ->
    exists c cached, fst (query_cachers w (seg_Hash s)) = inl (c :: cached);
  co_fetch : forall w s cached, s ∈ SegmentList fmeta -> cached ≠ [] ->
    exists hs w', fetch_cachers w (seg_Hash s) cached = (map fpath hs, w')
      /\ short (seg_Hash s) = (len hs <? DataShards) /\ (forall h, h ∈ hs -> h ∈ hashes s)
      /\ holding fdir frag_content s (cw_fs w') (take (Z.to_nat DataShards) hs)
      /\ only_fragments fdir s (cw_fs w) (cw_fs w');
  co_miners : forall s, s ∈ SegmentList fmeta -> avail (seg_Hash s) = false;
}.

Context (Hfile : file_ok fdir fileHash fmeta seg_content avail).
Context (Hnet : network_ok fdir fileHash fmeta seg_content frag_content avail).
Context (Hcachers : cachers_ok).
Abbreviation restored := (restored fdir fmeta seg_content).

Lemma from_storage_ok s (w : cworld NET X) :
  s ∈ SegmentList fmeta ->
  exists nf, DownloadSegmentFromStorage (cw_storage w, cw_fs w) fdir fileHash (seg_Hash s)
      = ((spath s, None), nf) /\ restored s (cw_fs w) (snd nf).
Proof.
  intros Hs. destruct (DownloadSegmentFromStorage_ok fdir fileHash fmeta seg_content frag_content avail
    Hfile Hnet s (cw_storage w) (cw_fs w) Hs) as (n' & fs' & -> & Hr).
  by exists (n', fs').
Qed.

(** What the handling of any segment leaves. *)
Definition touched (fs fs' : FS) : Prop :=
  kept_segments fdir fmeta seg_content fs fs' /\ dirs fs' = dirs fs
  /\ forall p, ~ temporary fdir fmeta p -> files fs' !! p = files fs !! p.

Lemma touched_refl fs : touched fs fs.
Proof. split_and!; [|done..]. by intros s Hs. Qed.

Lemma touched_trans fs1 fs2 fs3 : touched fs1 fs2 -> touched fs2 fs3 -> touched fs1 fs3.
Proof.
  intros (Hk1 & Hd1 & Ho1) (Hk2 & Hd2 & Ho2). split_and!; [|by rewrite Hd2|by intros p Hp; rewrite Ho2, Ho1].
  intros s Hs Hc. by apply Hk2, Hk1.
Qed.

Lemma only_fragments_touched s fs fs' : s ∈ SegmentList fmeta -> only_fragments fdir s fs fs' -> touched fs fs'.
Proof.
  intros Hs Ho. split_and!; [| apply Ho|].
  - intros s' Hs' Hc. by rewrite (only_fragments_segment fdir fileHash fmeta seg_content avail Hfile s' s _ _ Hs' Hs Ho).
  - intros p Hp. apply Ho. intros h Hh ->. apply Hp. exists s. split; [done|]. right. by exists h.
Qed.

(** The miners are asked for the segment's hash, which gives nothing. *)
Lemma top_up_nothing all s dir segPath fragments frags : s ∈ SegmentList fmeta ->
  forall w : cworld NET X, exists w', top_up all w dir (seg_Hash s) segPath fragments frags = ((None, fragments), w')
    /\ cw_fs w' = cw_fs w.
Proof.
  intros Hs. induction frags as [|f frags IH]; intros w; cbn [top_up]; [by exists w|].
  destruct (DataInList _ _); [apply IH|].
  destruct (no_miners _ _ _ _ _ _ Hnet (cw_storage w) (Miner f)) as [peer ->].
  destruct (no_read _ _ _ _ _ _ Hnet (cw_storage w) (cw_fs w) peer (seg_Hash s) (filepath_Join [dir; frag_Hash f]))
    as [n1 Hread]. rewrite (co_miners Hcachers s Hs) in Hread. destruct Hread as [e ->].
  destruct (IH (set_store (n1, cw_fs w) w)) as (w' & -> & Hw). by exists w'.
Qed.

Lemma client_segment_ok s (w : cworld NET X) :
  s ∈ SegmentList fmeta ->
  exists w', client_segment query_cachers fetch_cachers w fdir fileHash s
      = (inl (if short (seg_Hash s) then None else Some (spath s)), w')
    /\ touched (cw_fs w) (cw_fs w')
    /\ (short (seg_Hash s) = false -> files (cw_fs w') !! spath s = Some (seg_content (seg_Hash s))).
Proof.
  intros Hs. unfold client_segment. pose proof (co_query Hcachers w (seg_Hash s)) as Hq.
  pose proof (co_answer Hcachers w s Hs) as Han.
  assert (Hst : forall w1 : cworld NET X, cw_fs w1 = cw_fs w -> short (seg_Hash s) = false ->
    exists nf, DownloadSegmentFromStorage (cw_storage w1, cw_fs w1) fdir fileHash (seg_Hash s) = ((spath s, None), nf)
      /\ touched (cw_fs w) (snd nf)
      /\ (short (seg_Hash s) = false -> files (snd nf) !! spath s = Some (seg_content (seg_Hash s)))).
  { intros w1 Hw1 _. destruct (from_storage_ok s w1 Hs) as (nf & -> & Hc & Ht). rewrite Hw1 in Ht. by exists nf. }
  destruct (query_cachers w (seg_Hash s)) as [[[|c cached]|e] w1]; cbn [fst snd] in Hq, Han.
  1,3: assert (short (seg_Hash s) = false) as Hsh by
         (apply not_true_is_false; intros Ht; by destruct (Han Ht) as (? & ? & ?));
       destruct (Hst w1 Hq Hsh) as (nf & -> & Ht & Hc); rewrite Hsh in *; by exists (set_store nf w1).
  destruct (co_fetch Hcachers w1 s (c :: cached) Hs ltac:(done)) as (hs & w2 & -> & Hsh & Hhs & Hh & Ho).
  replace (len (map fpath hs)) with (len hs) by (unfold len; by rewrite length_map).
  rewrite Hsh. rewrite Hq in Ho. destruct (Z.ltb_spec (len hs) DataShards).
  - rewrite (proj2 (Z.leb_gt _ _)) by lia.
    destruct (top_up_nothing id s fdir (filepath_Join [fdir; seg_Hash s]) (map fpath hs) (FragmentList s) Hs w2)
      as (w3 & -> & Hw3).
    exists w3. split; [done|]. split; [|done]. rewrite Hw3. by eapply only_fragments_touched.
  - rewrite (proj2 (Z.leb_le _ _)) by lia.
    unfold shards. rewrite firstn_map. change (filepath_Join [fdir; seg_Hash s]) with (spath s).
    rewrite (no_restore _ _ _ _ _ _ Hnet (cw_fs w2) s (take (Z.to_nat DataShards) hs) Hs);
      [|unfold len in *; rewrite length_take; pose proof DataShards_pos; lia|apply Hh|apply Hh].
    eexists. split; [done|]. cbn [cw_fs set_fs].
    assert (restored s (cw_fs w) (remove_all (set_files (<[spath s := seg_content (seg_Hash s)]> (files (cw_fs w2))) (cw_fs w2))
      (map fpath hs))) as [Hc Ht]; [|by split].
    eapply restored_intro; [done..|exact Ho|]. by apply only_fragments_remove.
Qed.

(** The segments that are restored. *)
Definition long (segs : list SegmentInfo) : list SegmentInfo := filter (fun s => short (seg_Hash s) = false) segs.

Lemma client_segments_ok segs : forall paths (w : cworld NET X),
  (forall s, s ∈ segs -> s ∈ SegmentList fmeta) ->
  exists w', client_segments query_cachers fetch_cachers w fdir fileHash paths segs
      = ((None, (paths ++ map spath (long segs))%list), w')
    /\ (forall s, s ∈ segs -> short (seg_Hash s) = false ->
          files (cw_fs w') !! spath s = Some (seg_content (seg_Hash s)))
    /\ touched (cw_fs w) (cw_fs w').
Proof.
  induction segs as [|s segs IH]; intros paths w Hin; cbn [client_segments].
  { exists w. change (map spath (long [])) with (@nil string). rewrite app_nil_r.
    split_and!; [done|by intros s Hs%not_elem_of_nil|apply touched_refl]. }
  destruct (client_segment_ok s w) as (w1 & -> & Ht1 & Hc1); [apply Hin; left|].
  assert (Hin' : forall s', s' ∈ segs -> s' ∈ SegmentList fmeta) by (intros s' Hs'; apply Hin; by right).
  unfold long. rewrite filter_cons. destruct (short (seg_Hash s)) eqn:Es.
  - rewrite decide_False by done. destruct (IH paths w1 Hin') as (w' & -> & Hc & Ht).
    exists w'. split_and!; [done| |by eapply touched_trans].
    intros s' [->|Hs']%elem_of_cons Hs; [congruence|by apply Hc].
  - rewrite decide_True by done. destruct (IH (paths ++ [spath s])%list w1 Hin') as (w' & -> & Hc & Ht).
    exists w'. rewrite <- app_assoc. split_and!; [done| |by eapply touched_trans].
    intros s' [->|Hs']%elem_of_cons Hs; [|by apply Hc]. apply Ht; [apply Hin; left|by apply Hc1].
Qed.

(** Every segment is restored exactly when none is short. *)
Lemma long_all segs : existsb (fun s => short (seg_Hash s)) segs = false -> long segs = segs.
Proof.
  unfold long. induction segs as [|s segs IH]; [done|]. cbn [existsb]. intros [Hs Hl]%orb_false_iff.
  rewrite filter_cons, decide_True by done. by rewrite IH.
Qed.

Lemma long_fewer segs : existsb (fun s => short (seg_Hash s)) segs = true -> len (long segs) ≠ len segs.
Proof.
  intros (s & Hs%list_elem_of_In & Ht)%existsb_exists. unfold len, long.
  pose proof (length_filter_lt (fun s => short (seg_Hash s) = false) segs s Hs ltac:(congruence)). lia.
Qed.

Lemma not_temporary_path p segs : (forall s, s ∈ segs -> s ∈ SegmentList fmeta) ->
  ~ temporary fdir fmeta p -> p ∉ map spath segs.
Proof.
  intros Hsegs Hp Hin. apply Hp. apply list_elem_of_In, in_map_iff in Hin as (s & <- & Hs%list_elem_of_In).
  exists s. split; [by apply Hsegs|by left].
Qed.

End client.

(** ** The sample file: its first segment cached, and of its second nothing or too little *)

Section witnesses.
#[local] Existing Instance tiny_net.
#[local] Existing Instance tiny_config.

Definition sample_query (two : bool) (w : cworld nat unit) (sid : string)
  : (list (string * CacheResponse) + string) * cworld nat unit :=
  (if decide (sid = "sa" \/ two = true) then inl [("peer", CacheResponse_zero)] else inr "cache node not found", w).

Definition sample_hashes (two : bool) (sid : string) : list string :=
  if decide (sid = "sa") then ["a2"; "a3"] else if two then ["b2"] else ["b2"; "b3"].

Definition sample_fetch (two : bool) (w : cworld nat unit) (sid : string) (cached : list (string * CacheResponse))
  : list string * cworld nat unit :=
  (map (frag_path "/tmp") (sample_hashes two sid),
   set_fs (foldl (fun fs h => set_files (<[frag_path "/tmp" h := to_bytes h]> (files fs)) fs) (cw_fs w)
     (sample_hashes two sid)) w).

Definition sample_short (two : bool) (sid : string) : bool := two && bool_decide (sid = "sb").

Lemma fetched_only (hs : list string) (s : SegmentInfo) fs : (forall h, h ∈ hs -> h ∈ hashes s) ->
  only_fragments "/tmp" s fs
    (foldl (fun fs h => set_files (<[frag_path "/tmp" h := to_bytes h]> (files fs)) fs) fs hs).
Proof.
  revert fs. induction hs as [|h hs IH]; intros fs Hhs; cbn [foldl]; [apply only_fragments_refl|].
  eapply only_fragments_trans; [|apply IH; intros h' Hh'; apply Hhs; by right].
  apply only_fragments_insert, Hhs. left.
Qed.

Lemma fetched_holding (s : SegmentInfo) fs (hs : list string) :
  hs = ["a2"; "a3"] \/ hs = ["b2"] \/ hs = ["b2"; "b3"] -> (forall h, h ∈ hs -> h ∈ hashes s) ->
  holding "/tmp" to_bytes s (foldl (fun fs h => set_files (<[frag_path "/tmp" h := to_bytes h]> (files fs)) fs) fs hs) hs.
Proof.
  intros Hcase Hhs. split.
  - destruct_or!; subst; by (refine (bool_decide_eq_true_1 (NoDup _) _); vm_compute).
  - intros h Hh. split; [by apply Hhs|].
    destruct_or!; subst; in_cases Hh; cbn [foldl files set_files];
      try (rewrite lookup_insert_ne by by vm_compute); by rewrite lookup_insert_eq.
Qed.

Lemma sample_cachers_ok two :
  cachers_ok "/tmp" tiny_meta to_bytes tiny_avail (sample_short two) (sample_query two) (sample_fetch two).
Proof.
  split; [done| | |].
  - intros w s Hs Ht. unfold sample_short in Ht. apply andb_true_iff in Ht as [-> _].
    unfold sample_query. rewrite decide_True by auto. by eexists _, _.
  - intros w s cached Hs _. exists (sample_hashes two (seg_Hash s)). eexists. split; [done|].
    assert (Hhs : forall h, h ∈ sample_hashes two (seg_Hash s) -> h ∈ hashes s).
    { intros h Hh. in_cases Hs; destruct two; in_cases Hh; cbn; rewrite ?elem_of_cons; tauto. }
    split; [in_cases Hs; by destruct two|]. split; [done|]. split; [|by apply fetched_only].
    rewrite take_ge by (in_cases Hs; destruct two; by apply leb_complete).
    apply fetched_holding; [|done]. in_cases Hs; destruct two; auto.
  - intros s Hs. by in_cases Hs.
Qed.

End witnesses.
