(* ===== verification/UploadFiles.v ===== *)
(** * Uploads: cd2n-client/client/files.go, lines 180-225, 480-643 and 739-749

    A file is processed into segments, an order is placed on chain, and a task is queued;
    the upload server takes tasks from the queue and writes each group of fragments to a
    storage node until the chain reports every group. *)

From S2P Require Import Prelude GoStrings Encoding Json Codec Types GoOs Lib External Storage FileBox ClientFiles.
From S2P Require Import Credit CacheActor ResourceActor.

Record SegmentDataInfo := mkSegmentDataInfo { sd_SegmentHash : string; FragmentHash : list string }.

(** Instants are nanoseconds. *)
Record UploadGroup := mkUploadGroup {
  MinerID : string;
  up_PeerID : string;
  Saved : bool;
  OnChain : bool;
  FlushTime : Z;
}.
Definition UploadGroup_zero : UploadGroup := mkUploadGroup "" "" false false 0.

(** The user's callback, or the closure of [UploadDirAsBoxFile] that calls it (it may be
    nil) and removes the file. *)
Inductive callback := UserCallback | ThenRemove (user : bool).

Record UploadStats := mkUploadStats {
  st_FileHash : string;
  FilePath : string;
  CallBack : option callback;
  st_SegmentInfo : list SegmentDataInfo;
  Group : list UploadGroup;
}.
Definition UploadStats_zero : UploadStats := mkUploadStats "" "" None [] [].

Definition DEFAULT_TASK_INTERVAL : Z := 5 * 60 * 1000000000.

(** The chain's side of an upload, and the storage nodes'. *)
Class UploadChain (NET : Type) := {
  SignatureAcc : NET -> bytes;
  Owners : NET -> string -> list bytes;   (** of the metadata [QueryFile] gives *)
  PlaceStorageOrder : NET -> string -> string -> string -> string -> list SegmentDataInfo -> bytes -> Z
    -> (string * error) * NET;
  QueryDealMap : NET -> string -> list (Z * string) + string;  (** index and miner of [CompleteList] *)
  chain_DeleteFile : NET -> bytes -> string -> (string * error) * NET;
  storage_Connect : NET -> string -> error * NET;
  WriteDataAction : NET -> FS -> string -> string -> string -> string -> error * NET;
  FullProcessing : FS -> string -> string -> string -> (list SegmentDataInfo * string * error) * FS;
  marshal_states : NET -> string -> bytes + string;   (** the JSON of the order and the metadata *)
}.

Section upload.
Context {NET Sel : Type} `{StorageNet NET} `{UploadChain NET} `{Selector Sel} `{CessConfig} `{OsFaults}
  `{PkgErrors}.

(** The world of the uploads, with the queue of tasks. *)
Record uworld := mkUworld { uw_chain : NET; uw_fs : FS; uw_sel : Sel; uploadQueue : list UploadStats }.

Definition set_chain (n : NET) (w : uworld) : uworld := mkUworld n (uw_fs w) (uw_sel w) (uploadQueue w).
Definition set_ufs (fs : FS) (w : uworld) : uworld := mkUworld (uw_chain w) fs (uw_sel w) (uploadQueue w).
Definition set_usel (s : Sel) (w : uworld) : uworld := mkUworld (uw_chain w) (uw_fs w) s (uploadQueue w).
Definition set_uqueue (q : list UploadStats) (w : uworld) : uworld :=
  mkUworld (uw_chain w) (uw_fs w) (uw_sel w) q.

(** The queue takes the task as soon as it has room. *)
Definition PreprocessFileAndPutIntoUploadQueue (tmpDir : string) (w : uworld)
    (fpath cipher territory bucket : string) (callback : option callback) : (UploadStats * error) * uworld :=
  let msg := "preprocess file error" in
  let status := UploadStats_zero in
  match os_Stat (uw_fs w) fpath with
  | inr e => ((status, Wrap (Some e) msg), w)
  | inl f =>
      if fi_isdir f || (fi_size f <=? 0) then ((status, Wrap None msg), w)
      else
        match FullProcessing (uw_fs w) fpath cipher tmpDir with
        | ((_, _, Some e), fs) => ((status, Wrap (Some e) msg), set_ufs fs w)
        | ((segmentInfo, rootHash, None), fs) =>
            let w := set_ufs fs w in
            let acc := SignatureAcc (uw_chain w) in
            let place (dedup : bool) :=
              match PlaceStorageOrder (uw_chain w) rootHash (filepath_Base fpath) bucket territory
                      segmentInfo acc (u64 (fi_size f)) with
              | ((_, Some e), n) => ((status, Wrap (Some e) msg), set_chain n w)
              | ((_, None), n) =>
                  let w := set_chain n w in
                  if dedup then ((status, None), w)
                  else
                    let status := mkUploadStats rootHash fpath callback segmentInfo
                      (replicate (Z.to_nat (ParShards + DataShards)) UploadGroup_zero) in
                    ((status, None), set_uqueue (uploadQueue w ++ [status])%list w)
              end in
            match QueryFile (uw_chain w) rootHash with
            | inr _ => place false
            | inl _ =>
                if existsb (fun user => CompareSlice user acc) (Owners (uw_chain w) rootHash)
                then ((status, None), w)
                else place true
            end
        end
  end.

Definition UploadFile (tmpDir : string) (w : uworld) (territory bucket fpath cipher : string)
    (callback : option callback) : (string * error) * uworld :=
  match PreprocessFileAndPutIntoUploadQueue tmpDir w fpath cipher territory bucket callback with
  | ((_, Some e), w) => (("", Wrap (Some e) "upload file error"), w)
  | ((status, None), w) => ((st_FileHash status, None), w)
  end.

Definition UploadDirAsBoxFile (tmpDir : string) (w : uworld) (territory bucket fname dir cipher : string)
    (user : bool) (entries : list dir_entry + string) : outcome ((string * bytes * error) * uworld) :=
  let msg := "upload dir error" in
  '((box, fpath, err), fs) ← CreateAFileBox (uw_fs w) fname dir entries;
  let w := set_ufs fs w in
  match err with
  | Some e => Returns (("", [], Wrap (Some e) msg), w)
  | None =>
      match PreprocessFileAndPutIntoUploadQueue tmpDir w fpath cipher territory bucket (Some (ThenRemove user)) with
      | ((_, Some e), w) => Returns (("", [], Wrap (Some e) msg), w)
      | ((status, None), w) =>
          if decide (len (st_SegmentInfo status) ≠ len (Plates box)) then
            Returns (("", [], Wrap (errors_New "the number of generated segments is inconsistent") msg), w)
          else
            let box := mkFileBox (FileHash box) (TotalSize box) (PaddingSize box)
              (set_segment_hashes (map sd_SegmentHash (st_SegmentInfo status)) (Plates box)) in
            Returns ((st_FileHash status, print (enc_FileBox box), None), w)
      end
  end.

Definition DeleteFile (w : uworld) (fhash : string) : (string * error) * uworld :=
  let '((res, err), n) := chain_DeleteFile (uw_chain w) (SignatureAcc (uw_chain w)) fhash in
  ((res, Wrap err "delete files error"), set_chain n w).

Definition QueryFileSates (w : uworld) (fhash : string) : string * error :=
  let msg := "query file states error" in
  match QueryDealMap (uw_chain w) fhash with
  | inr e => ("", Wrap (Some e) msg)
  | inl _ =>
      match marshal_states (uw_chain w) fhash with
      | inr e => ("", Wrap (Some e) msg)
      | inl b => (of_bytes b, None)
      end
  end.

(** Removes the directory of the first fragment of each segment. *)
Fixpoint ClearTmpFile (fs : FS) (segs : list SegmentDataInfo) : outcome FS :=
  match segs with
  | [] => Returns fs
  | segment :: segs =>
      first ← index (FragmentHash segment) 0;
      if decide (first = "") then ClearTmpFile fs segs
      else
        let dir := filepath_Dir first in
        match os_Stat fs dir with
        | inl _ => ClearTmpFile (snd (os_RemoveAll fs dir)) segs
        | inr _ => ClearTmpFile fs segs
        end
  end.

(** ** The upload server *)

Definition group_on_chain (now : Z) (miner : string) (g : UploadGroup) : UploadGroup :=
  mkUploadGroup miner (up_PeerID g) true true now.

(** What the chain's complete list says of group [i]: the first entry counts. *)
Fixpoint mark_complete (now i : Z) (complete : list (Z * string)) (g : UploadGroup) : UploadGroup :=
  match complete with
  | [] => g
  | (index, miner) :: complete =>
      mark_complete now i complete
        (if (index =? i) && negb (OnChain g) then group_on_chain now miner g else g)
  end.

(** Writes the fragments of group [i] to a peer; a path that does not have three parts
    is skipped. *)
Fixpoint write_group (n : NET) (fs : FS) (peer fhash : string) (i : Z) (segs : list SegmentDataInfo)
    : outcome (bool * NET) :=
  match segs with
  | [] => Returns (true, n)
  | segment :: segs =>
      fragment ← index (FragmentHash segment) i;
      match strings_Split fragment slash with
      | [_; _; h2] =>
          match WriteDataAction n fs peer fragment fhash h2 with
          | (Some _, n) => Returns (false, n)
          | (None, n) => write_group n fs peer fhash i segs
          end
      | _ => write_group n fs peer fhash i segs
      end
  end.

(** The peers tried for group [i], until one takes it. *)
Fixpoint upload_group (w : uworld) (fhash : string) (i : Z) (segs : list SegmentDataInfo)
    (savedPeers itor : list string) : outcome ((option string * list string) * uworld) :=
  match itor with
  | [] => Returns ((None, []), w)
  | peer :: itor =>
      if decide (peer ∈ savedPeers) then upload_group w fhash i segs savedPeers itor
      else
        match storage_Connect (uw_chain w) peer with
        | (Some _, n) =>
            upload_group (set_usel (Feedback (uw_sel w) peer false) (set_chain n w)) fhash i segs savedPeers itor
        | (None, n) =>
            '(uploaded, n) ← write_group n (uw_fs w) peer fhash i segs;
            let w := set_chain n w in
            if (uploaded : bool) then Returns ((Some peer, itor), w)
            else upload_group (set_usel (Feedback (uw_sel w) peer false) w) fhash i segs savedPeers itor
        end
  end.

(** The groups from index [i] on: what they become and how many are on chain. *)
Fixpoint upload_groups (now : Z) (w : uworld) (fhash : string) (segs : list SegmentDataInfo)
    (complete : list (Z * string)) (savedPeers itor : list string) (i : Z) (groups : list UploadGroup)
    : outcome ((list UploadGroup * Z) * uworld) :=
  match groups with
  | [] => Returns (([], 0), w)
  | g :: groups =>
      let g := mark_complete now i complete g in
      if OnChain g then
        '((gs, n), w) ← upload_groups now w fhash segs complete savedPeers itor (i + 1) groups;
        Returns ((g :: gs, n + 1), w)
      else if Saved g && (now - FlushTime g <? DEFAULT_TASK_INTERVAL) then
        '((gs, n), w) ← upload_groups now w fhash segs complete savedPeers itor (i + 1) groups;
        Returns ((g :: gs, n), w)
      else
        '((saved, itor), w) ← upload_group w fhash i segs savedPeers itor;
        let g := match saved with
                 | Some peer => mkUploadGroup (MinerID g) peer true (OnChain g) now
                 | None => g
                 end in
        '((gs, n), w) ← upload_groups now w fhash segs complete savedPeers itor (i + 1) groups;
        Returns ((g :: gs, n), w)
  end.

Definition saved_peers (groups : list UploadGroup) : list string :=
  g ← groups; if Saved g && negb (bool_decide (up_PeerID g = "")) then [up_PeerID g] else [].

(** The clean-up and the callback of a task that is done. *)
Definition run_callback (c : option callback) (fpath : string) (fs : FS) : outcome FS :=
  match c with
  | None | Some UserCallback => Returns fs
  | Some (ThenRemove false) => Panics NilDereference
  | Some (ThenRemove true) =>
      Returns (match os_Stat fs fpath with inl _ => snd (os_RemoveAll fs fpath) | inr _ => fs end)
  end.

Definition finish_task (task : UploadStats) (w : uworld) : outcome uworld :=
  fs ← ClearTmpFile (uw_fs w) (st_SegmentInfo task);
  fs ← run_callback (CallBack task) (FilePath task) fs;
  Returns (set_ufs fs w).

(** What one turn of the server's loop does with a task: stops, finishes it, or puts it
    back in the queue as given. *)
Inductive turn := Stopped | Finished (w : uworld) | Requeue (task : UploadStats) (w : uworld).

Definition with_groups (gs : list UploadGroup) (t : UploadStats) : UploadStats :=
  mkUploadStats (st_FileHash t) (FilePath t) (CallBack t) (st_SegmentInfo t) gs.

Definition server_turn (now : Z) (w : uworld) (task : UploadStats) : outcome turn :=
  if decide (st_FileHash task = "") then Returns Stopped
  else
    match QueryFile (uw_chain w) (st_FileHash task) with
    | inl _ => w ← finish_task task w; Returns (Finished w)
    | inr _ =>
        match QueryDealMap (uw_chain w) (st_FileHash task) with
        | inr _ => Returns (Requeue task w)
        | inl complete =>
            match NewPeersIterator (uw_sel w) (DataShards + ParShards) with
            | inr _ => Returns (Requeue task w)
            | inl itor =>
                '((gs, sucCount), w) ← upload_groups now w (st_FileHash task) (st_SegmentInfo task) complete
                  (saved_peers (Group task)) itor 0 (Group task);
                let task := with_groups gs task in
                if sucCount <? DataShards + ParShards then Returns (Requeue task w)
                else w ← finish_task task w; Returns (Finished w)
            end
        end
    end.

(** The server's loop, given the instants of its turns. Putting a task back blocks for
    ever when the queue, of capacity [cap], is full: the server is its only reader. *)
Inductive server_end := Idle (w : uworld) | Returned (w : uworld) | Blocked (w : uworld).

Fixpoint UploadServer (cap : nat) (instants : list Z) (w : uworld) : outcome server_end :=
  match instants, uploadQueue w with
  | now :: instants, task :: queue =>
      t ← server_turn now (set_uqueue queue w) task;
      match t with
      | Stopped => Returns (Returned (set_uqueue queue w))
      | Finished w => UploadServer cap instants w
      | Requeue task w =>
          if (length (uploadQueue w) <? cap)%nat
          then UploadServer cap instants (set_uqueue (uploadQueue w ++ [task])%list w)
          else Returns (Blocked w)
      end
  | _, _ => Returns (Idle w)
  end.
End upload.
Arguments uworld : clear implicits.
