(* ===== verification/UploadFacts.v ===== *)
(** * Properties of the uploads

    What [UploadFile] leaves in the queue, what becomes of a directory that
    [UploadDirAsBoxFile] takes, and when the upload server is done with a task. *)

From S2P Require Import Prelude GoStrings Encoding Json Codec Types GoOs Lib External Storage FileBox FileBoxFacts ClientFiles.
From S2P Require Import Credit CacheActor ResourceActor NeighborQuery UploadFiles.

Section upload.
Context {NET Sel : Type} `{StorageNet NET} `{UploadChain NET} `{Selector Sel} `{CessConfig} `{OsFaults}
  `{PkgErrors}.
Abbreviation world := (uworld NET Sel).

Ltac wrapped e :=
  let x := fresh in let y := fresh in
  destruct (Wrap_not_nil e "preprocess file error") as [x ->];
  destruct (Wrap_not_nil x "upload file error") as [y ->].

(** A task as [UploadFile] queues it. *)
Definition fresh_task (task : UploadStats) : Prop :=
  Group task = replicate (Z.to_nat (ParShards + DataShards)) UploadGroup_zero.

(** When [UploadFile] returns no error, either it queued exactly one task, fresh, and
    returns that task's file hash; or it queued nothing and the hash it returns is
    empty.  The second is what happens to a file that is already stored. *)
Theorem UploadFile_queues tmpDir (w w' : world) territory bucket fpath cipher cb hash
    (Hup : UploadFile tmpDir w territory bucket fpath cipher cb = ((hash, None), w')) :
  (exists task, uploadQueue w' = (uploadQueue w ++ [task])%list /\ st_FileHash task = hash
     /\ fresh_task task /\ FilePath task = fpath /\ CallBack task = cb
     /\ exists fs e, QueryFile (uw_chain w) hash = inr e /\ FullProcessing (uw_fs w) fpath cipher tmpDir
          = ((st_SegmentInfo task, hash, None), fs))
  \/ (hash = "" /\ uploadQueue w' = uploadQueue w).
Proof.
  revert Hup. unfold UploadFile, PreprocessFileAndPutIntoUploadQueue.
  destruct (os_Stat _ _) as [f|e].
  2:{ by wrapped e. }
  destruct (fi_isdir f || (fi_size f <=? 0)).
  { rewrite Wrap_nil. intros [= <- <-]. by right. }
  destruct (FullProcessing _ _ _ _) as [[[segs root] [e|]] fs] eqn:Hfp.
  { by wrapped e. }
  cbn [uw_chain set_ufs].
  destruct (QueryFile (uw_chain w) root) as [m|e] eqn:Hq.
  - destruct (existsb _ _); [intros [= <- <-]; by right|].
    destruct (PlaceStorageOrder _ _ _ _ _ _ _ _) as [[tx [e|]] n].
    + by wrapped e.
    + intros [= <- <-]. by right.
  - destruct (PlaceStorageOrder _ _ _ _ _ _ _ _) as [[tx [e'|]] n].
    + by wrapped e'.
    + intros [= <- <-]. left. eexists. split_and!; try done. by exists fs, e.
Qed.

(** A directory or an empty file is no error to [UploadFile]: it returns an empty hash
    and does nothing, since the nil error of the stat is wrapped. *)
Theorem UploadFile_empty_succeeds tmpDir (w : world) territory bucket fpath cipher cb f
    (Hstat : os_Stat (uw_fs w) fpath = inl f) (Hempty : fi_isdir f = true \/ fi_size f <= 0) :
  UploadFile tmpDir w territory bucket fpath cipher cb = (("", None), w).
Proof.
  unfold UploadFile, PreprocessFileAndPutIntoUploadQueue. rewrite Hstat.
  assert (fi_isdir f || (fi_size f <=? 0) = true) as ->.
  { apply orb_true_iff. destruct Hempty; [by left|right; by apply Z.leb_le]. }
  by rewrite Wrap_nil.
Qed.

(** ** Directories *)

(** A task that has segments has those that the processing gave. *)
Lemma Preprocess_segments tmpDir (w w' : world) fpath cipher territory bucket cb status
    (Hp : PreprocessFileAndPutIntoUploadQueue tmpDir w fpath cipher territory bucket cb = ((status, None), w')) :
  st_SegmentInfo status ≠ [] ->
  exists fs, FullProcessing (uw_fs w) fpath cipher tmpDir = ((st_SegmentInfo status, st_FileHash status, None), fs).
Proof.
  revert Hp. unfold PreprocessFileAndPutIntoUploadQueue. destruct (os_Stat _ _) as [f|e].
  2:{ by destruct (Wrap_not_nil e "preprocess file error") as [x ->]. }
  destruct (fi_isdir f || _); [by intros [= <- _]|].
  destruct (FullProcessing _ _ _ _) as [[[segs root] [e|]] fs].
  { by destruct (Wrap_not_nil e "preprocess file error") as [x ->]. }
  destruct (QueryFile _ _); [destruct (existsb _ _); [by intros [= <- _]|]|];
    (destruct (PlaceStorageOrder _ _ _ _ _ _ _ _) as [[tx [e'|]] n];
      [by destruct (Wrap_not_nil e' "preprocess file error") as [x ->]|]); intros [= <- _]; [done|].
  intros _. by exists fs.
Qed.

(** The segments of a file that is not encrypted: consecutive parts of the segment size, the
    last one filled up with zeros. *)
Definition segment_count (n : Z) : Z := (n + SegmentSize - 1) / SegmentSize.
Definition nth_segment (i : nat) (b : bytes) : bytes :=
  let part := take (Z.to_nat SegmentSize) (drop (i * Z.to_nat SegmentSize) b) in
  (part ++ replicate (Z.to_nat SegmentSize - length part) x00)%list.
Definition cuts_segments : Prop := forall fs fpath tmpDir b segs root fs',
  files fs !! fpath = Some b -> FullProcessing fs fpath "" tmpDir = ((segs, root, None), fs') ->
  len segs = segment_count (len b).

Lemma nth_segment_first b :
  len b <= SegmentSize -> exists zeros, nth_segment 0 b = (b ++ zeros)%list.
Proof.
  intros Hb. unfold nth_segment. cbn [Nat.mul]. rewrite drop_0, take_ge by (unfold len in Hb; lia). by eexists.
Qed.

(** With plates well below the segment size, as many segments as plates means one plate. *)
Lemma one_plate_only (k s : Z) :
  3 * sdk_FragmentSize <= SegmentSize -> 1 <= k -> 0 < s <= sdk_FragmentSize ->
  segment_count (k * sdk_FragmentSize + s) = k -> k = 1.
Proof.
  intros Hge Hk Hs Hc. unfold segment_count in Hc. destruct cess_config_positive as (_ & _ & Hf & Hg).
  pose proof (Z.mod_pos_bound (k * sdk_FragmentSize + s + SegmentSize - 1) SegmentSize Hg).
  pose proof (Z.div_mod (k * sdk_FragmentSize + s + SegmentSize - 1) SegmentSize (not_eq_sym (Z.lt_neq _ _ Hg))) as Hd.
  rewrite Hc in Hd. destruct (Z.eqb_spec k 1) as [|Hk1]; [done|].
  assert (0 <= (SegmentSize - 3 * sdk_FragmentSize) * (k - 1)) by (apply Z.mul_nonneg_nonneg; lia).
  assert (0 <= sdk_FragmentSize * (k - 2)) by (apply Z.mul_nonneg_nonneg; lia). lia.
Qed.

(** What [UploadDirAsBoxFile] accepts: a box of one plate. *)
Lemma accepted_box tmpDir (w w' : world) territory bucket fname dir user es fl fhash meta
    (Hwrite : forall p w, write_fault p w = None) (Hp : packable (uw_fs w) fname dir es fl)
    (Hfit : Forall (fun f => len (snd f) <= sdk_FragmentSize) fl)
    (Hsizes : 3 * sdk_FragmentSize <= SegmentSize) (Hcut : cuts_segments)
    (Hup : UploadDirAsBoxFile tmpDir w territory bucket fname dir "" user (inl es) = Returns ((fhash, meta, None), w')) :
  exists c last h, pack fl [] = ([c], last) /\ c ++ last = fl /\ last ≠ [] /\ size_of c <= sdk_FragmentSize /\
    size_of last <= sdk_FragmentSize /\
    meta = print (enc_FileBox (one_plate_box h c last (TotalSize (box_metadata [c] last)) (PaddingSize (box_metadata [c] last)))).
Proof.
  revert Hup. unfold UploadDirAsBoxFile. pose proof (CreateAFileBox_ok Hwrite _ _ _ _ _ Hp) as Hbox. cbv zeta in Hbox.
  pose proof (pack_concat fl []) as Hcat. pose proof (pack_last fl []) as Hlast.
  assert (fl = [] -> fst (pack fl []) = []) as Hnil by by intros ->.
  destruct (pack_sizes fl [] Hfit) as [Hcs Hl].
  { change (size_of []) with 0. pose proof cess_config_positive. lia. }
  destruct (pack fl []) as [cs last]. cbn [fst snd app] in *. rewrite Hbox. clear Hbox.
  case_decide as Hne; [done|]. cbn [mbind outcome_bind].
  destruct (PreprocessFileAndPutIntoUploadQueue _ _ _ _ _ _ _) as [[status [e|]] w1] eqn:Ep.
  { by destruct (Wrap_not_nil e "upload dir error") as [x ->]. }
  case_decide as Hlen.
  { unfold errors_New.
    by destruct (Wrap_not_nil "the number of generated segments is inconsistent" "upload dir error") as [x ->]. }
  intros [= <- <- <-].
  assert (length (Plates (box_metadata cs last)) = length cs) as Hplates.
  { destruct (exists_last Hne) as (ds & d & ->). unfold box_metadata. cbn [Plates].
    rewrite removelast_last, rev_app_distr. cbn. by rewrite !length_app, length_map. }
  assert (len cs = len (st_SegmentInfo status)) as Hk by (unfold len in *; lia).
  pose proof Ep as (fs1 & Hfp)%Preprocess_segments; [|intros E; rewrite E in Hk; by destruct cs].
  apply (Hcut _ _ _ (concat (map chunk_of cs) ++ bytes_of last)%list) in Hfp; [|cbn; apply lookup_insert_eq].
  assert (last ≠ []) as Hl0.
  { apply Hlast. intros ->. by apply Hne, Hnil. }
  assert (0 < size_of last) as Hpos.
  { destruct last as [|f fs']; [done|]. rewrite size_of_cons.
    assert (f ∈ fl) as Hin by (rewrite <- Hcat; set_solver).
    destruct Hp as [_ _ He]. unfold entry_files in He. apply list_elem_of_lookup in Hin as [i Hi].
    destruct (Forall2_lookup_r _ _ _ _ _ He Hi) as (x & _ & _ & _ & Hf & _).
    pose proof (len_nonneg (bytes_of fs')). unfold size_of. lia. }
  rewrite len_app, len_chunks in Hfp by done. fold (size_of last) in Hfp. rewrite <- Hk in Hfp.
  assert (1 <= len cs) by (destruct cs; [done|rewrite len_cons; pose proof (len_nonneg cs); lia]).
  apply eq_sym, one_plate_only in Hfp; [|lia..].
  destruct cs as [|c [|d cs]]; [done| |rewrite !len_cons in Hfp; pose proof (len_nonneg cs); lia].
  destruct (st_SegmentInfo status) as [|seg [|? ?]]; [done| |].
  2:{ rewrite !len_cons, len_nil in Hk. pose proof (len_nonneg l). lia. }
  cbn in Hcat. rewrite app_nil_r in Hcat. apply Forall_cons in Hcs as [Hc _].
  by exists c, last, (sd_SegmentHash seg).
Qed.

(** C14: What becomes of a directory that [UploadDirAsBoxFile] takes without an error (and
    without a cipher, its files of at most a fragment each): its files fall into those of one
    plate, packed greedily, and, always, at least one more.  With the segment that the metadata names, made of
    the box file as [CreateAFileBox] wrote it, [DownloadFileInBox] gives every file of the
    plate back byte for byte, but for the last one of a plate filled to the byte; of the
    others it says that they are not in the metadata, and asks nobody. *)
Theorem box_read_back tmpDir (w w' : world) territory bucket fname dir user es fl fhash meta
    (Hwrite : forall p w, write_fault p w = None) (Hp : packable (uw_fs w) fname dir es fl)
    (Hnames : NoDup (map fst fl)) (Hfit : Forall (fun f => fst f ≠ "" /\ len (snd f) <= sdk_FragmentSize) fl)
    (Hsizes : 3 * sdk_FragmentSize <= SegmentSize) (Hcut : cuts_segments)
    (Hup : UploadDirAsBoxFile tmpDir w territory bucket fname dir "" user (inl es) = Returns ((fhash, meta, None), w')) :
  exists made fpath fs1 content box plate left_out p,
    CreateAFileBox (uw_fs w) fname dir (inl es) = Returns ((made, fpath, None), fs1) /\
    files fs1 !! fpath = Some content /\ meta = print (enc_FileBox box) /\ Plates box = [p] /\
    pack fl [] = ([plate], left_out) /\ (plate ++ left_out)%list = fl /\ left_out ≠ [] /\
    forall fs download,
      (forall fs' spath j f, download (SegmentHash p) = ((spath, None), fs') ->
        os_fault OpRead spath = None -> files fs' !! spath = Some (nth_segment 0 content) ->
        plate !! j = Some f -> (S j < length plate)%nat \/ size_of plate < sdk_FragmentSize ->
        DownloadFileInBox fs download (fst f) box = Returns ((snd f, None), fs')) /\
      (forall f, f ∈ left_out -> DownloadFileInBox fs download (fst f) box
        = Returns (([], Wrap (errors_New "data not found from box metadata") "download file in box error"), fs)).
Proof.
  destruct (accepted_box tmpDir w w' territory bucket fname dir user es fl fhash meta Hwrite Hp) as (c & last & h & Epack & Hcat & Hl & Hc & Hls & ->);
    [by eapply Forall_impl; [exact Hfit|]; intros ? []|done..|].
  pose proof (CreateAFileBox_ok Hwrite _ _ _ _ _ Hp) as Hbox. cbv zeta in Hbox. rewrite Epack, decide_False in Hbox by done.
  rewrite <- Hcat, map_app in Hnames. apply NoDup_app in Hnames as (Hnd & Hdis & _).
  do 8 eexists. split; [exact Hbox|]. split; [apply lookup_insert_eq|]. split; [done|]. split; [done|].
  split; [exact Epack|]. split; [exact Hcat|]. split; [exact Hl|]. intros fs download. split.
  - intros fs' spath j f Hd Hr Hf Hj Hcase. cbn [map concat SegmentHash] in Hf, Hd. rewrite app_nil_r in Hf.
    destruct (nth_segment_first (chunk_of c ++ bytes_of last)) as [zeros Hz].
    { rewrite len_app, len_chunk_of by done. fold (size_of last).
      pose proof cess_config_positive. lia. }
    rewrite Hz in Hf. unfold chunk_of in Hf. rewrite <- !app_assoc in Hf.
    by eapply read_one_plate.
  - intros f Hf. apply read_open_plate.
    + intros Hin. apply (Hdis _ Hin). by apply list_elem_of_fmap_2.
    + rewrite Forall_forall in Hfit. apply (Hfit f). rewrite <- Hcat. set_solver.
Qed.

(** ** The server *)

Lemma mark_complete_on_chain now i complete g :
  OnChain (mark_complete now i complete g) = true ->
  OnChain g = true \/ exists miner, (i, miner) ∈ complete.
Proof.
  revert g. induction complete as [|[index miner] complete IH]; intros g; cbn [mark_complete]; [by left|].
  intros Hc. apply IH in Hc as [Hc|(m & Hm)]; [|right; exists m; by right].
  destruct ((index =? i) && negb (OnChain g)) eqn:E; [|by left].
  apply andb_true_iff in E as [E _]. apply Z.eqb_eq in E as ->. right. exists miner. by left.
Qed.

(** The count is that of the groups on chain, and a group is on chain when it was or
    when the chain's list says so. *)
Lemma upload_groups_on_chain now fhash segs complete savedPeers groups :
  forall (w : world) itor i gs n w',
  upload_groups now w fhash segs complete savedPeers itor i groups = Returns ((gs, n), w') ->
  length gs = length groups
  /\ n = len (filter (fun g => OnChain g = true) gs)
  /\ forall k g, gs !! k = Some g -> OnChain g = true ->
       (exists g0, groups !! k = Some g0 /\ OnChain g0 = true)
       \/ exists miner, (i + Z.of_nat k, miner) ∈ complete.
Proof.
  induction groups as [|g groups IH]; intros w itor i gs n w'; cbn [upload_groups].
  { intros [= <- <- <-]. split_and!; [done|done|]. intros k g Hk; by rewrite lookup_nil in Hk. }
  set (g1 := mark_complete now i complete g).
  assert (Hstep : forall g2 gs1 n1, length gs1 = length groups ->
    (forall k g, gs1 !! k = Some g -> OnChain g = true ->
       (exists g0, groups !! k = Some g0 /\ OnChain g0 = true)
       \/ exists miner, (i + 1 + Z.of_nat k, miner) ∈ complete) ->
    n1 = len (filter (fun g => OnChain g = true) gs1) -> OnChain g2 = OnChain g1 ->
    length (g2 :: gs1) = length (g :: groups)
    /\ (if OnChain g1 then n1 + 1 else n1) = len (filter (fun g => OnChain g = true) (g2 :: gs1))
    /\ forall k g', (g2 :: gs1) !! k = Some g' -> OnChain g' = true ->
       (exists g0, (g :: groups) !! k = Some g0 /\ OnChain g0 = true)
       \/ exists miner, (i + Z.of_nat k, miner) ∈ complete).
  { intros g2 gs1 n1 Hl Hk -> Hg. split_and!; [by cbn; rewrite Hl| |].
    - rewrite filter_cons, Hg. destruct (OnChain g1); [rewrite decide_True by done|by rewrite decide_False by done].
      rewrite len_cons. lia.
    - intros [|k] g' Hk' Hc; cbn in Hk'.
      + injection Hk' as <-. rewrite Hg in Hc. apply mark_complete_on_chain in Hc as [Hc|(m & Hm)].
        * left. by exists g.
        * right. exists m. by rewrite Z.add_0_r.
      + destruct (Hk k g' Hk' Hc) as [?|(m & Hm)]; [by left|right]. exists m.
        by replace (i + Z.of_nat (S k)) with (i + 1 + Z.of_nat k) by lia. }
  destruct (OnChain g1) eqn:Ec; [|destruct (Saved g1 && _)].
  - intros ([[gs1 n1] w1] & Hr & [= <- <- <-])%outcome_bind_Returns.
    destruct (IH _ _ _ _ _ _ Hr) as (Hl & Hn & Hk). by apply Hstep.
  - intros ([[gs1 n1] w1] & Hr & [= <- <- <-])%outcome_bind_Returns.
    destruct (IH _ _ _ _ _ _ Hr) as (Hl & Hn & Hk). by apply Hstep.
  - intros ([[saved itor'] w1] & _ & Hrest)%outcome_bind_Returns.
    apply outcome_bind_Returns in Hrest as ([[gs1 n1] w2] & Hr & [= <- <- <-]).
    destruct (IH _ _ _ _ _ _ Hr) as (Hl & Hn & Hk). apply Hstep; try done. by destruct saved.
Qed.

Lemma filter_full {A} (P : A -> Prop) `{forall x, Decision (P x)} (l : list A) :
  (length l <= length (filter P l))%nat -> Forall P l.
Proof.
  induction l as [|x l IH]; [by constructor|]. rewrite filter_cons. cbn [length].
  pose proof (length_filter P l). case_decide; cbn [length]; intros Hl; [|lia].
  constructor; [done|]. apply IH. lia.
Qed.

(** C19: While the chain does not have the file, the upload server is done with a task of
    [DataShards + ParShards] groups only when each of its groups is on chain: it was
    already, or the deal's complete list names it. *)
Theorem upload_finishes_on_chain now (w w' : world) task
    (Hturn : server_turn now w task = Returns (Finished w'))
    (Hq : exists e, QueryFile (uw_chain w) (st_FileHash task) = inr e)
    (Hgroups : len (Group task) = DataShards + ParShards) :
  exists complete, QueryDealMap (uw_chain w) (st_FileHash task) = inl complete
    /\ forall k g, Group task !! k = Some g ->
         OnChain g = true \/ exists miner, (Z.of_nat k, miner) ∈ complete.
Proof.
  destruct Hq as [e Hq]. revert Hturn. unfold server_turn. rewrite Hq.
  case_decide; [done|].
  destruct (QueryDealMap _ _) as [complete|]; [|done].
  destruct (NewPeersIterator _ _) as [itor|]; [|done].
  intros ([[gs n] w1] & Hr & Hrest)%outcome_bind_Returns.
  destruct (upload_groups_on_chain _ _ _ _ _ _ _ _ _ _ _ _ Hr) as (Hl & Hn & Hk).
  destruct (Z.ltb_spec n (DataShards + ParShards)); [done|].
  exists complete. split; [done|]. intros k g Hg.
  assert (Hall : Forall (fun g => OnChain g = true) gs) by (apply (filter_full (fun g => OnChain g = true)); unfold len in *; lia).
  assert (exists g', gs !! k = Some g') as [g' Hg'].
  { apply lookup_lt_is_Some_2. rewrite Hl. by eapply lookup_lt_Some. }
  rewrite Forall_lookup in Hall.
  destruct (Hk k g' Hg' (Hall k g' Hg')) as [(g0 & Hg0 & Hc)|(m & Hm)].
  - left. by simplify_eq.
  - right. exists m. by rewrite Z.add_0_l in Hm.
Qed.

Lemma write_group_skips n fs peer fhash i segs :
  Forall (fun s => exists p, index (FragmentHash s) i = Returns p /\ length (strings_Split p slash) ≠ 3%nat) segs ->
  write_group n fs peer fhash i segs = Returns (true, n).
Proof.
  induction 1 as [|s segs (p & Hp & Hl) _ IH]; cbn [write_group]; [done|].
  rewrite Hp. cbn [mbind outcome_bind].
  destruct (strings_Split p slash) as [|a [|b [|c [|d l]]]]; done.
Qed.

(** Fragments whose path does not have exactly three parts are not sent, yet their
    group counts as uploaded: the first peer that can be reached takes it, and nothing
    but the connection reaches the network. *)
Theorem upload_group_skips_paths (w : world) fhash i segs savedPeers peer itor n
    (Hpaths : Forall (fun s => exists p, index (FragmentHash s) i = Returns p
                        /\ length (strings_Split p slash) ≠ 3%nat) segs)
    (Hnew : peer ∉ savedPeers) (Hconnect : storage_Connect (uw_chain w) peer = (None, n)) :
  upload_group w fhash i segs savedPeers (peer :: itor) = Returns ((Some peer, itor), set_chain n w).
Proof.
  cbn [upload_group]. rewrite decide_False, Hconnect by done.
  by rewrite write_group_skips.
Qed.
End upload.

(** ** A sample chain

    Nothing is stored yet; every deal is complete when its hash is [done]. *)

Definition one_shard : CessConfig.
Proof. by refine {| DataShards := 1; ParShards := 1; sdk_FragmentSize := 4; SegmentSize := 8 |}. Defined.

Definition sample_segments : list SegmentDataInfo := [mkSegmentDataInfo "sa" ["/tmp/x/f0"; "/tmp/x/f1"]].

Definition empty_chain : StorageNet unit := {|
  QueryFile _ _ := inr "not found";
  QueryMinerItems _ m := inl "peer";
  ReadDataAction n fs _ _ _ := (Some "unreachable", (n, fs));
  RSRestore fs p paths := (None, fs);
  AesCbcDecrypt b _ := inl b;
  spare_capacity _ := 0%nat |}.

Definition sample_upload : UploadChain unit := {|
  SignatureAcc _ := [x01];
  Owners _ _ := [];
  PlaceStorageOrder n _ _ _ _ _ _ _ := (("tx", None), n);
  QueryDealMap _ h := inl (if decide (h = "done") then [(0, "m0"); (1, "m1")] else []);
  chain_DeleteFile n _ _ := (("tx", None), n);
  storage_Connect n _ := (None, n);
  WriteDataAction n _ _ _ _ _ := (None, n);
  FullProcessing fs _ _ _ := ((sample_segments, "root", None), fs);
  marshal_states _ _ := inl [] |}.

Section witnesses.
#[local] Existing Instance one_shard.
#[local] Existing Instance empty_chain.
#[local] Existing Instance sample_upload.

Definition upload_world : uworld unit (list string) :=
  mkUworld tt (mkFS {[ "/data/f" := [x01; x02]; "/data/e" := [] ]} ∅) ["p1"; "p2"; "p3"] [].

Lemma UploadFile_queues_witness :
  exists w', UploadFile "/tmp" upload_world "terr" "bucket" "/data/f" "" None = (("root", None), w')
    /\ len (uploadQueue w') = 1.
Proof.
  assert (Hup : exists w', UploadFile "/tmp" upload_world "terr" "bucket" "/data/f" "" None
    = (("root", None), w')) by (eexists; reflexivity).
  destruct Hup as [w' Hup]. exists w'. split; [exact Hup|].
  destruct (UploadFile_queues "/tmp" upload_world w' "terr" "bucket" "/data/f" "" None "root" Hup)
    as [(task & -> & _)|[? _]]; done.
Defined.

Lemma UploadFile_empty_succeeds_witness :
  UploadFile "/tmp" upload_world "terr" "bucket" "/data/e" "" None = (("", None), upload_world).
Proof.
  apply (UploadFile_empty_succeeds "/tmp" upload_world "terr" "bucket" "/data/e" "" None (mkFileInfo 0 false));
    [reflexivity|by right].
Defined.

Definition done_task : UploadStats :=
  mkUploadStats "done" "/data/f" None sample_segments [UploadGroup_zero; UploadGroup_zero].

Lemma upload_finishes_on_chain_witness :
  exists w' complete, server_turn 0 upload_world done_task = Returns (Finished w')
    /\ QueryDealMap tt "done" = inl complete
    /\ forall k g, Group done_task !! k = Some g -> OnChain g = true \/ exists m, (Z.of_nat k, m) ∈ complete.
Proof.
  assert (Ht : exists w', server_turn 0 upload_world done_task = Returns (Finished w'))
    by (eexists; reflexivity).
  destruct Ht as [w' Ht].
  destruct (upload_finishes_on_chain 0 upload_world w' done_task Ht) as (complete & Hc & Hk);
    [by eexists|reflexivity|].
  exists w', complete. split; [exact Ht|]. split; [exact Hc|exact Hk].
Defined.

Lemma upload_group_skips_paths_witness :
  upload_group upload_world "root" 0 sample_segments [] ["p1"; "p2"]
    = Returns ((Some "p1", ["p2"]), set_chain tt upload_world).
Proof.
  apply (upload_group_skips_paths upload_world "root" 0 sample_segments [] "p1" ["p2"] tt).
  - constructor; [|constructor]. exists "/tmp/x/f0". split; [reflexivity|]. done.
  - apply not_elem_of_nil.
  - reflexivity.
Defined.

(** A directory whose box is taken: fragments of four bytes, segments of sixteen. *)
Definition four_shards : CessConfig.
Proof. by refine {| DataShards := 4; ParShards := 8; sdk_FragmentSize := 4; SegmentSize := 16 |}. Defined.

(** Cuts a file as the storage does. *)
Definition cutting_upload : UploadChain unit := {|
  SignatureAcc _ := [x01];
  Owners _ _ := [];
  PlaceStorageOrder n _ _ _ _ _ _ _ := (("tx", None), n);
  QueryDealMap _ h := inl [];
  chain_DeleteFile n _ _ := (("tx", None), n);
  storage_Connect n _ := (None, n);
  WriteDataAction n _ _ _ _ _ := (None, n);
  FullProcessing fs p _ _ :=
    ((replicate (Z.to_nat (segment_count (H2 := four_shards) (len (default [] (files fs !! p)))))
        (mkSegmentDataInfo "sa" ["/tmp/x/f0"]), "root", None), fs);
  marshal_states _ _ := inl [] |}.

Lemma cutting_cuts : @cuts_segments unit cutting_upload four_shards.
Proof.
  intros fs fpath tmpDir b segs root fs' Hb [= <- _ _]. rewrite Hb. cbn [default from_option].
  unfold len at 1. rewrite length_replicate. apply Z2Nat.id.
  unfold segment_count. apply Z.div_pos; pose proof (len_nonneg b); cbn; lia.
Qed.

Definition box_world : uworld unit (list string) := mkUworld tt tiny_dir ["p1"] [].
Definition tiny_segment : FS :=
  mkFS {[ "/tmp/s" := [x01; x02; x03; x00; x04; x05; x06; x07; x00; x00; x00; x00; x00; x00; x00; x00] ]} ∅.

Lemma box_packable : @packable no_faults tiny_dir "box" "/d" tiny_entries tiny_files.
Proof. split; [done|done|]. unfold entry_files. repeat constructor; done. Qed.

Lemma box_names : NoDup (map fst tiny_files).
Proof. repeat constructor; cbn; set_solver. Qed.

Lemma box_read_back_witness :
  exists meta w', @UploadDirAsBoxFile unit (list string) empty_chain cutting_upload four_shards no_faults pkg_errors
      "/tmp" box_world "terr" "bucket" "box" "/d" "" true (inl tiny_entries)
    = Returns (("root", meta, None), w') /\
  exists box, meta = print (enc_FileBox box) /\
    DownloadFileInBox tiny_dir (fun h => (("/tmp/s", None), tiny_segment)) "a" box = Returns (([x01; x02; x03], None), tiny_segment) /\
    exists e, DownloadFileInBox tiny_dir (fun h => (("/tmp/s", None), tiny_segment)) "c" box = Returns (([], e), tiny_dir).
Proof.
  assert (Hup : exists meta w', @UploadDirAsBoxFile unit (list string) empty_chain cutting_upload four_shards no_faults pkg_errors
      "/tmp" box_world "terr" "bucket" "box" "/d" "" true (inl tiny_entries)
    = Returns (("root", meta, None), w')) by (do 2 eexists; vm_compute; reflexivity).
  destruct Hup as (meta & w' & Hup). exists meta, w'. split; [exact Hup|].
  destruct (@box_read_back unit (list string) empty_chain cutting_upload four_shards no_faults pkg_errors "/tmp" box_world w'
    "terr" "bucket" "box" "/d" true tiny_entries tiny_files "root" meta) as
    (made & fpath & fs1 & content & box & plate & left & p & Hmade & Hc & Hm & Hp & Hpack & _ & _ & Hread);
    [done| | | |done|exact cutting_cuts|exact Hup|].
  - exact box_packable.
  - exact box_names.
  - repeat constructor; done.
  - exists box. split; [exact Hm|]. vm_compute in Hpack. injection Hpack as <- <-.
    pose proof (@CreateAFileBox_ok four_shards no_faults pkg_errors ltac:(done) tiny_dir "box" "/d" tiny_entries tiny_files box_packable) as Hok.
    cbn [uw_fs box_world] in Hmade. rewrite Hok in Hmade. injection Hmade as <- <- <-. injection Hc as <-.
    destruct (Hread tiny_dir (fun h => (("/tmp/s", None), tiny_segment))) as [Hin Hout]. split.
    + eapply (Hin tiny_segment "/tmp/s" 0%nat ("a", [x01; x02; x03])); [done|done|vm_compute; reflexivity|done|by right].
    + eexists. apply (Hout ("c", [x07])). by right; left.
Defined.
End witnesses.
