(* ===== verification/Client.v ===== *)
(** * The client: cd2n-client/client/client.go, bucket.go and space.go

    Its record and configuration, the settlement of orders with the cachers, and the calls
    it passes on to the chain. *)

From S2P Require Import Prelude GoStrings Encoding Json Codec Types GoOs Lib External Credit.

(** What of the client is set by the program itself; a channel is [None] while it is nil,
    and is known by its capacity. *)
Record Client (K : Type) := mkClient {
  ethAccSk : K;
  Mnemonic : string;
  CacheFeeLimit : string;
  tmpDir : string;
  osQueue : option nat;
  uploadQueueCap : option nat;
}.
Arguments mkClient {K} _ _ _ _ _ _.
Arguments ethAccSk {K} _.
Arguments Mnemonic {K} _.
Arguments CacheFeeLimit {K} _.
Arguments tmpDir {K} _.
Arguments osQueue {K} _.
Arguments uploadQueueCap {K} _.

Definition NewClient {K} (sk : K) : Client K := mkClient sk "" "" "" None None.

(** [make] panics on a negative size. *)
Definition SetConfig {K} (mnemonic tmp feeLimit : string) (uploadQueueSize : Z) (c : Client K)
  : outcome (Client K) :=
  if uploadQueueSize <? 0 then Panics NegativeSize
  else Returns (mkClient (ethAccSk c) mnemonic feeLimit tmp (osQueue c) (Some (Z.to_nat uploadQueueSize))).

(** crypto's keys, and the chain calls made for the client's account. *)
Class EthKeys (K : Type) := {
  CompressPubkey : K -> bytes;
  crypto_Sign : bytes -> K -> bytes + string;
}.

Section payment.
Context {K DB W Net : Type} `{EthKeys K} `{LevelDB DB} `{Order2Credit W} `{CacheNet Net} `{EthCrypto} `{Base58}
  `{GoTime} `{JsonMessages} `{FloatText} `{PkgErrors}.

Definition GetPublickey (c : Client K) : bytes := CompressPubkey (ethAccSk c).

(** What one response asks to be paid: nothing when there is credit left. *)
Definition payment_value (resp : CacheResponse) : option Z :=
  let limit := CreditLimit (Info resp) in
  let debt := Z.quot (i64 (- limit)) FragmentSize in
  if 0 <? limit then None
  else
    let debt := if debt =? 0 then 1 else debt in
    price ← big_SetString (Price (Info resp)); Some (price * debt).

(** One turn of the loop of [PaymentCacheOrder]. *)
Definition payment_step (now : time) (cl : Client K) (st : (Credit DB * W) * Net) (resp : CacheResponse)
    : outcome ((Credit DB * W) * Net) :=
  let '((mg, w), net) := st in
  match payment_value resp with
  | None => Returns st
  | Some bill =>
      let acc := address_Hex (BytesToAddress (elems (Account (Info resp)))) in
      '(tx, orderId, err, mw) ← PaymentCreditBill now w mg acc (PeerId (Info resp)) (big_String bill);
      match err with
      | Some _ => Returns (mw, net)
      | None =>
          if decide (orderId = "" \/ tx = "") then Returns (mw, net)
          else
            match hex_DecodeString orderId with
            | None => Returns (mw, net)
            | Some oid =>
                match base58_Decode (PeerId (Info resp)) with
                | inr _ => Returns (mw, net)
                | inl bpid =>
                    match crypto_Sign (Keccak256Hash oid) (ethAccSk cl) with
                    | inr _ => Returns (mw, net)
                    | inl sign =>
                        let '(_, net) := QueryFileInfoFromCache net (of_bytes bpid)
                          (mkCacheRequest "" "" "" (Some (GetPublickey cl)) (Some oid) (Some sign)) in
                        Returns (mw, net)
                    end
                end
            end
      end
  end.

Fixpoint payment_loop (cl : Client K) (delivered : list (time * CacheResponse))
    (st : (Credit DB * W) * Net) : outcome ((Credit DB * W) * Net) :=
  match delivered with
  | [] => Returns st
  | (now, resp) :: delivered => st ← payment_step now cl st resp; payment_loop cl delivered st
  end.

(** How the loop stands once it has worked through what its channel delivered: it waits for
    more, or the channel was closed and the method returned. *)
Inductive settlement (St : Type) :=
  | SettlementWaits (st : St)
  | SettlementDone (st : St).
#[global] Arguments SettlementWaits {St} _.
#[global] Arguments SettlementDone {St} _.

(** A nil channel delivers nothing, and ranging over it waits for ever. *)
Definition PaymentCacheOrder (cl : Client K) (delivered : list (time * CacheResponse)) (closed : bool)
    (st : (Credit DB * W) * Net) : outcome (settlement ((Credit DB * W) * Net)) :=
  match osQueue cl with
  | None => Returns (SettlementWaits st)
  | Some _ =>
      st ← payment_loop cl delivered st;
      Returns (if closed then SettlementDone st else SettlementWaits st)
  end.
End payment.

(** ** Calls passed on to the chain *)

Record TerritoryInfo := mkTerritoryInfo { t_TotalSpace : Z; t_UsedSpace : Z }.

Class ChainAccount (N : Type) := {
  acc_key : N -> bytes;
  chain_CreateBucket : N -> bytes -> string -> (string * error) * N;
  chain_DeleteBucket : N -> bytes -> string -> (string * error) * N;
  QueryAllBucketName : N -> bytes -> list string + string;
  QueryBucket : N -> bytes -> string -> list string + string;   (** the file list *)
  QueryUserFidList : N -> bytes -> list string + string;
  QueryTerritory : N -> bytes -> string -> TerritoryInfo * error;
  chain_MintTerritory : N -> Z -> string -> Z -> (string * error) * N;
  chain_RenewalTerritory : N -> string -> Z -> (string * error) * N;
}.

Section account.
Context {N : Type} `{ChainAccount N} `{PkgErrors}.

Definition CreateBucket (n : N) (name : string) : (string * error) * N :=
  match chain_CreateBucket n (acc_key n) name with
  | ((_, Some e), n) => (("", Wrap (Some e) "create bucket error"), n)
  | ((hash, None), n) => ((hash, None), n)
  end.

Definition DeleteBucket (n : N) (name : string) : (string * error) * N :=
  match chain_DeleteBucket n (acc_key n) name with
  | ((_, Some e), n) => (("", Wrap (Some e) "delete bucket error"), n)
  | ((hash, None), n) => ((hash, None), n)
  end.

Definition ListBuckets (n : N) : list string * error :=
  match QueryAllBucketName n (acc_key n) with
  | inr e => ([], Wrap (Some e) "list buckets error")
  | inl l => (l, None)
  end.

Definition ListFilesInBucket (n : N) (name : string) : list string * error :=
  match QueryBucket n (acc_key n) name with
  | inr e => ([], Wrap (Some e) "list files in bucket error")
  | inl l => (l, None)
  end.

Definition ListUserFiles (n : N) : list string * error :=
  match QueryUserFidList n (acc_key n) with
  | inr e => ([], Wrap (Some e) "list user files error")
  | inl l => (l, None)
  end.

Definition QueryTerritoryInfo (n : N) (name : string) : TerritoryInfo * error :=
  let '(info, err) := QueryTerritory n (acc_key n) name in
  (info, Wrap err "query user space info error").

Definition MintTerritory (n : N) (gibCount days : Z) (territoryName : string) : (string * error) * N :=
  let '((res, err), n) := chain_MintTerritory n gibCount territoryName days in
  ((res, Wrap err "buy space error"), n).

Definition RenewalTerritory (n : N) (day : Z) (territoryName : string) : (string * error) * N :=
  let '((res, err), n) := chain_RenewalTerritory n territoryName day in
  ((res, Wrap err "renewal space error"), n).
End account.

(** ** The bill *)

(** A response without credit left is paid for: the bill is the node's price for as
    many whole fragments as the debt holds, and for one fragment when it holds none; so
    the debt is never overpaid by as much as one fragment more. *)
Theorem payment_value_covers (resp : CacheResponse) (price : Z)
    (Hlimit : - 2 ^ 63 < CreditLimit (Info resp) <= 0)
    (Hprice : big_SetString (Price (Info resp)) = Some price) :
  exists units, payment_value resp = Some (price * units) /\ 1 <= units
    /\ (units - 1) * FragmentSize <= - CreditLimit (Info resp) < (units + 1) * FragmentSize.
Proof.
  unfold payment_value. rewrite (proj2 (Z.ltb_ge _ _)) by lia.
  rewrite i64_id by (unfold is_i64; lia). rewrite Hprice. cbn [mbind option_bind].
  pose proof (Z.quot_div_nonneg (- CreditLimit (Info resp)) FragmentSize) as Hq.
  unfold FragmentSize in *. rewrite Hq by lia.
  pose proof (Z.div_mod (- CreditLimit (Info resp)) (8 * 1024 * 1024)).
  pose proof (Z.mod_pos_bound (- CreditLimit (Info resp)) (8 * 1024 * 1024)).
  destruct (Z.eqb_spec (- CreditLimit (Info resp) / (8 * 1024 * 1024)) 0) as [E|E].
  - exists 1. split; [done|]. lia.
  - eexists. split; [done|]. lia.
Qed.

Lemma payment_value_covers_witness :
  exists units, payment_value (mkCacheResponse "hit" None (mkCacheInfo (S754_zero false) "" "1000" None "" (-20000000) 0))
    = Some (1000 * units) /\ 1 <= units.
Proof.
  destruct (payment_value_covers
    (mkCacheResponse "hit" None (mkCacheInfo (S754_zero false) "" "1000" None "" (-20000000) 0)) 1000)
    as (u & Hu & H1 & _); [cbn; lia|reflexivity|]. exists u. split; [exact Hu|exact H1].
Defined.
