(* ===== verification/CacherQuery.v ===== *)
(** * Asking the cachers for a segment

    [QuerySegmentFromCachers] of cd2n-client/client/files.go (lines 359-414): goroutines
    take peers from an iterator, query them, collect the hits in a shared map, and send
    each hit on the settlement channel. Between their steps the rest of the network moves
    as a relation given to the section says. *)

From S2P Require Import Prelude GoStrings Json Codec Types Stream GoOs Lib External Storage Credit CacheActor ResourceActor.
From S2P Require Import NeighborQuery Client.

(** A goroutine: at the top of its loop, holding a hit, sending it, or returned. *)
Inductive goroutine :=
  | Asking
  | Hit (p : string) (r : CacheResponse)
  | Sending (r : CacheResponse)
  | Done.

(** [settle] is the settlement channel: [None] while it is nil, else what was sent. *)
Record cquery (Net Sel : Type) := mkCquery {
  cq_net : Net;
  cq_sel : Sel;
  remaining : list string;
  goroutines : list goroutine;
  cachedPeers : gmap string CacheResponse;
  settle : option (list CacheResponse);
}.
Arguments mkCquery {Net Sel} _ _ _ _ _ _.
Arguments cq_net {Net Sel} _.
Arguments cq_sel {Net Sel} _.
Arguments remaining {Net Sel} _.
Arguments goroutines {Net Sel} _.
Arguments cachedPeers {Net Sel} _.
Arguments settle {Net Sel} _.

(** The number of cachers to ask and of goroutines, of the [n] cachers known. *)
Definition cacher_number (n cacherNum : Z) : Z := if n <? cacherNum then n else cacherNum.
Definition cacher_threads (n cacherNum threadNum : Z) : Z :=
  if cacher_number n cacherNum <? threadNum then n else threadNum.

Section cacher_query.
Context {Net Sel K : Type} `{CacheNet Net} `{Selector Sel} `{EthKeys K} `{PkgErrors} `{FloatText} `{JsonMessages}.
Context (cl : Client K) (fileHash segmentHash : string).
(** What the rest of the network does meanwhile. *)
Context (others : Net -> Net -> Prop).
Abbreviation cquery := (cquery Net Sel).

(** One cacher: the response when it holds the segment. *)
Definition ask_cacher (net : Net) (sel : Sel) (p : string) : option CacheResponse * (Net * Sel) :=
  match QueryFileInfoFromCache net p
          (mkCacheRequest "" "" (filepath_Join [fileHash; segmentHash]) (Some (CompressPubkey (ethAccSk cl))) None None) with
  | ((_, Some _), net) => (None, (net, Feedback sel p false))
  | ((resp, None), net) =>
      (if decide (resp_Status resp = STATUS_HIT) then Some resp else None, (net, Feedback sel p true))
  end.

(** A send on a nil channel never goes through; one on a channel that was made does,
    sooner or later. *)
Inductive cacher_step : cquery -> cquery -> Prop :=
  | ask_next q p ps before after answer ns :
      remaining q = p :: ps -> goroutines q = (before ++ Asking :: after)%list ->
      ask_cacher (cq_net q) (cq_sel q) p = (answer, ns) ->
      cacher_step q (mkCquery (fst ns) (snd ns) ps
        (before ++ (match answer with Some r => Hit p r | None => Asking end) :: after)%list
        (cachedPeers q) (settle q))
  | no_more q before after :
      remaining q = [] -> goroutines q = (before ++ Asking :: after)%list ->
      cacher_step q (mkCquery (cq_net q) (cq_sel q) [] (before ++ Done :: after)%list (cachedPeers q) (settle q))
  | keep_hit q p r before after :
      goroutines q = (before ++ Hit p r :: after)%list ->
      cacher_step q (mkCquery (cq_net q) (cq_sel q) (remaining q) (before ++ Sending r :: after)%list
        (<[p := r]> (cachedPeers q)) (settle q))
  | send_hit q r before after sent :
      goroutines q = (before ++ Sending r :: after)%list -> settle q = Some sent ->
      cacher_step q (mkCquery (cq_net q) (cq_sel q) (remaining q) (before ++ Asking :: after)%list
        (cachedPeers q) (Some (sent ++ [r])%list))
  | others_move q net :
      others (cq_net q) net ->
      cacher_step q (mkCquery net (cq_sel q) (remaining q) (goroutines q) (cachedPeers q) (settle q)).

Definition cacher_start (threads : Z) (net : Net) (sel : Sel) (peers : list string) : cquery :=
  mkCquery net sel peers (replicate (Z.to_nat threads) Asking) ∅ (match osQueue cl with Some _ => Some [] | None => None end).

Definition cacher_done (q : cquery) : Prop := Forall (fun g => g = Done) (goroutines q).

Inductive QuerySegmentFromCachers (cacherNum threadNum : Z) (net : Net) (sel : Sel)
    : gmap string CacheResponse + string -> cquery -> Prop :=
  | cacher_not_found q :
      cacher_number (GetPeersNumber sel) cacherNum <= 0 ->
      QuerySegmentFromCachers cacherNum threadNum net sel (inr "cache node not found") q
  | cacher_no_iterator e q :
      0 < cacher_number (GetPeersNumber sel) cacherNum ->
      NewPeersIterator sel (cacher_number (GetPeersNumber sel) cacherNum) = inr e ->
      QuerySegmentFromCachers cacherNum threadNum net sel (inr e) q
  | cachers_queried peers q :
      0 < cacher_number (GetPeersNumber sel) cacherNum ->
      NewPeersIterator sel (cacher_number (GetPeersNumber sel) cacherNum) = inl peers ->
      rtc cacher_step (cacher_start (cacher_threads (GetPeersNumber sel) cacherNum threadNum) net sel peers) q ->
      cacher_done q ->
      QuerySegmentFromCachers cacherNum threadNum net sel (inl (cachedPeers q)) q.

(** ** A cacher that hits *)

Definition holds_hit (g : goroutine) : Prop :=
  match g with Hit _ _ | Sending _ => True | _ => False end.

(** With a nil channel: while the peer has not been asked it is still to come, and then
    some goroutine holds a hit. *)
Definition hit_pending (p : string) (q : cquery) : Prop :=
  settle q = None /\ (p ∈ remaining q \/ Exists holds_hit (goroutines q)).

Lemma Exists_replace (P : goroutine -> Prop) before g g' after :
  Exists P (before ++ g :: after) -> (P g -> P g') -> Exists P (before ++ g' :: after).
Proof.
  rewrite !Exists_app, !Exists_cons. tauto.
Qed.

Lemma hit_pending_step p q q' :
  (forall net sel, is_Some (fst (ask_cacher net sel p))) ->
  hit_pending p q -> cacher_step q q' -> hit_pending p q'.
Proof.
  intros Hask [Hs Hp] Hq. unfold hit_pending.
  destruct Hq as [q p' ps before after answer ns Hr Hg Ha|q before after Hr Hg|q p' r before after Hg
    |q r before after sent Hg Hsent|q net Ho]; try rewrite Hg in *; cbn [settle remaining goroutines];
    try congruence; (split; [done|]).
  - rewrite Hr in Hp. destruct Hp as [[->|Hp]%elem_of_cons|Hp]; [right|by left|right].
    + destruct (Hask (cq_net q) (cq_sel q)) as [r Hr']. rewrite Ha in Hr'. cbn in Hr'. subst answer.
      apply Exists_app. right. by left.
    + by eapply Exists_replace.
  - rewrite Hr in Hp. destruct Hp as [Hp%not_elem_of_nil|Hp]; [done|right].
    by eapply Exists_replace.
  - destruct Hp as [Hp|Hp]; [by left|right]. by eapply Exists_replace.
  - done.
Qed.

(** Goroutines return only when there is no peer left. *)
Definition working (q : cquery) : Prop :=
  goroutines q ≠ [] /\ (remaining q = [] \/ Forall (fun g => g ≠ Done) (goroutines q)).

Lemma working_step q q' : working q -> cacher_step q q' -> working q'.
Proof.
  intros [Hne Hr] Hq. unfold working.
  destruct Hq as [q p ps before after answer ns Hrem Hg Ha|q before after Hrem Hg|q p r before after Hg
    |q r before after sent Hg Hsent|q net Ho]; [rewrite Hg in *..|done]; cbn [remaining goroutines];
    (split; [by intros []%app_eq_nil|]); [|by left| |].
  - right. destruct Hr as [Hr|Hr]; [congruence|]. revert Hr. rewrite !Forall_app, !Forall_cons.
    intros (? & ? & ?). split_and!; [done| |done]. by destruct answer.
  - destruct Hr as [Hr|Hr]; [by left|right]. revert Hr. rewrite !Forall_app, !Forall_cons. naive_solver.
  - destruct Hr as [Hr|Hr]; [by left|right]. revert Hr. rewrite !Forall_app, !Forall_cons. naive_solver.
Qed.

Lemma working_done p q : working q -> hit_pending p q -> ~ cacher_done q.
Proof.
  intros [Hne Hr] [_ Hp] Hd. unfold cacher_done in Hd.
  destruct Hp as [Hin|Hex].
  - destruct Hr as [Hr|Hr]; [rewrite Hr in Hin; by apply not_elem_of_nil in Hin|].
    destruct (goroutines q) as [|g gs]; [done|].
    apply Forall_cons in Hr as [Hr _]. by apply Forall_cons in Hd as [Hd _].
  - rewrite Forall_forall in Hd. apply Exists_exists in Hex as (g & Hg & Hh).
    by rewrite (Hd g Hg) in Hh.
Qed.
End cacher_query.

(** ** Properties *)

(** C23: The settlement channel is never created: neither [NewClient] nor [SetConfig] makes
    it.  So as soon as one of the cachers to be asked holds the segment,
    [QuerySegmentFromCachers] never returns: the goroutine that has the hit is blocked for
    ever sending it, whatever the rest of the network does meanwhile. *)
Theorem cacher_hit_blocks {Net Sel K : Type} `{CacheNet Net} `{Selector Sel} `{EthKeys K} `{PkgErrors} `{FloatText}
    `{JsonMessages} (sk : K) mnemonic tmp feeLimit size cl fileHash segmentHash others cacherNum threadNum
    (net : Net) (sel : Sel) peers p m q
    (Hclient : SetConfig mnemonic tmp feeLimit size (NewClient sk) = Returns cl)
    (Hthreads : 0 < threadNum)
    (Hpeers : NewPeersIterator sel (cacher_number (GetPeersNumber sel) cacherNum) = inl peers)
    (Hp : p ∈ peers)
    (Hhit : forall net (sel : Sel), is_Some (fst (ask_cacher cl fileHash segmentHash net sel p))) :
  ~ QuerySegmentFromCachers cl fileHash segmentHash others cacherNum threadNum net sel (inl m) q.
Proof.
  intros Hq. inversion Hq as [| |peers' q' Hn Hit Hrun Hd]; subst.
  assert (peers' = peers) as -> by congruence.
  assert (Hos : osQueue cl = None).
  { unfold SetConfig in Hclient. case_match; [done|]. by injection Hclient as <-. }
  assert (Hinv : working q /\ hit_pending p q).
  { refine (rtc_ind_r (fun q => working q /\ hit_pending p q) _ _ _ _ Hrun).
    - unfold working, hit_pending, cacher_start. rewrite Hos. cbn [remaining goroutines settle].
      assert (exists k, Z.to_nat (cacher_threads (GetPeersNumber sel) cacherNum threadNum) = S k) as [k ->].
      { exists (pred (Z.to_nat (cacher_threads (GetPeersNumber sel) cacherNum threadNum))).
        unfold cacher_threads, cacher_number in *. repeat case_match; lia. }
      split_and!; [done| |done|by left]. right. by apply Forall_replicate.
    - intros q1 q2 _ Hstep [IH1 IH2]. split; [by eapply working_step|by eapply hit_pending_step]. }
  destruct Hinv as [Hw Hp']. by apply (working_done p q).
Qed.

Section witnesses.
#[local] Existing Instance sample_float_text.
#[local] Existing Instance sample_messages.

#[local] Instance byte_keys : EthKeys bytes := {
  CompressPubkey k := k;
  crypto_Sign h k := inl k;
}.

Lemma cacher_hit_blocks_witness :
  exists cl, SetConfig "words" "/tmp" "1" 16 (NewClient [x01]) = Returns cl
    /\ forall m q, ~ QuerySegmentFromCachers cl "fid" "sid" (fun _ _ => True) 2 2 tt ["a"; "b"] (inl m) q.
Proof.
  eexists. split; [reflexivity|]. intros m q.
  refine (cacher_hit_blocks [x01] "words" "/tmp" "1" 16 _ "fid" "sid" (fun _ _ => True) 2 2 tt ["a"; "b"] ["a"; "b"] "a" m q
    eq_refl eq_refl eq_refl _ _); [by left|].
  intros [] sel. vm_compute. by eexists.
Defined.
End witnesses.
