(* ===== verification/Settlement.v ===== *)
(** * Settling with the cachers

    The client's settlement loop ([PaymentCacheOrder] of cd2n-client/client/client.go) over
    the orders of the cache protocol contract ([CreateCreditOrder] of
    cd2n-lib/protocol/cache_evm_proto.go). A loop over a queue that is nil or not yet closed
    waits for more. *)

From S2P Require Import Prelude GoStrings Encoding Json Codec Types GoOs Lib External Credit.
From S2P Require Import CacheActor EvmClient CacheProto CacheProtoFacts Client.
From Stdlib Require Import SpecFloat.

(** A node leaves its peer id out of the information it gives. *)
Lemma nodes_announce_none {C R DB} `{FileCache FS C} {RecDB : LevelDB R} `{LevelDB DB} `{GoTime}
    `{JsonMessages} `{EthCrypto} now loads (a : CacheActor C R DB) acc :
  PeerId (fst (GetCacheInfo now loads a acc)) = "".
Proof.
  unfold GetCacheInfo. destruct loads as [[n1 n2] n3]. by destruct (IsLimited _ _ _) as [[limit ok] mg].
Qed.

Section settlement.
Context {K DB W Net : Type} `{Client.EthKeys K} `{LevelDB DB} `{CacheNet Net} `{BoundContract W} `{Base58}
  `{GoTime} `{JsonMessages} `{FloatText} `{PkgErrors}.

Definition cacher_account (resp : CacheResponse) : address :=
  HexToAddress (address_Hex (BytesToAddress (elems (Types.Account (Info resp))))).

(** What a cacher may say: no peer id, as the nodes of this program do (lemma
    [nodes_announce_none]), or, when it is registered, the id it is registered with. *)
Definition announces_own_id (pc : CacheProtoContract W) (w : W) (resp : CacheResponse) : Prop :=
  PeerId (Info resp) = "" \/
  match Node (CacheProto pc) w (cacher_account resp) with
  | (_, Some _) => True
  | (info, None) => PeerId (Info resp) = base58_Encode (info_PeerId info)
      /\ to_bytes (base58_Encode (info_PeerId info)) ≠ info_PeerId info
  end.

Lemma order_mismatch (pc : CacheProtoContract W) (w : W) acc resp bpid :
  announces_own_id pc w resp -> acc = cacher_account resp -> base58_Decode (PeerId (Info resp)) = inl bpid ->
  forall info, QueryRegisterInfo pc w acc = (info, None) -> info_PeerId info ≠ bpid.
Proof.
  intros Ha -> Hd info. unfold announces_own_id, QueryRegisterInfo in *.
  destruct (Node _ _ _) as [i [e|]].
  { destruct (Wrap_not_nil e "query node register info error") as [e1 He1]. rewrite He1. by intros. }
  case_decide as Hreg.
  { destruct (Wrap_not_nil "node not found." "query node register info error") as [e1 He1].
    unfold errors_New. rewrite He1. by intros. }
  intros [= <-]. cbn [info_PeerId]. destruct Ha as [Ha|[Ha Hne]]; rewrite Ha in Hd.
  - destruct base58_Decode_empty as [e He]. congruence.
  - rewrite base58_Decode_Encode in Hd by tauto. injection Hd as <-. done.
Qed.

Lemma order_refused (pc : CacheProtoContract W) (w : W) resp value :
  announces_own_id pc w resp ->
  exists e, CreateCreditOrder_impl pc w (address_Hex (BytesToAddress (elems (Types.Account (Info resp)))))
    (PeerId (Info resp)) value = Returns (("", "", Some e), w).
Proof.
  intros Ha. unfold CreateCreditOrder_impl. fold (cacher_account resp).
  pose proof (order_mismatch pc w (cacher_account resp) resp) as Hm.
  assert (Hwrap : forall e, exists e', Wrap (Some e) "create credit order" = Some e').
  { intros e. destruct (Wrap_not_nil e "create credit order") as [e' ?]. by exists e'. }
  destruct (base58_Decode _) as [b|e]; [|destruct (Hwrap e) as [e' ->]; by exists e'].
  destruct (QueryRegisterInfo _ _ _) as [info [e|]]; [destruct (Hwrap e) as [e' ->]; by exists e'|].
  rewrite decide_False by by apply (Hm b). unfold errors_New.
  destruct (Hwrap "peer ID does not match the registered one") as [e' ->]. by exists e'.
Qed.

Lemma payment_step_refused (pc : CacheProtoContract W) now cl (mg : Credit DB) (w : W) (net : Net) resp :
  announces_own_id pc w resp ->
  payment_step (K := K) (H1 := contract_orders pc) now cl ((mg, w), net) resp = Returns ((mg, w), net).
Proof.
  intros Ha. unfold payment_step. destruct (payment_value resp) as [bill|]; [|done].
  unfold PaymentCreditBill. destruct (GetCreditRecord mg _) as [record bad].
  destruct (order_refused pc w resp (big_String bill) Ha) as [e He]. cbn [CreateCreditOrder contract_orders].
  rewrite He. cbn [mbind outcome_bind]. by destruct (Wrap_not_nil e "payment credit bill error") as [e' ->].
Qed.

Lemma payment_loop_refused (pc : CacheProtoContract W) (cl : Client.Client K)
    (delivered : list (time * CacheResponse)) (mg : Credit DB) (w : W) (net : Net) :
  Forall (fun d => announces_own_id pc w (snd d)) delivered ->
  payment_loop (H1 := contract_orders pc) cl delivered ((mg, w), net) = Returns ((mg, w), net).
Proof.
  induction 1 as [|[now resp] delivered Hr _ IH]; cbn [payment_loop]; [done|].
  rewrite payment_step_refused by done. exact IH.
Qed.

(** C25: The client's settlement pays no honest cacher: over the protocol contract, whatever
    responses its queue delivers, from cachers that announce no peer id, as the nodes of this
    program do, or the id they are registered with, and whatever they are owed, the loop
    leaves everything as it was: no order is created, nothing is booked as paid, no cacher is
    notified. It returns only when its queue exists and was closed; a client that was only
    constructed and configured has no queue and waits for ever. *)
Theorem settlement_pays_nobody (pc : CacheProtoContract W) (cl : Client.Client K)
    (delivered : list (time * CacheResponse)) (closed : bool) (mg : Credit DB) (w : W) (net : Net)
    (Hown : Forall (fun d => announces_own_id pc w (snd d)) delivered) :
  PaymentCacheOrder (H1 := contract_orders pc) cl delivered closed ((mg, w), net)
    = Returns (if closed && bool_decide (is_Some (osQueue cl)) then SettlementDone ((mg, w), net)
               else SettlementWaits ((mg, w), net))
  /\ forall sk m t l n, Client.SetConfig m t l n (Client.NewClient sk) = Returns cl -> osQueue cl = None.
Proof.
  split.
  - unfold PaymentCacheOrder. rewrite payment_loop_refused by done.
    destruct (osQueue cl); [by rewrite bool_decide_true, andb_true_r|by rewrite bool_decide_false, andb_false_r by by intros []].
  - intros sk m t l n. unfold Client.SetConfig. destruct (n <? 0); [done|]. by intros [= <-].
Qed.
End settlement.

Section witnesses.
#[local] Existing Instance sample_crypto.
#[local] Existing Instance sample_client.
#[local] Existing Instance sample_contract.
#[local] Existing Instance sample_time.
#[local] Existing Instance sample_messages.
#[local] Existing Instance sample_float_text.
#[local] Existing Instance sample_base58.

#[local] Instance string_keys : Client.EthKeys string := {
  Client.CompressPubkey := to_bytes; Client.crypto_Sign _ k := inl (to_bytes k) }.

(** The cacher registered on the sample chain, to which two fragments are owed. *)
Definition owed_response : CacheResponse :=
  mkCacheResponse "hit" None (mkCacheInfo (S754_zero false) "" "1000" (Some (to_bytes "0xnode"))
    (base58_Encode [x01; x02]) (-20000000) 0).

Definition settling_client : Client.Client string := mkClient "key" "" "" "" (Some 16%nat) None.

Lemma settlement_pays_nobody_witness :
  payment_value owed_response = Some 2000 /\
  PaymentCacheOrder (H1 := contract_orders sample_pc) settling_client [((0 : @time sample_time), owed_response)] true
    ((mkCredit "10" "0xowner" DEFALUT_RESOURCE_LIMIT (∅ : gmap string bytes), sample_chain), [x00])
  = Returns (SettlementDone ((mkCredit "10" "0xowner" DEFALUT_RESOURCE_LIMIT ∅, sample_chain), [x00])).
Proof.
  split; [vm_compute; reflexivity|].
  refine (proj1 (settlement_pays_nobody sample_pc settling_client [((0 : @time sample_time), owed_response)] true
    (mkCredit "10" "0xowner" DEFALUT_RESOURCE_LIMIT (∅ : gmap string bytes)) sample_chain [x00] _)).
  constructor; [|by constructor]. right. split; [reflexivity|]. by vm_compute.
Defined.
End witnesses.
