(* ===== verification/Config.v ===== *)
(** * Configuration and the actor registry

    cd2n-lib/config/config.go: the defaults filled in after the file is read and the
    directories made, as a function of the package's globals. cd2n-node/actors/actor.go
    and p2p_ts_actor.go: the registries of actors and of message handlers. *)

From S2P Require Import Prelude GoStrings GoOs.

Definition DEFAULT_CONFIG_PATH := "./config.yaml".
Definition DEFAULT_CACHE_PATH := "./cache/".
Definition DEFAULT_P2P_WORKSPACE := "./cdn_node/cache_p2p".
Definition DEFAULT_CACHE_PRICE := "10000000000000000".
Definition DEFAULT_DOWNLOAD_POINT : Z := 4.

Record CessChainConfig := mkCessChainConfig { Rpc : list string; Network : string; cfg_Mnemonic : string }.
Record P2PConfig := mkP2PConfig { Boots : list string; P2PPort : Z; WorkSpace : string }.
Record CacherConfig := mkCacherConfig {
  CachePrice : string; CacheDir : string; Expiration : Z; CacheSize : Z; FreeDownloads : Z }.
Record CdnProtoConfig := mkCdnProtoConfig {
  ChainId : Z; cfg_Staking : string; GasFreeCap : Z; GasLimit : Z; TokenContract : string; ProtoContract : string;
  NodeTokenId : string; NodeAccPrivateKey : string; TokenAccAddress : string; TokenAccSign : string }.
Record DefaultConfig := mkDefaultConfig {
  Chain : CessChainConfig; ResrcP2P : P2PConfig; CacheP2P : P2PConfig; Cacher : CacherConfig;
  CdnProto : CdnProtoConfig; NodeWorkSpace : string; ActorSvcPort : Z }.

(** The package's variables. *)
Record globals := mkGlobals { default_config : DefaultConfig; TempDir : string }.

(** viper: reading the file, and filling a value from what was read. *)
Class Viper (T : Type) := {
  ReadInConfig : FS -> string -> string -> error;
  viper_Unmarshal : FS -> string -> T -> T * error;
}.

Definition or_string (s d : string) : string := if decide (s = "") then d else s.
Definition or_int (n d : Z) : Z := if n =? 0 then d else n.

Section config.
Context `{OsFaults} `{PkgErrors}.

Definition ParseCommonConfig {T} `{Viper T} (fs : FS) (fpath ctype : string) (config : T) : T * error :=
  let msg := "parse config file error" in
  let fpath := or_string fpath DEFAULT_CONFIG_PATH in
  match ReadInConfig fs fpath ctype with
  | Some e => (config, Wrap (Some e) msg)
  | None => let '(config, err) := viper_Unmarshal fs fpath config in (config, Wrap err msg)
  end.

(** The defaults, and the directories under the workspace. *)
Definition fill_defaults (g : globals) : globals :=
  let d := default_config g in
  let c := Cacher d in
  let size := if CacheSize c <=? 32 * 1024 * 1024 * 1024 then 32 * 1024 * 1024 * 1024 else CacheSize c in
  let expiration := if (Expiration c <=? 0) || (7 * 24 * 60 <? Expiration c) then 3 * 60 else Expiration c in
  let '(workspace, temp) :=
    if decide (NodeWorkSpace d = "") then (DEFAULT_CACHE_PATH, TempDir g)
    else (NodeWorkSpace d, filepath_Join [NodeWorkSpace d; "temp"]) in
  let under_workspace p dflt := filepath_Join [workspace; or_string p dflt] in
  let p2p p dflt := mkP2PConfig (Boots p) (P2PPort p) (under_workspace (WorkSpace p) dflt) in
  mkGlobals
    (mkDefaultConfig (Chain d) (p2p (ResrcP2P d) "./resource_p2p") (p2p (CacheP2P d) DEFAULT_P2P_WORKSPACE)
      (mkCacherConfig (or_string (CachePrice c) DEFAULT_CACHE_PRICE)
        (under_workspace (CacheDir c) DEFAULT_CACHE_PATH) expiration size
        (or_int (FreeDownloads c) DEFAULT_DOWNLOAD_POINT))
      (CdnProto d) workspace (or_int (ActorSvcPort d) 8080))
    temp.

(** Makes what does not exist, in order, up to the first failure. *)
Fixpoint make_dirs (fs : FS) (ps : list string) : FS * error :=
  match ps with
  | [] => (fs, None)
  | p :: ps =>
      match os_Stat fs p with
      | inl _ => make_dirs fs ps
      | inr _ =>
          match os_MkdirAll fs p with
          | (fs, Some e) => (fs, Wrap (Some e) "parse default config file error")
          | (fs, None) => make_dirs fs ps
          end
      end
  end.

Definition config_dirs (g : globals) : list string :=
  [CacheDir (Cacher (default_config g)); WorkSpace (CacheP2P (default_config g));
   WorkSpace (ResrcP2P (default_config g)); TempDir g].

Definition ParseDefaultConfig `{Viper DefaultConfig} (fs : FS) (g : globals) (fpath : string)
    : error * (FS * globals) :=
  let '(d, err) := ParseCommonConfig fs fpath "yaml" (default_config g) in
  let g := mkGlobals d (TempDir g) in
  match err with
  | Some _ => (err, (fs, g))
  | None =>
      let g := fill_defaults g in
      let '(fs, err) := make_dirs fs (config_dirs g) in (err, (fs, g))
  end.
End config.

Definition GetConfig (g : globals) : DefaultConfig := default_config g.

(** ** Actors *)

Definition CACHE_ACTOR := "cache_actor".
Definition P2P_TS_ACTOR := "p2p_ts_actor".
Definition RESOURCE_ACTOR := "resource_actor".

(** The global system, made on first use; [PID] names actors. *)
Section actors.
(** Running a handler on a message, at the peer's host. *)
Context {PID Handle Data W : Type} (handle : Handle -> string * Data -> W -> W).
Abbreviation registry := (gmap string PID).

Definition NewActorSystem : registry := ∅.
Definition GetGlobalActorSystem (g : option registry) : registry * option registry :=
  match g with Some r => (r, g) | None => (NewActorSystem, Some NewActorSystem) end.
Definition InitGlobalActorSystem (g : option registry) : option registry := Some NewActorSystem.
Definition RegisterActor (name : string) (pid : option PID) (r : registry) : registry :=
  match pid with Some p => <[name := p]> r | None => r end.
Definition GetActor (name : string) (r : registry) : option PID := r !! name.

(** [NewP2pNodeActor] leaves the map of handlers nil. *)
Definition NewP2pNodeActor : option (gmap string Handle) := None.
Definition RegisterMessageHandle (opt : string) (h : Handle) (m : option (gmap string Handle))
    : outcome (option (gmap string Handle)) :=
  match m with Some m => Returns (Some (<[opt := h]> m)) | None => Panics NilMapWrite end.
Definition p2p_Receive (msg : option (string * Data)) (m : option (gmap string Handle)) (w : W) : W :=
  match msg, m with
  | Some msg, Some m => match m !! fst msg with Some h => handle h msg w | None => w end
  | _, _ => w
  end.
End actors.

(** ** Properties *)

Section properties.
Context `{OsFaults} `{PkgErrors} `{Viper DefaultConfig}.

Definition exists_path (fs : FS) (p : string) : Prop := is_Some (files fs !! p) \/ p ∈ dirs fs.

Lemma make_dirs_ok fs ps fs' :
  make_dirs fs ps = (fs', None) ->
  Forall (exists_path fs') ps /\ files fs' = files fs /\ dirs fs ⊆ dirs fs'.
Proof.
  revert fs. induction ps as [|p ps IH]; intros fs; cbn [make_dirs]; [intros [= <-]; by split_and!|].
  unfold os_Stat, os_MkdirAll.
  assert (Hmk : forall e, match (match os_fault OpMkdir p with
      | Some e => (fs, Some e) | None => (mkFS (files fs) ({[p]} ∪ dirs fs), None) end) with
      | (fs, Some e) => (fs, Wrap (Some e) "parse default config file error")
      | (fs, None) => make_dirs fs ps end = (fs', e) -> e = None ->
    Forall (exists_path fs') (p :: ps) /\ files fs' = files fs /\ dirs fs ⊆ dirs fs').
  { intros e. destruct (os_fault OpMkdir p) as [e'|].
    - destruct (Wrap_not_nil e' "parse default config file error") as [x ->]. by intros [= <- <-].
    - intros Hm ->. destruct (IH _ Hm) as (Hf & Hfs & Hd). cbn [files dirs] in *.
      split_and!; [|done|set_solver]. constructor; [right; set_solver|done]. }
  destruct (os_fault OpStat p) as [e|]; [intros Hm; by apply (Hmk None)|].
  destruct (files fs !! p) as [b|] eqn:Eb.
  - intros Hm. destruct (IH _ Hm) as (Hf & Hfs & Hd). split_and!; [|done|done].
    constructor; [left; rewrite Hfs; by eexists|done].
  - case_decide as Hp; [|intros Hm; by apply (Hmk None)].
    intros Hm. destruct (IH _ Hm) as (Hf & Hfs & Hd). split_and!; [|done|done].
    constructor; [right; set_solver|done].
Qed.

(** When [ParseDefaultConfig] succeeds, whatever the file says, the cache holds at
    least 32 GiB, entries expire within seven days, price, download points, port and
    workspace are set, and the four directories the node works in exist. *)
Theorem ParseDefaultConfig_valid fs g fpath fs' g'
    (Hok : ParseDefaultConfig fs g fpath = (None, (fs', g'))) :
  32 * 2 ^ 30 <= CacheSize (Cacher (default_config g'))
  /\ 0 < Expiration (Cacher (default_config g')) <= 7 * 24 * 60
  /\ CachePrice (Cacher (default_config g')) ≠ "" /\ FreeDownloads (Cacher (default_config g')) ≠ 0
  /\ ActorSvcPort (default_config g') ≠ 0 /\ NodeWorkSpace (default_config g') ≠ ""
  /\ Forall (exists_path fs') (config_dirs g').
Proof.
  revert Hok. unfold ParseDefaultConfig.
  destruct (ParseCommonConfig _ _ _ _) as [d [e|]]; [done|].
  set (g0 := mkGlobals d (TempDir g)).
  destruct (make_dirs fs (config_dirs (fill_defaults g0))) as [fs1 err] eqn:Em.
  intros [= -> <- <-]. destruct (make_dirs_ok _ _ _ Em) as (Hf & _).
  unfold fill_defaults in *. cbn [default_config g0] in *.
  destruct (decide (NodeWorkSpace d = "")) as [Hw|Hw];
    cbn [default_config Cacher CacheSize Expiration CachePrice FreeDownloads ActorSvcPort NodeWorkSpace];
    unfold or_string, or_int; (split_and!; [| | | | | | |exact Hf]);
    repeat (case_decide || case_match); try done; try lia.
Qed.
End properties.

Instance empty_yaml : Viper DefaultConfig := {
  ReadInConfig _ _ _ := None;
  viper_Unmarshal _ _ d := (d, None);
}.

Definition initial_globals : globals :=
  mkGlobals (mkDefaultConfig (mkCessChainConfig [] "" "") (mkP2PConfig [] 0 "") (mkP2PConfig [] 0 "")
    (mkCacherConfig "" "" 0 0 0) (mkCdnProtoConfig 0 "" 0 0 "" "" "" "" "" "") "" 0) "./cdn_node/temp/".

Lemma ParseDefaultConfig_valid_witness :
  exists fs g, ParseDefaultConfig (mkFS ∅ ∅) initial_globals "" = (None, (fs, g))
    /\ Forall (exists_path fs) ["cache/cache"; "cache/cdn_node/cache_p2p"; "cache/resource_p2p"; "./cdn_node/temp/"].
Proof.
  assert (Hok : exists fs g, ParseDefaultConfig (mkFS ∅ ∅) initial_globals "" = (None, (fs, g))
    /\ config_dirs g = ["cache/cache"; "cache/cdn_node/cache_p2p"; "cache/resource_p2p"; "./cdn_node/temp/"]).
  { eexists _, _. split; [reflexivity|]. vm_compute. reflexivity. }
  destruct Hok as (fs & g & Hok & Hd). exists fs, g. split; [exact Hok|].
  rewrite <- Hd.
  exact (proj2 (proj2 (proj2 (proj2 (proj2 (proj2 (ParseDefaultConfig_valid _ _ _ _ _ Hok))))))).
Defined.
