(* ===== verification/Ink.v ===== *)
(** * The ink! chain client: cd2n-lib/protocol/ink

    The client of the two ink! contracts on the substrate chain.  Its methods change the
    client ([api], [chainState], the lock) also when they panic, and several recover from
    panics, so they are written in a monad of state that keeps the state of a panicking
    call.  The substrate RPC client (gsrpc) is a parameter. *)

From S2P Require Import Prelude GoStrings External.

(** ** A state monad with panics, deferred calls and [recover] *)

Inductive result (A : Type) :=
  | Done (a : A)
  | Panicked (p : panic)
  | Blocked.
Arguments Done {A} _.
Arguments Panicked {A} _.
Arguments Blocked {A}.

Definition M (S A : Type) : Type := S -> result A * S.

#[export] Instance M_ret {S} : MRet (M S) := fun _ a s => (Done a, s).
#[export] Instance M_bind {S} : MBind (M S) := fun _ _ f m s =>
  match m s with
  | (Done a, s) => f a s
  | (Panicked p, s) => (Panicked p, s)
  | (Blocked, s) => (Blocked, s)
  end.

Definition gets {S A} (f : S -> A) : M S A := fun s => (Done (f s), s).
Definition modify {S} (f : S -> S) : M S unit := fun s => (Done tt, f s).
Definition panics {S A} (p : panic) : M S A := fun s => (Panicked p, s).

(** [*p] on a pointer that may be nil. *)
Definition deref {S A} (p : option A) : M S A :=
  match p with Some a => mret a | None => panics NilDereference end.

(** [defer func() { recover() }()] in a function whose results are not named: after a
    panic it returns the zero values. *)
Definition recovering {S A} (zero : A) (m : M S A) : M S A := fun s =>
  match m s with (Panicked _, s) => (Done zero, s) | r => r end.

(** [defer f()], which runs on return and on panic. *)
Definition deferred {S A} (f : S -> S) (m : M S A) : M S A := fun s =>
  match m s with (Blocked, s) => (Blocked, s) | (r, s) => (r, f s) end.

Lemma M_bind_Done {S A B} (m : M S A) (f : A -> M S B) s a s' :
  m s = (Done a, s') -> (m ≫= f) s = f a s'.
Proof. intros E. unfold mbind, M_bind. by rewrite E. Qed.

(** ** Constants and errors: pattern.go, chainstate.go *)

Definition ERR_Failed := "failed".
Definition ERR_Timeout := "timeout".
Definition ERR_Empty := "empty".
Definition ERR_RPC_CONNECTION : error := errors_New "rpc connection failed".
Definition ERR_RPC_IP_FORMAT : error := errors_New "unsupported ip format".
Definition ERR_RPC_TIMEOUT : error := errors_New "timeout".
Definition ERR_RPC_EMPTY_VALUE : error := errors_New "empty".
Definition ERR_TX_FAILED : error := errors_New "tx failed".

Definition FILEBANK := "FileBank".
Definition SYSTEM := "System".
Definition CACHER := "Cacher".
Definition SYSTEM_ACCOUNT := "Account".
Definition SYSTEM_EVENTS := "Events".

(** The types of the pallet's storage: a [types.Un] is a number, [types.Bytes] bytes, an
    account id its 32 bytes. *)
Definition AccountID := bytes.
Definition FileHash := vec Z 64.
Definition SliceId := vec Z 68.
Definition Random := vec Z 20.
Definition Signature := vec Z 65.
Definition Filter := vec Z 256.
Definition Public := vec Z 33.

Record UserBrief := mkUserBrief { User : AccountID; File_name : bytes; Bucket_name : bytes }.

Record Ipv4Type_Query := mkIpv4Query {
  query_Placeholder : Z; query_Index : Z; query_Value : vec Z 4; query_Port : Z }.
Record Ipv4Type := mkIpv4 { ip4_Index : Z; ip4_Value : vec Z 4; ip4_Port : Z }.
Record Ipv6Type := mkIpv6 { ip6_Index : Z; ip6_Value : vec Z 8; ip6_Port : Z }.
Record IpAddress := mkIpAddress { ip_v4 : Ipv4Type; ip_v6 : Ipv6Type }.

Record BlockInfo := mkBlockInfo {
  MinerId : Z; BlockSize : Z; BlockNum : Z; BlockId : vec Z 68; MinerIp : Ipv4Type;
  MinerAcc : AccountID }.

Record FileMetaInfo := mkFileMetaInfo {
  file_Size : Z; file_Index : Z; file_State : bytes; UserBriefs : list UserBrief;
  file_BlockInfo : list BlockInfo }.

Record BucketInfo := mkBucketInfo {
  Total_capacity : Z; Available_capacity : Z; Objects_num : Z;
  Objects_list : list FileHash; Authority : list AccountID }.

Record CacherInfo := mkCacherInfo { cacher_Acc : AccountID; cacher_Ip : Ipv4Type; BytePrice : Z }.

Record Bill := mkBill {
  bill_Id : bytes; bill_To : AccountID; bill_Amount : Z; bill_File_hash : bytes;
  bill_Slice_hash : bytes; Expiration_time : Z }.

(** ** Events of the contracts: cache_proto.go, cache_token.go, transaction.go *)

Record NodeInfo := mkNodeInfo {
  Created : bool; Collerate : option Z; TokenId : bytes; PeerId : bytes }.
Record OrderInfo := mkOrderInfo {
  order_Value : option Z; Creater : AccountID; order_Node : AccountID; Term : option Z }.
Record Staking := mkStaking { staking_NodeAcc : AccountID; staking_TokenId : bytes }.
Record OrderPayment := mkOrderPayment { OrderId : bytes; payment_NodeAcc : AccountID }.
Record Claim := mkClaim { claim_NodeAcc : AccountID; Reward : option Z }.
Record Exit := mkExit { exit_NodeAcc : AccountID }.
Record MintToken := mkMintToken { Owner : AccountID; mint_TokenId : bytes }.

(** The embedded [types.EventRecords] of gsrpc, which nothing reads, is left out. *)
Record CacheEventRecords := mkEvents {
  CacheToken_Owner_of : AccountID;
  CacheToken_MintToken : list MintToken;
  CacheProtocol_NodeInfo : list NodeInfo;
  CacheProtocol_OrderInfo : list OrderInfo;
  CacheProtocol_Staking : list Staking;
  CacheProtocol_OrderPayment : list OrderPayment;
  CacheProtocol_Claim : list Claim;
  CacheProtocol_Exit : list Exit;
}.

Definition AccountID_zero : AccountID := replicate 32 x00.
Definition CacheEventRecords_zero : CacheEventRecords := mkEvents AccountID_zero [] [] [] [] [] [] [].

(** The dynamic values passed as [args ...any]. *)
Inductive any_arg :=
  | ArgAccount (a : AccountID)
  | ArgToken (t : bytes)
  | ArgBytes (b : bytes)
  | ArgBig (z : Z).

(** ** The substrate RPC client *)

(** [types.SignatureOptions], with an immortal era. *)
Record SignatureOptions := mkSignatureOptions {
  opt_BlockHash : bytes;
  opt_IsMortalEra : bool;
  opt_GenesisHash : bytes;
  opt_Nonce : Z;
  opt_SpecVersion : Z;
  opt_Tip : Z;
  opt_TransactionVersion : Z;
}.

(** What the [select] of a submission sees next: a status ([InBlock] with the block's hash,
    or another), what the subscription's error channel gives (nil when the client is
    closed), or the end of the waiting time. *)
Inductive watch_event :=
  | StatusInBlock (block : bytes)
  | StatusOther
  | SubErr (e : error)
  | Timeout.

(** [W] is the state of the chain and the network. A refused call gives its error. *)
Class Gsrpc (W : Type) := {
  SubstrateAPI : Type;
  Metadata : Type;
  StorageKey : Type;
  KeyringPair : Type;
  KeyringPair_zero : KeyringPair;
  PublicKey : KeyringPair -> bytes;
  RuntimeVersion : Type;
  SpecVersion : RuntimeVersion -> Z;
  TransactionVersion : RuntimeVersion -> Z;
  AccountInfo : Type;
  AccountInfo_zero : AccountInfo;
  Nonce : AccountInfo -> Z;
  Nonce_zero : Nonce AccountInfo_zero = 0;
  Extrinsic : Type;
  (** how a value of the type is read from storage *)
  Decodable : Type -> Type;
  AccountInfo_Decodable : Decodable AccountInfo;
  NewSubstrateAPI : string -> W -> (SubstrateAPI + string) * W;
  GetMetadataLatest : SubstrateAPI -> W -> (Metadata + string) * W;
  GetBlockHash : Z -> SubstrateAPI -> W -> (bytes + string) * W;
  GetRuntimeVersionLatest : SubstrateAPI -> W -> (RuntimeVersion + string) * W;
  (** whether the node is syncing *)
  System_Health : SubstrateAPI -> W -> (bool + string) * W;
  CreateStorageKey : Metadata -> string -> string -> list bytes -> StorageKey + string;
  GetStorageLatest : forall {A}, Decodable A -> StorageKey -> A -> SubstrateAPI -> W -> (A * (bool + string)) * W;
  GetStorageRaw : StorageKey -> bytes -> SubstrateAPI -> W -> (bytes + string) * W;
  DecodeEventRecords : Metadata -> bytes -> CacheEventRecords -> CacheEventRecords * error;
  KeyringPairFromSecret : string -> Z -> KeyringPair + string;
  (** [types.NewCall], then [types.NewExtrinsic] *)
  NewCall : Metadata -> string -> list any_arg -> Extrinsic + string;
  ext_Sign : Extrinsic -> KeyringPair -> SignatureOptions -> Extrinsic * error;
  SubmitAndWatchExtrinsic : Extrinsic -> SubstrateAPI -> W -> (list watch_event + string) * W;
  types_NewAccountID : bytes -> AccountID + string;
  EncodePublicKeyAsCessAccount : bytes -> string * error;
}.

Section client.
Context {W : Type} `{Gsrpc W} `{PkgErrors}.

Record chainClient := mkChainClient {
  lock : bool;                       (** whether it is held *)
  api : option SubstrateAPI;
  chainState : bool;
  metadata : Metadata;
  runtimeVersion : RuntimeVersion;
  keyEvents : StorageKey;
  genesisHash : bytes;
  keyring : KeyringPair;
  rpcAddr : string;
  IncomeAcc : string;
  timeForBlockOut : Z;               (** in nanoseconds *)
}.

Record Config := mkConfig { RpcAddr : string; AccountSeed : string; conf_AccountID : string }.

Definition TimeOut_WaitBlock : Z := 15 * 10 ^ 9.

Definition set_lock (b : bool) (c : chainClient) : chainClient :=
  mkChainClient b (api c) (chainState c) (metadata c) (runtimeVersion c) (keyEvents c)
    (genesisHash c) (keyring c) (rpcAddr c) (IncomeAcc c) (timeForBlockOut c).
Definition set_api (a : option SubstrateAPI) (c : chainClient) : chainClient :=
  mkChainClient (lock c) a (chainState c) (metadata c) (runtimeVersion c) (keyEvents c)
    (genesisHash c) (keyring c) (rpcAddr c) (IncomeAcc c) (timeForBlockOut c).
Definition set_state (b : bool) (c : chainClient) : chainClient :=
  mkChainClient (lock c) (api c) b (metadata c) (runtimeVersion c) (keyEvents c)
    (genesisHash c) (keyring c) (rpcAddr c) (IncomeAcc c) (timeForBlockOut c).

(** *** client.go *)

Definition NewChainClient (addr secret incomeAcc : string) (t : Z) (w : W)
    : (option chainClient * error) * W :=
  match NewSubstrateAPI addr w with
  | (inr e, w) => ((None, Some e), w)
  | (inl a, w) =>
  match GetMetadataLatest a w with
  | (inr e, w) => ((None, Some e), w)
  | (inl md, w) =>
  match GetBlockHash 0 a w with
  | (inr e, w) => ((None, Some e), w)
  | (inl genesis, w) =>
  match GetRuntimeVersionLatest a w with
  | (inr e, w) => ((None, Some e), w)
  | (inl version, w) =>
  match CreateStorageKey md SYSTEM SYSTEM_EVENTS [] with
  | inr e => ((None, Some e), w)
  | inl key =>
  match (if decide (secret = "") then inl KeyringPair_zero else KeyringPairFromSecret secret 0) with
  | inr e => ((None, Some e), w)
  | inl kp =>
      ((Some (mkChainClient false (Some a) true md version key genesis kp addr incomeAcc t), None), w)
  end end end end end end.

(** The package's variable [cli] after the call, and the error. *)
Definition InitChainClient (conf : Config) (w : W) : (option chainClient * error) * W :=
  let '((c, err), w) :=
    NewChainClient (RpcAddr conf) (AccountSeed conf) (conf_AccountID conf) TimeOut_WaitBlock w in
  ((c, Wrap err "init chain client error"), w).

Definition GetChainCli (cli : option chainClient) : option chainClient := cli.

Abbreviation call := (M (chainClient * W)).

(** A request to the node. *)
Definition rpc {A} (f : W -> A * W) : call A := fun '(c, w) =>
  let '(r, w) := f w in (Done r, (c, w)).
Definition update (f : chainClient -> chainClient) : call unit := modify (fun '(c, w) => (f c, w)).
(** A field of the client; [c.api.RPC], which panics when [api] is nil. *)
Definition field {A} (f : chainClient -> A) : call A := gets (fun '(c, _) => f c).
Definition the_api : call SubstrateAPI := field api ≫= deref.

Definition reconnectChainClient (addr : string) : call (SubstrateAPI + string) := rpc (NewSubstrateAPI addr).

Definition healthchek (a : option SubstrateAPI) : call error :=
  recovering None (
    a ← deref a;
    r ← rpc (System_Health a);
    mret (match r with inl _ => None | inr e => Some e end)).

Definition IsChainClientOk : call bool :=
  a ← field api;
  err ← healthchek a;
  match err with
  | Some _ =>
      _ ← update (set_api None);
      addr ← field rpcAddr;
      r ← reconnectChainClient addr;
      match r with
      | inr _ => mret false
      | inl a => _ ← update (set_api (Some a)); mret true
      end
  | None => mret true
  end.

Definition SetChainState (state : bool) : call unit := update (set_state state).
Definition GetChainState : call bool := field chainState.

Definition NewAccountId (pubkey : bytes) : AccountID :=
  match types_NewAccountID pubkey with inl acc => acc | inr _ => AccountID_zero end.

(** *** chainstate.go *)

Definition GetPublicKey : call bytes := field (fun c => PublicKey (keyring c)).
Definition GetIncomeAccount : call string := field IncomeAcc.
Definition GetCessAccount : call (string * error) :=
  field (fun c => EncodePublicKeyAsCessAccount (PublicKey (keyring c))).

Definition GetSyncStatus : call (bool * error) :=
  ok ← IsChainClientOk;
  if (ok : bool) then
    a ← the_api;
    r ← rpc (System_Health a);
    mret (match r with inr e => (false, Some e) | inl syncing => (syncing, None) end)
  else mret (false, ERR_RPC_CONNECTION).

(** The caller's [target], as the call leaves it, and the error. *)
Definition GetStorageFromChain {A} (d : Decodable A) (target : A) (prefix method : string)
    (args : list bytes) : call (A * error) :=
  let msg := "get storage from chain error" in
  recovering (target, None) (
    ok ← IsChainClientOk;
    if (ok : bool) then
      _ ← SetChainState true;
      md ← field metadata;
      match CreateStorageKey md prefix method args with
      | inr e => mret (target, Wrap (Some e) msg)
      | inl key =>
          a ← the_api;
          '(target, r) ← rpc (GetStorageLatest d key target a);
          mret (target, match r with
                        | inr e => Wrap (Some e) msg
                        | inl false => Wrap (errors_New ERR_Empty) msg
                        | inl true => None
                        end)
      end
    else
      _ ← SetChainState false;
      mret (target, ERR_RPC_CONNECTION)).

Definition GetAccountInfo : call (AccountInfo * error) :=
  pub ← GetPublicKey;
  '(info, err) ← GetStorageFromChain AccountInfo_Decodable AccountInfo_zero SYSTEM SYSTEM_ACCOUNT [pub];
  mret (info, Wrap err "get account info error").

(** *** transaction.go *)

(** [c.lock.Lock()]: a mutex that is already held blocks its own holder. *)
Definition Lock : call unit := fun s =>
  if lock s.1 then (Blocked, s) else (Done tt, (set_lock true s.1, s.2)).
Definition unlock (s : chainClient * W) : chainClient * W := (set_lock false s.1, s.2).

(** The loop over the attempts left: the same options are signed again each time. *)
Fixpoint resubmit (attempts : nat) (err : string) (kr : KeyringPair) (o : SignatureOptions)
    (ext : Extrinsic) : call (list watch_event + string) :=
  match attempts with
  | O => mret (inr err)
  | S attempts =>
      match ext_Sign ext kr o with
      | (_, Some e) => mret (inr e)
      | (ext, None) =>
          a ← the_api;
          r ← rpc (SubmitAndWatchExtrinsic ext a);
          match r with
          | inl sub => mret (inl sub)
          | inr e => resubmit attempts e kr o ext
          end
      end
  end.

(** The loop over what the subscription delivers; [txhash] is as in the code. *)
Fixpoint watch (callback : CacheEventRecords -> bool) (events : list watch_event) (txhash : string)
    : call (string * error) :=
  let msg := "submit extrinsic error" in
  match events with
  | StatusInBlock block :: _ =>
      let txhash := hex_EncodeToString block in
      c ← gets fst;
      a ← the_api;
      r ← rpc (GetStorageRaw (keyEvents c) block a);
      match r with
      | inr e => mret (txhash, Wrap (Some e) msg)
      | inl h =>
          let '(records, _) := DecodeEventRecords (metadata c) h CacheEventRecords_zero in
          if callback records then mret (txhash, None)
          else mret (txhash, Wrap ERR_TX_FAILED msg)
      end
  | StatusOther :: events => watch callback events txhash
  | SubErr err :: _ => mret (txhash, Wrap err msg)
  | Timeout :: _ | [] => mret (txhash, Wrap ERR_RPC_TIMEOUT msg)
  end.

Definition sign_options (c : chainClient) (nonce : Z) : SignatureOptions :=
  mkSignatureOptions (genesisHash c) false (genesisHash c) nonce
    (SpecVersion (runtimeVersion c)) 0 (TransactionVersion (runtimeVersion c)).

(** Signing and submitting, once and then up to twenty times with the next nonce. *)
Definition sign_and_submit (c : chainClient) (nonce : Z) (ext : Extrinsic)
    : call (list watch_event + string) :=
  match ext_Sign ext (keyring c) (sign_options c nonce) with
  | (_, Some e) => mret (inr e)
  | (ext, None) =>
      a ← the_api;
      r ← rpc (SubmitAndWatchExtrinsic ext a);
      match r with
      | inl sub => mret (inl sub)
      | inr e =>
          if strings_Contains e "Priority is too low"
          then resubmit 20 e (keyring c) (sign_options c (u32 (nonce + 1))) ext
          else mret (inr e)
      end
  end.

Definition SubmitExtrinsic (method : string) (callback : CacheEventRecords -> bool)
    (args : list any_arg) : call (string * error) :=
  let msg := "submit extrinsic error" in
  recovering ("", None) (
    _ ← Lock;
    deferred unlock (
      ok ← IsChainClientOk;
      if (ok : bool) then
        _ ← SetChainState true;
        md ← field metadata;
        match NewCall md method args with
        | inr e => mret ("", Wrap (Some e) msg)
        | inl ext =>
            '(accInfo, err) ← GetAccountInfo;
            match err with
            | Some e => mret ("", Wrap (Some e) msg)
            | None =>
                c ← gets fst;
                r ← sign_and_submit c (Nonce accInfo) ext;
                match r with
                | inr e => mret ("", Wrap (Some e) msg)
                | inl sub => watch callback sub ""
                end
            end
        end
      else
        _ ← SetChainState false;
        mret ("", Wrap ERR_RPC_CONNECTION msg))).

(** *** cache_proto.go *)

Definition PROTO_CONTRACT_NAME := "CacheProtocol".
Definition METHOD_STAKING := ".staking".
Definition METHOD_IS_TOKEN_OWNER := ".is_token_owner".
Definition METHOD_CACHE_ORDER_PAYMENT := ".cache_order_payment".
Definition METHOD_ORDER_CLAIM := ".order_claim".
Definition METHOD_CLAIM_REWARD := ".claim".
Definition METHOD_EXIT := ".exit".

(** [len(l) > 0]. *)
Definition some_of {A} (l : list A) : bool := 0 <? len l.

Definition Staking_call (nodeAcc tokenAcc : AccountID) (tokenId peerId sign : bytes) (value : string)
    : call (string * error) :=
  match big_SetString value with
  | None => mret ("", errors_New "bad value")
  | Some v =>
      SubmitExtrinsic (PROTO_CONTRACT_NAME +:+ METHOD_STAKING)
        (fun events => some_of (CacheToken_MintToken events))
        [ArgAccount nodeAcc; ArgAccount tokenAcc; ArgToken tokenId; ArgBytes peerId; ArgBytes sign; ArgBig v]
  end.

Definition CacheOrderPayment_call (nodeAcc : AccountID) (value : string) : call (string * error) :=
  match big_SetString value with
  | None => mret ("", errors_New "bad value")
  | Some v =>
      SubmitExtrinsic (PROTO_CONTRACT_NAME +:+ METHOD_CACHE_ORDER_PAYMENT)
        (fun events => some_of (CacheProtocol_Staking events)) [ArgAccount nodeAcc; ArgBig v]
  end.

Definition OrderClaim_call (orderId : bytes) : call (string * error) :=
  SubmitExtrinsic (PROTO_CONTRACT_NAME +:+ METHOD_ORDER_CLAIM)
    (fun events => some_of (CacheProtocol_OrderInfo events)) [ArgBytes orderId].

Definition CalimReward_call : call (string * error) :=
  SubmitExtrinsic (PROTO_CONTRACT_NAME +:+ METHOD_CLAIM_REWARD)
    (fun events => some_of (CacheProtocol_Claim events)) [].

Definition Exit_call : call (string * error) :=
  SubmitExtrinsic (PROTO_CONTRACT_NAME +:+ METHOD_EXIT)
    (fun events => some_of (CacheProtocol_Exit events)) [].

Definition IsTokenOwner_call (acc : AccountID) (tokenId : bytes) : call (string * error) :=
  SubmitExtrinsic (PROTO_CONTRACT_NAME +:+ METHOD_IS_TOKEN_OWNER)
    (fun events => some_of (CacheProtocol_NodeInfo events)) [ArgAccount acc; ArgToken tokenId].

(** *** cache_token.go *)

Definition TOKEN_CONTRACT_NAME := "CacheToken".
Definition METHOD_MINT_TOKEN := ".mint_token".
Definition METHOD_WITHDRAW := ".withdraw".
Definition METHOD_TRANSFER := ".transfer_from".
Definition METHOD_OWNEROF := ".owner_of".
Definition METHOD_ACCOUNTID := ".account_id".

Definition MintToken_call (value : string) : call (string * error) :=
  match big_SetString value with
  | None => mret ("", errors_New "bad value")
  | Some v =>
      SubmitExtrinsic (TOKEN_CONTRACT_NAME +:+ METHOD_MINT_TOKEN)
        (fun events => some_of (CacheToken_MintToken events)) [ArgBig v]
  end.

Definition Withdraw_call : call (string * error) :=
  SubmitExtrinsic (TOKEN_CONTRACT_NAME +:+ METHOD_WITHDRAW) (fun _ => true) [].

Definition TransferFrom_call (tokenId : bytes) (to : AccountID) : call (string * error) :=
  SubmitExtrinsic (TOKEN_CONTRACT_NAME +:+ METHOD_WITHDRAW) (fun _ => true)
    [ArgToken tokenId; ArgAccount to].

(** [acc] is the pointer the owner is expected in; the code does not use it.
    [CacheToken_Owner_of] is an array of 32 bytes. *)
Definition GetOwnerOf_call (tokenId : bytes) (acc : bytes) : call (string * error * bytes) :=
  r ← SubmitExtrinsic (TOKEN_CONTRACT_NAME +:+ METHOD_WITHDRAW)
        (fun events => some_of (CacheToken_Owner_of events)) [ArgToken tokenId];
  mret (r, acc).
End client.
Arguments chainClient W {_} : assert.

(** ** The interface [IChain], which [chainClient] implements *)

Class IChain (S : Type) := {
  ichain_GetPublicKey : M S bytes;
  ichain_GetSyncStatus : M S (bool * error);
  ichain_GetCessAccount : M S (string * error);
  ichain_GetIncomeAccount : M S string;
  ichain_Staking : AccountID -> AccountID -> bytes -> bytes -> bytes -> string -> M S (string * error);
  ichain_CacheOrderPayment : AccountID -> string -> M S (string * error);
  ichain_OrderClaim : bytes -> M S (string * error);
  ichain_CalimReward : M S (string * error);
  ichain_Exit : M S (string * error);
  ichain_IsTokenOwner : AccountID -> bytes -> M S (string * error);
  ichain_MintToken : string -> M S (string * error);
  ichain_Withdraw : M S (string * error);
  ichain_TransferFrom : bytes -> AccountID -> M S (string * error);
  ichain_GetOwnerOf : bytes -> bytes -> M S (string * error * bytes);
}.

#[export] Instance chainClient_IChain `{Gsrpc W} `{PkgErrors} : IChain (chainClient W * W) := {|
  ichain_GetPublicKey := GetPublicKey;
  ichain_GetSyncStatus := GetSyncStatus;
  ichain_GetCessAccount := GetCessAccount;
  ichain_GetIncomeAccount := GetIncomeAccount;
  ichain_Staking := Staking_call;
  ichain_CacheOrderPayment := CacheOrderPayment_call;
  ichain_OrderClaim := OrderClaim_call;
  ichain_CalimReward := CalimReward_call;
  ichain_Exit := Exit_call;
  ichain_IsTokenOwner := IsTokenOwner_call;
  ichain_MintToken := MintToken_call;
  ichain_Withdraw := Withdraw_call;
  ichain_TransferFrom := TransferFrom_call;
  ichain_GetOwnerOf := GetOwnerOf_call;
|}.

(** cache_ink_proto.go: [CacheProtoInk] embeds an [IChain]. *)
Record CacheProtoInk (S : Type) := mkCacheProtoInk { ink_IChain : option (IChain S) }.
