(* ===== verification/InkFacts.v ===== *)
(** * The ink! chain client: its correctness

    That a submission always ends, what a reported success means, and what becomes of a
    client that lost its connection. *)

From S2P Require Import Prelude GoStrings External Ink.

(** ** Reasoning in the monad *)

Section monad.
Context {S : Type}.

(** [m] never waits for ever. *)
Definition nonblocking {A} (m : M S A) : Prop := forall s, (m s).1 ≠ Blocked.
(** [m] panics only in states that satisfy [P]. *)
Definition panics_in {A} (P : S -> Prop) (m : M S A) : Prop :=
  forall s p s', m s = (Panicked p, s') -> P s'.
(** [m] raises the measure [n] by at most [k]. *)
Definition costs {A} (n : S -> nat) (k : nat) (m : M S A) : Prop := forall s, (n (m s).2 <= n s + k)%nat.

Lemma bind_inv {A B} (m : M S A) (f : A -> M S B) s b s2 :
  (m ≫= f) s = (Done b, s2) -> exists a s1, m s = (Done a, s1) /\ f a s1 = (Done b, s2).
Proof. unfold mbind, M_bind. intros E. repeat case_match; simplify_eq. eauto. Qed.

Lemma nonblocking_ret {A} (a : A) : nonblocking (mret a : M S A).
Proof. by intros s. Qed.
Lemma nonblocking_gets {A} (f : S -> A) : nonblocking (gets f).
Proof. by intros s. Qed.
Lemma nonblocking_modify f : nonblocking (modify f : M S unit).
Proof. by intros s. Qed.
Lemma nonblocking_deref {A} (p : option A) : nonblocking (deref p : M S A).
Proof. by destruct p. Qed.
Lemma nonblocking_bind {A B} (m : M S A) (f : A -> M S B) :
  nonblocking m -> (forall a, nonblocking (f a)) -> nonblocking (m ≫= f).
Proof.
  intros Hm Hf s. unfold mbind, M_bind. specialize (Hm s).
  destruct (m s) as [[a|p|] s1]; [apply Hf|done|done].
Qed.
Lemma nonblocking_recovering {A} (z : A) (m : M S A) : nonblocking m -> nonblocking (recovering z m).
Proof. intros Hm s. unfold recovering. specialize (Hm s). by destruct (m s) as [[]]. Qed.

Lemma recovering_done {A} (z : A) (m : M S A) :
  nonblocking m -> forall s, exists a, (recovering z m s).1 = Done a.
Proof. intros Hm s. unfold recovering. specialize (Hm s). destruct (m s) as [[]]; naive_solver. Qed.

Lemma panics_in_ret {A} P (a : A) : panics_in P (mret a : M S A).
Proof. by intros s p s' [=]. Qed.
Lemma panics_in_gets {A} P (f : S -> A) : panics_in P (gets f).
Proof. by intros s p s' [=]. Qed.
Lemma panics_in_modify P f : panics_in P (modify f : M S unit).
Proof. by intros s p s' [=]. Qed.
Lemma panics_in_bind {A B} P (m : M S A) (f : A -> M S B) :
  panics_in P m -> (forall a, panics_in P (f a)) -> panics_in P (m ≫= f).
Proof.
  intros Hm Hf s p s'. unfold mbind, M_bind. destruct (m s) as [[a|q|] s1] eqn:E; intros E'; simplify_eq.
  - by eapply Hf.
  - by eapply Hm.
Qed.
Lemma panics_in_recovering {A} P (z : A) (m : M S A) : panics_in P (recovering z m).
Proof. intros s p s'. unfold recovering. by destruct (m s) as [[]]. Qed.

Lemma costs_ret {A} n (a : A) : costs n 0 (mret a : M S A).
Proof. intros s. cbn. lia. Qed.
Lemma costs_gets {A} n (f : S -> A) : costs n 0 (gets f).
Proof. intros s. cbn. lia. Qed.
Lemma costs_deref {A} n (p : option A) : costs n 0 (deref p : M S A).
Proof. intros s. destruct p; cbn; lia. Qed.
Lemma costs_modify n f : (forall s, n (f s) = n s) -> costs n 0 (modify f : M S unit).
Proof. intros E s. cbn. rewrite E. lia. Qed.
Lemma costs_bind {A B} n j k (m : M S A) (f : A -> M S B) :
  costs n j m -> (forall a, costs n k (f a)) -> costs n (j + k) (m ≫= f).
Proof.
  intros Hm Hf s. unfold mbind, M_bind. specialize (Hm s).
  destruct (m s) as [[a|p|] s1]; cbn in *; [specialize (Hf a s1)|..]; lia.
Qed.
Lemma costs_bind0 {A B} n k (m : M S A) (f : A -> M S B) :
  costs n 0 m -> (forall a, costs n k (f a)) -> costs n k (m ≫= f).
Proof. apply (costs_bind n 0). Qed.
Lemma costs_le {A} n j k (m : M S A) : costs n j m -> (j <= k)%nat -> costs n k m.
Proof. intros Hm ? s. specialize (Hm s). lia. Qed.
Lemma costs_recovering {A} n k (z : A) (m : M S A) : costs n k m -> costs n k (recovering z m).
Proof. intros Hm s. unfold recovering. specialize (Hm s). by destruct (m s) as [[]]. Qed.
Lemma costs_deferred {A} n k f (m : M S A) :
  (forall s, n (f s) = n s) -> costs n k m -> costs n k (deferred f m).
Proof.
  intros E Hm s. unfold deferred. specialize (Hm s).
  destruct (m s) as [[]]; cbn in *; rewrite ?E; lia.
Qed.

(** [m] leaves [f] of the state as it was. *)
Definition keeps {A X} (f : S -> X) (m : M S A) : Prop := forall s, f (m s).2 = f s.

Lemma keeps_ret {A X} (f : S -> X) (a : A) : keeps f (mret a : M S A).
Proof. done. Qed.
Lemma keeps_gets {A X} (f : S -> X) (g : S -> A) : keeps f (gets g).
Proof. done. Qed.
Lemma keeps_deref {A X} (f : S -> X) (p : option A) : keeps f (deref p : M S A).
Proof. by destruct p. Qed.
Lemma keeps_modify {X} (f : S -> X) g : (forall s, f (g s) = f s) -> keeps f (modify g : M S unit).
Proof. intros E s. apply E. Qed.
Lemma keeps_bind {A B X} (f : S -> X) (m : M S A) (g : A -> M S B) :
  keeps f m -> (forall a, keeps f (g a)) -> keeps f (m ≫= g).
Proof.
  intros Hm Hg s. unfold mbind, M_bind. specialize (Hm s).
  destruct (m s) as [[a|p|] s1]; cbn in *; [rewrite Hg|..]; done.
Qed.
Lemma keeps_recovering {A X} (f : S -> X) (z : A) (m : M S A) : keeps f m -> keeps f (recovering z m).
Proof. intros Hm s. unfold recovering. specialize (Hm s). by destruct (m s) as [[]]. Qed.
Lemma keeps_inv {A X} (f : S -> X) (m : M S A) s r s' : keeps f m -> m s = (r, s') -> f s' = f s.
Proof. intros Hm E. specialize (Hm s). by rewrite E in Hm. Qed.
End monad.

Create HintDb inkdb.
#[export] Hint Resolve nonblocking_ret nonblocking_gets nonblocking_modify nonblocking_deref
  nonblocking_recovering panics_in_ret panics_in_gets panics_in_modify panics_in_recovering
  costs_ret costs_gets costs_deref keeps_ret keeps_gets keeps_deref keeps_recovering : inkdb.

(** One step through a computation, whatever is proved about it. *)
Ltac walk :=
  repeat first
    [ progress intros
    | solve [eauto with inkdb]
    | apply nonblocking_bind | apply panics_in_bind | apply costs_bind0 | apply keeps_bind
    | case_match ].

(** ** The client's operations *)

Section client.
Context {W : Type} `{Gsrpc W} `{PkgErrors}.
Abbreviation state := (chainClient W * W)%type.

Lemma nonblocking_rpc {A} (f : W -> A * W) : nonblocking (rpc f).
Proof. intros [c w]. unfold rpc. cbn. by destruct (f w). Qed.
Lemma nonblocking_update f : nonblocking (update f).
Proof. apply nonblocking_modify. Qed.
Lemma nonblocking_field {A} (f : chainClient W -> A) : nonblocking (field f).
Proof. apply nonblocking_gets. Qed.
Lemma nonblocking_the_api : nonblocking the_api.
Proof. apply nonblocking_bind; [apply nonblocking_field|eauto with inkdb]. Qed.
#[local] Hint Resolve nonblocking_rpc nonblocking_update nonblocking_field nonblocking_the_api : inkdb.

Lemma nonblocking_IsChainClientOk : nonblocking IsChainClientOk.
Proof. unfold IsChainClientOk, healthchek. walk. apply nonblocking_recovering. walk. Qed.
#[local] Hint Resolve nonblocking_IsChainClientOk : inkdb.

Lemma nonblocking_GetStorageFromChain {A} (d : Decodable A) t p m args :
  nonblocking (GetStorageFromChain d t p m args).
Proof. unfold GetStorageFromChain, SetChainState. apply nonblocking_recovering. walk.
Qed.
#[local] Hint Resolve @nonblocking_GetStorageFromChain : inkdb.

Lemma nonblocking_GetAccountInfo : nonblocking GetAccountInfo.
Proof. unfold GetAccountInfo, GetPublicKey. walk. Qed.

Lemma nonblocking_resubmit n err kr o ext : nonblocking (resubmit n err kr o ext).
Proof. revert err ext. induction n; cbn [resubmit]; walk. Qed.
#[local] Hint Resolve nonblocking_GetAccountInfo nonblocking_resubmit : inkdb.

Lemma nonblocking_sign_and_submit c nonce ext : nonblocking (sign_and_submit c nonce ext).
Proof. unfold sign_and_submit. walk. Qed.

Lemma nonblocking_watch cb events h : nonblocking (watch cb events h).
Proof. revert h. induction events as [|[]]; cbn [watch]; walk. Qed.
#[local] Hint Resolve nonblocking_sign_and_submit nonblocking_watch : inkdb.

(** A call panics only on a nil [api]. *)
Definition api_nil (s : state) : Prop := api s.1 = None.

Lemma panics_rpc {A} (f : W -> A * W) P : panics_in P (rpc f).
Proof. intros [c w] p s'. unfold rpc. by destruct (f w). Qed.
Lemma panics_update f P : panics_in P (update f).
Proof. apply panics_in_modify. Qed.
Lemma panics_field {A} (f : chainClient W -> A) P : panics_in P (field f).
Proof. apply panics_in_gets. Qed.
Lemma panics_the_api : panics_in api_nil the_api.
Proof.
  intros [c w] p s'. unfold the_api, field, gets, mbind, M_bind, deref. cbn.
  destruct (api c) eqn:E; intros E'; [done|]. by injection E' as <- <-.
Qed.
#[local] Hint Resolve panics_rpc panics_update panics_field panics_the_api : inkdb.

Lemma panics_IsChainClientOk : panics_in api_nil IsChainClientOk.
Proof. unfold IsChainClientOk, healthchek. walk. Qed.
Lemma panics_GetAccountInfo : panics_in api_nil GetAccountInfo.
Proof. unfold GetAccountInfo, GetPublicKey, GetStorageFromChain. walk. Qed.
Lemma panics_resubmit n err kr o ext : panics_in api_nil (resubmit n err kr o ext).
Proof. revert err ext. induction n; cbn [resubmit]; walk. Qed.
#[local] Hint Resolve panics_IsChainClientOk panics_GetAccountInfo panics_resubmit : inkdb.
Lemma panics_sign_and_submit c nonce ext : panics_in api_nil (sign_and_submit c nonce ext).
Proof. unfold sign_and_submit. walk. Qed.
Lemma panics_watch cb events h : panics_in api_nil (watch cb events h).
Proof. revert h. induction events as [|[]]; cbn [watch]; walk. Qed.
#[local] Hint Resolve panics_sign_and_submit panics_watch : inkdb.

(** The part of [SubmitExtrinsic] that runs under the lock. *)
Definition submit_body (method : string) (callback : CacheEventRecords -> bool)
    (args : list any_arg) : M state (string * error) :=
  let msg := "submit extrinsic error" in
  ok ← IsChainClientOk;
  if (ok : bool) then
    _ ← SetChainState true;
    md ← field metadata;
    match NewCall md method args with
    | inr e => mret ("", Wrap (Some e) msg)
    | inl ext =>
        '(accInfo, err) ← GetAccountInfo;
        match err with
        | Some e => mret ("", Wrap (Some e) msg)
        | None =>
            c ← gets fst;
            r ← sign_and_submit c (Nonce accInfo) ext;
            match r with
            | inr e => mret ("", Wrap (Some e) msg)
            | inl sub => watch callback sub ""
            end
        end
    end
  else
    _ ← SetChainState false;
    mret ("", Wrap ERR_RPC_CONNECTION msg).

Lemma SubmitExtrinsic_body method callback args :
  SubmitExtrinsic method callback args
  = recovering ("", None) (_ ← Lock; deferred unlock (submit_body method callback args)).
Proof. reflexivity. Qed.

Lemma nonblocking_body method callback args : nonblocking (submit_body method callback args).
Proof. unfold submit_body, SetChainState. walk. Qed.
Lemma panics_body method callback args : panics_in api_nil (submit_body method callback args).
Proof. unfold submit_body, SetChainState. walk. Qed.

(** A submission from a free lock: what its body does, and the lock is free again. *)
Lemma SubmitExtrinsic_free method callback args c w :
  lock c = false ->
  exists r c' w', submit_body method callback args (set_lock true c, w) = (r, (c', w')) /\
    r ≠ Blocked /\
    SubmitExtrinsic method callback args (c, w)
    = (Done (match r with Done a => a | _ => ("", None) end), (set_lock false c', w')).
Proof.
  intros Hl. pose proof (nonblocking_body method callback args (set_lock true c, w)) as Hn.
  destruct (submit_body _ _ _ _) as [r [c' w']] eqn:E. exists r, c', w'. split; [done|].
  cbn in Hn. split; [done|]. rewrite SubmitExtrinsic_body.
  unfold recovering, mbind, M_bind, Lock, deferred. cbn [fst snd]. rewrite Hl, E.
  by destruct r.
Qed.

(** *** What a success means *)

(** A block whose events the callback accepts, read through the client. *)
Definition confirmed_in (callback : CacheEventRecords -> bool) (c : chainClient W) (block : bytes) : Prop :=
  exists a raw w1 w2, api c = Some a /\ GetStorageRaw (keyEvents c) block a w1 = (inl raw, w2) /\
    callback (DecodeEventRecords (metadata c) raw CacheEventRecords_zero).1 = true.

(** An extrinsic signed by the client's key and accepted by the node. *)
Definition accepted (kr : KeyringPair) (events : list watch_event) : Prop :=
  exists ext0 o ext a w1 w2, ext_Sign ext0 kr o = (ext, None) /\
    SubmitAndWatchExtrinsic ext a w1 = (inl events, w2).

Lemma the_api_inv s a s' : the_api s = (Done a, s') -> s' = s /\ api s.1 = Some a.
Proof.
  destruct s as [c w]. unfold the_api, field, gets, mbind, M_bind, deref. cbn.
  destruct (api c); intros [=]; by subst.
Qed.

Lemma rpc_inv {A} (f : W -> A * W) c w r s' :
  rpc f (c, w) = (Done r, s') -> exists w', f w = (r, w') /\ s' = (c, w').
Proof. unfold rpc. destruct (f w). intros [=]; subst. eauto. Qed.

Lemma Wrap_some_ne `{PkgErrors} e msg : Wrap (Some e) msg ≠ None.
Proof. destruct (Wrap_not_nil e msg) as [x ->]. done. Qed.

Lemma watch_success cb events h0 s h s' :
  watch cb events h0 s = (Done (h, None), s') ->
  (exists block, StatusInBlock block ∈ events /\ h = hex_EncodeToString block /\ confirmed_in cb s'.1 block) \/
  (h = h0 /\ SubErr None ∈ events).
Proof.
  revert s. induction events as [|[block| |e|] events IH]; intros [c w]; cbn [watch].
  - intros [=]. by edestruct Wrap_some_ne.
  - intros E. apply bind_inv in E as (? & ? & [= <- <-] & E).
    apply bind_inv in E as (a & s1 & [-> Ha]%the_api_inv & E).
    apply bind_inv in E as (r & ? & (w' & Er & ->)%rpc_inv & E). cbn [fst] in *.
    destruct r as [raw|]; [|injection E as ?; by edestruct Wrap_some_ne].
    destruct (DecodeEventRecords _ _ _) as [records err] eqn:Ed.
    destruct (cb records) eqn:Ec; [|injection E as ?; by edestruct Wrap_some_ne].
    injection E as <- <-. left. exists block. split; [apply list_elem_of_here|]. split; [done|].
    exists a, raw, w, w'. cbn. by rewrite Ed.
  - intros E. destruct (IH _ E) as [(b & ? & ? & ?)|[? ?]]; [left; exists b|right];
      split_and!; try done; by apply list_elem_of_further.
  - intros [= <- E <-]. right. split; [done|]. apply Wrap_eq_None in E as ->. apply list_elem_of_here.
  - intros [=]. by edestruct Wrap_some_ne.
Qed.

Lemma resubmit_success n err kr o ext s events s' :
  resubmit n err kr o ext s = (Done (inl events), s') -> accepted kr events.
Proof.
  revert err ext s. induction n as [|n IH]; intros err ext [c w]; cbn [resubmit]; [done|].
  destruct (ext_Sign ext kr o) as [ext' [e|]] eqn:Es; [done|].
  intros E. apply bind_inv in E as (a & s1 & [-> Ha]%the_api_inv & E).
  apply bind_inv in E as (r & ? & (w' & Er & ->)%rpc_inv & E).
  destruct r as [sub|e]; [|by eapply IH]. injection E as <- <-.
  exists ext, o, ext', a, w, w'. done.
Qed.

Lemma sign_and_submit_success c nonce ext s events s' :
  sign_and_submit c nonce ext s = (Done (inl events), s') -> accepted (keyring c) events.
Proof.
  destruct s as [c0 w]. unfold sign_and_submit.
  destruct (ext_Sign ext _ _) as [ext' [e|]] eqn:Es; [done|].
  intros E. apply bind_inv in E as (a & s1 & [-> Ha]%the_api_inv & E).
  apply bind_inv in E as (r & ? & (w' & Er & ->)%rpc_inv & E).
  destruct r as [sub|e].
  - injection E as <- <-. eexists ext, _, ext', a, w, w'. eauto.
  - case_match; [by eapply resubmit_success|done].
Qed.

(** What a client is made with: everything but the lock, the connection and its state. *)
Definition identity (s : state) :=
  (metadata s.1, runtimeVersion s.1, keyEvents s.1, genesisHash s.1, keyring s.1, rpcAddr s.1, IncomeAcc s.1).

Lemma keeps_rpc {A} (f : W -> A * W) : keeps identity (rpc f).
Proof. intros [c w]. unfold rpc. by destruct (f w). Qed.
Lemma keeps_set_api a : keeps identity (update (set_api a)).
Proof. apply keeps_modify. by intros [c w]. Qed.
Lemma keeps_set_state b : keeps identity (update (set_state b)).
Proof. apply keeps_modify. by intros [c w]. Qed.
Lemma keeps_field {A} (f : chainClient W -> A) : keeps identity (field f).
Proof. apply keeps_gets. Qed.
Lemma keeps_the_api : keeps identity the_api.
Proof. apply keeps_bind; [apply keeps_field|eauto with inkdb]. Qed.
#[local] Hint Resolve keeps_rpc keeps_set_api keeps_set_state keeps_field keeps_the_api : inkdb.

Lemma keeps_IsChainClientOk : keeps identity IsChainClientOk.
Proof. unfold IsChainClientOk, healthchek, reconnectChainClient. walk. apply keeps_recovering. walk. Qed.
#[local] Hint Resolve keeps_IsChainClientOk : inkdb.
Lemma keeps_GetAccountInfo : keeps identity GetAccountInfo.
Proof.
  unfold GetAccountInfo, GetPublicKey, GetStorageFromChain, SetChainState. walk.
  apply keeps_recovering. walk.
Qed.

Lemma submit_body_success method cb args s h s' :
  submit_body method cb args s = (Done (h, None), s') ->
  exists events, accepted (keyring s.1) events /\
    ((exists block, StatusInBlock block ∈ events /\ h = hex_EncodeToString block /\ confirmed_in cb s'.1 block)
     \/ (h = "" /\ SubErr None ∈ events)).
Proof.
  unfold submit_body. intros E. apply bind_inv in E as ([] & s1 & E1 & E).
  2: { apply bind_inv in E as (? & ? & ? & E). injection E as ?. by edestruct Wrap_some_ne. }
  apply bind_inv in E as (? & s2 & E2 & E). apply bind_inv in E as (md & s3 & E3 & E).
  destruct (NewCall md method args) as [ext|]; [|injection E as ?; by edestruct Wrap_some_ne].
  apply bind_inv in E as ([info [e|]] & s4 & E4 & E); [injection E as ?; by edestruct Wrap_some_ne|].
  apply bind_inv in E as (c & s5 & [= <- <-] & E).
  apply bind_inv in E as ([events|] & s6 & E6 & E); [|injection E as ?; by edestruct Wrap_some_ne].
  apply (keeps_inv identity) in E1, E2, E3, E4; eauto with inkdb; [|apply keeps_GetAccountInfo].
  exists events. split; [|by eapply watch_success].
  assert (keyring s4.1 = keyring s.1) as <- by (unfold identity in *; congruence).
  by eapply sign_and_submit_success.
Qed.

(** *** The number of submissions *)

(** A measure of the chain that only submissions raise, by one. *)
Record counts_submissions (count : W -> nat) : Prop := {
  count_dial addr w : count (NewSubstrateAPI addr w).2 = count w;
  count_health a w : count (System_Health a w).2 = count w;
  count_latest A (d : Decodable A) k t a w : count (GetStorageLatest d k t a w).2 = count w;
  count_raw k b a w : count (GetStorageRaw k b a w).2 = count w;
  count_submit ext a w : (count (SubmitAndWatchExtrinsic ext a w).2 <= count w + 1)%nat;
}.

Section counting.
Context (count : W -> nat) (Hc : counts_submissions count).
Abbreviation measure := (fun s : state => count s.2).

Lemma costs_rpc {A} (f : W -> A * W) : (forall w, count (f w).2 = count w) -> costs measure 0 (rpc f).
Proof. intros E [c w]. unfold rpc. specialize (E w). destruct (f w). cbn in *. lia. Qed.
Lemma costs_update f : costs measure 0 (update f).
Proof. apply costs_modify. by intros [c w]. Qed.
Lemma costs_field {A} (f : chainClient W -> A) : costs measure 0 (field f).
Proof. apply costs_gets. Qed.
Lemma costs_the_api : costs measure 0 the_api.
Proof. apply (costs_bind0 _ 0); [apply costs_field|eauto with inkdb]. Qed.
Lemma costs_submit ext a : costs measure 1 (rpc (SubmitAndWatchExtrinsic ext a)).
Proof.
  intros [c w]. unfold rpc. pose proof (count_submit _ Hc ext a w).
  destruct (SubmitAndWatchExtrinsic ext a w). done.
Qed.
#[local] Hint Resolve costs_update costs_field costs_the_api : inkdb.
#[local] Hint Extern 1 (costs _ 0 (rpc _)) => apply costs_rpc; intros; apply Hc : inkdb.

Lemma costs_IsChainClientOk : costs measure 0 IsChainClientOk.
Proof. unfold IsChainClientOk, healthchek, reconnectChainClient. walk. apply costs_recovering. walk. Qed.
#[local] Hint Resolve costs_IsChainClientOk : inkdb.

Lemma costs_GetAccountInfo : costs measure 0 GetAccountInfo.
Proof.
  unfold GetAccountInfo, GetPublicKey, GetStorageFromChain, SetChainState. walk.
  apply costs_recovering. walk.
Qed.

Lemma costs_resubmit n err kr o ext : costs measure n (resubmit n err kr o ext).
Proof.
  revert err ext. induction n as [|n IH]; intros; cbn [resubmit]; [apply costs_ret|].
  case_match. case_match; [apply (costs_le _ 0); [apply costs_ret|lia]|].
  apply costs_bind0; [apply costs_the_api|intros a].
  apply (costs_bind _ 1); [apply costs_submit|intros []; [|apply IH]].
  apply (costs_le _ 0); [apply costs_ret|lia].
Qed.

Lemma costs_sign_and_submit c nonce ext : costs measure 21 (sign_and_submit c nonce ext).
Proof.
  unfold sign_and_submit. case_match. case_match; [apply (costs_le _ 0); [apply costs_ret|lia]|].
  apply costs_bind0; [apply costs_the_api|intros a].
  apply (costs_bind _ 1); [apply costs_submit|intros []]; [apply (costs_le _ 0); [apply costs_ret|lia]|].
  case_match; [apply costs_resubmit|apply (costs_le _ 0); [apply costs_ret|lia]].
Qed.

Lemma costs_watch cb events h : costs measure 0 (watch cb events h).
Proof. revert h. induction events as [|[]]; cbn [watch]; walk. Qed.

Lemma costs_body method cb args : costs measure 21 (submit_body method cb args).
Proof.
  unfold submit_body, SetChainState. apply costs_bind0; [apply costs_IsChainClientOk|intros []].
  2: { apply (costs_le _ 0); [walk|lia]. }
  apply costs_bind0; [eauto with inkdb|intros _]. apply costs_bind0; [eauto with inkdb|intros md].
  case_match; [|apply (costs_le _ 0); [apply costs_ret|lia]].
  apply costs_bind0; [apply costs_GetAccountInfo|intros [? []]]; [apply (costs_le _ 0); [apply costs_ret|lia]|].
  apply costs_bind0; [apply costs_gets|intros c].
  apply (costs_bind _ 21 0); [apply costs_sign_and_submit|intros []; [apply costs_watch|apply costs_ret]].
Qed.
End counting.

(** C21: From a free lock [SubmitExtrinsic] always returns, never panics, leaves the lock
    free, and hands at most 21 extrinsics to the node. *)
Theorem SubmitExtrinsic_ends count method callback args c w :
  counts_submissions count -> lock c = false ->
  exists r c' w', SubmitExtrinsic method callback args (c, w) = (Done r, (c', w')) /\
    lock c' = false /\ (count w' <= count w + 21)%nat.
Proof.
  intros Hc Hl. destruct (SubmitExtrinsic_free method callback args c w Hl) as (r & c' & w' & E & _ & ->).
  eexists _, _, _. split; [done|]. split; [done|].
  pose proof (costs_body count Hc method callback args (set_lock true c, w)) as Hb. by rewrite E in Hb.
Qed.

(** C20: When a submission reports success, either the hash it returns is that of a block
    reported for an extrinsic signed with the client's key, whose events the callback
    accepted; or the hash is empty, and the subscription ended without an error before any
    block, or the client has no connection at all. *)
Theorem SubmitExtrinsic_success method callback args c w h c' w' :
  lock c = false ->
  SubmitExtrinsic method callback args (c, w) = (Done (h, None), (c', w')) ->
  (exists events, accepted (keyring c) events /\
    ((exists block, StatusInBlock block ∈ events /\ h = hex_EncodeToString block /\
        confirmed_in callback c' block)
     \/ (h = "" /\ SubErr None ∈ events)))
  \/ (h = "" /\ api c' = None).
Proof.
  intros Hl E. destruct (SubmitExtrinsic_free method callback args c w Hl) as (r & c1 & w1 & Eb & Hr & E').
  rewrite E in E'. injection E' as Er -> ->. destruct r as [[h' err]|p|]; [|right|done].
  - injection Er as <- <-. left. apply submit_body_success in Eb as (events & ? & Hev).
    exists events. split; [done|]. destruct Hev as [(b & ? & ? & Hb)|?]; [left; exists b|by right].
    split; [done|]. split; [done|]. destruct Hb as (a & raw & x1 & x2 & Hb). by exists a, raw, x1, x2.
  - injection Er as ->. split; [done|]. by apply panics_body in Eb.
Qed.

(** *** A client without a connection *)

Lemma IsChainClientOk_dead c w : api c = None -> IsChainClientOk (c, w) = (Done true, (c, w)).
Proof.
  intros E. unfold IsChainClientOk, field, healthchek, gets, recovering, mbind, M_bind. cbn.
  by rewrite E.
Qed.

(** The health check fails and so does the reconnection: the connection is dropped. *)
Lemma IsChainClientOk_drops c w a e w1 e' w2 :
  api c = Some a -> System_Health a w = (inr e, w1) -> NewSubstrateAPI (rpcAddr c) w1 = (inr e', w2) ->
  IsChainClientOk (c, w) = (Done false, (set_api None c, w2)).
Proof.
  intros E1 E2 E3. unfold IsChainClientOk, field, healthchek, gets, recovering, mbind, M_bind, rpc. cbn.
  rewrite E1. cbn. rewrite E2. cbn. by rewrite E3.
Qed.

(** The local parts of a submission work: the metadata has the accounts, and the key signs
    the calls that the metadata knows. *)
Record usable (c : chainClient W) : Prop := {
  usable_key : exists key, CreateStorageKey (metadata c) SYSTEM SYSTEM_ACCOUNT [PublicKey (keyring c)] = inl key;
  usable_sign method args ext o : NewCall (metadata c) method args = inl ext ->
    exists ext', ext_Sign ext (keyring c) o = (ext', None);
}.

(** A call that the metadata does not know, or not with these arguments, is refused. *)
Definition refused (md : Metadata) (method : string) (args : list any_arg) : error :=
  match NewCall md method args with
  | inr e => Wrap (Some e) "submit extrinsic error"
  | inl _ => None
  end.

Lemma GetAccountInfo_dead c w : api c = None -> usable c ->
  GetAccountInfo (c, w) = (Done (AccountInfo_zero, None), (set_state true c, w)).
Proof.
  intros E [[key Ek] _]. unfold GetAccountInfo.
  erewrite M_bind_Done by reflexivity.
  assert (GetStorageFromChain AccountInfo_Decodable AccountInfo_zero SYSTEM SYSTEM_ACCOUNT
            [PublicKey (keyring c)] (c, w) = (Done (AccountInfo_zero, None), (set_state true c, w))) as Hs.
  { unfold GetStorageFromChain, recovering. erewrite M_bind_Done by by apply IsChainClientOk_dead.
    unfold SetChainState, update, modify, field, gets, the_api, deref, mbind, M_bind. cbn.
    rewrite Ek. cbn. by rewrite E. }
  erewrite M_bind_Done by apply Hs. cbn. by rewrite Wrap_nil.
Qed.

Lemma the_api_dead c w : api c = None -> the_api (c, w) = (Panicked NilDereference, (c, w)).
Proof. intros E. unfold the_api, field, gets, mbind, M_bind. cbn. by rewrite E. Qed.

Lemma sign_and_submit_dead c0 nonce ext c w :
  api c = None -> (exists ext', ext_Sign ext (keyring c0) (sign_options c0 nonce) = (ext', None)) ->
  sign_and_submit c0 nonce ext (c, w) = (Panicked NilDereference, (c, w)).
Proof.
  intros E [ext' Es]. unfold sign_and_submit. rewrite Es.
  unfold mbind, M_bind. by rewrite the_api_dead.
Qed.

Lemma SubmitExtrinsic_dead method cb args c w : api c = None -> lock c = false -> usable c ->
  SubmitExtrinsic method cb args (c, w) = (Done ("", refused (metadata c) method args), (set_lock false (set_state true c), w)).
Proof.
  intros E El U.
  destruct (SubmitExtrinsic_free method cb args c w El) as (r & c1 & w1 & Eb & Hr & ->).
  unfold submit_body in Eb. cbv zeta in Eb.
  erewrite M_bind_Done in Eb by by apply IsChainClientOk_dead.
  cbv beta iota in Eb. erewrite M_bind_Done in Eb by reflexivity.
  cbv beta iota in Eb. erewrite M_bind_Done in Eb by reflexivity.
  cbv beta iota in Eb. cbn [metadata set_state set_lock] in Eb. unfold refused.
  destruct (NewCall (metadata c) method args) as [ext|e] eqn:Ec; [|by injection Eb as <- <- <-].
  erewrite M_bind_Done in Eb by (apply GetAccountInfo_dead; [done|destruct U; split; eauto]).
  cbv beta iota in Eb. erewrite M_bind_Done in Eb by reflexivity.
  unfold mbind, M_bind in Eb. rewrite sign_and_submit_dead in Eb by first [done|by apply (usable_sign _ U method args)].
  by simplify_eq.
Qed.
End client.

(** ** Sessions on the interface *)

Inductive ink_op :=
  | OpSyncStatus
  | OpStaking (nodeAcc tokenAcc : AccountID) (tokenId peerId sign : bytes) (value : Z)
  | OpCacheOrderPayment (nodeAcc : AccountID) (value : Z)
  | OpOrderClaim (orderId : bytes)
  | OpCalimReward
  | OpExit
  | OpIsTokenOwner (acc : AccountID) (tokenId : bytes)
  | OpMintToken (value : Z)
  | OpWithdraw
  | OpTransferFrom (tokenId : bytes) (to : AccountID)
  | OpGetOwnerOf (tokenId acc : bytes).

Inductive op_result :=
  | Text (h : string) (e : error)
  | Sync (syncing : bool) (e : error).

(** One call; values are given in decimal. *)
Definition run_op {St} `{IChain St} (op : ink_op) : M St op_result :=
  let text (m : M St (string * error)) : M St op_result := '(h, e) ← m; mret (Text h e) in
  match op with
  | OpSyncStatus => '(b, e) ← ichain_GetSyncStatus; mret (Sync b e)
  | OpStaking n t i p s v => text (ichain_Staking n t i p s (big_String v))
  | OpCacheOrderPayment n v => text (ichain_CacheOrderPayment n (big_String v))
  | OpOrderClaim o => text (ichain_OrderClaim o)
  | OpCalimReward => text ichain_CalimReward
  | OpExit => text ichain_Exit
  | OpIsTokenOwner a t => text (ichain_IsTokenOwner a t)
  | OpMintToken v => text (ichain_MintToken (big_String v))
  | OpWithdraw => text ichain_Withdraw
  | OpTransferFrom t a => text (ichain_TransferFrom t a)
  | OpGetOwnerOf t a => '(h, e, _) ← ichain_GetOwnerOf t a; mret (Text h e)
  end.

(** A sequence of calls; before each the chain moves on by itself. *)
Fixpoint run_session {C W} `{IChain (C * W)} (ops : list ((W -> W) * ink_op)) (s : C * W)
    : list (result op_result) * (C * W) :=
  match ops with
  | [] => ([], s)
  | (advance, op) :: ops =>
      let '(r, s) := run_op op (s.1, advance s.2) in
      let '(rs, s) := run_session ops s in (r :: rs, s)
  end.

(** What a call submits. *)
Definition ink_call (op : ink_op) : option (string * list any_arg) :=
  match op with
  | OpSyncStatus => None
  | OpStaking n t i p s v =>
      Some ("CacheProtocol.staking", [ArgAccount n; ArgAccount t; ArgToken i; ArgBytes p; ArgBytes s; ArgBig v])
  | OpCacheOrderPayment n v => Some ("CacheProtocol.cache_order_payment", [ArgAccount n; ArgBig v])
  | OpOrderClaim o => Some ("CacheProtocol.order_claim", [ArgBytes o])
  | OpCalimReward => Some ("CacheProtocol.claim", [])
  | OpExit => Some ("CacheProtocol.exit", [])
  | OpIsTokenOwner a t => Some ("CacheProtocol.is_token_owner", [ArgAccount a; ArgToken t])
  | OpMintToken v => Some ("CacheToken.mint_token", [ArgBig v])
  | OpWithdraw => Some ("CacheToken.withdraw", [])
  | OpTransferFrom t a => Some ("CacheToken.withdraw", [ArgToken t; ArgAccount a])
  | OpGetOwnerOf t a => Some ("CacheToken.withdraw", [ArgToken t])
  end.

Section session.
Context {W : Type} `{Gsrpc W} `{PkgErrors}.

(** What a call gives without a connection. *)
Definition dead_result (md : Metadata) (op : ink_op) : result op_result :=
  match ink_call op with
  | None => Panicked NilDereference
  | Some (method, args) => Done (Text "" (refused md method args))
  end.

Lemma run_op_dead op (c : chainClient W) w : api c = None -> lock c = false -> usable c ->
  exists b, run_op op (c, w) = (dead_result (metadata c) op, (set_lock false (set_state b c), w)).
Proof.
  intros E El U. pose proof (fun m cb args => SubmitExtrinsic_dead m cb args c w E El U) as Hs.
  destruct op; [exists (chainState c)|exists true..]; unfold dead_result; cbn [run_op ink_call];
    cbn [ichain_Staking ichain_CacheOrderPayment ichain_OrderClaim ichain_CalimReward ichain_Exit
         ichain_IsTokenOwner ichain_MintToken ichain_Withdraw ichain_TransferFrom ichain_GetOwnerOf
         ichain_GetSyncStatus chainClient_IChain];
    unfold Staking_call, CacheOrderPayment_call, MintToken_call; rewrite ?big_SetString_String;
    try (erewrite M_bind_Done by apply Hs; reflexivity).
  - unfold GetSyncStatus, mbind, M_bind. rewrite IsChainClientOk_dead by done.
    cbn. rewrite the_api_dead by done. destruct c. cbn in *. by subst.
  - unfold GetOwnerOf_call, mbind, M_bind. by rewrite Hs.
Qed.

Lemma usable_kept b c : usable c -> usable (set_lock false (set_state b c)).
Proof. intros []. by split. Qed.

Lemma run_session_dead ops (c : chainClient W) w : api c = None -> lock c = false -> usable c ->
  exists b, run_session ops (c, w)
    = (map (fun op => dead_result (metadata c) op.2) ops,
       (set_lock false (set_state b c), foldl (fun w op => op.1 w) w ops)).
Proof.
  revert c w. induction ops as [|[advance op] ops IH]; intros c w E El U.
  - exists (chainState c). destruct c. cbn in *. by subst.
  - cbn [run_session fst snd]. destruct (run_op_dead op c (advance w) E El U) as [b ->].
    destruct (IH (set_lock false (set_state b c)) (advance w)) as [b' ->]; [done..|by apply usable_kept|].
    by exists b'.
Qed.

(** C36: Once the health check and the reconnection have both failed in a submission, which
    reports the error, the client never reaches the chain again, whatever becomes of the
    network.  A later call of the interface that submits something returns the empty hash and
    no error, as a success would, and leaves the chain as it is; only a call that the
    client's metadata does not know, or not with these arguments, gives the error of its
    encoding.  [GetSyncStatus] panics, and [IsChainClientOk] answers that the connection is
    fine.  The metadata is one that has the system accounts, and the client's key can sign
    what the metadata knows. *)
Theorem lost_connection_reports_success method callback args (c : chainClient W) w a e w1 e' w2 ops :
  lock c = false -> usable c -> api c = Some a ->
  System_Health a w = (inr e, w1) -> NewSubstrateAPI (rpcAddr c) w1 = (inr e', w2) ->
  exists c', SubmitExtrinsic method callback args (c, w)
      = (Done ("", Wrap ERR_RPC_CONNECTION "submit extrinsic error"), (c', w2)) /\
    let '(results, (c'', w'')) := run_session ops (c', w2) in
    results = map (fun op => dead_result (metadata c) op.2) ops /\
    w'' = foldl (fun w op => op.1 w) w2 ops /\
    IsChainClientOk (c'', w'') = (Done true, (c'', w'')).
Proof.
  intros El U Ea Eh En.
  destruct (SubmitExtrinsic_free method callback args c w El) as (r & c1 & x1 & Eb & Hr & ->).
  unfold submit_body in Eb. cbv zeta in Eb.
  erewrite M_bind_Done in Eb by (apply (IsChainClientOk_drops _ _ a e w1 e' w2); done).
  cbv beta iota in Eb. erewrite M_bind_Done in Eb by reflexivity.
  injection Eb as <- <- <-. eexists. split; [reflexivity|].
  edestruct (run_session_dead ops (set_lock false
    (set_state false (set_api None (set_lock true c)))) w2) as [b ->]; [done..|by destruct U; split|].
  split; [done|]. split; [done|]. by apply IsChainClientOk_dead.
Qed.
End session.

(** ** A sample node

    The chain counts the submissions and knows whether the node is reachable, and its
    metadata lacks the minting of tokens; an extrinsic is included in a block at once, whose events are one order payment. *)
Record sample_chain := mkSampleChain { reachable : bool; submissions : nat }.

Definition payment_events : CacheEventRecords :=
  mkEvents AccountID_zero [] [] [] [] [mkOrderPayment [x01] AccountID_zero] [] [].

#[export] Program Instance sample_gsrpc : Gsrpc sample_chain := {|
  SubstrateAPI := unit; Metadata := unit; StorageKey := unit;
  KeyringPair := bytes; KeyringPair_zero := []; PublicKey := id;
  RuntimeVersion := Z; SpecVersion := id; TransactionVersion := id;
  AccountInfo := Z; AccountInfo_zero := 0; Nonce := id;
  Extrinsic := string; Decodable A := A; AccountInfo_Decodable := 7;
  NewSubstrateAPI _ w := (if reachable w then inl tt else inr "dial error", w);
  GetMetadataLatest _ w := (inl tt, w);
  GetBlockHash _ _ w := (inl [x00], w);
  GetRuntimeVersionLatest _ w := (inl 1, w);
  System_Health _ w := (if reachable w then inl false else inr "closed", w);
  CreateStorageKey _ _ _ _ := inl tt;
  GetStorageLatest A d _ _ _ w := (d, inl true, w);
  GetStorageRaw _ _ _ w := (inl [], w);
  DecodeEventRecords _ _ _ := (payment_events, None);
  KeyringPairFromSecret s _ := inl (to_bytes s);
  NewCall _ m _ := if decide (m = "CacheToken.mint_token") then inr "call not found" else inl m;
  ext_Sign ext _ _ := (ext, None);
  SubmitAndWatchExtrinsic _ _ w :=
    (inl [StatusOther; StatusInBlock [xab]], mkSampleChain (reachable w) (S (submissions w)));
  types_NewAccountID b := inl b;
  EncodePublicKeyAsCessAccount b := (of_bytes b, None);
|}.
Solve Obligations with reflexivity.

Definition sample_client : chainClient sample_chain :=
  @mkChainClient sample_chain sample_gsrpc false (Some tt) true tt 1 tt [x00] (to_bytes "seed") "ws://node" "acc" TimeOut_WaitBlock.

Lemma sample_usable : usable sample_client.
Proof. split; [by exists tt|]. intros m args ext o _. by exists ext. Qed.

Lemma sample_counts : counts_submissions submissions.
Proof. split; cbn; intros; lia. Qed.

Lemma SubmitExtrinsic_ends_witness :
  counts_submissions submissions /\ lock sample_client = false /\
  exists r c' w', SubmitExtrinsic "CacheProtocol.exit" (fun _ => true) []
      (sample_client, mkSampleChain true 0) = (Done r, (c', w')) /\
    lock c' = false /\ (submissions w' <= 0 + 21)%nat.
Proof.
  split; [exact sample_counts|]. split; [reflexivity|].
  apply (SubmitExtrinsic_ends submissions); [exact sample_counts|reflexivity].
Defined.

(** A withdrawal in a reported block succeeds with the block's hash. *)
Lemma SubmitExtrinsic_success_witness :
  Withdraw_call (sample_client, mkSampleChain true 0)
    = (Done ("ab", None), (sample_client, mkSampleChain true 1)) /\
  ((exists events, accepted (W := sample_chain) (keyring sample_client) events /\
    ((exists block, StatusInBlock block ∈ events /\ "ab" = hex_EncodeToString block /\
        confirmed_in (fun _ => true) sample_client block)
     \/ ("ab" = "" /\ SubErr None ∈ events)))
  \/ ("ab" = "" /\ api sample_client = None)).
Proof.
  split; [vm_compute; reflexivity|].
  apply (SubmitExtrinsic_success "CacheToken.withdraw" (fun _ => true) [] sample_client
           (mkSampleChain true 0) "ab" sample_client (mkSampleChain true 1));
    vm_compute; reflexivity.
Defined.

(** The node goes away and comes back: an order payment "succeeds" without a submission. *)
Lemma lost_connection_reports_success_witness :
  exists c', SubmitExtrinsic "CacheProtocol.claim" (fun _ => true) [] (sample_client, mkSampleChain false 0)
      = (Done ("", Some "submit extrinsic error: rpc connection failed"), (c', mkSampleChain false 0)) /\
    let '(results, (c'', w'')) :=
      run_session [((fun w => mkSampleChain true (submissions w)), OpCacheOrderPayment AccountID_zero 5);
                   (id, OpSyncStatus); (id, OpMintToken 1)] (c', mkSampleChain false 0) in
    results = [Done (Text "" None); Panicked NilDereference;
               Done (Text "" (Some "submit extrinsic error: call not found"))] /\
    w'' = mkSampleChain true 0 /\
    IsChainClientOk (c'', w'') = (Done true, (c'', w'')).
Proof.
  apply (@lost_connection_reports_success sample_chain sample_gsrpc pkg_errors "CacheProtocol.claim" (fun _ => true) [] sample_client
    (mkSampleChain false 0) tt "closed" (mkSampleChain false 0) "dial error" (mkSampleChain false 0)
    [((fun w => mkSampleChain true (submissions w)), OpCacheOrderPayment AccountID_zero 5);
     (id, OpSyncStatus); (id, OpMintToken 1)]); first [exact sample_usable|reflexivity].
Defined.

(** An order payment confirmed by its own event is reported as failed: the call waits for a
    staking event. *)
Example order_payment_event_ignored :
  CacheOrderPayment_call AccountID_zero "5" (sample_client, mkSampleChain true 0)
  = (Done ("ab", Some "submit extrinsic error: tx failed"), (sample_client, mkSampleChain true 1)).
Proof. vm_compute. reflexivity. Qed.
