(* ===== verification/PeerNode.v ===== *)
(** * Peer nodes: cd2n-lib/p2p/p2p.go and discovery.go

    The node's identity file, the bootstrap addresses found through DNS, the construction
    of a peer node, and the loops that look for other peers. libp2p, its DHT, its pubsub
    and mDNS services, and the DNS are parameters. *)

From S2P Require Import Prelude GoStrings GoOs.

Definition CdnCacheProtocol := "/cdn_cache_stream/v0".
Definition Version := "v0".
Definition DISCOVERY_SERVICE_TAG := "cess-cdn-pubsub".
Definition DISCOVERY_RENDEZVOUS := "cess-cdn-cacher".

(** libp2p's [peer.AddrInfo]: the id is a binary string. *)
Record AddrInfo := mkAddrInfo { ID : string; Addrs : list string }.
#[export] Instance AddrInfo_eq_dec : EqDecision AddrInfo.
Proof. solve_decision. Defined.

(** ** Interfaces *)

(** Ed25519 keys: [Raw] gives the bytes of a private key, which are never empty and from
    which it is unmarshalled. *)
Class Ed25519 := {
  PrivKey : Type;
  GenerateEd25519 : bytes -> PrivKey + string;
  key_Raw : PrivKey -> bytes + string;
  UnmarshalEd25519PrivateKey : bytes -> PrivKey + string;
  key_round_trip k b : key_Raw k = inl b -> b ≠ [] /\ UnmarshalEd25519PrivateKey b = inl k;
}.

Inductive host_option `{Ed25519} :=
  | Transport_TCP
  | Security_TLS
  | DisableMetrics
  | EnableRelay
  | ProtocolVersion (s : string)
  | Identity (k : PrivKey)
  | ListenAddrStrings (s : string).

(** [N] is the state of the network. *)
Class Libp2p `{Ed25519} (N : Type) := {
  Host : Type;
  host_ID : Host -> string;
  Dht : Type;
  Multiaddr : Type;
  NewMultiaddr : string -> Multiaddr + string;
  AddrInfoFromP2pAddr : Multiaddr -> AddrInfo + string;
  LookupTXT : N -> string -> list string + string;
  libp2p_New : list host_option -> N -> (Host + string) * N;
  host_Connect : Host -> AddrInfo -> N -> error * N;
  dht_New : Host -> string -> string -> list AddrInfo -> N -> (Dht + string) * N;
  dht_Bootstrap : Dht -> N -> error * N;
}.

(** ** p2p.go *)

(** [strings.Count(s, c)] for one byte. *)
Fixpoint count_char (c : ascii) (s : string) : Z :=
  match s with
  | EmptyString => 0
  | String a s => (if decide (a = c) then 1 else 0) + count_char c s
  end.

Definition is_ip4_tcp (v : string) : bool := strings_Contains v "ip4" && strings_Contains v "tcp".

Section identification.
Context `{Ed25519} `{OsFaults}.

(** Makes a key from what the random reader gives, and stores it. *)
Definition new_identity (fs : FS) (fpath : string) (random : bytes) : (PrivKey + string) * FS :=
  match GenerateEd25519 random with
  | inr e => (inr e, fs)
  | inl prvKey =>
      match key_Raw prvKey with
      | inr e => (inr e, fs)
      | inl b =>
          match os_Create fs fpath with
          | (fs, Some e) => (inr e, fs)
          | (fs, None) =>
              let '(content, err) := file_write fpath [] b in
              let fs := set_files (<[fpath := content]> (files fs)) fs in
              match err with
              | Some e => (inr e, fs)
              | None => match os_fault OpSync fpath with Some e => (inr e, fs) | None => (inl prvKey, fs) end
              end
          end
      end
  end.

Definition Identification (fs : FS) (fpath : string) (random : bytes) : (PrivKey + string) * FS :=
  match os_Stat fs fpath with
  | inr _ => new_identity fs fpath random
  | inl _ =>
      match os_ReadFile fs fpath with
      | inr e => (inr e, fs)
      | inl content =>
          if 0 <? len content then (UnmarshalEd25519PrivateKey content, fs)
          else new_identity fs fpath random
      end
  end.
End identification.

Section peernode.
Context {N : Type} `{Libp2p N} `{PkgErrors}.

Record PeerNode := mkPeerNode { node_Host : Host; IpfsDHT : Dht }.

(** The first element of a TXT record that contains the domain name. *)
Fixpoint first_with (name : string) (parts : list string) : list string :=
  match parts with
  | [] => []
  | v :: parts => if strings_Contains v name then [v] else first_with name parts
  end.

(** The addresses of one real DNS name. *)
Definition dnsaddr_records (w : N) (v : string) : list string :=
  match LookupTXT w ("_dnsaddr." +:+ v) with
  | inr _ => []
  | inl dnses =>
      map (fun d => strings_TrimPrefix d "dnsaddr=")
        (List.filter (fun d => is_ip4_tcp d && (count_char "=" d =? 1)) dnses)
  end.

(** The part that asks the DNS. *)
Definition lookup_addrs (w : N) (domain : string) : outcome (list string * error) :=
  match LookupTXT w domain with
  | inr e => Returns ([], Some e)
  | inl dnsnames =>
      let result := map (fun v => strings_TrimPrefix v "dnsaddr=") (List.filter is_ip4_tcp dnsnames) in
      let trims := strings_Split domain "." in
      a ← index trims (len trims - 2);
      b ← index trims (len trims - 1);
      let domainname := a +:+ "." +:+ b in
      let realDns := concat (map (fun v => first_with domainname (strings_Split v "/")) dnsnames) in
      Returns ((result ++ concat (map (dnsaddr_records w) realDns))%list, None)
  end.

Definition ParseMultiaddrs (w : N) (domain : string) : outcome (list string * error) :=
  match NewMultiaddr domain with
  | inl addr =>
      match AddrInfoFromP2pAddr addr with
      | inl _ => Returns ([domain], None)
      | inr _ => lookup_addrs w domain
      end
  | inr _ => lookup_addrs w domain
  end.

(** The peer behind an address of a boot node, if it has one. *)
Definition boot_addr (addr : string) : option AddrInfo :=
  match NewMultiaddr addr with
  | inr _ => None
  | inl m => match AddrInfoFromP2pAddr m with inr _ => None | inl info => Some info end
  end.

(** Connects to the peers among the addresses; the errors of the connections are ignored. *)
Fixpoint connect_boots (h : Host) (addrs : list string) (w : N) : list AddrInfo * N :=
  match addrs with
  | [] => ([], w)
  | addr :: addrs =>
      match boot_addr addr with
      | None => connect_boots h addrs w
      | Some info =>
          let '(_, w) := host_Connect h info w in
          let '(rest, w) := connect_boots h addrs w in (info :: rest, w)
      end
  end.

Fixpoint useful_boots (h : Host) (boots : list string) (w : N) : outcome (list AddrInfo * N) :=
  match boots with
  | [] => Returns ([], w)
  | boot :: boots =>
      '(addrs, err) ← ParseMultiaddrs w boot;
      let '(infos, w) := match err with Some _ => ([], w) | None => connect_boots h addrs w end in
      '(rest, w) ← useful_boots h boots w;
      Returns ((infos ++ rest)%list, w)
  end.

Definition NewPeerNode (network version : string) (boots : list string) (opts : list host_option) (w : N)
    : outcome ((option PeerNode * error) * N) :=
  let msg := "new peer node error" in
  let opts := ([Transport_TCP; Security_TLS; DisableMetrics; EnableRelay;
                ProtocolVersion (network +:+ "/protoco/" +:+ version)] ++ opts)%list in
  match libp2p_New opts w with
  | (inr e, w) => Returns ((None, Wrap (Some e) msg), w)
  | (inl h, w) =>
      '(usefulBoots, w) ← useful_boots h boots w;
      match dht_New h network ("/dht/" +:+ version) usefulBoots w with
      | (inr e, w) => Returns ((None, Wrap (Some e) msg), w)
      | (inl dht, w) =>
          match dht_Bootstrap dht w with
          | (Some e, w) => Returns ((None, Wrap (Some e) msg), w)
          | (None, w) => Returns ((Some (mkPeerNode h dht), None), w)
          end
      end
  end.
End peernode.
Arguments PeerNode N {_ _} : assert.

(** ** discovery.go *)

(** [HandlePeerFound]: the peer goes to the channel. *)
Definition HandlePeerFound (ch : list AddrInfo) (pi : AddrInfo) : list AddrInfo := (ch ++ [pi])%list.

(** The peers of one search that are sent on: all but the node itself. *)
Definition other_peers (own : string) (peers : list AddrInfo) : list AddrInfo :=
  List.filter (fun p => negb (bool_decide (ID p = own))) peers.

(** The loop over the searches made at each tick until its context ends: what it sends on
    the channel, and its result. *)
Fixpoint StartDiscoveryFromDHT (own : string) (searches : list (list AddrInfo + string))
    : list AddrInfo * error :=
  match searches with
  | [] => ([], None)
  | inr err :: _ => ([], Some err)
  | inl peers :: searches =>
      let '(sent, err) := StartDiscoveryFromDHT own searches in ((other_peers own peers ++ sent)%list, err)
  end.

(** go-libp2p-pubsub, mDNS, and encoding/json on an [AddrInfo] that may hold an earlier
    value. *)
Class GossipSub (N : Type) `{Libp2p N} := {
  Gossip : Type;
  Topic : Type;
  NetworkRoom : string;
  NewGossipSub : Host -> N -> (Gossip + string) * N;
  mdns_Start : Host -> string -> N -> error * N;
  gossip_Join : Gossip -> string -> N -> (Topic + string) * N;
  topic_Subscribe : Topic -> N -> error * N;
  json_AddrInfo : bytes -> AddrInfo -> AddrInfo * error;
}.

Section subscribe.
Context {N : Type} `{GossipSub N} `{PkgErrors}.

Definition StartDiscoveryFromMDNS (h : Host) (w : N) : error * N := mdns_Start h DISCOVERY_SERVICE_TAG w.

(** The loop over what [Next] gives at each tick until the context ends: a message with its
    sender, or an error; [fpeer] is declared outside of the loop. *)
Fixpoint subscribe_loop (own : string) (ticks : list ((string * bytes) + string)) (fpeer : AddrInfo)
    : list AddrInfo :=
  match ticks with
  | [] => []
  | inr _ :: ticks => subscribe_loop own ticks fpeer
  | inl (from, data) :: ticks =>
      if decide (from = own) then subscribe_loop own ticks fpeer
      else
        let '(fpeer, err) := json_AddrInfo data fpeer in
        match err with
        | Some _ => subscribe_loop own ticks fpeer
        | None =>
            if decide (ID fpeer = "") then subscribe_loop own ticks fpeer
            else fpeer :: subscribe_loop own ticks fpeer
        end
  end.

(** One turn of it: [fpeer] afterwards, and what is to be sent. *)
Definition subscribe_tick (own : string) (tick : (string * bytes) + string) (fpeer : AddrInfo)
    : AddrInfo * option AddrInfo :=
  match tick with
  | inr _ => (fpeer, None)
  | inl (from, data) =>
      if decide (from = own) then (fpeer, None)
      else
        let '(fpeer, err) := json_AddrInfo data fpeer in
        match err with
        | Some _ => (fpeer, None)
        | None => (fpeer, if decide (ID fpeer = "") then None else Some fpeer)
        end
  end.

(** The way to the loop: an error it returns at once, or the loop is reached. The errors of
    the service, of [Join] and of [topic.Subscribe] are wrapped and dropped; a nil topic or
    subscription is dereferenced, at the latest by the deferred calls. *)
Definition open_subscription (h : Host) (bootnode : string) (w : N) : outcome ((error + unit) * N) :=
  match NewGossipSub h w with
  | (inr e, w) => Returns (inl (Wrap (Some e) "subscribe peer node error"), w)
  | (inl gossip, w) =>
      let room := NetworkRoom +:+ "-" +:+ bootnode in
      let '(_, w) := mdns_Start h "" w in
      match gossip_Join gossip room w with
      | (inr _, _) => Panics NilDereference
      | (inl topic, w) =>
          match topic_Subscribe topic w with
          | (Some _, _) => Panics NilDereference
          | (None, w) => Returns (inr tt, w)
          end
      end
  end.

(** The result and what was sent. *)
Definition Subscribe (h : Host) (bootnode : string) (recv_nil : bool)
    (ticks : list ((string * bytes) + string)) (w : N) : outcome ((error * list AddrInfo) * N) :=
  if recv_nil then Returns ((Wrap (errors_New "empty receive channel") "subscribe peer node error", []), w)
  else
    '(r, w) ← open_subscription h bootnode w;
    match r with
    | inl err => Returns ((err, []), w)
    | inr tt => Returns ((None, subscribe_loop (host_ID h) ticks (mkAddrInfo "" [])), w)
    end.

Lemma subscribe_loop_tick own tick ticks fpeer :
  subscribe_loop own (tick :: ticks) fpeer
    = (option_list (snd (subscribe_tick own tick fpeer)) ++ subscribe_loop own ticks (fst (subscribe_tick own tick fpeer)))%list.
Proof.
  destruct tick as [[from data]|e]; cbn [subscribe_loop subscribe_tick]; [|done].
  case_decide; [done|]. destruct (json_AddrInfo data fpeer) as [f [e|]]; [done|]. by case_decide.
Qed.
End subscribe.

(** ** Properties *)

Section identification_facts.
Context `{Ed25519} `{OsFaults}.

Lemma new_identity_stored fs fpath random k fs' :
  new_identity fs fpath random = (inl k, fs') ->
  exists b, key_Raw k = inl b /\ files fs' !! fpath = Some b.
Proof.
  unfold new_identity, os_Create, file_write. intros E.
  repeat (case_match; simplify_eq/=); eexists; (split; [done|]); cbn; by rewrite lookup_insert_eq.
Qed.

(** What a key read from the file, or made anew, leaves in the file. *)
Lemma Identification_file fs fpath random k fs' :
  Identification fs fpath random = (inl k, fs') ->
  exists b, files fs' !! fpath = Some b /\ b ≠ [] /\ UnmarshalEd25519PrivateKey b = inl k.
Proof.
  assert (Hnew : new_identity fs fpath random = (inl k, fs') ->
    exists b, files fs' !! fpath = Some b /\ b ≠ [] /\ UnmarshalEd25519PrivateKey b = inl k).
  { intros E. apply new_identity_stored in E as (b & Hr & Hf).
    destruct (key_round_trip k b Hr). by exists b. }
  unfold Identification, os_ReadFile. destruct (os_Stat fs fpath); [|exact Hnew].
  destruct (os_fault OpRead fpath); [done|]. destruct (files fs !! fpath) as [b|] eqn:Eb; [|done].
  case_match eqn:El; [|exact Hnew]. intros [= E <-]. exists b. split; [done|]. split; [|done].
  intros ->. discriminate El.
Qed.

(** A file that cannot be examined is taken for a missing one: the key in it is lost. *)
Lemma Identification_overwrites fs fpath random e :
  os_fault OpStat fpath = Some e -> Identification fs fpath random = new_identity fs fpath random.
Proof. intros E. unfold Identification, os_Stat. by rewrite E. Qed.

Lemma new_identity_fresh fs fpath random k fs' :
  new_identity fs fpath random = (inl k, fs') -> GenerateEd25519 random = inl k.
Proof.
  unfold new_identity. intros E. repeat (case_match; simplify_eq/=). done.
Qed.
End identification_facts.

(** C34: What a later start makes of an identity: once [Identification] has given a key, a
    start that can examine and read the file gives the same key and leaves the files alone,
    whatever the random reader yields; one that can examine but not read it fails and leaves
    them alone too.  But one that cannot even examine it never gives the key in it: if it
    gives a key, that is a new one, and the file now holds its bytes in place of the old. *)
Theorem Identification_stable `{Ed25519} (first later : OsFaults) fs fpath random k fs' random'
    (Hok : @Identification _ first fs fpath random = (inl k, fs')) :
  match @os_fault later OpStat fpath, @os_fault later OpRead fpath with
  | None, None => @Identification _ later fs' fpath random' = (inl k, fs')
  | None, Some e => @Identification _ later fs' fpath random' = (inr e, fs')
  | Some _, _ => forall k' fs'', @Identification _ later fs' fpath random' = (inl k', fs'') ->
      GenerateEd25519 random' = inl k' /\ exists b, key_Raw k' = inl b /\ files fs'' !! fpath = Some b
  end.
Proof.
  destruct (@Identification_file _ first _ _ _ _ _ Hok) as (b & Hf & Hne & Hu).
  destruct (@os_fault later OpStat fpath) as [e|] eqn:Es.
  - intros k' fs''. rewrite (@Identification_overwrites _ later _ _ _ _ Es). intros Hk.
    split; [by eapply new_identity_fresh|by eapply new_identity_stored].
  - unfold Identification, os_Stat, os_ReadFile. rewrite Es, Hf.
    destruct (@os_fault later OpRead fpath); [done|]. destruct b as [|x b]; [done|].
    rewrite len_cons. pose proof (len_nonneg b).
    replace (0 <? 1 + len b) with true by (symmetry; apply Z.ltb_lt; lia). by rewrite Hu.
Qed.

Section peernode_facts.
Context {N : Type} `{Libp2p N} `{PkgErrors}.

(** An address that some TXT record gives. *)
Definition from_dns (w : N) (a : string) : Prop :=
  exists name records v, LookupTXT w name = inl records /\ v ∈ records /\ is_ip4_tcp v = true /\
    a = strings_TrimPrefix v "dnsaddr=".

Lemma kept_from_dns w name records a :
  LookupTXT w name = inl records -> forall keep : string -> bool,
  (forall v, keep v = true -> is_ip4_tcp v = true) ->
  a ∈ map (fun v => strings_TrimPrefix v "dnsaddr=") (List.filter keep records) -> from_dns w a.
Proof.
  intros E keep Hk (v & <- & [Hv Hf]%filter_In)%list_elem_of_In%in_map_iff.
  exists name, records, v. split; [done|]. split; [by apply list_elem_of_In|]. split; [by apply Hk|done].
Qed.

Lemma dnsaddr_records_from_dns w v a : a ∈ dnsaddr_records w v -> from_dns w a.
Proof.
  unfold dnsaddr_records. destruct (LookupTXT w _) as [records|] eqn:E; [|by intros ?%not_elem_of_nil].
  apply (kept_from_dns w _ records _ E). by intros d [? _]%andb_true_iff.
Qed.

(** The elements of a split: one more than the separators. *)
Lemma len_Split_sep s sep : 1 <= len (strings_Split s sep) /\
  (len (strings_Split s sep) = 1 <-> has_char sep s = false).
Proof.
  induction s as [|a s IH]; cbn [strings_Split has_char].
  - rewrite len_cons, len_nil. split; [lia|done].
  - destruct IH as [IH1 IH2]. case_decide as Ha; [|rewrite bool_decide_false by done].
    + rewrite bool_decide_true, len_cons by done. split; [lia|]. split; [lia|done].
    + destruct (strings_Split s sep) as [|h t]; [rewrite len_nil in IH1; lia|].
      rewrite len_cons in *. cbn [orb]. split; [lia|exact IH2].
Qed.

Lemma index_in {A} (l : list A) i : 0 <= i < len l -> exists a, index l i = Returns a.
Proof.
  intros Hi. unfold len in Hi. destruct (lookup_lt_is_Some_2 l (Z.to_nat i) ltac:(lia)) as [a Ha].
  exists a. apply index_Returns; [lia|done].
Qed.

Lemma lookup_addrs_cases w domain :
  match LookupTXT w domain with
  | inr e => lookup_addrs w domain = Returns ([], Some e)
  | inl _ => if has_char "." domain
             then exists addrs, lookup_addrs w domain = Returns (addrs, None) /\
                    forall a, a ∈ addrs -> from_dns w a
             else lookup_addrs w domain = Panics IndexOutOfRange
  end.
Proof.
  unfold lookup_addrs. destruct (LookupTXT w domain) as [records|e] eqn:E; [|done].
  destruct (len_Split_sep domain ".") as [Hp Hd].
  destruct (has_char "." domain).
  - assert (len (strings_Split domain ".") ≠ 1) by (intros ?%Hd; done).
    destruct (index_in (strings_Split domain ".") (len (strings_Split domain ".") - 2)) as [a ->]; [lia|].
    destruct (index_in (strings_Split domain ".") (len (strings_Split domain ".") - 1)) as [b ->]; [lia|].
    cbn. eexists. split; [done|]. intros x [Hx|Hx]%elem_of_app.
    + by eapply kept_from_dns.
    + apply list_elem_of_In, in_concat in Hx as (l & (v & <- & _)%in_map_iff & Hx).
      by apply (dnsaddr_records_from_dns w v), list_elem_of_In.
  - unfold index at 1. destruct Hd as [_ Hd]. rewrite (Hd eq_refl). reflexivity.
Qed.

(** [ParseMultiaddrs], case by case: a peer's own address is returned as it is; of
    anything else the TXT records are looked up, an error of the look-up is returned, a
    name without a dot makes the function panic once its look-up succeeds, and otherwise
    every address returned is, less its "dnsaddr=", a TXT record that mentions ip4 and
    tcp. *)
Theorem ParseMultiaddrs_cases w domain :
  match boot_addr (N := N) domain, LookupTXT w domain with
  | Some _, _ => ParseMultiaddrs w domain = Returns ([domain], None)
  | None, inr e => ParseMultiaddrs w domain = Returns ([], Some e)
  | None, inl _ =>
      if has_char "." domain
      then exists addrs, ParseMultiaddrs w domain = Returns (addrs, None) /\
             forall a, a ∈ addrs -> from_dns w a
      else ParseMultiaddrs w domain = Panics IndexOutOfRange
  end.
Proof.
  pose proof (lookup_addrs_cases w domain) as Hl.
  unfold ParseMultiaddrs, boot_addr. destruct (NewMultiaddr domain) as [m|]; [|exact Hl].
  destruct (AddrInfoFromP2pAddr m); [done|exact Hl].
Qed.

(** One such boot entry stops the whole node. *)
Lemma NewPeerNode_panics network version boots opts w h w1 boot records :
  libp2p_New ([Transport_TCP; Security_TLS; DisableMetrics; EnableRelay;
    ProtocolVersion (network +:+ "/protoco/" +:+ version)] ++ opts) w = (inl h, w1) ->
  boots = [boot] -> boot_addr (N := N) boot = None -> LookupTXT w1 boot = inl records ->
  has_char "." boot = false ->
  NewPeerNode network version boots opts w = Panics IndexOutOfRange.
Proof.
  intros Eh -> Eb El Ed. unfold NewPeerNode. rewrite Eh. cbn [useful_boots].
  pose proof (lookup_addrs_cases w1 boot) as Hp. rewrite El, Ed in Hp.
  revert Eb. unfold ParseMultiaddrs, boot_addr. destruct (NewMultiaddr boot) as [m|]; [|by rewrite Hp].
  destruct (AddrInfoFromP2pAddr m); [done|by rewrite Hp].
Qed.
End peernode_facts.

Lemma elem_of_other_peers own peers p : p ∈ other_peers own peers <-> p ∈ peers /\ ID p ≠ own.
Proof.
  unfold other_peers. rewrite list_elem_of_In, filter_In, <- list_elem_of_In.
  case_bool_decide; cbn; intuition congruence.
Qed.

(** What the search of the DHT sends: peers found, never the node itself. *)
Lemma StartDiscoveryFromDHT_sends own searches p :
  p ∈ fst (StartDiscoveryFromDHT own searches) ->
  ID p ≠ own /\ exists peers, inl peers ∈ searches /\ p ∈ peers.
Proof.
  induction searches as [|[peers|e] searches IH]; cbn; [by intros ?%not_elem_of_nil| |by intros ?%not_elem_of_nil].
  destruct (StartDiscoveryFromDHT own searches) as [sent err]. cbn in *.
  intros [[Hp Hn]%elem_of_other_peers|Hp]%elem_of_app.
  - split; [done|]. exists peers. split; [apply list_elem_of_here|done].
  - destruct (IH Hp) as (Hn & ps & ? & ?). split; [done|]. exists ps. split; [by apply list_elem_of_further|done].
Qed.

(** Going on where a search stopped. *)
Lemma StartDiscoveryFromDHT_snoc own searches peers :
  snd (StartDiscoveryFromDHT own searches) = None ->
  StartDiscoveryFromDHT own (searches ++ [inl peers])
  = ((fst (StartDiscoveryFromDHT own searches) ++ other_peers own peers)%list, None).
Proof.
  induction searches as [|[ps|e] searches IH]; cbn; [intros _; by rewrite app_nil_r| |done].
  destruct (StartDiscoveryFromDHT own searches) as [sent err]. cbn in *.
  intros ->. rewrite IH by done. by rewrite app_assoc.
Qed.

Section subscribe_facts.
Context {N : Type} `{GossipSub N}.

(** What the subscription sends was decoded from a message of another peer, and has an id. *)
Lemma subscribe_loop_sends own ticks fpeer p :
  p ∈ subscribe_loop own ticks fpeer ->
  ID p ≠ "" /\ exists from data earlier, inl (from, data) ∈ ticks /\ from ≠ own /\
    json_AddrInfo data earlier = (p, None).
Proof.
  revert fpeer. induction ticks as [|[[from data]|e] ticks IH]; intros fpeer; cbn [subscribe_loop].
  - by intros ?%not_elem_of_nil.
  - assert (Hrest : forall f, p ∈ subscribe_loop own ticks f -> ID p ≠ "" /\ exists from' data' earlier,
      inl (from', data') ∈ inl (from, data) :: ticks /\ from' ≠ own /\ json_AddrInfo data' earlier = (p, None)).
    { intros f Hp. destruct (IH f Hp) as (? & f' & d' & e' & ? & ? & ?). split; [done|].
      exists f', d', e'. split; [by apply list_elem_of_further|done]. }
    case_decide as Hf; [by apply Hrest|]. destruct (json_AddrInfo data fpeer) as [q [e|]] eqn:Ej; [by apply Hrest|].
    case_decide as Hid; [by apply Hrest|]. intros [->|Hp]%elem_of_cons; [|by apply (Hrest q)].
    split; [done|]. exists from, data, fpeer. split; [apply list_elem_of_here|done].
  - intros Hp. destruct (IH _ Hp) as (? & f' & d' & e' & ? & ?). split; [done|].
    exists f', d', e'. split; [by apply list_elem_of_further|done].
Qed.
End subscribe_facts.

(** ** A sample: keys are their own bytes, one host, a DNS with two names *)

Definition sample_raw (k : byte * bytes) : bytes := fst k :: snd k.
Definition sample_unmarshal (b : bytes) : (byte * bytes) + string :=
  match b with [] => inr "expected ed25519 data size" | x :: b => inl (x, b) end.

Lemma sample_raw_round_trip k b : inl (sample_raw k) = @inl bytes string b ->
  b ≠ [] /\ sample_unmarshal b = inl k.
Proof. destruct k. by intros [= <-]. Qed.

#[export] Instance sample_ed25519 : Ed25519 := {
  PrivKey := byte * bytes;
  GenerateEd25519 random := inl (x01, random);
  key_Raw k := inl (sample_raw k);
  UnmarshalEd25519PrivateKey := sample_unmarshal;
  key_round_trip := sample_raw_round_trip;
}.

Definition sample_key_files : FS := mkFS {["p2p/.key" := [x01; x07]]} ∅.

#[export] Instance os_op_eq_dec : EqDecision os_op.
Proof. solve_decision. Defined.

(** A disk on which one operation fails. *)
Definition broken_disk (broken : os_op) : OsFaults := {|
  os_fault op _ := if decide (op = broken) then Some "input/output error" else None;
  write_fault _ _ := None;
  write_count _ _ := 0%nat;
  not_exist p := "no such file or directory: " +:+ p;
|}.

Lemma Identification_stable_witness :
  Identification (mkFS ∅ ∅) "p2p/.key" [x07] = (inl (x01, [x07]), sample_key_files) /\
  Identification sample_key_files "p2p/.key" [x08] = (inl (x01, [x07]), sample_key_files) /\
  @Identification _ (broken_disk OpRead) sample_key_files "p2p/.key" [x08] = (inr "input/output error", sample_key_files) /\
  exists fs'', @Identification _ (broken_disk OpStat) sample_key_files "p2p/.key" [x08] = (inl (x01, [x08]), fs'') /\
    exists b, key_Raw (x01, [x08]) = inl b /\ files fs'' !! "p2p/.key" = Some b.
Proof.
  assert (Hok : Identification (mkFS ∅ ∅) "p2p/.key" [x07] = (inl (x01, [x07]), sample_key_files))
    by (vm_compute; reflexivity).
  split; [exact Hok|].
  split; [exact (@Identification_stable sample_ed25519 no_faults no_faults (mkFS ∅ ∅) "p2p/.key" [x07] (x01, [x07]) sample_key_files [x08] Hok)|].
  split; [exact (@Identification_stable sample_ed25519 no_faults (broken_disk OpRead) (mkFS ∅ ∅) "p2p/.key" [x07] (x01, [x07])
    sample_key_files [x08] Hok)|].
  eexists. split; [reflexivity|].
  eapply (@Identification_stable sample_ed25519 no_faults (broken_disk OpStat) (mkFS ∅ ∅) "p2p/.key" [x07] (x01, [x07])
    sample_key_files [x08] Hok). reflexivity.
Defined.
