(* ===== verification/Discovery.v ===== *)
(** * The discovery of peers: RunDiscovery of the node and of the client

    [ResourceActor.RunDiscovery] (cd2n-node/actors/resource_actor.go) and
    [Client.RunDiscovery] (cd2n-client/client/client.go): goroutines that search the DHT,
    listen to mDNS and to a pubsub topic, and one that takes the peers found off bounded
    channels. They are a step relation whose steps are the goroutines' channel operations;
    handling one peer is one step of the consumer. *)

From S2P Require Import Prelude GoStrings Codec Types Lib ResourceActor PeerNode.

(** cess-go-tools' selector, the part that takes in new peers: the ping function, when
    there is one, says whether the peer answers. *)
Class PeerPool (Sel : Type) := {
  FlushPeerNodes : forall {Net}, option (Net -> bool * Net) -> AddrInfo -> Sel -> Net -> Sel * Net;
}.

(** libp2p's [Connect] with a peer's addresses. *)
Class Dialer (Net : Type) := { host_Connect_info : AddrInfo -> Net -> error * Net }.

(** The goroutine of [StartDiscoveryFromDHT]: waiting for its ticker, sending the rest of a
    search, or returned. *)
Inductive dht_state :=
  | Searching
  | Sending (peers : list AddrInfo)
  | Finished (err : error).

(** The state of one discovery: what the consumer works on, the channel, the goroutines,
    and the context. The last three fields record the run: the searches made, what mDNS
    delivered, what the consumer took. *)
Record discovery (W : Type) := mkDiscovery {
  d_world : W;
  d_ch : list AddrInfo;
  d_dht : dht_state;
  d_consuming : bool;
  d_cancelled : bool;
  d_searches : list (list AddrInfo + string);
  d_mdns : list AddrInfo;
  d_taken : list AddrInfo;
}.
Arguments mkDiscovery {W} _ _ _ _ _ _ _ _.
Arguments d_world {W} _.
Arguments d_ch {W} _.
Arguments d_dht {W} _.
Arguments d_consuming {W} _.
Arguments d_cancelled {W} _.
Arguments d_searches {W} _.
Arguments d_mdns {W} _.
Arguments d_taken {W} _.

Section discovery.
(** The channel's capacity, the node's own id, whether the search was given the context that
    is cancelled, and what the consumer does with a peer. *)
Context {W : Type} (capacity : Z) (own : string) (dht_cancellable : bool) (consume : AddrInfo -> W -> W).
Abbreviation discovery := (discovery W).

Definition discovery_start (w : W) : discovery := mkDiscovery w [] Searching true false [] [] [].

Definition set_dht (x : dht_state) (s : discovery) : discovery :=
  mkDiscovery (d_world s) (d_ch s) x (d_consuming s) (d_cancelled s) (d_searches s) (d_mdns s) (d_taken s).
Definition log_search (x : list AddrInfo + string) (s : discovery) : discovery :=
  mkDiscovery (d_world s) (d_ch s) (d_dht s) (d_consuming s) (d_cancelled s) (d_searches s ++ [x]) (d_mdns s)
    (d_taken s).
Definition set_ch (ch : list AddrInfo) (s : discovery) : discovery :=
  mkDiscovery (d_world s) ch (d_dht s) (d_consuming s) (d_cancelled s) (d_searches s) (d_mdns s) (d_taken s).
Definition log_mdns (p : AddrInfo) (s : discovery) : discovery :=
  mkDiscovery (d_world s) (d_ch s) (d_dht s) (d_consuming s) (d_cancelled s) (d_searches s) (d_mdns s ++ [p])
    (d_taken s).
Definition take_peer (p : AddrInfo) (ch : list AddrInfo) (s : discovery) : discovery :=
  mkDiscovery (consume p (d_world s)) ch (d_dht s) (d_consuming s) (d_cancelled s) (d_searches s) (d_mdns s)
    (d_taken s ++ [p]).
Definition stop_consuming (s : discovery) : discovery :=
  mkDiscovery (d_world s) (d_ch s) (d_dht s) false (d_cancelled s) (d_searches s) (d_mdns s) (d_taken s).
Definition cancel (s : discovery) : discovery :=
  mkDiscovery (d_world s) (d_ch s) (d_dht s) (d_consuming s) true (d_searches s) (d_mdns s) (d_taken s).

Inductive discovery_step : discovery -> discovery -> Prop :=
  | search_found s peers :
      d_dht s = Searching -> discovery_step s (log_search (inl peers) (set_dht (Sending peers) s))
  | search_failed s err :
      d_dht s = Searching -> discovery_step s (log_search (inr err) (set_dht (Finished (Some err)) s))
  | search_ended s :
      d_dht s = Searching -> dht_cancellable = true -> d_cancelled s = true ->
      discovery_step s (set_dht (Finished None) s)
  | skip_own s p peers :
      d_dht s = Sending (p :: peers) -> ID p = own -> discovery_step s (set_dht (Sending peers) s)
  | send_peer s p peers :
      d_dht s = Sending (p :: peers) -> ID p ≠ own -> len (d_ch s) < capacity ->
      discovery_step s (set_ch (d_ch s ++ [p]) (set_dht (Sending peers) s))
  | sent_all s :
      d_dht s = Sending [] -> discovery_step s (set_dht Searching s)
  | mdns_found s p :
      len (d_ch s) < capacity -> discovery_step s (log_mdns p (set_ch (HandlePeerFound (d_ch s) p) s))
  | consume_peer s p ch :
      d_consuming s = true -> d_ch s = p :: ch -> discovery_step s (take_peer p ch s)
  | consumer_ended s :
      d_consuming s = true -> d_cancelled s = true -> discovery_step s (stop_consuming s)
  | context_cancelled s :
      discovery_step s (cancel s).

Definition discovery_run (w : W) (s : discovery) : Prop := rtc discovery_step (discovery_start w) s.
End discovery.

(** ** The node *)

Section node.
Context {Net Sel : Type} `{CacheNet Net} `{PeerPool Sel} `{PkgErrors} `{FloatText} `{JsonMessages}.

(** The ping function: whether the peer answers a dial. *)
Definition dial_ping (p : AddrInfo) (net : Net) : bool * Net :=
  match DailCacheNode net (ID p) with
  | ((_, Some _), net) => (false, net)
  | ((_, None), net) => (true, net)
  end.

(** One peer off the channel of the node. *)
Definition node_consume (p : AddrInfo) (w : Net * Sel) : Net * Sel :=
  if decide (ID p = "") then w
  else let '(sel, net) := FlushPeerNodes (Some (dial_ping p)) p (snd w) (fst w) in (net, sel).

(** [RunDiscovery] of the node: the channel holds 64 peers and the search has a context
    that is never cancelled. *)
Definition node_discovery_step (own : string) := discovery_step (W := Net * Sel) 64 own false node_consume.
Definition node_discovery_run (own : string) := discovery_run (W := Net * Sel) 64 own false node_consume.

(** It returns when the search does; [err] may also be written by the mDNS goroutine. *)
Definition node_RunDiscovery_result (s : discovery (Net * Sel)) : option error :=
  match d_dht s with
  | Finished err => Some (Wrap err "run discovery service error")
  | _ => None
  end.
End node.

(** ** The client *)

Definition MaxStorageNodeNum : Z := 128.
Definition MaxCacheNodeNum : Z := 128.

Section client.
Context {Net Sel : Type} `{CacheNet Net} `{Selector Sel} `{PeerPool Sel} `{Dialer Net} `{PkgErrors}
  `{FloatText} `{JsonMessages} `{GossipSub Net}.

(** What the consumer works on: the network, the cachers and the storage nodes known. *)
Record pools := mkPools { p_net : Net; p_cachers : Sel; p_storages : Sel }.

(** One peer off [cacheCh]. *)
Definition cacher_consume (p : AddrInfo) (w : pools) : pools :=
  if decide (ID p = "") then w
  else if MaxCacheNodeNum <=? GetPeersNumber (p_cachers w) then w
  else
    match host_Connect_info p (p_net w) with
    | (Some _, net) => mkPools net (p_cachers w) (p_storages w)
    | (None, net) =>
        let '(sel, net) := FlushPeerNodes (Some (dial_ping p)) p (p_cachers w) net in
        mkPools net sel (p_storages w)
    end.

(** One peer off [peerCh]: no ping function is given. *)
Definition storage_consume (p : AddrInfo) (w : pools) : pools :=
  if decide (ID p = "") then w
  else
    let '(sel, net) := FlushPeerNodes None p (p_storages w) (p_net w) in
    mkPools net (p_cachers w) sel.

(** [Subscribe], on which [RunDiscovery] waits: before its loop, at the loop with the peer it
    decodes into, sending that peer, returned, or panicked, which ends the whole program. *)
Inductive subscription :=
  | NotOpened
  | Listening (fpeer : AddrInfo)
  | Delivering (fpeer : AddrInfo)
  | SubReturned (err : error)
  | SubPanicked (p : panic).

(** The discovery of the cachers, the channel of the storage nodes, and the subscription. *)
Record client_discovery := mkClientDiscovery {
  c_cachers : discovery pools;
  c_peerCh : list AddrInfo;
  c_sub : subscription;
}.

Definition client_discovery_start (w : pools) : client_discovery :=
  mkClientDiscovery (discovery_start w) [] NotOpened.

Definition set_world {W} (w : W) (s : discovery W) : discovery W :=
  mkDiscovery w (d_ch s) (d_dht s) (d_consuming s) (d_cancelled s) (d_searches s) (d_mdns s) (d_taken s).
Definition set_p_net (net : Net) (w : pools) : pools := mkPools net (p_cachers w) (p_storages w).

Definition alive (c : client_discovery) : bool := match c_sub c with SubPanicked _ => false | _ => true end.
Definition pools_of (c : client_discovery) : pools := d_world (c_cachers c).
Definition set_sub (x : subscription) (c : client_discovery) : client_discovery :=
  mkClientDiscovery (c_cachers c) (c_peerCh c) x.
(** The subscription's calls leave the network changed. *)
Definition set_sub_net (x : subscription) (net : Net) (c : client_discovery) : client_discovery :=
  mkClientDiscovery (set_world (set_p_net net (pools_of c)) (c_cachers c)) (c_peerCh c) x.

(** [own] is the id of the cache host, [h] the host of the storage node. *)
Inductive client_discovery_step (own : string) (h : Host) (bootNode : string)
    : client_discovery -> client_discovery -> Prop :=
  | cacher_side c d :
      alive c = true -> discovery_step MaxCacheNodeNum own true cacher_consume (c_cachers c) d ->
      client_discovery_step own h bootNode c (mkClientDiscovery d (c_peerCh c) (c_sub c))
  | subscription_opens c net :
      c_sub c = NotOpened -> open_subscription h bootNode (p_net (pools_of c)) = Returns (inr tt, net) ->
      client_discovery_step own h bootNode c (set_sub_net (Listening (mkAddrInfo "" [])) net c)
  | subscription_fails c err net :
      c_sub c = NotOpened -> open_subscription h bootNode (p_net (pools_of c)) = Returns (inl err, net) ->
      client_discovery_step own h bootNode c (set_sub_net (SubReturned err) net c)
  | subscription_panics c p :
      c_sub c = NotOpened -> open_subscription h bootNode (p_net (pools_of c)) = Panics p ->
      client_discovery_step own h bootNode c (set_sub (SubPanicked p) c)
  | subscription_ticks c fpeer tick :
      c_sub c = Listening fpeer ->
      client_discovery_step own h bootNode c
        (set_sub (match subscribe_tick (host_ID h) tick fpeer with
                  | (fpeer, None) => Listening fpeer
                  | (_, Some fpeer) => Delivering fpeer
                  end) c)
  | storage_found c fpeer :
      c_sub c = Delivering fpeer -> len (c_peerCh c) < MaxStorageNodeNum ->
      client_discovery_step own h bootNode c
        (mkClientDiscovery (c_cachers c) (c_peerCh c ++ [fpeer]) (Listening fpeer))
  | subscription_ended c fpeer :
      c_sub c = Listening fpeer -> d_cancelled (c_cachers c) = true ->
      client_discovery_step own h bootNode c (set_sub (SubReturned None) c)
  | storage_taken c p ch :
      alive c = true -> d_consuming (c_cachers c) = true -> c_peerCh c = p :: ch ->
      client_discovery_step own h bootNode c
        (mkClientDiscovery (set_world (storage_consume p (pools_of c)) (c_cachers c)) ch (c_sub c)).

Definition client_discovery_run (own : string) (h : Host) (bootNode : string) (w : pools) (c : client_discovery) : Prop :=
  rtc (client_discovery_step own h bootNode) (client_discovery_start w) c.

(** What [RunDiscovery] has returned, if it has. *)
Definition client_RunDiscovery_result (c : client_discovery) : option error :=
  match c_sub c with
  | SubReturned err => Some (Wrap err "run discovery service error")
  | _ => None
  end.
End client.
