(* ===== verification/DiscoveryFacts.v ===== *)
(** * The discovery of peers: its correctness

    That the channel neither loses, doubles nor reorders what the search finds, when the
    node's discovery returns, and how many peers the client takes in. *)

From S2P Require Import Prelude GoStrings Json Codec Types Lib ResourceActor NeighborQuery PeerNode Discovery.

Lemma other_peers_cons_ne own p peers : ID p ≠ own -> other_peers own (p :: peers) = p :: other_peers own peers.
Proof. intros Hp. unfold other_peers. cbn. by rewrite bool_decide_false. Qed.
Lemma other_peers_cons_eq own p peers : ID p = own -> other_peers own (p :: peers) = other_peers own peers.
Proof. intros Hp. unfold other_peers. cbn. by rewrite bool_decide_true. Qed.

Lemma StartDiscoveryFromDHT_fail own searches err :
  snd (StartDiscoveryFromDHT own searches) = None ->
  StartDiscoveryFromDHT own (searches ++ [inr err]) = (fst (StartDiscoveryFromDHT own searches), Some err).
Proof.
  induction searches as [|[ps|e] searches IH]; cbn; [done| |done].
  destruct (StartDiscoveryFromDHT own searches) as [sent e]. cbn in *. intros ->. by rewrite IH.
Qed.

Lemma StartDiscoveryFromDHT_error own searches err :
  snd (StartDiscoveryFromDHT own searches) = Some err -> inr err ∈ searches.
Proof.
  induction searches as [|[ps|e] searches IH]; cbn; [done| |intros [= ->]; apply list_elem_of_here].
  destruct (StartDiscoveryFromDHT own searches). intros Hx. by apply list_elem_of_further, IH.
Qed.

Section facts.
Context {W : Type} (capacity : Z) (own : string) (dht_cancellable : bool) (consume : AddrInfo -> W -> W).
Abbreviation step := (discovery_step capacity own dht_cancellable consume).

(** What the search has found and not yet sent. *)
Definition unsent (s : discovery W) : list AddrInfo :=
  match d_dht s with Sending peers => other_peers own peers | _ => [] end.

(** The whole way of a peer: taken, in the channel, or still to be sent. *)
Definition pipeline (s : discovery W) : list AddrInfo := (d_taken s ++ d_ch s ++ unsent s)%list.

Definition search_result (s : discovery W) : error :=
  match d_dht s with Finished err => err | _ => None end.

Record discovery_ok (s : discovery W) : Prop := {
  ok_capacity : len (d_ch s) <= capacity;
  ok_pipeline : pipeline s ≡ₚ fst (StartDiscoveryFromDHT own (d_searches s)) ++ d_mdns s;
  ok_order : d_mdns s = [] -> pipeline s = fst (StartDiscoveryFromDHT own (d_searches s));
  ok_result : search_result s = snd (StartDiscoveryFromDHT own (d_searches s));
}.

Lemma discovery_ok_step s s' : step s s' -> discovery_ok s -> discovery_ok s'.
Proof.
  intros Hs [Hc Hp Ho Hr].
  destruct Hs as [s peers E|s err E|s E Hd Hca|s p peers E Hid|s p peers E Hid Hl|s E|s p Hl|s p ch Hco E|s Hco Hca|s];
    unfold pipeline, unsent, search_result in *; try rewrite E in *;
    split; unfold pipeline, unsent, search_result; cbn; try done; try (rewrite E; done).
  - rewrite StartDiscoveryFromDHT_snoc by done. cbn. rewrite app_nil_r in Hp.
    rewrite app_assoc, Hp. solve_Permutation.
  - intros Hm. rewrite StartDiscoveryFromDHT_snoc by done. cbn. rewrite <- (Ho Hm), app_nil_r.
    by rewrite app_assoc.
  - by rewrite StartDiscoveryFromDHT_snoc.
  - by rewrite StartDiscoveryFromDHT_fail.
  - intros Hm. rewrite StartDiscoveryFromDHT_fail by done. by apply Ho.
  - by rewrite StartDiscoveryFromDHT_fail.
  - by rewrite <- Hp, other_peers_cons_eq.
  - intros Hm. by rewrite <- Ho, other_peers_cons_eq.
  - autorewrite with golist. lia.
  - rewrite <- Hp, other_peers_cons_ne by done. by rewrite <- app_assoc.
  - intros Hm. rewrite <- Ho, other_peers_cons_ne by done. by rewrite <- app_assoc.
  - unfold HandlePeerFound. autorewrite with golist. lia.
  - unfold HandlePeerFound. rewrite !(app_assoc (fst _)), <- Hp. solve_Permutation.
  - intros Hm. by destruct (d_mdns s).
  - rewrite len_cons in Hc. lia.
  - rewrite <- Hp. by rewrite <- app_assoc.
  - intros Hm. rewrite <- Ho by done. by rewrite <- app_assoc.
Qed.

Lemma discovery_ok_run w s :
  0 <= capacity -> discovery_run capacity own dht_cancellable consume w s -> discovery_ok s.
Proof.
  intros Hc Hr. refine (rtc_ind_r discovery_ok (discovery_start w) _ _ s Hr).
  - by split.
  - intros x y _ Hxy Hx. by eapply discovery_ok_step.
Qed.

Lemma search_not_ended w s :
  dht_cancellable = false -> discovery_run capacity own dht_cancellable consume w s -> d_dht s ≠ Finished None.
Proof.
  intros Hd Hr. refine (rtc_ind_r (fun s => d_dht s ≠ Finished None) (discovery_start w) _ _ s Hr); [done|].
  intros x y _ Hxy Hx. destruct Hxy; cbn; congruence.
Qed.

End facts.

(** ** The node *)

Section node.
Context {Net Sel : Type} `{CacheNet Net} `{PeerPool Sel} `{PkgErrors} `{FloatText} `{JsonMessages} (own : string).
Abbreviation state := (discovery (Net * Sel)).

(** C12: The goroutines of the node's discovery implement the sequential search: the channel
    never holds more than 64 peers; what the consumer took, what is in the channel and what
    is yet to be sent are together exactly what [StartDiscoveryFromDHT] sends for the
    searches made, with what mDNS delivered, and in that order when it delivered nothing;
    the node itself is never among the peers found in the DHT. *)
Theorem node_discovery_refines w (s : state) :
  node_discovery_run own w s ->
  len (d_ch s) <= 64 /\
  pipeline own s ≡ₚ fst (StartDiscoveryFromDHT own (d_searches s)) ++ d_mdns s /\
  (d_mdns s = [] -> pipeline own s = fst (StartDiscoveryFromDHT own (d_searches s))
    /\ Forall (fun p => ID p ≠ own) (d_taken s)).
Proof.
  intros Hr. destruct (discovery_ok_run 64 own false node_consume w s ltac:(lia) Hr) as [Hc Hp Ho _].
  split; [done|]. split; [done|]. intros Hm. specialize (Ho Hm). split; [done|].
  apply Forall_forall. intros p Hin.
  apply (StartDiscoveryFromDHT_sends own (d_searches s)). rewrite <- Ho. unfold pipeline.
  apply elem_of_app. by left.
Qed.

(** Where the search stands once the consumer has left: what is in the channel and what is
    left of a search that delivers, which is more than the channel holds. *)
Definition overfull (s : state) : Prop :=
  d_consuming s = false /\ exists peers, d_dht s = Sending peers /\ 64 < len (d_ch s) + len (other_peers own peers).

Lemma overfull_step s s' : len (d_ch s) <= 64 -> overfull s -> node_discovery_step own s s' -> overfull s'.
Proof.
  intros Hl (Hco & peers & E & Hn) Hs.
  destruct Hs as [s ps Ed|s e Ed|s Ed ? ?|s p ps Ed Hp|s p ps Ed Hp ?|s Ed|s p ?|s p ch Hc ?|s Hc ?|s];
    unfold overfull; cbn [d_consuming d_dht d_ch set_dht set_ch log_mdns cancel]; try congruence;
    try (rewrite E in Ed; injection Ed as ->).
  - split; [done|]. exists ps. split; [done|]. by rewrite other_peers_cons_eq in Hn.
  - split; [done|]. exists ps. split; [done|]. rewrite other_peers_cons_ne, len_cons in Hn by done.
    autorewrite with golist. lia.
  - change (other_peers own []) with (@nil AddrInfo) in Hn. rewrite len_nil in Hn. lia.
  - split; [done|]. exists peers. split; [done|]. unfold HandlePeerFound. autorewrite with golist. lia.
  - split; [done|]. by exists peers.
Qed.

Lemma overfull_run s s' : discovery_ok 64 own s -> overfull s -> rtc (node_discovery_step own) s s' -> overfull s'.
Proof.
  intros Hok Ho Hr. induction Hr as [|x y z Hxy _ IH]; [done|]. apply IH.
  - by eapply discovery_ok_step.
  - eapply overfull_step; [apply Hok|done|done].
Qed.

(** A search that fits is sent to its end. *)
Lemma delivers_all peers : forall s : state, d_dht s = Sending peers -> len (d_ch s) + len (other_peers own peers) <= 64 ->
  exists s', rtc (node_discovery_step own) s s' /\ d_dht s' = Searching.
Proof.
  induction peers as [|p peers IH]; intros s E Hl.
  { exists (set_dht Searching s). split; [|done]. by apply rtc_once, sent_all. }
  destruct (decide (ID p = own)) as [Hp|Hp].
  - rewrite other_peers_cons_eq in Hl by done.
    destruct (IH (set_dht (Sending peers) s)) as (s' & Hr & ?); [done..|].
    exists s'. split; [|done]. eapply rtc_l; [by eapply skip_own|done].
  - rewrite other_peers_cons_ne, len_cons in Hl by done. pose proof (len_nonneg (other_peers own peers)).
    destruct (IH (set_ch (d_ch s ++ [p]) (set_dht (Sending peers) s))) as (s' & Hr & ?);
      cbn; autorewrite with golist; [done|lia|].
    exists s'. split; [|done]. eapply rtc_l; [eapply send_peer; [done..|lia]|done].
Qed.

(** C37: Cancelling does not end the node's discovery. [RunDiscovery] returns only when a
    search fails, with its error. And once the consumer has left, which it does only after
    the cancellation, a search that is delivering its peers can still come to an end, and
    [RunDiscovery] return, exactly when the channel of 64 has room for all those other than
    the node itself: any search that finds more blocks it for ever, in every continuation. *)
Theorem node_discovery_never_returns (w : Net * Sel) (s : state) :
  node_discovery_run own w s ->
  (forall r, node_RunDiscovery_result s = Some r ->
     exists err, inr err ∈ d_searches s /\ r = Wrap (Some err) "run discovery service error") /\
  (d_consuming s = false -> d_cancelled s = true) /\
  (forall peers, d_consuming s = false -> d_dht s = Sending peers ->
     (exists s', rtc (node_discovery_step own) s s' /\ node_RunDiscovery_result s' ≠ None)
       <-> len (d_ch s) + len (other_peers own peers) <= 64).
Proof.
  intros Hr. pose proof (discovery_ok_run 64 own false node_consume w s ltac:(lia) Hr) as Hok. split_and!.
  - intros r E. destruct Hok as [_ _ _ Hres].
    unfold node_RunDiscovery_result in E. unfold search_result in Hres.
    destruct (d_dht s) as [| |[err|]] eqn:Ed; [done..| |].
    + injection E as <-. exists err. split; [|done]. by apply (StartDiscoveryFromDHT_error own).
    + by destruct (search_not_ended 64 own false node_consume w s eq_refl Hr).
  - refine (rtc_ind_r (fun s => d_consuming s = false -> d_cancelled s = true) (discovery_start w) _ _ s Hr); [done|].
    intros x y _ Hxy Hx. by destruct Hxy.
  - intros peers Hco Ed. split.
    + intros (s' & Hrun & Hres). destruct (Z.le_gt_cases (len (d_ch s) + len (other_peers own peers)) 64); [done|].
      exfalso. apply Hres. destruct (overfull_run s s' Hok) as (_ & ps & E & _); [|done|].
      * split; [done|]. exists peers. split; [done|lia].
      * unfold node_RunDiscovery_result. by rewrite E.
    + intros Hl. destruct (delivers_all peers s Ed Hl) as (s1 & Hr1 & E1).
      exists (log_search (inr "find peers") (set_dht (Finished (Some "find peers")) s1)).
      split; [|done]. eapply rtc_r; [exact Hr1|by apply search_failed].
Qed.
End node.

(** ** The client *)

Section client.
Context {Net Sel : Type} `{CacheNet Net} `{Selector Sel} `{PeerPool Sel} `{Dialer Net} `{PkgErrors}
  `{FloatText} `{JsonMessages} `{GossipSub Net}.

(** Taking in one peer adds at most one to those known. *)
Definition flush_adds_one : Prop :=
  forall (N : Type) f p sel (net : N),
    GetPeersNumber (fst (FlushPeerNodes f p sel net)) <= GetPeersNumber sel + 1.

Definition cachers_bounded (w : pools (Net := Net) (Sel := Sel)) : Prop :=
  GetPeersNumber (p_cachers w) <= MaxCacheNodeNum.

Lemma cacher_consume_bounded p (w : pools (Net := Net) (Sel := Sel)) :
  flush_adds_one -> cachers_bounded w -> cachers_bounded (cacher_consume p w).
Proof.
  intros Hone Hw. unfold cacher_consume. case_decide; [done|]. case_match eqn:Em; [done|].
  destruct (host_Connect_info p (p_net w)) as [[e|] net]; [done|].
  pose proof (Hone _ (Some (dial_ping p)) p (p_cachers w) net) as Hf.
  destruct (FlushPeerNodes _ _ _ _) as [sel net']. unfold cachers_bounded in *. cbn in *.
  apply Z.leb_gt in Em. lia.
Qed.

Lemma storage_consume_cachers p (w : pools (Net := Net) (Sel := Sel)) :
  p_cachers (storage_consume p w) = p_cachers w.
Proof. unfold storage_consume. case_decide; [done|]. by destruct (FlushPeerNodes _ _ _ _). Qed.

Lemma discovery_step_bounded own (s s' : discovery (pools (Net := Net) (Sel := Sel))) :
  flush_adds_one -> discovery_step MaxCacheNodeNum own true cacher_consume s s' ->
  cachers_bounded (d_world s) -> cachers_bounded (d_world s').
Proof. intros Hone Hs Hw. destruct Hs; try done. by apply cacher_consume_bounded. Qed.

Lemma discovery_step_cancelled own (s s' : discovery (pools (Net := Net) (Sel := Sel))) :
  discovery_step MaxCacheNodeNum own true cacher_consume s s' -> d_cancelled s = true -> d_cancelled s' = true.
Proof. by destruct 1. Qed.

(** What is known of the subscription, and of what it sends. *)
Definition subscription_ok (h : Host) (c : client_discovery (Net := Net) (Sel := Sel)) : Prop :=
  match c_sub c with
  | Delivering p => ID p ≠ ""
  | SubReturned None => d_cancelled (c_cachers c) = true
  | SubReturned (Some e) => exists net e0, fst (NewGossipSub h net) = inr e0
      /\ Some e = Wrap (Some e0) "subscribe peer node error"
  | _ => True
  end.

Record client_ok (own : string) (h : Host) (c : client_discovery (Net := Net) (Sel := Sel)) : Prop := {
  co_cachers : cachers_bounded (pools_of c);
  co_discovery : discovery_ok MaxCacheNodeNum own (c_cachers c);
  co_peerCh : len (c_peerCh c) <= MaxStorageNodeNum;
  co_named : Forall (fun p => ID p ≠ "") (c_peerCh c);
  co_sub : subscription_ok h c;
}.

Lemma open_subscription_fails h bootNode (net net' : Net) err :
  open_subscription h bootNode net = Returns (inl err, net') ->
  exists e0, fst (NewGossipSub h net) = inr e0 /\ err = Wrap (Some e0) "subscribe peer node error".
Proof.
  unfold open_subscription. destruct (NewGossipSub h net) as [[g|e] w1]; [|intros [= <- _]; by exists e].
  destruct (mdns_Start _ _ _) as [? w2]. destruct (gossip_Join _ _ _) as [[t|e] w3]; [|done].
  by destruct (topic_Subscribe _ _) as [[?|] ?].
Qed.

Lemma subscribe_tick_sends own tick (f f' p : AddrInfo) : subscribe_tick own tick f = (f', Some p) -> ID p ≠ "".
Proof.
  unfold subscribe_tick. destruct tick as [[from data]|e]; [|done]. case_decide; [done|].
  destruct (json_AddrInfo data f) as [g [e|]]; [done|]. case_decide; [done|]. by intros [= _ <-].
Qed.

Lemma set_world_ok own (w : pools (Net := Net) (Sel := Sel)) d :
  discovery_ok MaxCacheNodeNum own d -> discovery_ok MaxCacheNodeNum own (set_world w d).
Proof. by destruct 1. Qed.

Lemma client_step_ok own h bootNode c c' : flush_adds_one ->
  client_discovery_step own h bootNode c c' -> client_ok own h c -> client_ok own h c'.
Proof.
  intros Hone Hs [Hb Hok Hl Hnm Hsub].
  destruct Hs as [c d Ha Hd|c net E Eo|c err net E Eo|c p E Eo|c fpeer tick E|c fpeer E Hn|c fpeer E Hca|c p ch Ha Hco E];
    unfold subscription_ok in Hsub; (split; [..|unfold subscription_ok]); cbn; try done;
    try (by apply set_world_ok).
  - by eapply discovery_step_bounded.
  - by eapply discovery_ok_step.
  - destruct (c_sub c) as [| | |[e|]|]; try done. by eapply discovery_step_cancelled.
  - destruct (open_subscription_fails _ _ _ _ _ Eo) as (e0 & He0 & ->).
    destruct (Wrap_not_nil e0 "subscribe peer node error") as [m Hm]. rewrite Hm. eauto.
  - destruct (subscribe_tick _ _ _) as [f [p|]] eqn:Et; [|done]. by eapply subscribe_tick_sends.
  - autorewrite with golist. lia.
  - rewrite E in Hsub. apply Forall_app. split; [done|]. by constructor.
  - unfold cachers_bounded. by rewrite storage_consume_cachers.
  - rewrite E, len_cons in Hl. lia.
  - rewrite E in Hnm. by apply Forall_cons in Hnm as [_ Hnm].
Qed.

(** C31: Whatever the DHT, mDNS and the subscription deliver, and in whatever order the
    goroutines run, the client never knows more than [MaxCacheNodeNum] cachers, its two
    channels stay within their capacities, and no peer without an id is sent for a storage
    node. Its [RunDiscovery] returns nil only after the context was cancelled, and an error
    only when gossip cannot be set up: then that one, wrapped twice. *)
Theorem client_discovery_bounded own h bootNode w c :
  flush_adds_one -> cachers_bounded w -> client_discovery_run own h bootNode w c ->
  cachers_bounded (pools_of c) /\
  len (d_ch (c_cachers c)) <= MaxCacheNodeNum /\ len (c_peerCh c) <= MaxStorageNodeNum /\
  Forall (fun p => ID p ≠ "") (c_peerCh c) /\
  (forall err, client_RunDiscovery_result c = Some err ->
     (err = None /\ d_cancelled (c_cachers c) = true) \/
     exists net e, fst (NewGossipSub h net) = inr e /\
       err = Wrap (Wrap (Some e) "subscribe peer node error") "run discovery service error").
Proof.
  intros Hone Hw Hr.
  assert (client_ok own h c) as [Hb [Hcap _ _ _] Hl Hnm Hsub].
  { refine (rtc_ind_r (client_ok own h) (client_discovery_start w) _ _ c Hr); [by split|].
    intros x y _ Hxy Hx. by eapply client_step_ok. }
  split_and!; [done..|]. intros err. unfold client_RunDiscovery_result, subscription_ok in *.
  destruct (c_sub c) as [| | |[e|]|]; try done; intros [= <-].
  - destruct Hsub as (net & e0 & He & ->). right. by exists net, e0.
  - left. by rewrite Wrap_nil.
Qed.
End client.

(** ** Samples: a selector that lists the peers that answer *)

#[local] Existing Instance sample_float_text.
#[local] Existing Instance sample_messages.

Instance sample_pool : PeerPool (list string) := {
  FlushPeerNodes Net ping p sel net :=
    match ping with
    | None => ((sel ++ [ID p])%list, net)
    | Some f => let '(ok, net) := f net in (if ok : bool then (sel ++ [ID p])%list else sel, net)
    end;
}.

Instance sample_dialer : Dialer bytes := { host_Connect_info _ net := (None, net) }.

Definition sample_peers : list AddrInfo := [mkAddrInfo "own" []; mkAddrInfo "p1" []; mkAddrInfo "p2" []].

(** A search found the node itself and two peers; one was taken in and one is on its way. *)
Definition sample_discovery : discovery (bytes * list string) :=
  mkDiscovery (print sample_reply, ["p1"]) [] (Sending [mkAddrInfo "p2" []]) true false
    [inl sample_peers] [] [mkAddrInfo "p1" []].

Definition sample_before : discovery (bytes * list string) :=
  mkDiscovery (print sample_reply, []) [mkAddrInfo "p1" []] (Sending [mkAddrInfo "p2" []]) true false
    [inl sample_peers] [] [].

Lemma sample_taken :
  take_peer (@node_consume _ _ echo_net sample_pool pkg_errors sample_float_text sample_messages)
    (mkAddrInfo "p1" []) [] sample_before = sample_discovery.
Proof. vm_compute. reflexivity. Qed.

Lemma sample_run :
  @node_discovery_run _ _ echo_net sample_pool pkg_errors sample_float_text sample_messages
    "own" (print sample_reply, []) sample_discovery.
Proof.
  unfold node_discovery_run, discovery_run. transitivity sample_before.
  - eapply rtc_l; [by apply (search_found _ _ _ _ _ sample_peers)|].
    eapply rtc_l; [by eapply skip_own|]. eapply rtc_l; [by eapply send_peer|]. apply rtc_refl.
  - apply rtc_once. rewrite <- sample_taken. by apply consume_peer.
Qed.

Lemma node_discovery_refines_witness :
  len (d_ch sample_discovery) <= 64 /\
  pipeline "own" sample_discovery
    ≡ₚ fst (StartDiscoveryFromDHT "own" [inl sample_peers]) ++ d_mdns sample_discovery /\
  (d_mdns sample_discovery = [] ->
     pipeline "own" sample_discovery = [mkAddrInfo "p1" []; mkAddrInfo "p2" []]
     /\ Forall (fun p => ID p ≠ "own") (d_taken sample_discovery)).
Proof.
  apply (@node_discovery_refines _ _ echo_net sample_pool pkg_errors sample_float_text sample_messages
    "own" (print sample_reply, []) sample_discovery), sample_run.
Defined.

(** The discovery is cancelled, the consumer leaves, and then a search finds these peers. *)
Definition left_with (peers : list AddrInfo) : discovery (bytes * list string) :=
  log_search (inl peers) (set_dht (Sending peers)
    (stop_consuming (cancel (discovery_start (print sample_reply, [])))) ).

Lemma left_with_run peers :
  @node_discovery_run _ _ echo_net sample_pool pkg_errors sample_float_text sample_messages
    "own" (print sample_reply, []) (left_with peers).
Proof.
  eapply rtc_l; [apply context_cancelled|]. eapply rtc_l; [by apply consumer_ended|].
  apply rtc_once. by apply search_found.
Qed.

Lemma node_discovery_never_returns_witness :
  ~ (exists s', rtc (@node_discovery_step _ _ echo_net sample_pool pkg_errors sample_float_text sample_messages "own")
       (left_with (replicate 65 (mkAddrInfo "p" []))) s' /\ node_RunDiscovery_result s' ≠ None) /\
  exists s', rtc (@node_discovery_step _ _ echo_net sample_pool pkg_errors sample_float_text sample_messages "own")
       (left_with (replicate 64 (mkAddrInfo "p" []))) s' /\ node_RunDiscovery_result s' ≠ None.
Proof.
  destruct (@node_discovery_never_returns _ _ echo_net sample_pool pkg_errors sample_float_text sample_messages
    "own" (print sample_reply, []) _ (left_with_run (replicate 65 (mkAddrInfo "p" [])))) as (_ & _ & H65).
  destruct (@node_discovery_never_returns _ _ echo_net sample_pool pkg_errors sample_float_text sample_messages
    "own" (print sample_reply, []) _ (left_with_run (replicate 64 (mkAddrInfo "p" [])))) as (_ & _ & H64).
  split.
  - intros Hx%(H65 _ eq_refl eq_refl). by vm_compute in Hx.
  - apply (H64 _ eq_refl eq_refl). by vm_compute.
Defined.

Lemma sample_flush : @flush_adds_one (list string) sample_selector sample_pool.
Proof.
  intros N f p sel net. cbn. destruct f as [f|]; cbn; [|autorewrite with golist; lia].
  destruct (f net) as [[] net']; cbn; autorewrite with golist; lia.
Qed.

(** One host and a topic that can be joined. *)
#[local] Instance quiet_libp2p : Libp2p bytes := {
  Host := unit;
  host_ID _ := "storage";
  Dht := unit;
  Multiaddr := unit;
  NewMultiaddr _ := inl tt;
  AddrInfoFromP2pAddr _ := inr "no peer";
  LookupTXT _ _ := inr "no such name";
  libp2p_New _ net := (inl tt, net);
  host_Connect _ _ net := (None, net);
  dht_New _ _ _ _ net := (inl tt, net);
  dht_Bootstrap _ net := (None, net);
}.

#[local] Instance quiet_gossip : GossipSub bytes := {
  Gossip := unit;
  Topic := unit;
  NetworkRoom := "room";
  NewGossipSub _ net := (inl tt, net);
  mdns_Start _ _ net := (None, net);
  gossip_Join _ _ net := (inl tt, net);
  topic_Subscribe _ net := (None, net);
  json_AddrInfo data _ := (mkAddrInfo (of_bytes data) [], None);
}.

Definition sample_pools : pools (Net := bytes) (Sel := list string) := mkPools (print sample_reply) ["c"] [].
(** The subscription opens and delivers one peer, the context ends, and so does it. *)
Definition delivered : client_discovery (Net := bytes) (Sel := list string) :=
  mkClientDiscovery (cancel (discovery_start sample_pools)) [mkAddrInfo "s" []] (Listening (mkAddrInfo "s" [])).
Definition ended_discovery : client_discovery (Net := bytes) (Sel := list string) := set_sub (SubReturned None) delivered.

Lemma ended_discovery_run :
  client_discovery_run (H := echo_net) (H0 := sample_selector) (H1 := sample_pool) (H2 := sample_dialer)
    "own" (tt : Host) "boot" sample_pools ended_discovery.
Proof.
  eapply rtc_l; [by apply (subscription_opens _ _ _ _ (print sample_reply))|].
  eapply rtc_l; [by apply (subscription_ticks _ _ _ _ (mkAddrInfo "" []) (inl ("other", to_bytes "s")))|].
  eapply rtc_l; [by apply (storage_found _ _ _ _ (mkAddrInfo "s" []))|].
  eapply rtc_l; [by apply cacher_side, context_cancelled|].
  apply rtc_once. exact (subscription_ended "own" (tt : Host) "boot" delivered (mkAddrInfo "s" []) eq_refl eq_refl).
Qed.

Lemma client_discovery_bounded_witness :
  client_RunDiscovery_result ended_discovery = Some None /\
  cachers_bounded (pools_of ended_discovery) /\ len (c_peerCh ended_discovery) <= MaxStorageNodeNum.
Proof.
  split; [reflexivity|].
  assert (Hw : cachers_bounded sample_pools) by (by vm_compute).
  destruct (client_discovery_bounded _ _ _ _ _ sample_flush Hw ended_discovery_run) as (Hb & _ & Hl & _).
  exact (conj Hb Hl).
Defined.
