(* ===== verification/EventStream.v ===== *)
(** * Iterating over and watching the events of a contract

    Every event of the two generated bindings (cd2n-lib/protocol/contract/cache_proto.go and
    cache_token.go) has an iterator over past logs and a watcher of new ones, the same code
    for each but for the event's type. This is that code, over the function that unpacks
    the event; [Bindings] and [Token] instantiate it. *)

From S2P Require Import Prelude.

(** ** The iterator *)

(** [Event] is the last event unpacked. [logs] are those the subscription has sent or will
    send, [sub_err] what its error channel yields when it has sent them all. *)
Record event_iterator (Log E : Type) := mkIterator {
  Event : option E;
  logs : list Log;
  sub_err : error;
  done : bool;
  fail : error;
  subscribed : bool;
}.
Arguments mkIterator {Log E} _ _ _ _ _ _.
Arguments Event {Log E} _.
Arguments logs {Log E} _.
Arguments sub_err {Log E} _.
Arguments done {Log E} _.
Arguments fail {Log E} _.
Arguments subscribed {Log E} _.

Section iterator.
Context {Log E : Type} (UnpackLog : Log -> E + string).
Abbreviation iterator := (event_iterator Log E).

(** A new iterator over what [FilterLogs] gives. *)
Definition new_iterator (ls : list Log) (err : error) : iterator := mkIterator None ls err false None true.

(** A log is taken off the channel and unpacked into a new event; what a failed unpacking
    leaves in it is not kept. *)
Definition take_log (l : Log) (rest : list Log) (it : iterator) : bool * iterator :=
  match UnpackLog l with
  | inr err => (false, mkIterator None rest (sub_err it) (done it) (Some err) (subscribed it))
  | inl ev => (true, mkIterator (Some ev) rest (sub_err it) (done it) (fail it) (subscribed it))
  end.

(** [Next] once the subscription is known to be over. *)
Definition next_done (it : iterator) : bool * iterator :=
  match fail it with
  | Some _ => (false, it)
  | None => match logs it with l :: rest => take_log l rest it | [] => (false, it) end
  end.

(** The subscription's end is noticed. *)
Definition end_subscription (it : iterator) : iterator :=
  mkIterator (Event it) (logs it) (sub_err it) true (sub_err it) (subscribed it).

(** [Next]; [ended] says that its [select] picks the error channel although there are logs
    left in the other one. *)
Definition Next (ended : bool) (it : iterator) : bool * iterator :=
  match fail it with
  | Some _ => (false, it)
  | None =>
      if done it then next_done it
      else
        match logs it with
        | l :: rest => if ended then next_done (end_subscription it) else take_log l rest it
        | [] => next_done (end_subscription it)
        end
  end.

Definition Error (it : iterator) : error := fail it.
Definition Close (it : iterator) : error * iterator :=
  (None, mkIterator (Event it) (logs it) (sub_err it) (done it) (fail it) false).

(** [for it.Next() { ... it.Event ... }], with what [select] picks in each call; the events
    seen, whether [Next] returned false, and the iterator. *)
Fixpoint iterate (picks : list bool) (it : iterator) : list (option E) * bool * iterator :=
  match picks with
  | [] => ([], false, it)
  | ended :: picks =>
      match Next ended it with
      | (false, it) => ([], true, it)
      | (true, it) => let '(evs, over, it') := iterate picks it in (Event it :: evs, over, it')
      end
  end.

(** The reference: the logs unpacked in order up to the first that does not unpack. *)
Fixpoint unpack_all (ls : list Log) : list E * error :=
  match ls with
  | [] => ([], None)
  | l :: ls =>
      match UnpackLog l with
      | inr err => ([], Some err)
      | inl ev => let '(evs, err) := unpack_all ls in (ev :: evs, err)
      end
  end.
End iterator.

(** ** The watcher *)

(** What the goroutine's two [select]s pick: a log, the delivery of the event to the sink,
    the subscription's error, or the order to quit. *)
Inductive pick (Log : Type) :=
  | PickLog (l : Log)
  | PickSink
  | PickErr (err : error)
  | PickQuit.
Arguments PickLog {Log} _.
Arguments PickSink {Log}.
Arguments PickErr {Log} _.
Arguments PickQuit {Log}.

Section watcher.
Context {Log E : Type} (UnpackLog : Log -> E + string).

(** The events sent and the result, if the goroutine has returned; [pending] is the event
    at the inner [select]. A pick its [select] does not offer is not made. *)
Fixpoint watch_events (picks : list (pick Log)) (pending : option E) : list E * option error :=
  match picks with
  | [] => ([], None)
  | PickQuit :: _ => ([], Some None)
  | PickErr err :: _ => ([], Some err)
  | PickLog l :: picks =>
      match pending with
      | Some _ => watch_events picks pending
      | None =>
          match UnpackLog l with
          | inr err => ([], Some (Some err))
          | inl ev => watch_events picks (Some ev)
          end
      end
  | PickSink :: picks =>
      match pending with
      | None => watch_events picks None
      | Some ev => let '(evs, res) := watch_events picks None in (ev :: evs, res)
      end
  end.

(** The logs the goroutine takes: those picked while no event is pending, until it returns. *)
Fixpoint taken_logs (picks : list (pick Log)) (pending : bool) : list Log :=
  match picks with
  | [] | PickQuit :: _ | PickErr _ :: _ => []
  | PickLog l :: picks => if pending then taken_logs picks true else l :: taken_logs picks true
  | PickSink :: picks => taken_logs picks false
  end.
End watcher.

(** ** Properties *)

Section facts.
Context {Log E : Type} (UnpackLog : Log -> E + string).

Lemma iterate_failed picks (it : event_iterator Log E) :
  is_Some (fail it) -> picks ≠ [] -> iterate UnpackLog picks it = ([], true, it).
Proof. intros [e He]. destruct picks; [done|]. intros _. cbn. unfold Next. by rewrite He. Qed.

(** Taking the next log is the same in all states without an error. *)
Lemma Next_take ended (it : event_iterator Log E) l rest :
  fail it = None -> sub_err it = None -> logs it = l :: rest ->
  exists it', Next UnpackLog ended it = take_log UnpackLog l rest it' /\ fail it' = None /\ sub_err it' = None.
Proof.
  intros Hf Hs Hl. unfold Next, next_done. rewrite Hf, Hl. destruct (done it); [by exists it|].
  destruct ended; [|by exists it].
  exists (end_subscription it). cbn. rewrite Hs, Hl. by split_and!.
Qed.

Lemma iterate_all picks (it : event_iterator Log E) :
  fail it = None -> sub_err it = None -> (length (logs it) < length picks)%nat ->
  exists it', iterate UnpackLog picks it = (Some <$> fst (unpack_all UnpackLog (logs it)), true, it') /\
    Error it' = snd (unpack_all UnpackLog (logs it)).
Proof.
  revert it. induction picks as [|ended picks IH]; intros it Hf Hs Hl; cbn in Hl; [lia|].
  destruct (logs it) as [|l rest] eqn:El; cbn in Hl.
  - assert (exists it', Next UnpackLog ended it = (false, it') /\ fail it' = None) as (it' & E' & Hf').
    { unfold Next, next_done. rewrite Hf, El. destruct (done it); [by exists it|].
      exists (end_subscription it). cbn. by rewrite Hs, El. }
    exists it'. cbn. by rewrite E'.
  - destruct (Next_take ended it l rest Hf Hs El) as (it1 & E1 & Hf1 & Hs1).
    cbn [iterate unpack_all]. rewrite E1. unfold take_log. destruct (UnpackLog l) as [ev|err].
    + destruct (IH (mkIterator (Some ev) rest (sub_err it1) (done it1) (fail it1) (subscribed it1)))
        as (it' & E' & He); [done|done|cbn; lia|]. cbn [logs] in *.
      rewrite E'. exists it'. destruct (unpack_all UnpackLog rest). by split.
    + eexists. split; [done|]. done.
Qed.
End facts.

(** C15: Iterating over the events of a contract, when the subscription ends without an
    error, gives exactly the logs unpacked one after the other up to the first that does
    not unpack, whose error [Error] returns, however the two channels race; and it ends
    after at most one call of [Next] more than there are logs. *)
Theorem iterate_equals_unpack_all {Log E} (UnpackLog : Log -> E + string) ls picks :
  (length ls < length picks)%nat ->
  exists it, iterate UnpackLog picks (new_iterator ls None) = (Some <$> fst (unpack_all UnpackLog ls), true, it) /\
    Error it = snd (unpack_all UnpackLog ls).
Proof. intros Hl. by apply (iterate_all UnpackLog picks (new_iterator ls None)). Qed.

Lemma iterate_equals_unpack_all_witness :
  exists it, iterate (fun n : Z => if n =? 3 then inr "bad log" else inl (n + 10)) [false; true; true; false]
      (new_iterator [1; 2; 3] None) = ([Some 11; Some 12], true, it) /\ Error it = Some "bad log".
Proof.
  apply (iterate_equals_unpack_all (fun n : Z => if n =? 3 then inr "bad log" else inl (n + 10))
           [1; 2; 3] [false; true; true; false]).
  cbn. lia.
Defined.

(** A subscription that ends with an error loses the logs still in the channel. *)
Lemma Next_sub_error {Log E} (UnpackLog : Log -> E + string) l ls err :
  Next UnpackLog true (new_iterator (l :: ls) (Some err))
  = (false, mkIterator None (l :: ls) (Some err) true (Some err) true).
Proof. reflexivity. Qed.

(** What a watcher sends is, in order and without gaps, what the logs it takes unpack to,
    less the event it may still hold. *)
Lemma watch_events_prefix {Log E} (UnpackLog : Log -> E + string) picks :
  fst (watch_events UnpackLog picks None) `prefix_of` fst (unpack_all UnpackLog (taken_logs picks false)) /\
  forall ev, fst (watch_events UnpackLog picks (Some ev))
    `prefix_of` ev :: fst (unpack_all UnpackLog (taken_logs picks true)).
Proof.
  induction picks as [|[l| |err|] picks [IH1 IH2]];
    try (split; [|intros ev]; apply prefix_nil); cbn [watch_events taken_logs].
  - split; [|exact IH2]. cbn [unpack_all]. destruct (UnpackLog l) as [ev|err]; [|apply prefix_nil].
    destruct (unpack_all UnpackLog (taken_logs picks true)). apply IH2.
  - split; [exact IH1|]. intros ev. destruct (watch_events UnpackLog picks None).
    by apply prefix_cons.
Qed.
