(* ===== verification/Bindings.v ===== *)
(** * The rest of the cache protocol bindings: cd2n-lib/protocol/contract/cache_proto.go

    The constant methods and the event streams of the generated bindings that the protocol
    client does not use itself ([CacheProto] has those it uses). The raw log that the code
    keeps in every event is left out. *)

From S2P Require Import Prelude GoStrings External EvmClient CacheProto EventStream.

(** The other constant methods of the contract. *)
Inductive view_call `{EthCrypto} : Type -> Type :=
  | ViewCacheReward (arg0 : address) : view_call Z
  | ViewOrderNum (arg0 : address) : view_call Z
  | ViewRewardRecord (arg0 : address) : view_call Z
  | ViewTermTotalOrder (arg0 : Z) : view_call Z
  | ViewTokenBonded (arg0 : Z) : view_call bool
  | ViewGetMessageHash (account : address) (tokenId : Z) : view_call bytes
  | ViewIsTokenOwner (acc : address) (tokenId : Z) : view_call bool
  | ViewOpenRecover (msgHash signature : bytes) : view_call address
  | ViewRecoverSigner (msgHash signature : bytes) : view_call address
  | ViewToEthSignedMessageHash (hash : bytes) : view_call bytes
  | ViewVerify (msgHash signature : bytes) (signer : address) : view_call bool.

(** An indexed argument an event is looked for by. *)
Inductive topic `{EthCrypto} :=
  | TopicAddress (a : address)
  | TopicInt (z : Z)
  | TopicHash (h : bytes).

(** The rest of [bind.BoundContract]: constant calls; past logs with how their subscription
    ends; and new logs as the picks of the goroutine that watches them. *)
Class BoundLogs (W : Type) `{BoundContract W} := {
  bound_View : forall {A}, bound -> W -> view_call A -> A + string;
  FilterLogs : bound -> W -> string -> list (list topic) -> (list Log * error) + string;
  WatchLogs : bound -> W -> string -> list (list topic) -> list (pick Log) + string;
}.
Arguments BoundLogs W {_ _ _} : assert.

Section bindings.
Context {W : Type} `{BoundLogs W}.

Definition CacheReward (c : bound) (w : W) (arg0 : address) : Z + string := bound_View c w (ViewCacheReward arg0).
Definition OrderNum (c : bound) (w : W) (arg0 : address) : Z + string := bound_View c w (ViewOrderNum arg0).
Definition RewardRecord (c : bound) (w : W) (arg0 : address) : Z + string := bound_View c w (ViewRewardRecord arg0).
Definition TermTotalOrder (c : bound) (w : W) (arg0 : Z) : Z + string := bound_View c w (ViewTermTotalOrder arg0).
Definition TokenBonded (c : bound) (w : W) (arg0 : Z) : bool + string := bound_View c w (ViewTokenBonded arg0).
Definition GetMessageHash (c : bound) (w : W) (account : address) (tokenId : Z) : bytes + string := bound_View c w (ViewGetMessageHash account tokenId).
Definition IsTokenOwner (c : bound) (w : W) (acc : address) (tokenId : Z) : bool + string := bound_View c w (ViewIsTokenOwner acc tokenId).
Definition OpenRecover (c : bound) (w : W) (msgHash signature : bytes) : address + string := bound_View c w (ViewOpenRecover msgHash signature).
Definition RecoverSigner (c : bound) (w : W) (msgHash signature : bytes) : address + string := bound_View c w (ViewRecoverSigner msgHash signature).
Definition ToEthSignedMessageHash (c : bound) (w : W) (hash : bytes) : bytes + string := bound_View c w (ViewToEthSignedMessageHash hash).
Definition Verify (c : bound) (w : W) (msgHash signature : bytes) (signer : address) : bool + string := bound_View c w (ViewVerify msgHash signature signer).

Definition ParseExit (c : bound) (log : Log) : address + string :=
  match bound_UnpackLog c log with
  | inl (EventExit a) => inl a
  | inl _ => inr bad_event
  | inr e => inr e
  end.

(** ** The event streams

    Each event has the iterator and the watcher of [EventStream]. *)

Definition filter_events {E} (c : bound) (w : W) (event : string) (rules : list (list topic))
    : event_iterator Log E + string :=
  match FilterLogs c w event rules with
  | inr err => inr err
  | inl (ls, err) => inl (new_iterator ls err)
  end.

Definition watch_contract {E} (c : bound) (w : W) (event : string) (rules : list (list topic))
    (unpack : Log -> E + string) : (list E * option error) + string :=
  match WatchLogs c w event rules with
  | inr err => inr err
  | inl picks => inl (watch_events unpack picks None)
  end.

(** *** Claim *)

Definition ClaimIterator := event_iterator Log (address * Z).
Definition ClaimIterator_Next (c : bound) : bool -> ClaimIterator -> bool * ClaimIterator :=
  Next (ParseClaim c).
Definition ClaimIterator_Error : ClaimIterator -> error := Error.
Definition ClaimIterator_Close : ClaimIterator -> error * ClaimIterator := Close.
Definition FilterClaim (c : bound) (w : W) (nodeAcc : list address) : ClaimIterator + string :=
  filter_events c w "Claim" [map TopicAddress nodeAcc].
Definition WatchClaim (c : bound) (w : W) (nodeAcc : list address)
    : (list (address * Z) * option error) + string :=
  watch_contract c w "Claim" [map TopicAddress nodeAcc] (ParseClaim c).

(** *** Exit *)

Definition ExitIterator := event_iterator Log (address).
Definition ExitIterator_Next (c : bound) : bool -> ExitIterator -> bool * ExitIterator :=
  Next (ParseExit c).
Definition ExitIterator_Error : ExitIterator -> error := Error.
Definition ExitIterator_Close : ExitIterator -> error * ExitIterator := Close.
Definition FilterExit (c : bound) (w : W) (nodeAcc : list address) : ExitIterator + string :=
  filter_events c w "Exit" [map TopicAddress nodeAcc].
Definition WatchExit (c : bound) (w : W) (nodeAcc : list address)
    : (list (address) * option error) + string :=
  watch_contract c w "Exit" [map TopicAddress nodeAcc] (ParseExit c).

(** *** OrderPayment *)

Definition OrderPaymentIterator := event_iterator Log (bytes * address).
Definition OrderPaymentIterator_Next (c : bound) : bool -> OrderPaymentIterator -> bool * OrderPaymentIterator :=
  Next (ParseOrderPayment c).
Definition OrderPaymentIterator_Error : OrderPaymentIterator -> error := Error.
Definition OrderPaymentIterator_Close : OrderPaymentIterator -> error * OrderPaymentIterator := Close.
Definition FilterOrderPayment (c : bound) (w : W) (orderId : list bytes) (nodeAcc : list address) : OrderPaymentIterator + string :=
  filter_events c w "OrderPayment" [map TopicHash orderId; map TopicAddress nodeAcc].
Definition WatchOrderPayment (c : bound) (w : W) (orderId : list bytes) (nodeAcc : list address)
    : (list (bytes * address) * option error) + string :=
  watch_contract c w "OrderPayment" [map TopicHash orderId; map TopicAddress nodeAcc] (ParseOrderPayment c).

(** *** Staking *)

Definition StakingIterator := event_iterator Log (address * Z).
Definition StakingIterator_Next (c : bound) : bool -> StakingIterator -> bool * StakingIterator :=
  Next (ParseStaking c).
Definition StakingIterator_Error : StakingIterator -> error := Error.
Definition StakingIterator_Close : StakingIterator -> error * StakingIterator := Close.
Definition FilterStaking (c : bound) (w : W) (nodeAcc : list address) (tokenId : list Z) : StakingIterator + string :=
  filter_events c w "Staking" [map TopicAddress nodeAcc; map TopicInt tokenId].
Definition WatchStaking (c : bound) (w : W) (nodeAcc : list address) (tokenId : list Z)
    : (list (address * Z) * option error) + string :=
  watch_contract c w "Staking" [map TopicAddress nodeAcc; map TopicInt tokenId] (ParseStaking c).
End bindings.
