(* ===== verification/Token.v ===== *)
(** * The cache token bindings: cd2n-lib/protocol/contract/cache_token.go

    The generated bindings of the ERC-721 contract of the tokens that a node's registration
    is bound to. go-ethereum's [bind.BoundContract] is a parameter, as in [CacheProto]; the
    raw log that the code keeps in every event is left out. *)

From S2P Require Import Prelude GoStrings External EvmClient CacheProto EventStream Bindings.

(** The methods with the types of the contract's ABI. *)
Inductive token_view `{EthCrypto} : Type -> Type :=
  | ViewBalanceOf (owner : address) : token_view Z
  | ViewGetApproved (tokenId : Z) : token_view address
  | ViewIsApprovedForAll (owner : address) (operator : address) : token_view bool
  | ViewName : token_view string
  | ViewOwnerOf (tokenId : Z) : token_view address
  | ViewReleaseTime (arg0 : Z) : token_view Z
  | ViewSupportsInterface (interfaceId : bytes) : token_view bool
  | ViewSymbol : token_view string
  | ViewTokenURI (tokenId : Z) : token_view string.

Inductive token_tx `{EthCrypto} :=
  | TxApprove (to : address) (tokenId : Z)
  | TxMintToken (to : address)
  | TxSafeTransferFrom (from : address) (to : address) (tokenId : Z)
  | TxSafeTransferFrom0 (from : address) (to : address) (tokenId : Z) (data : bytes)
  | TxSetApprovalForAll (operator : address) (approved : bool)
  | TxTransferFrom (from : address) (to : address) (tokenId : Z)
  | TxWithdraw.

Inductive token_event `{EthCrypto} :=
  | EventApproval (owner approved : address) (tokenId : Z)
  | EventApprovalForAll (owner operator : address) (approved : bool)
  | EventMintToken (owner : address) (tokenId : Z)
  | EventTransfer (from to : address) (tokenId : Z).

Class TokenBinding (W : Type) `{EthClient W} := {
  token_bound : Type;
  BindToken : address -> option ethclient -> token_bound + string;
  token_Call : forall {A}, token_bound -> W -> token_view A -> A + string;
  token_txn : Type;
  token_txn_Hash : token_txn -> string;
  token_Transact : token_bound -> W -> TransactOpts W -> token_tx -> (token_txn + string) * W;
  token_UnpackLog : token_bound -> Log -> token_event + string;
  token_FilterLogs : token_bound -> W -> string -> list (list topic) -> (list Log * error) + string;
  token_WatchLogs : token_bound -> W -> string -> list (list topic) -> list (pick Log) + string;
}.
Arguments TokenBinding W {_ _} : assert.

Section token.
Context {W : Type} `{TokenBinding W}.

Definition NewToken (addr : address) (backend : option ethclient) : token_bound + string :=
  BindToken addr backend.

Definition BalanceOf (c : token_bound) (w : W) (owner : address) : Z + string :=
  token_Call c w (ViewBalanceOf owner).
Definition GetApproved (c : token_bound) (w : W) (tokenId : Z) : address + string :=
  token_Call c w (ViewGetApproved tokenId).
Definition IsApprovedForAll (c : token_bound) (w : W) (owner : address) (operator : address) : bool + string :=
  token_Call c w (ViewIsApprovedForAll owner operator).
Definition Name (c : token_bound) (w : W) : string + string :=
  token_Call c w ViewName.
Definition OwnerOf (c : token_bound) (w : W) (tokenId : Z) : address + string :=
  token_Call c w (ViewOwnerOf tokenId).
Definition ReleaseTime (c : token_bound) (w : W) (arg0 : Z) : Z + string :=
  token_Call c w (ViewReleaseTime arg0).
Definition SupportsInterface (c : token_bound) (w : W) (interfaceId : bytes) : bool + string :=
  token_Call c w (ViewSupportsInterface interfaceId).
Definition Symbol (c : token_bound) (w : W) : string + string :=
  token_Call c w ViewSymbol.
Definition TokenURI (c : token_bound) (w : W) (tokenId : Z) : string + string :=
  token_Call c w (ViewTokenURI tokenId).

Definition Approve (c : token_bound) (w : W) (opts : TransactOpts W) (to : address) (tokenId : Z) :=
  token_Transact c w opts (TxApprove to tokenId).
Definition MintToken_tx (c : token_bound) (w : W) (opts : TransactOpts W) (to : address) :=
  token_Transact c w opts (TxMintToken to).
Definition SafeTransferFrom (c : token_bound) (w : W) (opts : TransactOpts W) (from : address) (to : address) (tokenId : Z) :=
  token_Transact c w opts (TxSafeTransferFrom from to tokenId).
Definition SafeTransferFrom0 (c : token_bound) (w : W) (opts : TransactOpts W) (from : address) (to : address) (tokenId : Z) (data : bytes) :=
  token_Transact c w opts (TxSafeTransferFrom0 from to tokenId data).
Definition SetApprovalForAll (c : token_bound) (w : W) (opts : TransactOpts W) (operator : address) (approved : bool) :=
  token_Transact c w opts (TxSetApprovalForAll operator approved).
Definition TransferFrom (c : token_bound) (w : W) (opts : TransactOpts W) (from : address) (to : address) (tokenId : Z) :=
  token_Transact c w opts (TxTransferFrom from to tokenId).
Definition Withdraw (c : token_bound) (w : W) (opts : TransactOpts W) :=
  token_Transact c w opts TxWithdraw.

Definition ParseApproval (c : token_bound) (log : Log) : (address * address * Z) + string :=
  match token_UnpackLog c log with
  | inl (EventApproval a b z) => inl (a, b, z)
  | inl _ => inr bad_event
  | inr e => inr e
  end.

Definition ParseApprovalForAll (c : token_bound) (log : Log) : (address * address * bool) + string :=
  match token_UnpackLog c log with
  | inl (EventApprovalForAll a b f) => inl (a, b, f)
  | inl _ => inr bad_event
  | inr e => inr e
  end.

Definition ParseMintToken (c : token_bound) (log : Log) : (address * Z) + string :=
  match token_UnpackLog c log with
  | inl (EventMintToken a z) => inl (a, z)
  | inl _ => inr bad_event
  | inr e => inr e
  end.

Definition ParseTransfer (c : token_bound) (log : Log) : (address * address * Z) + string :=
  match token_UnpackLog c log with
  | inl (EventTransfer a b z) => inl (a, b, z)
  | inl _ => inr bad_event
  | inr e => inr e
  end.

(** ** The event streams *)

Definition filter_events {E} (c : token_bound) (w : W) (event : string) (rules : list (list topic))
    : event_iterator Log E + string :=
  match token_FilterLogs c w event rules with
  | inr err => inr err
  | inl (ls, err) => inl (new_iterator ls err)
  end.

Definition watch_contract {E} (c : token_bound) (w : W) (event : string) (rules : list (list topic))
    (unpack : Log -> E + string) : (list E * option error) + string :=
  match token_WatchLogs c w event rules with
  | inr err => inr err
  | inl picks => inl (watch_events unpack picks None)
  end.

(** *** Approval *)

Definition ApprovalIterator := event_iterator Log (address * address * Z).
Definition ApprovalIterator_Next (c : token_bound) : bool -> ApprovalIterator -> bool * ApprovalIterator :=
  Next (ParseApproval c).
Definition ApprovalIterator_Error : ApprovalIterator -> error := Error.
Definition ApprovalIterator_Close : ApprovalIterator -> error * ApprovalIterator := Close.
Definition FilterApproval (c : token_bound) (w : W) (owner : list address) (approved : list address) (tokenId : list Z) : ApprovalIterator + string :=
  filter_events c w "Approval" [map TopicAddress owner; map TopicAddress approved; map TopicInt tokenId].
Definition WatchApproval (c : token_bound) (w : W) (owner : list address) (approved : list address) (tokenId : list Z)
    : (list (address * address * Z) * option error) + string :=
  watch_contract c w "Approval" [map TopicAddress owner; map TopicAddress approved; map TopicInt tokenId] (ParseApproval c).

(** *** ApprovalForAll *)

Definition ApprovalForAllIterator := event_iterator Log (address * address * bool).
Definition ApprovalForAllIterator_Next (c : token_bound) : bool -> ApprovalForAllIterator -> bool * ApprovalForAllIterator :=
  Next (ParseApprovalForAll c).
Definition ApprovalForAllIterator_Error : ApprovalForAllIterator -> error := Error.
Definition ApprovalForAllIterator_Close : ApprovalForAllIterator -> error * ApprovalForAllIterator := Close.
Definition FilterApprovalForAll (c : token_bound) (w : W) (owner : list address) (operator : list address) : ApprovalForAllIterator + string :=
  filter_events c w "ApprovalForAll" [map TopicAddress owner; map TopicAddress operator].
Definition WatchApprovalForAll (c : token_bound) (w : W) (owner : list address) (operator : list address)
    : (list (address * address * bool) * option error) + string :=
  watch_contract c w "ApprovalForAll" [map TopicAddress owner; map TopicAddress operator] (ParseApprovalForAll c).

(** *** MintToken *)

Definition MintTokenIterator := event_iterator Log (address * Z).
Definition MintTokenIterator_Next (c : token_bound) : bool -> MintTokenIterator -> bool * MintTokenIterator :=
  Next (ParseMintToken c).
Definition MintTokenIterator_Error : MintTokenIterator -> error := Error.
Definition MintTokenIterator_Close : MintTokenIterator -> error * MintTokenIterator := Close.
Definition FilterMintToken (c : token_bound) (w : W) (owner : list address) (tokenId : list Z) : MintTokenIterator + string :=
  filter_events c w "MintToken" [map TopicAddress owner; map TopicInt tokenId].
Definition WatchMintToken (c : token_bound) (w : W) (owner : list address) (tokenId : list Z)
    : (list (address * Z) * option error) + string :=
  watch_contract c w "MintToken" [map TopicAddress owner; map TopicInt tokenId] (ParseMintToken c).

(** *** Transfer *)

Definition TransferIterator := event_iterator Log (address * address * Z).
Definition TransferIterator_Next (c : token_bound) : bool -> TransferIterator -> bool * TransferIterator :=
  Next (ParseTransfer c).
Definition TransferIterator_Error : TransferIterator -> error := Error.
Definition TransferIterator_Close : TransferIterator -> error * TransferIterator := Close.
Definition FilterTransfer (c : token_bound) (w : W) (from : list address) (to : list address) (tokenId : list Z) : TransferIterator + string :=
  filter_events c w "Transfer" [map TopicAddress from; map TopicAddress to; map TopicInt tokenId].
Definition WatchTransfer (c : token_bound) (w : W) (from : list address) (to : list address) (tokenId : list Z)
    : (list (address * address * Z) * option error) + string :=
  watch_contract c w "Transfer" [map TopicAddress from; map TopicAddress to; map TopicInt tokenId] (ParseTransfer c).
End token.
