(* ===== verification/ProtoSession.v ===== *)
(** * The sessions of the generated bindings: cd2n-lib/protocol/contract/cache_proto.go

    A session is the contract with the options of its calls and transactions set in
    advance; each of its methods is the binding's own with these options. The raw wrappers,
    which hand a call unchanged to the bound contract, are left out. *)

From S2P Require Import Prelude GoStrings External EvmClient CacheProto EventStream Bindings.

(** [bind.CallOpts]: which state of the chain a constant call sees, the latest one by default. *)
Class CallState (W : Type) := {
  call_options : Type;
  default_options : call_options;
  call_at : call_options -> W -> W;
  call_at_default : forall w, call_at default_options w = w;
}.

Section sessions.
Context {W : Type} `{BoundLogs W} `{CallState W}.

(** With both kinds of options, with those of calls, with those of transactions. *)
Record Session := mkSession {
  session_Contract : bound; session_CallOpts : call_options; session_TransactOpts : TransactOpts W }.
Record CallerSession := mkCallerSession { caller_Contract : bound; caller_CallOpts : call_options }.
Record TransactorSession := mkTransactorSession { transactor_Contract : bound; transactor_TransactOpts : TransactOpts W }.

(** The bindings for one use only, over a client that serves that use. *)
Definition NewCacheProtoCaller (addr : address) (caller : ethclient) : bound + string := NewBoundContract addr (Some caller).
Definition NewCacheProtoTransactor (addr : address) (transactor : ethclient) : bound + string := NewBoundContract addr (Some transactor).
Definition NewCacheProtoFilterer (addr : address) (filterer : ethclient) : bound + string := NewBoundContract addr (Some filterer).

Definition Session_CacheReward (s : Session) (w : W) (arg0 : address) :=
  CacheReward (session_Contract s) (call_at (session_CallOpts s) w) arg0.
Definition CallerSession_CacheReward (s : CallerSession) (w : W) (arg0 : address) :=
  CacheReward (caller_Contract s) (call_at (caller_CallOpts s) w) arg0.
Definition Session_Node (s : Session) (w : W) (arg0 : address) :=
  Node (session_Contract s) (call_at (session_CallOpts s) w) arg0.
Definition CallerSession_Node (s : CallerSession) (w : W) (arg0 : address) :=
  Node (caller_Contract s) (call_at (caller_CallOpts s) w) arg0.
Definition Session_Order (s : Session) (w : W) (arg0 : bytes) :=
  Order_get (session_Contract s) (call_at (session_CallOpts s) w) arg0.
Definition CallerSession_Order (s : CallerSession) (w : W) (arg0 : bytes) :=
  Order_get (caller_Contract s) (call_at (caller_CallOpts s) w) arg0.
Definition Session_OrderNum (s : Session) (w : W) (arg0 : address) :=
  OrderNum (session_Contract s) (call_at (session_CallOpts s) w) arg0.
Definition CallerSession_OrderNum (s : CallerSession) (w : W) (arg0 : address) :=
  OrderNum (caller_Contract s) (call_at (caller_CallOpts s) w) arg0.
Definition Session_RewardRecord (s : Session) (w : W) (arg0 : address) :=
  RewardRecord (session_Contract s) (call_at (session_CallOpts s) w) arg0.
Definition CallerSession_RewardRecord (s : CallerSession) (w : W) (arg0 : address) :=
  RewardRecord (caller_Contract s) (call_at (caller_CallOpts s) w) arg0.
Definition Session_TermTotalOrder (s : Session) (w : W) (arg0 : Z) :=
  TermTotalOrder (session_Contract s) (call_at (session_CallOpts s) w) arg0.
Definition CallerSession_TermTotalOrder (s : CallerSession) (w : W) (arg0 : Z) :=
  TermTotalOrder (caller_Contract s) (call_at (caller_CallOpts s) w) arg0.
Definition Session_TokenBonded (s : Session) (w : W) (arg0 : Z) :=
  TokenBonded (session_Contract s) (call_at (session_CallOpts s) w) arg0.
Definition CallerSession_TokenBonded (s : CallerSession) (w : W) (arg0 : Z) :=
  TokenBonded (caller_Contract s) (call_at (caller_CallOpts s) w) arg0.
Definition Session_GetCurrencyTerm (s : Session) (w : W) :=
  GetCurrencyTerm (session_Contract s) (call_at (session_CallOpts s) w).
Definition CallerSession_GetCurrencyTerm (s : CallerSession) (w : W) :=
  GetCurrencyTerm (caller_Contract s) (call_at (caller_CallOpts s) w).
Definition Session_GetMessageHash (s : Session) (w : W) (_account : address) (_tokenId : Z) :=
  GetMessageHash (session_Contract s) (call_at (session_CallOpts s) w) _account _tokenId.
Definition CallerSession_GetMessageHash (s : CallerSession) (w : W) (_account : address) (_tokenId : Z) :=
  GetMessageHash (caller_Contract s) (call_at (caller_CallOpts s) w) _account _tokenId.
Definition Session_IsTokenOwner (s : Session) (w : W) (acc : address) (tokenId : Z) :=
  IsTokenOwner (session_Contract s) (call_at (session_CallOpts s) w) acc tokenId.
Definition CallerSession_IsTokenOwner (s : CallerSession) (w : W) (acc : address) (tokenId : Z) :=
  IsTokenOwner (caller_Contract s) (call_at (caller_CallOpts s) w) acc tokenId.
Definition Session_OpenRecover (s : Session) (w : W) (_msgHash : bytes) (_signature : bytes) :=
  OpenRecover (session_Contract s) (call_at (session_CallOpts s) w) _msgHash _signature.
Definition CallerSession_OpenRecover (s : CallerSession) (w : W) (_msgHash : bytes) (_signature : bytes) :=
  OpenRecover (caller_Contract s) (call_at (caller_CallOpts s) w) _msgHash _signature.
Definition Session_RecoverSigner (s : Session) (w : W) (_msgHash : bytes) (_signature : bytes) :=
  RecoverSigner (session_Contract s) (call_at (session_CallOpts s) w) _msgHash _signature.
Definition CallerSession_RecoverSigner (s : CallerSession) (w : W) (_msgHash : bytes) (_signature : bytes) :=
  RecoverSigner (caller_Contract s) (call_at (caller_CallOpts s) w) _msgHash _signature.
Definition Session_ToEthSignedMessageHash (s : Session) (w : W) (hash : bytes) :=
  ToEthSignedMessageHash (session_Contract s) (call_at (session_CallOpts s) w) hash.
Definition CallerSession_ToEthSignedMessageHash (s : CallerSession) (w : W) (hash : bytes) :=
  ToEthSignedMessageHash (caller_Contract s) (call_at (caller_CallOpts s) w) hash.
Definition Session_Verify (s : Session) (w : W) (_msgHash : bytes) (_signature : bytes) (_signer : address) :=
  Verify (session_Contract s) (call_at (session_CallOpts s) w) _msgHash _signature _signer.
Definition CallerSession_Verify (s : CallerSession) (w : W) (_msgHash : bytes) (_signature : bytes) (_signer : address) :=
  Verify (caller_Contract s) (call_at (caller_CallOpts s) w) _msgHash _signature _signer.
Definition Session_CacheOrderPayment (s : Session) (w : W) (nodeAcc : address) :=
  CacheOrderPayment (session_Contract s) w (session_TransactOpts s) nodeAcc.
Definition TransactorSession_CacheOrderPayment (s : TransactorSession) (w : W) (nodeAcc : address) :=
  CacheOrderPayment (transactor_Contract s) w (transactor_TransactOpts s) nodeAcc.
Definition Session_Claim (s : Session) (w : W) := CacheProto.Claim (session_Contract s) w (session_TransactOpts s).
Definition TransactorSession_Claim (s : TransactorSession) (w : W) :=
  CacheProto.Claim (transactor_Contract s) w (transactor_TransactOpts s).
Definition Session_Exit (s : Session) (w : W) := CacheProto.Exit (session_Contract s) w (session_TransactOpts s).
Definition TransactorSession_Exit (s : TransactorSession) (w : W) :=
  CacheProto.Exit (transactor_Contract s) w (transactor_TransactOpts s).
Definition Session_OrderClaim (s : Session) (w : W) (orderId : bytes) :=
  OrderClaim (session_Contract s) w (session_TransactOpts s) orderId.
Definition TransactorSession_OrderClaim (s : TransactorSession) (w : W) (orderId : bytes) :=
  OrderClaim (transactor_Contract s) w (transactor_TransactOpts s) orderId.
Definition Session_Staking (s : Session) (w : W) (nodeAcc : address) (tokenAcc : address) (tokenId : Z) (_peerId : bytes) (_signature : bytes) :=
  CacheProto.Staking (session_Contract s) w (session_TransactOpts s) nodeAcc tokenAcc tokenId _peerId _signature.
Definition TransactorSession_Staking (s : TransactorSession) (w : W) (nodeAcc : address) (tokenAcc : address) (tokenId : Z) (_peerId : bytes) (_signature : bytes) :=
  CacheProto.Staking (transactor_Contract s) w (transactor_TransactOpts s) nodeAcc tokenAcc tokenId _peerId _signature.

(** A session with the default options reads the chain as the contract does. *)
Lemma sessions_read_latest c (opts : TransactOpts W) w orderId acc :
  Session_Order (mkSession c default_options opts) w orderId = Order_get c w orderId
  /\ CallerSession_Node (mkCallerSession c default_options) w acc = Node c w acc.
Proof. unfold Session_Order, CallerSession_Node. cbn. by rewrite call_at_default. Qed.
End sessions.
