(* ===== verification/TokenSession.v ===== *)
(** * The sessions of the generated bindings: cd2n-lib/protocol/contract/cache_token.go

    A session is the contract with the options of its calls and transactions set in
    advance; each of its methods is the binding's own with these options. *)

From S2P Require Import Prelude GoStrings External EvmClient CacheProto EventStream Bindings Token ProtoSession.

Section sessions.
Context {W : Type} `{TokenBinding W} `{CallState W}.

(** With both kinds of options, with those of calls, with those of transactions. *)
Record Session := mkSession {
  session_Contract : token_bound; session_CallOpts : call_options; session_TransactOpts : TransactOpts W }.
Record CallerSession := mkCallerSession { caller_Contract : token_bound; caller_CallOpts : call_options }.
Record TransactorSession := mkTransactorSession { transactor_Contract : token_bound; transactor_TransactOpts : TransactOpts W }.

(** The bindings for one use only, over a client that serves that use. *)
Definition NewTokenCaller (addr : address) (caller : ethclient) : token_bound + string := BindToken addr (Some caller).
Definition NewTokenTransactor (addr : address) (transactor : ethclient) : token_bound + string := BindToken addr (Some transactor).
Definition NewTokenFilterer (addr : address) (filterer : ethclient) : token_bound + string := BindToken addr (Some filterer).

Definition Session_BalanceOf (s : Session) (w : W) (owner : address) :=
  Token.BalanceOf (session_Contract s) (call_at (session_CallOpts s) w) owner.
Definition CallerSession_BalanceOf (s : CallerSession) (w : W) (owner : address) :=
  Token.BalanceOf (caller_Contract s) (call_at (caller_CallOpts s) w) owner.
Definition Session_GetApproved (s : Session) (w : W) (tokenId : Z) :=
  Token.GetApproved (session_Contract s) (call_at (session_CallOpts s) w) tokenId.
Definition CallerSession_GetApproved (s : CallerSession) (w : W) (tokenId : Z) :=
  Token.GetApproved (caller_Contract s) (call_at (caller_CallOpts s) w) tokenId.
Definition Session_IsApprovedForAll (s : Session) (w : W) (owner : address) (operator : address) :=
  Token.IsApprovedForAll (session_Contract s) (call_at (session_CallOpts s) w) owner operator.
Definition CallerSession_IsApprovedForAll (s : CallerSession) (w : W) (owner : address) (operator : address) :=
  Token.IsApprovedForAll (caller_Contract s) (call_at (caller_CallOpts s) w) owner operator.
Definition Session_Name (s : Session) (w : W) := Token.Name (session_Contract s) (call_at (session_CallOpts s) w).
Definition CallerSession_Name (s : CallerSession) (w : W) :=
  Token.Name (caller_Contract s) (call_at (caller_CallOpts s) w).
Definition Session_OwnerOf (s : Session) (w : W) (tokenId : Z) :=
  Token.OwnerOf (session_Contract s) (call_at (session_CallOpts s) w) tokenId.
Definition CallerSession_OwnerOf (s : CallerSession) (w : W) (tokenId : Z) :=
  Token.OwnerOf (caller_Contract s) (call_at (caller_CallOpts s) w) tokenId.
Definition Session_ReleaseTime (s : Session) (w : W) (arg0 : Z) :=
  Token.ReleaseTime (session_Contract s) (call_at (session_CallOpts s) w) arg0.
Definition CallerSession_ReleaseTime (s : CallerSession) (w : W) (arg0 : Z) :=
  Token.ReleaseTime (caller_Contract s) (call_at (caller_CallOpts s) w) arg0.
Definition Session_SupportsInterface (s : Session) (w : W) (interfaceId : bytes) :=
  Token.SupportsInterface (session_Contract s) (call_at (session_CallOpts s) w) interfaceId.
Definition CallerSession_SupportsInterface (s : CallerSession) (w : W) (interfaceId : bytes) :=
  Token.SupportsInterface (caller_Contract s) (call_at (caller_CallOpts s) w) interfaceId.
Definition Session_Symbol (s : Session) (w : W) := Token.Symbol (session_Contract s) (call_at (session_CallOpts s) w).
Definition CallerSession_Symbol (s : CallerSession) (w : W) :=
  Token.Symbol (caller_Contract s) (call_at (caller_CallOpts s) w).
Definition Session_TokenURI (s : Session) (w : W) (tokenId : Z) :=
  Token.TokenURI (session_Contract s) (call_at (session_CallOpts s) w) tokenId.
Definition CallerSession_TokenURI (s : CallerSession) (w : W) (tokenId : Z) :=
  Token.TokenURI (caller_Contract s) (call_at (caller_CallOpts s) w) tokenId.
Definition Session_Approve (s : Session) (w : W) (to : address) (tokenId : Z) :=
  Token.Approve (session_Contract s) w (session_TransactOpts s) to tokenId.
Definition TransactorSession_Approve (s : TransactorSession) (w : W) (to : address) (tokenId : Z) :=
  Token.Approve (transactor_Contract s) w (transactor_TransactOpts s) to tokenId.
Definition Session_MintToken (s : Session) (w : W) (to : address) :=
  Token.MintToken_tx (session_Contract s) w (session_TransactOpts s) to.
Definition TransactorSession_MintToken (s : TransactorSession) (w : W) (to : address) :=
  Token.MintToken_tx (transactor_Contract s) w (transactor_TransactOpts s) to.
Definition Session_SafeTransferFrom (s : Session) (w : W) (from : address) (to : address) (tokenId : Z) :=
  Token.SafeTransferFrom (session_Contract s) w (session_TransactOpts s) from to tokenId.
Definition TransactorSession_SafeTransferFrom (s : TransactorSession) (w : W) (from : address) (to : address) (tokenId : Z) :=
  Token.SafeTransferFrom (transactor_Contract s) w (transactor_TransactOpts s) from to tokenId.
Definition Session_SafeTransferFrom0 (s : Session) (w : W) (from : address) (to : address) (tokenId : Z) (data : bytes) :=
  Token.SafeTransferFrom0 (session_Contract s) w (session_TransactOpts s) from to tokenId data.
Definition TransactorSession_SafeTransferFrom0 (s : TransactorSession) (w : W) (from : address) (to : address) (tokenId : Z) (data : bytes) :=
  Token.SafeTransferFrom0 (transactor_Contract s) w (transactor_TransactOpts s) from to tokenId data.
Definition Session_SetApprovalForAll (s : Session) (w : W) (operator : address) (approved : bool) :=
  Token.SetApprovalForAll (session_Contract s) w (session_TransactOpts s) operator approved.
Definition TransactorSession_SetApprovalForAll (s : TransactorSession) (w : W) (operator : address) (approved : bool) :=
  Token.SetApprovalForAll (transactor_Contract s) w (transactor_TransactOpts s) operator approved.
Definition Session_TransferFrom (s : Session) (w : W) (from : address) (to : address) (tokenId : Z) :=
  Token.TransferFrom (session_Contract s) w (session_TransactOpts s) from to tokenId.
Definition TransactorSession_TransferFrom (s : TransactorSession) (w : W) (from : address) (to : address) (tokenId : Z) :=
  Token.TransferFrom (transactor_Contract s) w (transactor_TransactOpts s) from to tokenId.
Definition Session_Withdraw (s : Session) (w : W) := Token.Withdraw (session_Contract s) w (session_TransactOpts s).
Definition TransactorSession_Withdraw (s : TransactorSession) (w : W) :=
  Token.Withdraw (transactor_Contract s) w (transactor_TransactOpts s).
End sessions.
