(* ===== verification/EthTools.v ===== *)
(** * The token tool: eth-tools

    Buying a cache token and signing the authorisation of a node (eth-tools/tools/tools.go),
    and the two commands around them (eth-tools/eth_tools.go). *)

From S2P Require Import Prelude GoStrings GoOs External Config EvmClient CacheProto CacheProtoFacts EventStream Bindings Token.

(** ** math/big: [Bytes], the absolute value in big-endian without leading zeros *)

Fixpoint be_bytes (n : nat) (z : Z) : bytes :=
  match n with
  | O => []
  | S n => (be_bytes n (z / 256) ++ [to_byte z])%list
  end.

Definition big_Bytes (z : Z) : bytes :=
  be_bytes (if z =? 0 then O else S (Z.to_nat (Z.log2 (Z.abs z) / 8))) (Z.abs z).

(** ** tools.go *)

Record tools_Config := mkToolsConfig {
  tool_ChainId : Z; ChainRpcs : list string; tool_GasFreeCap : Z; tool_GasLimit : Z; ContractAddress : string }.

Definition ETH_PREFIX : bytes := (x19 :: to_bytes "Ethereum Signed Message:") ++ [x0a] ++ to_bytes "32".

Section tools.
Context {W : Type} `{TokenBinding W} `{PkgErrors}.

Definition Keccak256HashWithContractPrefix (hash : bytes) : bytes := Keccak256Hash (ETH_PREFIX ++ hash).

(** The callback of [BuyCacherToken]; [s] is [tokenId]. The account of the client is the
    zero address, [None], when it has none. *)
Definition on_token_log (tokenCli : token_bound) (account : option address) (l : Log) (s : string)
    : bool * string :=
  match ParseMintToken tokenCli l with
  | inr _ =>
      match ParseTransfer tokenCli l with
      | inl (_, to, tokenId) =>
          if decide (Some to = account) then (false, big_String tokenId) else (true, s)
      | inr _ => (true, s)
      end
  | inl (owner, tokenId) =>
      if decide (Some owner = account) then (false, big_String tokenId) else (true, s)
  end.

(** [tx.Hash()] is called before the error is looked at, on a nil transaction then. The
    account is that of the private key, always set. *)
Definition BuyCacherToken (c : tools_Config) (sk value : string) (w : W)
    : outcome ((string * error) * W) :=
  match NewClient (Contract := unit)
          [AccountPrivateKey sk; ChainID_option (tool_ChainId c); ConnectionRpcAddresss (ChainRpcs c);
           EthereumGas (tool_GasFreeCap c) (tool_GasLimit c)] with
  | (_, Some e) => Returns (("", Some e), w)
  | (client, None) =>
      opts ← NewTransactionOption client w value;
      match opts with
      | inr e => Returns (("", Some e), w)
      | inl opts =>
          match NewToken (HexToAddress (ContractAddress c)) (GetEthClient client) with
          | inr e => Returns (("", Some e), w)
          | inl tokenCli =>
              match Account client with
              | None => Panics NilDereference
              | Some account =>
                  match MintToken_tx tokenCli w opts account with
                  | (inr _, _) => Panics NilDereference
                  | (inl tx, w) =>
                      '(err, tokenId, w) ← SubscribeFilterLogs client w [HexToAddress (ContractAddress c)]
                          (on_token_log tokenCli (Some account)) "";
                      match err with
                      | Some e => Returns (("", Some e), w)
                      | None => Returns ((tokenId, None), w)
                      end
                  end
              end
          end
      end
  end.

(** [sign[64] += 27]. *)
Definition adjust_v (sign : bytes) : bytes :=
  match sign !! 64%nat with Some b => <[64%nat := to_byte (bval b + 27)]> sign | None => sign end.

(** A token id that is not a decimal number is a nil [*big.Int ], whose [Bytes] panics. *)
Definition CacherAuthorizationSign (tokenAccSk nodeAcc tokenId : string) : outcome (bytes + string) :=
  match HexToECDSA tokenAccSk with
  | inr e => Returns (inr e)
  | inl sk =>
      let tid := big_SetString tokenId in
      match hex_DecodeString (strings_TrimPrefix nodeAcc "0x") with
      | None => Returns (inr "encoding/hex: invalid input")
      | Some byteAcc =>
          match tid with
          | None => Panics NilDereference
          | Some tid =>
              let hash := Keccak256HashWithContractPrefix (Keccak256Hash (byteAcc ++ big_Bytes tid)) in
              sign ← crypto_Sign hash (Some sk);
              match sign with
              | inr e => Returns (inr e)
              | inl sign =>
                  if decide (length sign ≠ 65%nat) then Returns (inr "invalid signature length")
                  else Returns (inl (adjust_v sign))
              end
          end
      end
  end.
End tools.

(** ** eth_tools.go *)

(** A command's end: [log.Fatal] of a message, which exits with status 1, or what it prints. *)
Inductive command_end :=
  | Fatal (msg : string)
  | Prints (msg : string).

(** [GetString] is pflag's: the value of a defined flag, or an error. *)
Definition ParseFlagValue (GetString : string -> string + string) (name shorthand : string) : string * error :=
  let failed err := ("", errors_New ("parse flag " +:+ name +:+ " [" +:+ shorthand +:+ "] value error " +:+ err)) in
  let again :=
    match GetString shorthand with
    | inr err => failed err
    | inl v => if decide (v = "") then failed "<nil>" else (v, None)
    end in
  match GetString name with
  | inr _ => again
  | inl v => if decide (v = "") then again else (v, None)
  end.

Section commands.
Context {W : Type} `{TokenBinding W} `{PkgErrors} `{OsFaults} `{Viper tools_Config}.

Definition buy_token_run (GetString : string -> string + string) (fs : FS) (w : W)
    : outcome (command_end * W) :=
  let fatal e := Returns (Fatal ("error:" +:+ e), w) in
  match ParseFlagValue GetString "config" "c" with
  | (_, Some e) => fatal e
  | (cpath, None) =>
  match ParseFlagValue GetString "screctKey" "s" with
  | (_, Some e) => fatal e
  | (screctKey, None) =>
  match ParseFlagValue GetString "value" "v" with
  | (_, Some e) => fatal e
  | (value, None) =>
      let value := value +:+ "000000000000000000" in
      match ParseCommonConfig fs cpath "yaml" (mkToolsConfig 0 [] 0 0 "") with
      | (_, Some e) => fatal e
      | (conf, None) =>
          '(tokenId, err, w) ← BuyCacherToken conf screctKey value w;
          match err with
          | Some e => Returns (Fatal ("error:" +:+ e), w)
          | None => Returns (Prints ("success, token Id is  " +:+ tokenId), w)
          end
      end
  end end end.

Definition sign_node_run (GetString : string -> string + string) : outcome command_end :=
  match ParseFlagValue GetString "nodeAcc" "n" with
  | (_, Some e) => Returns (Fatal ("error:" +:+ e))
  | (nodeAcc, None) =>
  match ParseFlagValue GetString "screctKey" "s" with
  | (_, Some e) => Returns (Fatal ("error:" +:+ e))
  | (screctKey, None) =>
  match ParseFlagValue GetString "tokenId" "t" with
  | (_, Some e) => Returns (Fatal ("error:" +:+ e))
  | (tokenId, None) =>
      r ← CacherAuthorizationSign screctKey nodeAcc tokenId;
      match r with
      | inr e => Returns (Fatal ("error:" +:+ e))
      | inl sign => Returns (Prints ("success, the signature is  " +:+ hex_EncodeToString sign))
      end
  end end end.
End commands.

(** ** Properties *)

(** The number a byte string stands for. *)
Fixpoint be_value (acc : Z) (b : bytes) : Z :=
  match b with [] => acc | x :: b => be_value (acc * 256 + bval x) b end.

Lemma be_value_app acc a b : be_value acc (a ++ b) = be_value (be_value acc a) b.
Proof. revert acc. induction a as [|x a IH]; intros acc; [done|]. apply IH. Qed.

Lemma be_value_bytes n z : 0 <= z -> be_value 0 (be_bytes n z) = z mod 256 ^ Z.of_nat n.
Proof.
  revert z. induction n as [|n IH]; intros z Hz; [by rewrite Z.mod_1_r|]. cbn [be_bytes].
  rewrite be_value_app, IH by (apply Z.div_pos; lia). cbn [be_value]. rewrite bval_to_byte.
  rewrite Nat2Z.inj_succ, Z.pow_succ_r by lia.
  rewrite Z.rem_mul_r by first [lia|apply Z.pow_pos_nonneg; lia]. lia.
Qed.

(** [Bytes] and [SetBytes] are inverse on the absolute value. *)
Lemma big_Bytes_value z : be_value 0 (big_Bytes z) = Z.abs z.
Proof.
  unfold big_Bytes. rewrite be_value_bytes by lia. case_match eqn:E; [apply Z.eqb_eq in E; by subst|].
  apply Z.eqb_neq in E. apply Z.mod_small. split; [lia|].
  assert (0 <= Z.log2 (Z.abs z) / 8) by (apply Z.div_pos; [apply Z.log2_nonneg|lia]).
  rewrite Nat2Z.inj_succ, Z2Nat.id by done.
  replace 256 with (2 ^ 8) by done. rewrite <- Z.pow_mul_r by lia.
  apply Z.log2_lt_pow2; [lia|]. pose proof (Z.mod_pos_bound (Z.log2 (Z.abs z)) 8).
  pose proof (Z.div_mod (Z.log2 (Z.abs z)) 8). lia.
Qed.

Lemma length_be_bytes n z : length (be_bytes n z) = n.
Proof. revert z. induction n as [|n IH]; intros z; [done|]. cbn [be_bytes]. rewrite length_app, IH. cbn. lia. Qed.

Lemma big_Bytes_bound z : Z.abs z < 256 ^ Z.of_nat (length (big_Bytes z)).
Proof.
  rewrite <- (big_Bytes_value z) at 1. unfold big_Bytes. rewrite be_value_bytes, length_be_bytes by lia.
  apply Z.mod_pos_bound, Z.pow_pos_nonneg; lia.
Qed.

Lemma be_bytes_cons n x r :
  0 <= r < 256 ^ Z.of_nat n -> be_bytes (S n) (x * 256 ^ Z.of_nat n + r) = to_byte x :: be_bytes n r.
Proof.
  revert r. induction n as [|n IH]; intros r Hr.
  - change (256 ^ Z.of_nat 0) with 1 in *. assert (r = 0) as -> by lia. by rewrite Z.mul_1_r, Z.add_0_r.
  - rewrite Nat2Z.inj_succ, Z.pow_succ_r in * by lia. set (p := 256 ^ Z.of_nat n) in *.
    replace (x * (256 * p) + r) with (r + x * p * 256) by lia.
    cbn [be_bytes]. rewrite Z.div_add by lia. rewrite (Z.add_comm (r / 256)).
    assert (0 <= r / 256 < p) by (split; [apply Z.div_pos; lia|apply Z.div_lt_upper_bound; lia]).
    cbn [be_bytes] in IH. rewrite IH by done. cbn [app]. do 3 f_equal.
    unfold to_byte. do 3 f_equal. by rewrite Z.mod_add by lia.
Qed.

(** One more byte in front. *)
Lemma big_Bytes_cons x t :
  0 < x < 256 -> big_Bytes (x * 256 ^ len (big_Bytes t) + Z.abs t) = to_byte x :: big_Bytes t.
Proof.
  intros Hx. pose proof (big_Bytes_bound t) as Ht. unfold len. set (n := length (big_Bytes t)) in *.
  assert (Hp : 256 ^ Z.of_nat n = 2 ^ (8 * Z.of_nat n)) by (rewrite Z.pow_mul_r; [done|lia..]).
  set (p := 256 ^ Z.of_nat n) in *. set (z := x * p + Z.abs t).
  assert (p <= z < 256 * p) as Hz by (unfold z; nia).
  assert (0 < p) by (rewrite Hp; apply Z.pow_pos_nonneg; lia).
  unfold big_Bytes at 1. rewrite (proj2 (Z.eqb_neq z 0)), Z.abs_eq by lia.
  assert (8 * Z.of_nat n <= Z.log2 z) by (apply Z.log2_le_pow2; lia).
  assert (Z.log2 z < 8 * Z.of_nat n + 8).
  { apply Z.log2_lt_pow2; [lia|]. rewrite Z.pow_add_r by lia. lia. }
  replace (Z.log2 z / 8) with (Z.of_nat n) by (apply Z.div_unique with (Z.log2 z - 8 * Z.of_nat n); lia).
  rewrite Nat2Z.id. unfold z, p. rewrite be_bytes_cons by (fold p; lia). f_equal.
  unfold big_Bytes in n. unfold n at 1. rewrite length_be_bytes. done.
Qed.

Section facts.
Context {W : Type} `{TokenBinding W} `{PkgErrors}.

Lemma TrimPrefix_0x s : strings_TrimPrefix ("0x" +:+ s) "0x" = s.
Proof. by destruct s. Qed.

(** The signature depends on the account and the token only through their bytes, one after
    the other. *)
Lemma CacherAuthorizationSign_bytes sk a t :
  CacherAuthorizationSign sk ("0x" +:+ hex_EncodeToString a) (big_String t)
  = match HexToECDSA sk with
    | inr e => Returns (inr e)
    | inl key =>
        sign ← crypto_Sign (Keccak256HashWithContractPrefix (Keccak256Hash (a ++ big_Bytes t))) (Some key);
        match sign with
        | inr e => Returns (inr e)
        | inl sign => if decide (length sign ≠ 65%nat) then Returns (inr "invalid signature length")
                      else Returns (inl (adjust_v sign))
        end
    end.
Proof.
  unfold CacherAuthorizationSign. destruct (HexToECDSA sk); [|done].
  by rewrite TrimPrefix_0x, hex_DecodeString_EncodeToString, big_SetString_String.
Qed.

(** C35: An authorisation is ambiguous: account and token id are hashed one after the other
    without their lengths, and of the token id only the absolute value.  For every key, every
    account whose last byte is not zero and every token id, the signature is also that for
    the account without its last byte and the token id with that byte put in front; and for
    every account it is also that for the negated token id. *)
Theorem authorization_ambiguous sk a x t (Hx : 0 < x < 256) :
  CacherAuthorizationSign sk ("0x" +:+ hex_EncodeToString (a ++ [to_byte x])) (big_String t)
  = CacherAuthorizationSign sk ("0x" +:+ hex_EncodeToString a)
      (big_String (x * 256 ^ len (big_Bytes t) + Z.abs t)) /\
  (forall acc, CacherAuthorizationSign sk ("0x" +:+ hex_EncodeToString acc) (big_String (- t))
    = CacherAuthorizationSign sk ("0x" +:+ hex_EncodeToString acc) (big_String t)).
Proof.
  split; [|intros acc]; rewrite !CacherAuthorizationSign_bytes.
  - rewrite (big_Bytes_cons x t) by done. by rewrite <- app_assoc.
  - unfold big_Bytes. rewrite Z.abs_opp. by destruct t.
Qed.

(** A recovery id of 0 or 1 becomes 27 or 28, the rest of the signature stays. *)
Lemma adjust_v_spec sign v :
  length sign = 64%nat -> v = 0 \/ v = 1 -> adjust_v (sign ++ [to_byte v]) = (sign ++ [to_byte (v + 27)])%list.
Proof.
  intros Hl Hv. unfold adjust_v. rewrite lookup_app_r, Hl by lia. cbn.
  rewrite <- Hl, <- (Nat.add_0_r (length sign)), insert_app_r. cbn.
  by destruct Hv as [-> | ->].
Qed.

(** The events the callback of [BuyCacherToken] takes for its own. *)
Definition own_token (c : token_bound) (account : address) (l : Log) (id : Z) : Prop :=
  ParseMintToken c l = inl (account, id) \/
  ((exists e, ParseMintToken c l = inr e) /\ exists from, ParseTransfer c l = inl (from, account, id)).

Lemma filter_loop_token c account events t :
  filter_loop events (on_token_log c (Some account)) "" = (None, t) ->
  (exists l id, EvLog l ∈ events /\ own_token c account l id /\ t = big_String id) \/
  (t = "" /\ EvErr None ∈ events).
Proof.
  assert (Hl : forall l, on_token_log c (Some account) l "" = (true, "") \/
    exists id, on_token_log c (Some account) l "" = (false, big_String id) /\ own_token c account l id).
  { intros l. unfold on_token_log, own_token.
    destruct (ParseMintToken c l) as [[owner id]|e] eqn:Em.
    - case_decide as Hd; [right|by left]. injection Hd as ->. exists id. split; [done|by left].
    - destruct (ParseTransfer c l) as [[[from to] id]|e'] eqn:Et; [|by left].
      case_decide as Hd; [right|by left]. injection Hd as ->. exists id. split; [done|]. right. eauto. }
  induction events as [|[l|e|] events IH]; cbn [filter_loop]; [done| | |done].
  - destruct (Hl l) as [->|(id & -> & Ho)].
    + intros E. destruct (IH E) as [(l' & id & ? & ?)|[? ?]]; [left; exists l', id|right];
        (split; [|done]) || (split; [done|]); by apply list_elem_of_further.
    + intros [= <-]. left. exists l, id. split; [apply list_elem_of_here|done].
  - intros [= -> <-]. right. split; [done|apply list_elem_of_here].
Qed.

(** [BuyCacherToken] reports the id of a token that an event gives to the account of its
    key, or nothing at all when the subscription ends without an error; and when the
    transaction is refused it panics instead of returning the error. *)
Theorem BuyCacherToken_result c sk value w client opts tokenCli account e
    (Hclient : NewClient (Contract := unit)
       [AccountPrivateKey sk; ChainID_option (tool_ChainId c); ConnectionRpcAddresss (ChainRpcs c);
        EthereumGas (tool_GasFreeCap c) (tool_GasLimit c)] = (client, None))
    (Hcli : cli client = Some e) (Hacc : Account client = Some account)
    (Hopts : NewTransactionOption client w value = Returns (inl opts))
    (Htoken : NewToken (HexToAddress (ContractAddress c)) (GetEthClient client) = inl tokenCli) :
  match MintToken_tx tokenCli w opts account with
  | (inr _, _) => BuyCacherToken c sk value w = Panics NilDereference
  | (inl _, w1) =>
      match client_SubscribeFilterLogs w1 e [HexToAddress (ContractAddress c)] with
      | (inr err, w2) => BuyCacherToken c sk value w = Returns (("", Some err), w2)
      | (inl events, w2) => exists t err, BuyCacherToken c sk value w = Returns ((t, err), w2) /\
          (err = None -> (exists l id, EvLog l ∈ events /\ own_token tokenCli account l id /\ t = big_String id)
                         \/ (t = "" /\ EvErr None ∈ events))
      end
  end.
Proof.
  unfold BuyCacherToken. rewrite Hclient, Hopts. cbn [mbind outcome_bind]. rewrite Htoken, Hacc.
  destruct (MintToken_tx tokenCli w opts account) as [[tx|err] w1]; [|done].
  unfold SubscribeFilterLogs, the_ethclient. rewrite Hcli. cbn [mbind outcome_bind].
  destruct (client_SubscribeFilterLogs _ _ _) as [[events|err] w2]; [|done].
  destruct (filter_loop events (on_token_log tokenCli (Some account)) "") as [[err|] t] eqn:Ef; cbn.
  - exists "", (Some err). done.
  - exists t, None. split; [done|]. intros _. by apply filter_loop_token.
Qed.
End facts.

(** ** A sample: the chain of [CacheProtoFacts] with a token contract

    A log of a staking stands for the minting of a token. A transaction with no value is
    refused. *)

#[local] Existing Instance sample_crypto.
#[local] Existing Instance sample_client.

Definition sample_token : @TokenBinding Chain sample_crypto sample_client.
Proof.
  refine (@Build_TokenBinding Chain sample_crypto sample_client
    unit (fun _ _ => inl tt) (fun A _ _ _ => inr "no answer") string (fun t => t)
    (fun _ w opts _ => (match opts_Value opts with Some _ => inl "0x99" | None => inr "no value" end, w))
    (fun _ l => match l with EventStaking a t => inl (EventMintToken a t) | _ => inr bad_event end)
    (fun _ _ _ _ => inr "no logs") (fun _ _ _ _ => inr "no logs")).
Defined.
#[local] Existing Instance sample_token.

Definition sample_token_bound : @token_bound Chain sample_crypto sample_client sample_token := tt.

Definition token_config : tools_Config := mkToolsConfig 1 [""; "wss://rpc"] 5 0 "0xtoken".

Definition token_chain : Chain :=
  mkChain [] [EvLog (EventStaking "0xother" 8); EvLog (EventStaking "key" 9); EvDone]
    (true, 0, 1, [x01; x02]) (5, "0xpayer", "0xother", 2) 9.

(** The token bought has the id 9; without a value the tool panics. *)
Lemma BuyCacherToken_result_witness :
  (exists t err, BuyCacherToken token_config "key" "12" token_chain = Returns ((t, err), token_chain) /\
     (err = None -> (exists l id, EvLog l ∈ ch_events token_chain /\ own_token sample_token_bound "key" l id /\ t = big_String id)
                    \/ (t = "" /\ EvErr None ∈ ch_events token_chain))) /\
  BuyCacherToken token_config "key" "12" token_chain = Returns (("9", None), token_chain) /\
  BuyCacherToken token_config "key" "x" token_chain = Panics NilDereference.
Proof.
  split; [|split; vm_compute; reflexivity].
  exact (BuyCacherToken_result token_config "key" "12" token_chain (sample_eth "key") (sample_opts (Some 12))
    sample_token_bound "key" "wss://rpc" eq_refl eq_refl eq_refl eq_refl eq_refl).
Defined.

Lemma authorization_ambiguous_witness :
  CacherAuthorizationSign "key" "0xaa01" "2" = CacherAuthorizationSign "key" "0xaa" "258" /\
  CacherAuthorizationSign "key" "0xaa01" "-2" = CacherAuthorizationSign "key" "0xaa01" "2".
Proof.
  destruct (authorization_ambiguous "key" [xaa] 1 2 (conj eq_refl eq_refl)) as [Hmoved Hsign].
  split; [exact Hmoved|exact (Hsign [xaa; x01])].
Defined.
