(* ===== verification/NodeCmd.v ===== *)
(** * Starting a node: cd2n-node/run, logger, and the boot node

    The loggers (logger/logger.go) that cd2n-node/run/main.go registers, the two commands of
    cd2n-node/run/cmd/cmd.go as compositions of the other components' definitions, and
    cd2n-boot/bootnode.go. What third-party constructors give is collected in a record. *)

From S2P Require Import Prelude GoStrings Encoding Json Codec Types Stream GoOs Lib External ClientFiles.
From S2P Require Import Credit CacheActor ResourceActor PeerNode Discovery Config EvmClient CacheProto.

(** ** logger/logger.go *)

(** logrus' formatters, and where a logger writes: the standard error, or a file. *)
Inductive formatter := JSONFormatter | TextFormatter.
Record logrus_Logger := mkLogrus { log_formatter : formatter; log_output : option string }.

(** The map of a [Logger]; the package's variable is [None] until it is made. *)
Abbreviation Logger := (gmap string logrus_Logger).

Definition InitGlobalLogger : Logger := ∅.
Definition GetGlobalLogger (g : option Logger) : Logger :=
  match g with Some lg => lg | None => InitGlobalLogger end.

Definition is_json (f : string) : bool :=
  bool_decide (f = "Json") || bool_decide (f = "JSON") || bool_decide (f = "json").

(** [os.OpenFile] to append to a file, which is made when missing. *)
Definition os_OpenAppend `{OsFaults} (fs : FS) (p : string) : FS * error :=
  match os_fault OpCreate p with
  | Some e => (fs, Some e)
  | None => (match files fs !! p with Some _ => fs | None => set_files (<[p := []]> (files fs)) fs end, None)
  end.

Definition RegisterLogger `{OsFaults} `{PkgErrors} (fs : FS) (name fpath formatter : string) (lg : Logger)
    : error * (Logger * FS) :=
  let fmt := if is_json formatter then JSONFormatter else TextFormatter in
  if decide (fpath = "") then (None, (<[name := mkLogrus fmt None]> lg, fs))
  else
    match os_OpenAppend fs fpath with
    | (fs, Some e) => (Wrap (Some e) "register logger error", (lg, fs))
    | (fs, None) => (None, (<[name := mkLogrus fmt (Some fpath)]> lg, fs))
    end.

Definition Logger_GetLogger (name : string) (lg : Logger) : option logrus_Logger := lg !! name.
Definition GetLogger (name : string) (g : option Logger) : option logrus_Logger :=
  match g with Some lg => lg !! name | None => None end.

(** ** cd2n-node/run/main.go *)

Definition LOG_NODE := "node".
Definition LOG_TX := "transaction".
Definition LOG_CACHE := "cache".

Fixpoint register_loggers `{OsFaults} `{PkgErrors} (names : list string) (lg : Logger) (fs : FS)
    : error * (Logger * FS) :=
  match names with
  | [] => (None, (lg, fs))
  | name :: names =>
      match RegisterLogger fs name ("logs/" +:+ name +:+ ".log") "json" lg with
      | (Some e, r) => (Some e, r)
      | (None, (lg, fs)) => register_loggers names lg fs
      end
  end.

(** Up to [cmd.Execute]; an error is fatal. *)
Definition main_loggers `{OsFaults} `{PkgErrors} (fs : FS) : error * (Logger * FS) :=
  let '(fs, _) := os_Mkdir fs "logs" in
  register_loggers ["node"; "transaction"; "cache"] InitGlobalLogger fs.

(** ** cmd.go *)

Definition Ternary (a b : Z) : Z := if b <? a then b else a.

(** The seconds waited when the chain is at block [cur] of [high], numbers of 32 bits. *)
Definition sync_wait (cur high : Z) : Z := Ternary (i64 (u32 (high - cur) * 6)) 30.

(** The loop over the chain's answers: whether it is synchronised, an error, or none of
    these when there are no more answers; and the seconds waited. *)
Inductive sync_end := Synced | SyncError (e : string) | Syncing.

Fixpoint sync_loop (answers : list ((Z * Z) + string)) : sync_end * list Z :=
  match answers with
  | [] => (Syncing, [])
  | inr e :: _ => (SyncError e, [])
  | inl (cur, high) :: answers =>
      if cur =? high then (Synced, [])
      else let '(r, waits) := sync_loop answers in (r, sync_wait cur high :: waits)
  end.

(** The path of the configuration: the flag "c" is not defined, only its shorthand is. *)
Definition config_path (GetString : string -> string + string) : string :=
  let get n := match GetString n with inl v => v | inr _ => "" end in
  if decide (get "config" = "") then get "c" else get "config".

(** What the third-party constructors give, in the order they are called. *)
Record environment `{Ed25519} (C Sel DB R : Type) := mkEnvironment {
  env_sdk : error;
  env_sync : list ((Z * Z) + string);
  env_resource_peer : string + string;    (** the resource node's id *)
  env_random : bytes;
  env_cache : Z -> Z -> string -> C;      (** the file cache: minutes, size, directory *)
  env_selector : Sel + string;
  env_credit : string -> DB + string;     (** the credit store at a path *)
  env_record : R + string;                (** the store ./file_record *)
  env_entries : FS -> string -> list (string * (FileInfo + string));
}.
Arguments mkEnvironment {_ C Sel DB R} _ _ _ _ _ _ _ _ _.
Arguments env_sdk {_ C Sel DB R} _.
Arguments env_sync {_ C Sel DB R} _.
Arguments env_resource_peer {_ C Sel DB R} _.
Arguments env_random {_ C Sel DB R} _.
Arguments env_cache {_ C Sel DB R} _.
Arguments env_selector {_ C Sel DB R} _.
Arguments env_credit {_ C Sel DB R} _.
Arguments env_record {_ C Sel DB R} _.
Arguments env_entries {_ C Sel DB R} _.

(** The world a start changes: files, configuration, peer-to-peer network, chain. *)
Record startup (N W : Type) := mkStartup {
  st_fs : FS; st_config : globals; st_net : N; st_chain : W }.
Arguments mkStartup {N W} _ _ _ _.
Arguments st_fs {N W} _.
Arguments st_config {N W} _.
Arguments st_net {N W} _.
Arguments st_chain {N W} _.

(** How the commands end, before any service runs: an error logged, the process's exit, the
    chain still to synchronise, or what was built. *)
Inductive command_end (A : Type) :=
  | Stops (msg : string)
  | ExitStatus (code : Z) (msg : string)
  | Synchronising
  | Ready (a : A).
Arguments Stops {A} _.
Arguments ExitStatus {A} _ _.
Arguments Synchronising {A}.
Arguments Ready {A} _.

Section commands.
Context {N W C Sel DB R : Type} `{Libp2p N} `{BoundContract W} `{FileCache FS C} {RecDB : LevelDB R} `{LevelDB DB}
  `{GoTime} `{JsonMessages} `{FloatText} `{PkgErrors} `{CessConfig} `{NetUrl} `{OsFaults} `{Base58}
  `{Viper DefaultConfig}.
Abbreviation startup := (startup N W).
Abbreviation environment := (environment C Sel DB R).

Definition set_st_fs (fs : FS) (s : startup) : startup := mkStartup fs (st_config s) (st_net s) (st_chain s).
Definition set_st_net (n : N) (s : startup) : startup := mkStartup (st_fs s) (st_config s) n (st_chain s).
Definition set_st_chain (w : W) (s : startup) : startup := mkStartup (st_fs s) (st_config s) (st_net s) w.

Definition evm_client (conf : DefaultConfig) : Client W unit * error :=
  NewClient [AccountPrivateKey (NodeAccPrivateKey (CdnProto conf)); ChainID_option (ChainId (CdnProto conf));
             ConnectionRpcAddresss (Rpc (Chain conf));
             EthereumGas (GasFreeCap (CdnProto conf)) (Config.GasLimit (CdnProto conf))].

(** [cli.Account]: the zero address until a key is set. *)
Definition client_account (cli : Client W unit) : address := default zero_address (Account cli).

Definition evm_contract (conf : DefaultConfig) (cli : Client W unit) : option (CacheProtoContract W) * error :=
  NewProtoContract (GetEthClient cli) (ProtoContract (CdnProto conf)) (address_Hex (client_account cli))
    (NewTransactionOption cli) (fun St w q callback s => SubscribeFilterLogs cli w q callback s).

(** Stakes when the registration cannot be read, whatever the reason. *)
Definition register_guard (conf : DefaultConfig) (cli : Client W unit) (pc : CacheProtoContract W)
    (resource_peer : string) (w : W) : outcome (error * W) :=
  match QueryRegisterInfo pc w (client_account cli) with
  | (_, None) => Returns (None, w)
  | (_, Some _) =>
      match hex_DecodeString (TokenAccSign (CdnProto conf)) with
      | None => Returns (errors_New "decode sign error", w)
      | Some sign =>
          '(err, w) ← RegisterNode pc w (client_account cli) (HexToAddress (TokenAccAddress (CdnProto conf)))
                        resource_peer (NodeTokenId (CdnProto conf)) (cfg_Staking (CdnProto conf)) sign;
          match err with
          | Some _ => Returns (errors_New "register node on chain error", w)
          | None => Returns (None, w)
          end
      end
  end.

(** A walk that calls back into a nil actor. *)
Fixpoint restore_nil (entries : list (string * (FileInfo + string))) : outcome error :=
  match entries with
  | [] => Returns None
  | (_, inr e) :: _ => Returns (Some e)
  | (path, inl info) :: entries =>
      if fi_isdir info then restore_nil entries
      else if fi_size info =? sdk_FragmentSize then
        (if (length (strings_Split path slash) <? 4)%nat then restore_nil entries else Panics NilDereference)
      else if 0 <? fi_size info then Panics NilDereference
      else restore_nil entries
  end.

(** What runs when the services start. *)
Record node := mkNode {
  n_peer : PeerNode N;
  n_selector : Sel;
  n_contract : CacheProtoContract W;
  n_account : address;
  n_strategy : CacheStrategy;
  n_cacher : CacheActor C R DB;
  n_actors : gmap string unit;
}.

(** The actors registered: their identifiers are all one here. *)
Definition registered_actors : gmap string unit :=
  RegisterActor RESOURCE_ACTOR (Some tt)
    (RegisterActor P2P_TS_ACTOR (Some tt) (RegisterActor CACHE_ACTOR (Some tt) NewActorSystem)).

(** The last part of [cmd_run_func] before the services run. *)
Definition start_actors (env : environment) (conf : DefaultConfig) (peer : PeerNode N) (sel : Sel)
    (pc : CacheProtoContract W) (acc : address) (mg : Credit DB) (s : startup)
    : outcome (command_end node * startup) :=
  let entries := env_entries env (st_fs s) (CacheDir (Cacher conf)) in
  let cache := env_cache env (Expiration (Cacher conf)) (CacheSize (Cacher conf)) (CacheDir (Cacher conf)) in
  match NewCacher cache mg (env_record env) with
  | None =>
      err ← restore_nil entries;
      match err with
      | Some _ => Returns (Stops "restore cache file error", s)
      | None => Panics NilDereference     (* RunDownloadServer of a nil actor *)
      end
  | Some a =>
      match RestoreCacheFiles a entries with
      | (_, Some _) => Returns (Stops "restore cache file error", s)
      | (a, None) =>
          Returns (Ready (mkNode peer sel pc acc (NewResourceActor (mkCacheStrategy 0 0 0 0)) a registered_actors), s)
      end
  end.

(** From the EVM client to the credit manager. *)
Definition start_chain (env : environment) (conf : DefaultConfig) (resource_peer : string) (peer : PeerNode N)
    (sel : Sel) (s : startup) : outcome (command_end node * startup) :=
  match evm_client conf with
  | (_, Some _) => Returns (Stops "init ethereum client error", s)
  | (cli, None) =>
  match evm_contract conf cli with
  | (_, Some _) | (None, None) => Returns (Stops "init ethereum client error", s)
  | (Some pc, None) =>
      '(err, w) ← register_guard conf cli pc resource_peer (st_chain s);
      let s := set_st_chain w s in
      match err with
      | Some e => Returns (Stops e, s)
      | None =>
          match NewCreditManager (address_Hex (client_account cli)) (CachePrice (Cacher conf)) 0
                  (env_credit env (filepath_Join [NodeWorkSpace conf; "credit_record"])) with
          | (Some mg, None) => start_actors env conf peer sel pc (client_account cli) mg s
          | _ => Returns (Stops "init ethereum client error", s)
          end
      end
  end end.

(** The temporary directory. *)
Definition make_temp_dir (s : startup) : error * startup :=
  match os_Stat (st_fs s) (TempDir (st_config s)) with
  | inl _ => (None, s)
  | inr _ =>
      let '(fs, err) := os_Mkdir (st_fs s) (TempDir (st_config s)) in (err, set_st_fs fs s)
  end.

Definition listen_addr (port : Z) : string := "/ip4/0.0.0.0/tcp/" +:+ big_String port.

(** From the resource node to the selector. *)
Definition start_peers (env : environment) (conf : DefaultConfig) (s : startup)
    : outcome (command_end node * startup) :=
  match env_resource_peer env with
  | inr _ => Returns (Stops "init Client P2P Node error", s)
  | inl resource_peer =>
      let '(key, fs) :=
        Identification (st_fs s) (filepath_Join [WorkSpace (CacheP2P conf); ".key"]) (env_random env) in
      let s := set_st_fs fs s in
      match key with
      | inr _ => Returns (Stops "init p2p identification error", s)
      | inl key =>
          '(peer, err, net) ← NewPeerNode (Network (Chain conf)) Version (Boots (CacheP2P conf))
                                [Identity key; ListenAddrStrings (listen_addr (P2PPort (CacheP2P conf)))] (st_net s);
          let s := set_st_net net s in
          match peer, err with
          | None, _ | _, Some _ => Returns (Stops "init Server P2P Node error", s)
          | Some peer, None =>
              match make_temp_dir s with
              | (Some _, s) => Returns (Stops "make temp dir error", s)
              | (None, s) =>
                  match env_selector env with
                  | inr _ => Returns (Stops "init node selector error", s)
                  | inl sel => start_chain env conf resource_peer peer sel s
                  end
              end
          end
      end
  end.

Definition cmd_run_func (GetString : string -> string + string) (env : environment) (s : startup)
    : outcome (command_end node * startup) :=
  let cpath := config_path GetString in
  if decide (cpath = "") then Returns (Stops "empty config file path", s)
  else
    let '(err, (fs, g)) := ParseDefaultConfig (st_fs s) (st_config s) cpath in
    let s := mkStartup fs g (st_net s) (st_chain s) in
    let conf := GetConfig g in
    match err with
    | Some _ => Returns (Stops "error", s)
    | None =>
        match env_sdk env with
        | Some _ => Returns (Stops "init cess chain client error", s)
        | None =>
            match fst (sync_loop (env_sync env)) with
            | SyncError e => Returns (ExitStatus 1 e, s)
            | Syncing => Returns (Synchronising, s)
            | Synced => start_peers env conf s
            end
        end
    end.

(** The stream handler set on the node's host, with the orders of its contract. *)
Definition stream_handler (n : node) (now : time) (loads : Z * Z * Z) (w : W) (fs : FS) (s : net_stream) :=
  CacheService (H6 := contract_orders (n_contract n)) now loads w fs (n_cacher n) s.

(** The services of a node that is ready: the download server over the passes its threads
    make before the context ends; it ends at a signal, when a service fails, or at once when
    no boot node is configured. *)
Definition run_services (passes : list (list string)) (n : node)
    : outcome (list DownloadRequest * CacheActor C R DB) :=
  RunDownloadServer (bool_decide (is_Some (GetActor RESOURCE_ACTOR (n_actors n)))) passes (n_cacher n).

(** The command that leaves the network. *)
Definition cmd_exit_func (GetString : string -> string + string) (s : startup)
    : outcome (command_end unit * startup) :=
  let cpath := config_path GetString in
  if decide (cpath = "") then Returns (Stops "empty config file path", s)
  else
    let '(err, (fs, g)) := ParseDefaultConfig (st_fs s) (st_config s) cpath in
    let s := mkStartup fs g (st_net s) (st_chain s) in
    let conf := GetConfig g in
    match err with
    | Some _ => Returns (Stops "error", s)
    | None =>
        match evm_client conf with
        | (_, Some e) => Returns (ExitStatus 1 e, s)
        | (cli, None) =>
        match evm_contract conf cli with
        | (_, Some _) | (None, None) => Returns (ExitStatus 1 "init ethereum contract client error", s)
        | (Some pc, None) =>
            '(err, w) ← ExitNetwork pc (st_chain s) (client_account cli);
            let s := set_st_chain w s in
            match err with
            | Some _ => Returns (ExitStatus 1 "exit network error", s)
            | None => Returns (Ready tt, s)
            end
        end end
    end.
End commands.

(** ** cd2n-boot/bootnode.go *)

Record boot_Config := mkBootConfig { boot_WorkSpace : string; NetWork : string; Port : Z }.

Section boot.
Context {N : Type} `{GossipSub N} `{PkgErrors} `{OsFaults} `{Viper boot_Config}.

(** [main] until it waits for ever: the host it runs, if it got so far. Its errors are
    only logged; that of making the workspace is dropped. [advertise] is what the DHT's
    [Advertise] does. *)
Definition boot_main (advertise : string -> N -> N) (random : bytes) (fs : FS) (net : N)
    : outcome (option (PeerNode N) * (FS * N)) :=
  match ParseCommonConfig fs "./config.yaml" "yaml" (mkBootConfig "" "" 0) with
  | (_, Some _) => Returns (None, (fs, net))
  | (conf, None) =>
      let fs := match os_Stat fs (boot_WorkSpace conf) with
                | inl _ => fs
                | inr _ => fst (os_MkdirAll fs (boot_WorkSpace conf))
                end in
      match Identification fs (filepath_Join [boot_WorkSpace conf; ".key"]) random with
      | (inr _, fs) => Returns (None, (fs, net))
      | (inl key, fs) =>
          '(peer, err, net) ← NewPeerNode (NetWork conf) Version []
                                [Identity key; ListenAddrStrings (listen_addr (Port conf))] net;
          match peer, err with
          | None, _ | _, Some _ => Returns (None, (fs, net))
          | Some peer, None =>
              match mdns_Start (node_Host peer) DISCOVERY_SERVICE_TAG (advertise DISCOVERY_RENDEZVOUS net) with
              | (Some _, net) => Returns (None, (fs, net))
              | (None, net) => Returns (Some peer, (fs, net))
              end
          end
      end
  end.
End boot.
