(* ===== verification/NodeCmdFacts.v ===== *)
(** * Starting a node: its correctness

    The waits for the chain, what a start writes to the chain, and the state a node is in
    when its services begin. *)

From S2P Require Import Prelude GoStrings Encoding Json Codec Types Stream GoOs Lib External ClientFiles.
From S2P Require Import Credit CreditFacts CacheActor CacheActorFacts CacheServiceFacts ResourceActor PeerNode Discovery Config.
From S2P Require Import EvmClient CacheProto CacheProtoFacts NodeCmd.

(** ** Waiting for the chain *)

Definition block_answer (a : (Z * Z) + string) : Prop :=
  match a with inl (cur, high) => is_u32 cur /\ is_u32 high | inr _ => True end.

Definition behind (a : (Z * Z) + string) : Prop :=
  match a with inl (cur, high) => cur ≠ high | inr _ => False end.

Lemma u32_sub_pos cur high : is_u32 cur -> is_u32 high -> cur ≠ high -> 1 <= u32 (high - cur) < 2 ^ 32.
Proof.
  unfold is_u32, u32. intros Hc Hh Hn. pose proof (Z.mod_pos_bound (high - cur) (2 ^ 32)).
  assert ((high - cur) mod 2 ^ 32 ≠ 0); [|lia]. intros E. apply Z.mod_divide in E; [|lia].
  destruct E as [k Hk]. assert (k = 0) by lia. lia.
Qed.

Lemma sync_wait_bounds cur high : is_u32 cur -> is_u32 high -> cur ≠ high -> 6 <= sync_wait cur high <= 30.
Proof.
  intros Hc Hh Hn. pose proof (u32_sub_pos _ _ Hc Hh Hn). unfold sync_wait, Ternary.
  rewrite i64_id by (unfold is_i64; lia). case_match; lia.
Qed.

(** The wait for the main chain: between two questions the node sleeps from 6 to 30
    seconds, also when the current block is ahead of the highest one and the difference
    wraps around; and it goes on exactly when an answer has both numbers equal and all
    before it differ, without an error. *)
Theorem sync_loop_waits answers (Hu : Forall block_answer answers) :
  Forall (fun s => 6 <= s <= 30) (snd (sync_loop answers)) /\
  (fst (sync_loop answers) = Synced <->
     exists pre cur post, answers = pre ++ inl (cur, cur) :: post /\ Forall behind pre).
Proof.
  induction Hu as [|[[cur high]|e] answers Hb Hu IH]; cbn [sync_loop].
  - split; [constructor|]. split; [done|]. by intros ([|] & ? & ? & ? & ?).
  - destruct Hb as [Hc Hh]. destruct (cur =? high) eqn:E.
    + apply Z.eqb_eq in E as ->. split; [constructor|]. split; [intros _|done]. by exists [], high, answers.
    + apply Z.eqb_neq in E. destruct (sync_loop answers) as [r waits]. cbn in *. destruct IH as [IH1 IH2].
      split; [constructor; [by apply sync_wait_bounds|done]|]. rewrite IH2. split.
      * intros (pre & b & post & -> & Hp). exists (inl (cur, high) :: pre), b, post. split; [done|by constructor].
      * intros ([|x pre] & b & post & Ha & Hp); simplify_eq/=. apply Forall_cons in Hp as [_ Hp].
        by exists pre, b, post.
  - split; [constructor|]. split; [done|].
    intros ([|x pre] & b & post & Ha & Hp); simplify_eq/=. by apply Forall_cons in Hp as [? _].
Qed.

Lemma sync_loop_waits_witness :
  fst (sync_loop [inl (5, 9); inl (12, 9); inl (12, 12)]) = Synced /\
  Forall (fun s => 6 <= s <= 30) (snd (sync_loop [inl (5, 9); inl (12, 9); inl (12, 12)])).
Proof.
  split; [reflexivity|]. apply (sync_loop_waits [inl (5, 9); inl (12, 9); inl (12, 12)]).
  repeat constructor; vm_compute; (discriminate || reflexivity).
Defined.

(** ** What restoring the files leaves alone *)

Section actor.
Context {C R DB W : Type} `{FileCache FS C} {RecDB : LevelDB R} `{LevelDB DB} `{GoTime}
  `{JsonMessages} `{FloatText} `{PkgErrors} `{EthCrypto} `{Order2Credit W} `{CessConfig}
  `{NetUrl} `{OsFaults}.
Abbreviation actor := (CacheActor C R DB).

Definition service_state (a : actor) := (dlQueue a, creditMg a, reqNum a, act_Account a).

Lemma run_callbacks_state es (a : actor) : service_state (run_callbacks a es) = service_state a.
Proof. by destruct (run_callbacks_frame es a) as [r ->]. Qed.

Lemma restore_entry_state (a : actor) path info : service_state (restore_entry a path info) = service_state a.
Proof.
  unfold restore_entry. repeat case_match; simplify_eq; try done;
    match goal with |- service_state (run_callbacks ?b ?es) = _ => exact (run_callbacks_state es b) end.
Qed.

Lemma RestoreCacheFiles_state (a : actor) entries :
  service_state (fst (RestoreCacheFiles a entries)) = service_state a.
Proof.
  revert a. induction entries as [|[path [info|e]] entries IH]; intros a; cbn; [done| |done].
  rewrite IH. apply restore_entry_state.
Qed.
End actor.

(** ** The start of a node *)

Section start.
Context {N W C Sel DB R : Type} `{Libp2p N} `{BoundContract W} `{FileCache FS C} {RecDB : LevelDB R} `{LevelDB DB}
  `{GoTime} `{JsonMessages} `{FloatText} `{PkgErrors} `{CessConfig} `{NetUrl} `{OsFaults} `{Base58}
  `{Viper DefaultConfig}.
Abbreviation startup := (startup N W).
Abbreviation environment := (environment C Sel DB R).
Abbreviation node := (node (N := N) (W := W) (C := C) (Sel := Sel) (DB := DB) (R := R)).

(** What a start may have done to the chain: nothing, or one registration of the resource
    node's peer after the query for it failed. *)
Definition chain_effect (conf : DefaultConfig) (resource_peer : string) (w : W) (r : command_end node) (w' : W)
    : Prop :=
  w' = w \/
  exists cli pc info e sign err, evm_client conf = (cli, None) /\ evm_contract conf cli = (Some pc, None) /\
    QueryRegisterInfo pc w (client_account cli) = (info, Some e) /\
    hex_DecodeString (TokenAccSign (CdnProto conf)) = Some sign /\
    RegisterNode pc w (client_account cli) (HexToAddress (TokenAccAddress (CdnProto conf))) resource_peer
      (NodeTokenId (CdnProto conf)) (cfg_Staking (CdnProto conf)) sign = Returns (err, w') /\
    (is_Some err -> exists msg, r = Stops msg).

(** The node as the services find it. *)
Record ready_node (env : environment) (conf : DefaultConfig) (n : node) : Prop := {
  ready_queue : dlQueue (n_cacher n) = None;
  ready_account : act_Account (n_cacher n) = None;
  ready_actors : Forall (fun a => is_Some (GetActor a (n_actors n))) [CACHE_ACTOR; P2P_TS_ACTOR; RESOURCE_ACTOR];
  ready_strategy : n_strategy n = NewResourceActor (mkCacheStrategy 0 0 0 0);
  ready_contract : calls_return (n_contract n);
  ready_record : exists db, env_record env = inl db;
  ready_credit : exists db, env_credit env (filepath_Join [NodeWorkSpace conf; "credit_record"]) = inl db /\
    creditMg (n_cacher n)
    = mkCredit (CachePrice (Cacher conf)) (address_Hex (n_account n)) DEFALUT_RESOURCE_LIMIT db;
}.

Lemma start_actors_ready (env : environment) conf peer sel pc acc mg (s : startup) r s' :
  start_actors env conf peer sel pc acc mg s = Returns (r, s') ->
  st_chain s' = st_chain s /\
  forall n, r = Ready n -> n_account n = acc /\ dlQueue (n_cacher n) = None /\ act_Account (n_cacher n) = None /\
    creditMg (n_cacher n) = mg /\ n_actors n = registered_actors /\ n_contract n = pc /\
    n_strategy n = NewResourceActor (mkCacheStrategy 0 0 0 0) /\ exists db, env_record env = inl db.
Proof.
  unfold start_actors. destruct (env_record env) as [db|e] eqn:Er; cbn [NewCacher].
  - set (a0 := mkCacheActor _ _ _ _ _ _). intros E.
    pose proof (RestoreCacheFiles_state a0 (env_entries env (st_fs s) (CacheDir (Cacher conf)))) as Hs.
    destruct (RestoreCacheFiles a0 _) as [a [e|]]; simplify_eq/=; (split; [done|]); intros n Hn; [done|].
    injection Hn as <-. cbn in *. split_and!; try done. by exists db.
  - destruct (restore_nil _) as [[err|]|]; cbn; [|done|done]. intros [= <- <-]. by split.
Qed.

(** The node's client has a connection and a key. *)
Lemma evm_client_ok conf (cl : Client W unit) : evm_client conf = (cl, None) ->
  is_Some (cli cl) /\ is_Some (sk cl).
Proof.
  unfold evm_client, NewClient. destruct (apply_options _ _) as [c [e|]] eqn:E.
  { destruct (Wrap_not_nil e "new ethereum client error") as [m ->]. done. }
  assert (is_Some (sk c)) as Hc.
  { cbn [apply_options] in E. unfold AccountPrivateKey, ConnectionRpcAddresss in E. destruct (HexToECDSA _) as [k|e]; [|done].
    cbn in E. case_decide; [done|]. cbn in E. injection E as <-. by eexists. }
  case_decide; [destruct (Wrap_not_nil "no RPC address is configured" "new ethereum client error") as [m Hm];
    unfold errors_New; by rewrite Hm|].
  set (c1 := match dial_first _ with Some e => _ | None => _ end).
  assert (is_Some (sk c1)) as Hk by (unfold c1; by destruct (dial_first _)).
  destruct (cli c1) as [e|] eqn:Ec; [intros [= <-]; split; [by eexists|done]|].
  destruct (Wrap_not_nil "chain RPC connection failed" "new ethereum client error") as [m Hm].
  unfold errors_New. by rewrite Hm.
Qed.

Lemma evm_contract_returns conf cl pc : evm_client conf = (cl, None) ->
  evm_contract conf cl = (Some pc, None) -> calls_return pc.
Proof.
  intros [[e He] [k Hk]]%evm_client_ok. unfold evm_contract, NewProtoContract.
  destruct (NewCacheProto _ _) as [b|e']; [|done].
  intros [= <-]. split; intros; cbn [NewOption LogFilter].
  - unfold NewTransactionOption, the_ethclient, GetPrivateKey. rewrite He, Hk. cbn [mbind outcome_bind].
    destruct (transactor_fault _ _); by eexists.
  - unfold SubscribeFilterLogs, the_ethclient. rewrite He. cbn [mbind outcome_bind].
    destruct (client_SubscribeFilterLogs _ _ _) as [[evs|x] w']; by eexists.
Qed.

Lemma start_chain_ready (env : environment) conf rp peer sel (s : startup) r s' :
  start_chain env conf rp peer sel s = Returns (r, s') ->
  chain_effect conf rp (st_chain s) r (st_chain s') /\ forall n, r = Ready n -> ready_node env conf n.
Proof.
  unfold start_chain. destruct (evm_client conf) as [cli [e|]] eqn:Ec; [intros [= <- <-]; split; [by left|done]|].
  destruct (evm_contract conf cli) as [[pc|] [e|]] eqn:Ep;
    try (intros [= <- <-]; split; [by left|done]).
  intros ([err w] & Eg & E)%outcome_bind_Returns. cbv beta iota zeta in E.
  assert (Heff : forall r, (is_Some err -> exists msg, r = Stops msg) -> chain_effect conf rp (st_chain s) r w).
  { intros r0 Hr0. unfold register_guard in Eg.
    destruct (QueryRegisterInfo _ _ _) as [info [e|]] eqn:Eq; [|injection Eg as <- <-; by left].
    destruct (hex_DecodeString _) as [sign|] eqn:Es; [|injection Eg as <- <-; by left].
    apply outcome_bind_Returns in Eg as ([err' w1] & Er & Eg). right.
    exists cli, pc, info, e, sign, err'. destruct err' as [x|]; injection Eg as <- <-; split_and!; try done.
    intros _. by apply Hr0. }
  destruct err as [e|]; [injection E as <- <-; split; [apply Heff; by eexists|done]|].
  unfold NewCreditManager in E. destruct (env_credit env _) as [db|e] eqn:Edb; cbn in E.
  - pose proof (start_actors_ready _ _ _ _ _ _ _ _ _ _ E) as [-> Hn]. cbn. split; [apply Heff; by intros [? ?]|].
    intros n Hr. destruct (Hn n Hr) as (Ha & Hq & Hac & Hc & Hact & Hpc & Hstr & Hrec). split; try done.
    + rewrite Hact. repeat constructor; by eexists.
    + rewrite Hpc. by eapply evm_contract_returns.
    + exists db. rewrite Ha. by split.
  - injection E as <- <-; (split; [apply Heff; by intros [? ?]|done]).
Qed.

Lemma start_peers_ready (env : environment) conf (s : startup) r s' :
  start_peers env conf s = Returns (r, s') ->
  (exists rp, chain_effect conf rp (st_chain s) r (st_chain s') /\
     (env_resource_peer env = inl rp \/ st_chain s' = st_chain s)) /\
  forall n, r = Ready n -> ready_node env conf n.
Proof.
  unfold start_peers. destruct (env_resource_peer env) as [rp|e] eqn:Erp.
  2: { intros [= <- <-]. split; [exists ""; split; [by left|by right]|done]. }
  destruct (Identification _ _ _) as [[key|e] fs].
  2: { intros [= <- <-]. split; [exists rp; split; [by left|by left]|done]. }
  intros ([[peer err] net] & _ & E)%outcome_bind_Returns. cbv beta iota zeta in E.
  assert (Hstop : forall msg (s1 : startup), st_chain s1 = st_chain s -> Returns (Stops msg, s1) = Returns (r, s') ->
    (exists rp0, chain_effect conf rp0 (st_chain s) r (st_chain s') /\
       (inl rp = @inl _ string rp0 \/ st_chain s' = st_chain s)) /\ forall n, r = Ready n -> ready_node env conf n).
  { intros msg s1 Hs [= <- <-]. split; [exists rp; split; [by left|by left]|done]. }
  destruct peer as [peer|]; [|by refine (Hstop _ _ _ E)]. destruct err as [e|]; [by refine (Hstop _ _ _ E)|].
  unfold make_temp_dir in E. destruct (os_Stat _ _).
  - destruct (env_selector env) as [sel|]; [|by refine (Hstop _ _ _ E)].
    apply start_chain_ready in E as [He Hr]. split; [exists rp; by split; [|left]|done].
  - destruct (os_Mkdir _ _) as [fs' [e|]]; [by refine (Hstop _ _ _ E)|].
    destruct (env_selector env) as [sel|]; [|by refine (Hstop _ _ _ E)].
    apply start_chain_ready in E as [He Hr]. split; [exists rp; by split; [|left]|done].
Qed.

(** The configuration a command reads. *)
Definition read_config (GetString : string -> string + string) (s : startup) : DefaultConfig :=
  GetConfig (snd (snd (ParseDefaultConfig (st_fs s) (st_config s) (config_path GetString)))).

Lemma cmd_run_ready GetString (env : environment) (s : startup) r s' :
  cmd_run_func GetString env s = Returns (r, s') ->
  (exists rp, chain_effect (read_config GetString s) rp (st_chain s) r (st_chain s') /\
     (env_resource_peer env = inl rp \/ st_chain s' = st_chain s)) /\
  forall n, r = Ready n -> ready_node env (read_config GetString s) n.
Proof.
  unfold cmd_run_func, read_config.
  assert (Hsame : forall r1 (s1 : startup), (forall n, r1 ≠ Ready n) -> st_chain s1 = st_chain s ->
    Returns (r1, s1) = Returns (r, s') -> forall conf,
    (exists rp, chain_effect conf rp (st_chain s) r (st_chain s') /\
       (env_resource_peer env = inl rp \/ st_chain s' = st_chain s)) /\
    forall n, r = Ready n -> ready_node env conf n).
  { intros r1 s1 Hr Hs [= <- <-] conf. split; [exists ""; split; [by left|by right]|].
    intros n Hn. by destruct (Hr n). }
  case_decide; [intros E; by refine (Hsame _ _ _ _ E _)|].
  destruct (ParseDefaultConfig _ _ _) as [err [fs g]]. cbn [fst snd].
  destruct err as [e|]; [intros E; by refine (Hsame _ _ _ _ E _)|].
  destruct (env_sdk env) as [e|]; [intros E; by refine (Hsame _ _ _ _ E _)|].
  destruct (fst (sync_loop _)); [|intros E; by refine (Hsame _ _ _ _ E _)..].
  intros E. exact (start_peers_ready env _ _ _ _ E).
Qed.

(** C32: Starting a node changes nothing on the chain, or makes one registration: of the
    resource node's peer, after the query for the node's registration failed, for whatever
    reason; and if that registration fails the start stops with an error. *)
Theorem start_stakes_at_most_once GetString (env : environment) (s : startup) r s'
    (Hrun : cmd_run_func GetString env s = Returns (r, s')) :
  st_chain s' = st_chain s \/
  exists rp, env_resource_peer env = inl rp /\
    chain_effect (read_config GetString s) rp (st_chain s) r (st_chain s').
Proof.
  destruct (cmd_run_ready _ _ _ _ _ Hrun) as [(rp & He & [Hp|Hs]) _]; [right; by exists rp|by left].
Qed.

(** C33: When the start gives a node, its three actors are registered, its counters and
    credit stores were opened and the credit manager is the configured account's; but its
    download queue is still nil while its stream handler already answers: a query for a
    segment that arrives before the download server runs panics. *)
Theorem started_node_panics_on_query GetString (env : environment) (s : startup) n s'
    now loads fs req pk f seg
    (Hrun : cmd_run_func GetString env s = Returns (Ready n, s'))
    (Hreq : sendable req) (Ho : Types.Option req = OPTION_QUERY) (Hu : WantUrl req = "")
    (Hf : plain_name f) (Hseg : plain_name seg) (Hw : WantFile req = filepath_Join [f; seg])
    (Hk : DecompressPubkey (elems (AccountId req)) = inl pk) (Hst : store_ok (creditMg (n_cacher n))) :
  ready_node env (read_config GetString s) n /\
  stream_handler n now loads (st_chain s') fs (client_stream (request_text req)) = Panics NilDereference.
Proof.
  destruct (cmd_run_ready _ _ _ _ _ Hrun) as [_ Hr]. specialize (Hr n eq_refl). split; [done|].
  apply (query_before_server_panics (H6 := contract_orders (n_contract n)) now loads (st_chain s') fs
    (n_cacher n) req pk f seg); try done. by destruct Hr.
Qed.
End start.
