(* ===== verification/Commands.v ===== *)
(** * The command lines: cd2n-node/run/cmd/cmd.go and eth-tools/eth_tools.go

    The tables of commands and flags that the two programs register with cobra, what their
    [Execute] does with the arguments, and what the flags' lookups can find. *)

From S2P Require Import Prelude GoStrings Encoding Json Codec Types Stream GoOs Lib External ClientFiles.
From S2P Require Import Credit CacheActor ResourceActor PeerNode Discovery Config EvmClient CacheProto EventStream Bindings.
From S2P Require Import Token EthTools NodeCmd.

(** A flag as [StringP] defines it, and a command. *)
Record Flag := mkFlag { flag_name : string; flag_shorthand : string; flag_default : string; flag_usage : string }.

Record Command (A : Type) := mkCommand {
  cmd_Use : string;
  cmd_Short : string;
  DisableFlagsInUseLine : bool;
  cmd_Run : option ((string -> string + string) -> A);
  cmd_Flags : list Flag;
}.
Arguments mkCommand {A} _ _ _ _ _.
Arguments cmd_Use {A} _.
Arguments cmd_Short {A} _.
Arguments DisableFlagsInUseLine {A} _.
Arguments cmd_Run {A} _.
Arguments cmd_Flags {A} _.

(** The root command with what was added to it. *)
Record program (A : Type) := mkProgram { p_root : Command A; p_persistent : list Flag; p_commands : list (Command A) }.
Arguments mkProgram {A} _ _ _.
Arguments p_root {A} _.
Arguments p_persistent {A} _.
Arguments p_commands {A} _.

Definition undefined_flag (name : string) : string := "flag accessed but not defined: " +:+ name.

(** cobra finds the command the arguments name, or the root itself; pflag gives the value of
    a defined flag under its name, and an error for any other name. *)
Class Cobra := {
  cobra_find : list string -> list string -> option nat + string;   (** commands' names, arguments *)
  GetString : list Flag -> list string -> string -> string + string;
  GetString_defined : forall flags args f, f ∈ flags -> exists v, GetString flags args (flag_name f) = inl v;
  GetString_undefined : forall flags args name, name ∉ map flag_name flags ->
    GetString flags args name = inr (undefined_flag name);
}.

(** What a call of the program comes to: its command's end, the help text, or an error of
    the command line, which exits with status 1. *)
Inductive execution (A : Type) := Ran (r : A) | Help | Exits (code : Z) (msg : string).
Arguments Ran {A} _.
Arguments Help {A}.
Arguments Exits {A} _ _.

Definition flags_of {A} (p : program A) (c : Command A) : list Flag := (p_persistent p ++ cmd_Flags c)%list.

Definition Execute `{Cobra} {A} (p : program A) (args : list string) : execution A :=
  match cobra_find (map cmd_Use (p_commands p)) args with
  | inr e => Exits 1 e
  | inl found =>
      let c := match found with Some i => default (p_root p) (p_commands p !! i) | None => p_root p end in
      match cmd_Run c with
      | None => Help
      | Some run => Ran (run (GetString (flags_of p c) args))
      end
  end.

Definition CACHE_NAME : string := "cacher".

(** ** cd2n-node/run/cmd/cmd.go *)

Section node.
Context {N W C Sel DB R : Type} `{Libp2p N} `{BoundContract W} `{FileCache FS C} {RecDB : LevelDB R} `{LevelDB DB}
  `{GoTime} `{JsonMessages} `{FloatText} `{PkgErrors} `{CessConfig} `{NetUrl} `{OsFaults} `{Base58}
  `{Viper DefaultConfig} `{Cobra}.

Inductive node_end :=
  | RunEnds (r : outcome (command_end (node (N := N) (W := W) (C := C) (Sel := Sel) (DB := DB) (R := R)) * startup N W))
  | ExitEnds (r : outcome (command_end unit * startup N W)).

Definition cmd_run (env : environment C Sel DB R) (s : startup N W) : Command node_end :=
  mkCommand "run" "Running services" true (Some (fun gs => RunEnds (cmd_run_func gs env s))) [].

Definition cmd_exit_network (s : startup N W) : Command node_end :=
  mkCommand "exit" "exit node from CDepin CDN network and redeem staking" true
    (Some (fun gs => ExitEnds (cmd_exit_func gs s))) [].

(** The root command after [InitCmd]. *)
Definition InitCmd (env : environment C Sel DB R) (s : startup N W) : program node_end :=
  mkProgram (mkCommand CACHE_NAME "light cache service based on CESS network" false None [])
    [mkFlag "config" "c" "" "custom profile"]
    [cmd_run env s; cmd_exit_network s].

Definition node_Execute (env : environment C Sel DB R) (s : startup N W) (args : list string) : execution node_end :=
  Execute (InitCmd env s) args.

(** [main]: the loggers, then the command, on the files that making the loggers left. *)
Definition node_main (env : environment C Sel DB R) (s : startup N W) (args : list string) : execution node_end :=
  match main_loggers (st_fs s) with
  | (Some e, _) => Exits 1 e
  | (None, (_, fs)) => node_Execute env (set_st_fs fs s) args
  end.
End node.

(** ** eth-tools/eth_tools.go *)

Section tools.
Context {W : Type} `{TokenBinding W} `{PkgErrors} `{OsFaults} `{Viper tools_Config} `{Cobra}.

Definition tools_end : Type := outcome (EthTools.command_end * W).

Definition buyTokenCmd (fs : FS) (w : W) : Command tools_end :=
  mkCommand "buy-token" "buy light cache node token" true (Some (fun gs => buy_token_run gs fs w))
    [mkFlag "config" "c" "" "custom profile"; mkFlag "screctKey" "s" "" "ethereum account private key";
     mkFlag "value" "v" "0" "the amount required to purchase Token (in CESS)"].

Definition signNodeCmd (w : W) : Command tools_end :=
  mkCommand "sign-node" "signature (node account, tokenId) message pair, used to cache node registration" true
    (Some (fun gs => e ← sign_node_run gs; Returns (e, w)))
    [mkFlag "nodeAcc" "n" "" "cache node's ethereum account";
     mkFlag "screctKey" "s" "" "token owner's ethereum account private key";
     mkFlag "tokenId" "t" "" "the tokenId that needs to be bound"].

Definition tools_InitCmd (fs : FS) (w : W) : program tools_end :=
  mkProgram (mkCommand CACHE_NAME "ethereum tools for light cache node" false None []) []
    [buyTokenCmd fs w; signNodeCmd w].

Definition tools_main (fs : FS) (w : W) (args : list string) : execution tools_end :=
  Execute (tools_InitCmd fs w) args.
End tools.

(** ** What a lookup finds *)

(** No flag is named by a shorthand. *)
Definition shorthands_free {A} (p : program A) : Prop :=
  forall c f, c ∈ p_root p :: p_commands p -> f ∈ flags_of p c -> flag_shorthand f ∉ map flag_name (flags_of p c).

Lemma ParseFlagValue_finds `{Cobra} flags args f :
  f ∈ flags -> flag_shorthand f ∉ map flag_name flags ->
  exists v, GetString flags args (flag_name f) = inl v /\
    ParseFlagValue (GetString flags args) (flag_name f) (flag_shorthand f)
    = if decide (v = "") then ("", errors_New ("parse flag " +:+ flag_name f +:+ " [" +:+ flag_shorthand f
         +:+ "] value error " +:+ undefined_flag (flag_shorthand f)))
      else (v, None).
Proof.
  intros Hf Hs. destruct (GetString_defined flags args f Hf) as [v Hv]. exists v. split; [done|].
  unfold ParseFlagValue. rewrite Hv, (GetString_undefined _ _ _ Hs). by case_decide.
Qed.

Lemma config_path_finds `{Cobra} flags args : "config" ∈ map flag_name flags -> "c" ∉ map flag_name flags ->
  exists v, GetString flags args "config" = inl v /\ GetString flags args "c" = inr (undefined_flag "c")
    /\ config_path (GetString flags args) = v.
Proof.
  intros Hin Hc. apply list_elem_of_In, in_map_iff in Hin as (f & Hf & Hin%list_elem_of_In).
  destruct (GetString_defined flags args f Hin) as [v Hv]. rewrite Hf in Hv.
  pose proof (GetString_undefined flags args "c" Hc) as Hu. exists v. split_and!; [done|done|].
  unfold config_path. rewrite Hv, Hu. by case_decide.
Qed.

Section lookups.
Context {N W C Sel DB R : Type} `{Libp2p N} `{BoundContract W} `{FileCache FS C} {RecDB : LevelDB R} `{LevelDB DB}
  `{GoTime} `{JsonMessages} `{FloatText} `{PkgErrors} `{CessConfig} `{NetUrl} `{OsFaults} `{Base58}
  `{Viper DefaultConfig} `{!TokenBinding W} `{Viper tools_Config} `{Cobra}.

(** The second lookups of the flags are in vain. In both programs and for every command
    line, a flag is found under its name, and its shorthand is no name: the node's commands
    take their configuration from "config" alone, and [ParseFlagValue] of the tools gives
    the named flag's value, or, when it is empty, fails because the flag named by the
    shorthand is not defined, also when the user gave the shorthand with an empty value. *)
Theorem shorthand_lookups_fail (args : list string) :
  (forall (env : environment C Sel DB R) (s : startup N W) c, c ∈ p_commands (InitCmd env s) ->
     let gs := GetString (flags_of (InitCmd env s) c) args in
     exists v, gs "config" = inl v /\ gs "c" = inr (undefined_flag "c") /\ config_path gs = v)
  /\ forall fs (w : W) c f, c ∈ p_commands (tools_InitCmd fs w) -> f ∈ cmd_Flags c ->
     let gs := GetString (flags_of (tools_InitCmd fs w) c) args in
     exists v, gs (flag_name f) = inl v /\ ParseFlagValue gs (flag_name f) (flag_shorthand f)
       = if decide (v = "") then ("", errors_New ("parse flag " +:+ flag_name f +:+ " [" +:+ flag_shorthand f
            +:+ "] value error " +:+ undefined_flag (flag_shorthand f)))
         else (v, None).
Proof.
  split.
  - intros env s c Hc gs. unfold gs.
    apply elem_of_cons in Hc as [->|Hc%list_elem_of_singleton]; [|subst c];
      (apply config_path_finds; [by left|by apply (bool_decide_unpack _)]).
  - intros fs w c f Hc Hf gs. unfold gs.
    apply elem_of_cons in Hc as [->|Hc%list_elem_of_singleton]; [|subst c]; cbn [p_persistent tools_InitCmd flags_of app];
      (apply ParseFlagValue_finds; [done|]); cbn [cmd_Flags buyTokenCmd signNodeCmd] in *;
      repeat (apply elem_of_cons in Hf as [->|Hf]; [by apply (bool_decide_unpack _)|]); by apply elem_of_nil in Hf.
Qed.
End lookups.

(** ** A sample command line: the command's name, then flags and values in turn *)

Fixpoint flag_value (args : list string) (f : Flag) : string :=
  match args with
  | a :: v :: args =>
      if bool_decide (a = "--" +:+ flag_name f) || bool_decide (a = "-" +:+ flag_shorthand f) then v
      else flag_value args f
  | _ => flag_default f
  end.

#[local] Program Instance sample_cobra : Cobra := {
  cobra_find names args :=
    match args with
    | [] => inl None
    | a :: _ => match list_find (fun n => n = a) names with
                | Some (i, _) => inl (Some i)
                | None => inr ("unknown command " +:+ a)
                end
    end;
  GetString flags args name :=
    match List.find (fun f => bool_decide (flag_name f = name)) flags with
    | Some f => inl (flag_value (tail args) f)
    | None => inr (undefined_flag name)
    end;
}.
Next Obligation.
  intros flags args f Hf. cbn. destruct (List.find _ flags) eqn:E; [by eexists|].
  apply List.find_none with (x := f) in E; [|by apply list_elem_of_In].
  apply bool_decide_eq_false in E. done.
Qed.
Next Obligation.
  intros flags args name Hn. cbn. destruct (List.find _ flags) as [f|] eqn:E; [|done].
  apply List.find_some in E as [Hin Hf%bool_decide_eq_true]. destruct Hn. rewrite <- Hf.
  by apply list_elem_of_In, in_map.
Qed.
