(* ===== verification/RunningNode.v ===== *)
(** * A running node: all its services at once

    The goroutines of a started node (cd2n-node/run/cmd/cmd.go) on the state they share:
    the stream handler, the threads of the download server, the two actors taking messages
    from their mailboxes in order, the discovery of peers, the server that claims rewards,
    the context that ends them, the file cache's own evictions and the chain. One step is one
    stream handled, one queue entry visited, one message taken, one peer tried or one tick of
    the claims, in any order. *)

From S2P Require Import Prelude GoStrings Encoding Json JsonFacts Codec Types Stream GoOs Lib External Storage ClientFiles.
From S2P Require Import Credit CreditFacts CacheActor CacheActorFacts LedgerFacts CacheServiceFacts ResourceActor NeighborQuery.
From S2P Require Import PeerNode Discovery Config EvmClient CacheProto CacheProtoFacts NodeCmd NodeCmdFacts.

(** [ClaimWorkRewardServer] before it has looked up the registration, at a term, or returned. *)
Inductive claim_server :=
  | ClaimsIdle
  | Claiming (term : Z)
  | ClaimsDone.

(** The context is live; it ended; the download server has returned too. *)
Inductive stage := Live | Stopping | Stopped.

(** The files are those of the resource actor's world; a mailbox's head is its oldest message. *)
Record running (C R DB W NET Net Sel : Type) := mkRunning {
  run_cacher : CacheActor C R DB;
  run_chain : W;
  run_world : world NET Net Sel;
  run_requests : list DownloadRequest;   (** of the resource actor *)
  run_messages : list message;           (** of the cache actor *)
  run_claims : claim_server;
  run_stage : stage;
}.
Arguments mkRunning {C R DB W NET Net Sel} _ _ _ _ _ _ _.
Arguments run_cacher {C R DB W NET Net Sel} _.
Arguments run_chain {C R DB W NET Net Sel} _.
Arguments run_world {C R DB W NET Net Sel} _.
Arguments run_requests {C R DB W NET Net Sel} _.
Arguments run_messages {C R DB W NET Net Sel} _.
Arguments run_claims {C R DB W NET Net Sel} _.
Arguments run_stage {C R DB W NET Net Sel} _.

Section running.
Context {C R DB W NET Net Sel : Type} `{FileCache FS C} {RecDB : LevelDB R} `{LevelDB DB} `{GoTime}
  `{JsonMessages} `{FloatText} `{PkgErrors} `{BoundContract W} `{Base58} {orders : Order2Credit W} `{CessConfig}
  `{NetUrl} `{OsFaults} `{StorageNet NET} `{CacheNet Net} `{PeerHost Net} `{Selector Sel} `{PeerPool Sel}
  `{Multihash} `{Http Net}.
Abbreviation running := (running C R DB W NET Net Sel).

(** What happens next, with what it finds: the time, the loads of the request counter, the
    client's stream, the answers of the neighbours, the shuffle, what the cache evicted. The
    context ends at a signal, when the discovery fails and when the node is not registered. *)
Inductive operation :=
  | OpServe (now : time) (loads : Z * Z * Z) (s : net_stream)
  | OpVisit (key : string)
  | OpFetch (neighbors : Net * Sel -> string -> (list (string * CacheResponse) + string) * (Net * Sel))
      (intn : nat -> nat)
  | OpReceive (now : time)
  | OpEvict (c : C) (es : list cache_event)
  | OpDiscover (p : AddrInfo)
  | OpClaimStart
  | OpClaimTick
  | OpClaimEnd
  | OpStop
  | OpServerEnd
  | OpChain (w : W).

Definition set_fs (fs : FS) (w : world NET Net Sel) : world NET Net Sel :=
  mkWorld (w_storage w) (w_net w) (w_selector w) fs.

Definition moved (a : CacheActor C R DB) (chain : W) (w : world NET Net Sel) (requests : list DownloadRequest)
    (messages : list message) (m : running) : running :=
  mkRunning a chain w requests messages (run_claims m) (run_stage m).
Definition set_claims (c : claim_server) (m : running) : running :=
  mkRunning (run_cacher m) (run_chain m) (run_world m) (run_requests m) (run_messages m) c (run_stage m).
Definition set_stage (x : stage) (m : running) : running :=
  mkRunning (run_cacher m) (run_chain m) (run_world m) (run_requests m) (run_messages m) (run_claims m) x.
Definition set_run_chain (w : W) (m : running) : running :=
  moved (run_cacher m) w (run_world m) (run_requests m) (run_messages m) m.

(** The head of the cache actor's mailbox is handled; its reply goes to the sender. *)
Definition take_message (now : time) (m : running) : outcome running :=
  match run_messages m with
  | [] => Returns m
  | msg :: rest =>
      '(_, (a, fs)) ← Receive now (run_cacher m) (w_fs (run_world m)) msg;
      Returns (moved a (run_chain m) (set_fs fs (run_world m)) (run_requests m) rest m)
  end.

(** A thread of the download server visits an entry of the queue; the last pass of a thread
    may still run when the context has ended. *)
Definition visit_task (key : string) (m : running) : outcome running :=
  match run_stage m with
  | Stopped => Returns m
  | _ =>
      q ← the_queue (run_cacher m);
      match q !! key with
      | None => Returns m
      | Some task =>
          '(req, a) ← serve_task key task (run_cacher m);
          Returns (moved a (run_chain m) (run_world m) (run_requests m ++ option_list req)%list (run_messages m) m)
      end
  end.

(** The head of the resource actor's mailbox is handled. *)
Definition take_request (TempDir : string) (strategy : CacheStrategy)
    (neighbors : Net * Sel -> string -> (list (string * CacheResponse) + string) * (Net * Sel))
    (intn : nat -> nat) (m : running) : outcome running :=
  match run_requests m with
  | [] => Returns m
  | req :: rest =>
      '(sent, w) ← resource_Receive TempDir neighbors strategy intn true (run_world m) req;
      Returns (moved (run_cacher m) (run_chain m) w rest (run_messages m ++ option_list sent)%list m)
  end.

Definition stop (m : running) : running :=
  match run_stage m with Live => set_stage Stopping m | _ => m end.

(** The steps of [ClaimWorkRewardServer] on its goroutine: the look-up, whose error ends the
    context, the ticks, and the return when the context has ended. *)
Definition start_claims (pc : CacheProtoContract W) (acc : address) (m : running) : running :=
  match run_claims m with
  | ClaimsIdle =>
      match QueryRegisterInfo pc (run_chain m) acc with
      | (_, Some _) => stop (set_claims ClaimsDone m)
      | (_, None) => set_claims (Claiming 1) m
      end
  | _ => m
  end.

Definition tick_claims (pc : CacheProtoContract W) (acc : address) (m : running) : outcome running :=
  match run_claims m with
  | Claiming term =>
      '(term, w) ← claim_tick pc acc term (run_chain m);
      Returns (set_claims (Claiming term) (set_run_chain w m))
  | _ => Returns m
  end.

Definition end_claims (m : running) : running :=
  match run_claims m, run_stage m with
  | Claiming _, (Stopping | Stopped) => set_claims ClaimsDone m
  | _, _ => m
  end.

(** The threads have returned: the queue is nil again. *)
Definition end_server (m : running) : running :=
  match run_stage m with
  | Stopping => set_stage Stopped
      (moved (stop_download_server (run_cacher m)) (run_chain m) (run_world m) (run_requests m) (run_messages m) m)
  | _ => m
  end.

Definition run_operation (pc : CacheProtoContract W) (acc : address) (TempDir : string) (strategy : CacheStrategy)
    (op : operation) (m : running) : outcome running :=
  let w := run_world m in
  match op with
  | OpServe now loads s =>
      '((a, chain), _) ← CacheService now loads (run_chain m) (w_fs w) (run_cacher m) s;
      Returns (moved a chain w (run_requests m) (run_messages m) m)
  | OpVisit key => visit_task key m
  | OpFetch neighbors intn => take_request TempDir strategy neighbors intn m
  | OpReceive now => take_message now m
  | OpEvict c es =>
      Returns (moved (run_callbacks (set_cache c (run_cacher m)) es) (run_chain m) w (run_requests m) (run_messages m) m)
  | OpDiscover p =>
      Returns (moved (run_cacher m) (run_chain m) (set_peers (node_consume p (w_net w, w_selector w)) w)
        (run_requests m) (run_messages m) m)
  | OpClaimStart => Returns (start_claims pc acc m)
  | OpClaimTick => tick_claims pc acc m
  | OpClaimEnd => Returns (end_claims m)
  | OpStop => Returns (stop m)
  | OpServerEnd => Returns (end_server m)
  | OpChain chain => Returns (set_run_chain chain m)
  end.

(** A schedule of operations. *)
Fixpoint run_ops (pc : CacheProtoContract W) (acc : address) (TempDir : string) (strategy : CacheStrategy)
    (ops : list operation) (m : running) : outcome running :=
  match ops with
  | [] => Returns m
  | op :: ops => m ← run_operation pc acc TempDir strategy op m; run_ops pc acc TempDir strategy ops m
  end.

(** ** Every operation returns *)

Lemma resource_Receive_returns TempDir neighbors strategy intn ready (w : world NET Net Sel) req :
  NeighborNum strategy ≠ 0 ->
  exists sent w', resource_Receive TempDir neighbors strategy intn ready w req = Returns (sent, w').
Proof.
  intros Hn. unfold resource_Receive. destruct ready; cbn [negb]; [|by eexists _, _].
  case_decide.
  - destruct (req_Data req) as [creq|]; [|by eexists _, _].
    destruct (strings_Split _ _) as [|h0 [|h1 [|h2 hs]]]; [by eexists _, _..| |by eexists _, _].
    unfold DownloadStoragedFiles, cache_number. rewrite (proj2 (Z.eqb_neq _ _)) by done.
    destruct (QueryFile _ _) as [fmeta|e]; cbn [mbind outcome_bind]; [|by eexists _, _].
    destruct (cache_segments _ _ _ _ _ _ _ _ _ _ _ _ _) as [resps w']. by eexists _, _.
  - case_decide; [|by eexists _, _]. destruct (req_Data req) as [creq|]; [|by eexists _, _].
    destruct (downloadfile _ _ _ _) as [[n [e|]] nf]; by eexists _, _.
Qed.

(** A file that a stream may read has a size an [int64] holds. *)
Definition sized_at (op : operation) (m : running) : Prop :=
  match op with OpServe _ _ _ => sized (w_fs (run_world m)) | _ => True end.

Fixpoint sized_along (pc : CacheProtoContract W) (acc : address) (TempDir : string) (strategy : CacheStrategy)
    (ops : list operation) (m : running) : Prop :=
  match ops with
  | [] => True
  | op :: ops => sized_at op m /\
      match run_operation pc acc TempDir strategy op m with
      | Returns m' => sized_along pc acc TempDir strategy ops m'
      | Panics _ => True
      end
  end.

#[export] Instance sized_dec fs : Decision (sized fs).
Proof. unfold sized. apply _. Defined.

#[export] Instance sized_along_dec pc acc TempDir strategy ops m : Decision (sized_along pc acc TempDir strategy ops m).
Proof.
  revert m. induction ops as [|op ops IH]; intros m; cbn [sized_along]; [apply _|].
  apply and_dec; [destruct op; cbn [sized_at]; apply _|].
  destruct (run_operation pc acc TempDir strategy op m); [apply IH|apply _].
Defined.

Definition is_chain (op : operation) : bool := match op with OpChain _ => true | _ => false end.
Definition is_tick (op : operation) : bool := match op with OpClaimTick => true | _ => false end.
Definition is_end (op : operation) : bool := match op with OpServerEnd => true | _ => false end.

(** One claim of the node's reward. *)
Definition claimed (pc : CacheProtoContract W) (acc : address) (w w' : W) : Prop :=
  exists r, ClaimWorkReward pc w acc = Returns (r, w').

(** What the chain went through: claims, at most this many. *)
Definition claims_within (pc : CacheProtoContract W) (acc : address) (n : nat) (w w' : W) : Prop :=
  exists k, nsteps (claimed pc acc) k w w' /\ (k <= n)%nat.

Lemma claims_none pc acc w : claims_within pc acc 0 w w.
Proof. exists 0%nat. split; [apply nsteps_O|done]. Qed.

Lemma claims_trans pc acc n1 n2 w1 w2 w3 :
  claims_within pc acc n1 w1 w2 -> claims_within pc acc n2 w2 w3 -> claims_within pc acc (n1 + n2) w1 w3.
Proof. intros (k1 & H1' & ?) (k2 & H2' & ?). exists (k1 + k2)%nat. split; [by eapply nsteps_trans|lia]. Qed.

Lemma claim_tick_within pc acc term (w : W) : calls_return pc ->
  exists term' w', claim_tick pc acc term w = Returns (term', w') /\ claims_within pc acc 1 w w'.
Proof.
  intros Hpc. unfold claim_tick.
  assert (Hsame : claims_within pc acc 1 w w) by (exists 0%nat; split; [apply nsteps_O|lia]).
  destruct (QueryCurrencyTerm pc w) as [[t|] [e|]]; try (by eexists _, _).
  destruct (_ <=? _); [by eexists _, _|]. destruct (ClaimWorkReward_returns pc w acc Hpc) as (r & w' & Hr).
  rewrite Hr. eexists _, w'. split; [done|]. exists 1%nat. split; [by apply nsteps_once; exists r|done].
Qed.

Section along.
Context (pc : CacheProtoContract W) (acc : address) (Hpc : calls_return pc).

(** The claims an operation may make. *)
Definition claims_of (op : operation) : nat := if is_tick op then 1%nat else 0%nat.

Lemma run_op_serving TempDir strategy op (m : running) :
  NeighborNum strategy ≠ 0 -> serving (run_cacher m) -> sized_at op m -> is_end op = false ->
  exists m', run_operation pc acc TempDir strategy op m = Returns m' /\ serving (run_cacher m')
    /\ (is_chain op = false -> claims_within pc acc (claims_of op) (run_chain m) (run_chain m')).
Proof.
  intros Hn Hm Hsz He.
  assert (Hsame : claims_within pc acc 0 (run_chain m) (run_chain m)) by apply claims_none.
  destruct op as [now loads s|key|neighbors intn|now|c es|p| | | | | |chain];
    cbn [run_operation is_chain is_tick is_end claims_of sized_at] in *; try done.
  - destruct (CacheService_serving now loads (run_chain m) (w_fs (run_world m)) (run_cacher m) s Hm Hsz)
      as (a & s' & acc' & n & -> & Ha & _). by eexists.
  - unfold visit_task, the_queue. destruct (serving_queue _ Hm) as [q Hq]. rewrite Hq.
    destruct (run_stage m); [| |by eexists]; cbn [mbind outcome_bind];
      (destruct (q !! key) as [task|]; [|by eexists]);
      destruct (serve_task_serving key task (run_cacher m) Hm) as (req & a & -> & Ha); by eexists.
  - unfold take_request. destruct (run_requests m) as [|req rest]; [by eexists|].
    destruct (resource_Receive_returns TempDir neighbors strategy intn true (run_world m) req Hn) as (sent & w & ->).
    by eexists.
  - unfold take_message. destruct (run_messages m) as [|msg rest]; [by eexists|].
    destruct (Receive_serving now (run_cacher m) (w_fs (run_world m)) msg Hm) as (reply & a & fs & -> & Ha).
    by eexists.
  - eexists. split; [done|]. split; [by apply run_callbacks_serving|done].
  - by eexists.
  - eexists. split; [done|]. unfold start_claims, stop.
    destruct (run_claims m); [|done..]. destruct (QueryRegisterInfo _ _ _) as [? [e|]]; [|done].
    by destruct (run_stage _).
  - unfold tick_claims. destruct (run_claims m) as [|term|]; [by eexists; split_and!; [done..|]; exists 0%nat; split; [apply nsteps_O|lia]| |
      by eexists; split_and!; [done..|]; exists 0%nat; split; [apply nsteps_O|lia]].
    destruct (claim_tick_within pc acc term (run_chain m) Hpc) as (t' & w' & -> & Hw). by eexists.
  - eexists. split; [done|]. unfold end_claims. by destruct (run_claims m), (run_stage m).
  - eexists. split; [done|]. unfold stop. by destruct (run_stage m).
  - by eexists.
Qed.

Definition ticks (ops : list operation) : nat := length (List.filter is_tick ops).

Lemma run_ops_serving TempDir strategy ops : forall (m : running),
  NeighborNum strategy ≠ 0 -> serving (run_cacher m) -> sized_along pc acc TempDir strategy ops m ->
  forallb (fun op => negb (is_end op)) ops = true ->
  exists m', run_ops pc acc TempDir strategy ops m = Returns m' /\ serving (run_cacher m')
    /\ (forallb (fun op => negb (is_chain op)) ops = true ->
         claims_within pc acc (ticks ops) (run_chain m) (run_chain m')).
Proof.
  induction ops as [|op ops IH]; intros m Hn Hm Hsz He; cbn [run_ops].
  { exists m. split_and!; [done..|]. intros _. apply claims_none. }
  destruct Hsz as [Hop Hsz]. cbn [forallb] in He. apply andb_true_iff in He as [Hne%negb_true_iff He].
  destruct (run_op_serving TempDir strategy op m Hn Hm Hop Hne) as (m1 & E & Hm1 & Hc1).
  rewrite E in *. cbn [mbind outcome_bind].
  destruct (IH m1 Hn Hm1 Hsz He) as (m2 & -> & Hm2 & Hc2). exists m2. split_and!; [done|done|].
  cbn [forallb]. intros [Hop' Hops]%andb_true_iff. unfold ticks in *. cbn [List.filter].
  replace (length _) with (claims_of op + length (List.filter is_tick ops))%nat
    by (unfold claims_of; by destruct (is_tick op)).
  eapply claims_trans; [by apply Hc1, negb_true_iff|by apply Hc2].
Qed.
End along.
End running.
Arguments operation C W Net Sel {_}.

(** The services of a node that is ready begin: its download server starts, its mailboxes
    are empty. *)
Definition run_start {N W C Sel DB R NET : Type} `{Libp2p N} `{BoundContract W} `{FileCache FS C} {RecDB : LevelDB R}
    `{LevelDB DB} (n : node (N := N) (W := W) (C := C) (Sel := Sel) (DB := DB) (R := R)) (storage : NET) (net : N)
    (fs : FS) (w : W) : option (running C R DB W NET N Sel) :=
  match start_download_server (bool_decide (is_Some (GetActor RESOURCE_ACTOR (n_actors n)))) (n_cacher n) with
  | None => None
  | Some a => Some (mkRunning a w (mkWorld storage net (n_selector n) fs) [] [] ClaimsIdle Live)
  end.

Section started.
Context {N W C Sel DB R NET : Type} `{Libp2p N} `{BoundContract W} `{FileCache FS C} {RecDB : LevelDB R} `{LevelDB DB}
  `{GoTime} `{JsonMessages} `{FloatText} `{PkgErrors} `{CessConfig} `{NetUrl} `{OsFaults} `{Base58}
  `{Viper DefaultConfig} `{StorageNet NET} `{CacheNet N} `{PeerHost N} `{Selector Sel} `{PeerPool Sel} `{Multihash} `{Http N}.

(** C4: A node that has started never panics while its download server runs: every schedule
    of its services, whatever the clients send on their streams, the neighbours, web sites,
    the storage network and the chain answer, the cache evicts and the stores refuse, and
    also after the context has ended, runs to its end, as long as the download server has
    not returned, provided the credit store it opened holds only records of whole fragments
    received, such as an empty one or one that an earlier run left, and no file on the disk
    has 2^63 bytes when a stream is served. The queue and the ledger stay in that form. All
    that the node does to the chain is to claim its reward, at most once for each tick of the
    reward server: serving clients, credit orders included, sends no transaction. *)
Theorem running_node_never_panics GetString (env : environment C Sel DB R) (s : startup N W) n s'
    (storage : NET) (ops : list (operation C W N Sel))
    (Hrun : cmd_run_func GetString env s = Returns (Ready n, s'))
    (Hledger : ledger_ok (creditMg (n_cacher n)))
    (Hserver : forallb (fun op => negb (is_end op)) ops = true) :
  exists m0, run_start n storage (st_net s') (st_fs s') (st_chain s') = Some m0 /\
    let run := run_ops (orders := contract_orders (n_contract n)) (n_contract n) (n_account n)
      (TempDir (st_config s')) (n_strategy n) in
    (sized_along (orders := contract_orders (n_contract n)) (n_contract n) (n_account n)
       (TempDir (st_config s')) (n_strategy n) ops m0 ->
     exists m, run ops m0 = Returns m /\ is_Some (dlQueue (run_cacher m)) /\ ledger_ok (creditMg (run_cacher m))
       /\ (forallb (fun op => negb (is_chain op)) ops = true ->
            claims_within (n_contract n) (n_account n) (ticks ops) (st_chain s') (run_chain m))).
Proof.
  destruct (cmd_run_ready _ _ _ _ _ Hrun) as [_ Hr]. destruct (Hr n eq_refl) as [Hq _ Hact Hstr Hpc _ _].
  unfold run_start, start_download_server. rewrite Hq.
  apply Forall_cons in Hact as [_ [_ [Hres _]%Forall_cons]%Forall_cons].
  rewrite bool_decide_true by done. eexists. split; [reflexivity|]. cbv zeta. intros Hsz.
  destruct (run_ops_serving (R := R) (orders := contract_orders (n_contract n)) (n_contract n) (n_account n) Hpc
    (TempDir (st_config s')) (n_strategy n) ops
    (mkRunning (set_queue (Some ∅) (n_cacher n)) (st_chain s') (mkWorld storage (st_net s') (n_selector n) (st_fs s'))
       [] [] ClaimsIdle Live))
    as (m & Hm & [Hmq Hml] & Hc); [by rewrite Hstr| |exact Hsz|exact Hserver|].
  - split; [by eexists|exact Hledger].
  - exists m. by split_and!.
Qed.
End started.
