(* ===== verification/NodeSamples.v ===== *)
(** * Sample runs of a node's start

    The libraries as small concrete functions, and a node that registers and starts. *)

From S2P Require Import Prelude GoStrings Encoding Json JsonFacts Codec Types Stream GoOs Lib External ClientFiles.
From S2P Require Import Credit CreditFacts CacheActor CacheActorFacts CacheServiceFacts CacheSamples ResourceActor.
From S2P Require Import PeerNode Discovery Config EvmClient CacheProto CacheProtoFacts NodeCmd NodeCmdFacts.
From S2P Require Import EventStream Bindings Token EthTools Commands.

#[local] Existing Instance sample_crypto.
#[local] Existing Instance sample_client.
#[local] Existing Instance sample_contract.
#[local] Existing Instance sample_base58.
#[local] Existing Instance sample_config.
#[local] Existing Instance sample_time.
#[local] Existing Instance sample_messages.
#[local] Existing Instance sample_float_text.
#[local] Existing Instance CacheSamples.sample_cache.
#[local] Existing Instance CacheSamples.sample_url.

(** Addresses start with a slash and name their peer; no name has TXT records. *)
#[local] Instance sample_libp2p : Libp2p unit := {
  Host := unit; host_ID _ := "12D3"; Dht := unit; Multiaddr := string;
  NewMultiaddr s := if strings_HasPrefix s "/" then inl s else inr "must begin with /";
  AddrInfoFromP2pAddr m := inl (mkAddrInfo m [m]);
  LookupTXT _ _ := inr "no such host";
  libp2p_New _ w := (inl tt, w);
  host_Connect _ _ w := (None, w);
  dht_New _ _ _ _ w := (inl tt, w);
  dht_Bootstrap _ w := (None, w);
}.

Definition node_config : DefaultConfig :=
  mkDefaultConfig (mkCessChainConfig ["wss://rpc"] "testnet" "words") (mkP2PConfig [] 4001 "")
    (mkP2PConfig ["/dns/boot"; "boot.cess.cloud"] 4002 "") (mkCacherConfig "" "" 0 0 0)
    (mkCdnProtoConfig 11330 "100" 5 0 "0xtoken" "0xproto" "7" "key" "0xtokenacc" "ab") "/ws" 0.

#[local] Instance node_yaml : Viper DefaultConfig := {
  ReadInConfig _ _ _ := None;
  viper_Unmarshal _ _ _ := (node_config, None);
}.

Definition node_flags (name : string) : string + string :=
  if decide (name = "config") then inl "conf.yaml" else inr "flag accessed but not defined".

Definition sample_env : environment list_cache unit (gmap string bytes) (gmap string bytes) :=
  mkEnvironment None [inl (4, 9); inl (9, 9)] (inl "12D3resource") [x07] (fun _ _ _ => []) (inl tt)
    (fun _ => inl ∅) (inl ∅) (fun _ _ => []).

(** A chain that does not know the node and reports the staking of its account. *)
Definition empty_chain : CacheProtoFacts.Chain :=
  mkChain [] [EvLog (EventStaking "other" 1); EvLog (EventStaking "key" 7); EvDone]
    (false, 0, 0, []) (5, "0xpayer", "0xother", 2) 9.

Definition sample_startup (w : CacheProtoFacts.Chain) : startup unit CacheProtoFacts.Chain :=
  mkStartup (mkFS ∅ ∅) initial_globals tt w.

Definition sample_start (w : CacheProtoFacts.Chain) :=
  cmd_run_func (N := unit) (W := CacheProtoFacts.Chain) node_flags sample_env (sample_startup w).

(** The world after the start, and the node. *)
Definition started (w : CacheProtoFacts.Chain) : startup unit CacheProtoFacts.Chain :=
  match sample_start w with Returns (_, s) => s | Panics _ => sample_startup w end.
Definition run_end (w : CacheProtoFacts.Chain) :=
  match sample_start w with Returns (r, _) => r | Panics _ => Synchronising end.

(** The node stakes: one transaction, for the resource node's peer. *)
Lemma start_stakes_at_most_once_witness :
  txs (st_chain (started empty_chain))
    = [TxStaking "key" "0xtokenacc" 7 (tail (to_bytes "12D3resource")) [xab]] /\
  (st_chain (started empty_chain) = empty_chain \/
   exists rp, env_resource_peer sample_env = inl rp /\
     chain_effect (read_config node_flags (sample_startup empty_chain)) rp empty_chain
       (run_end empty_chain) (st_chain (started empty_chain))).
Proof.
  split; [vm_compute; reflexivity|].
  apply (start_stakes_at_most_once node_flags sample_env (sample_startup empty_chain)
    (run_end empty_chain) (started empty_chain)).
  reflexivity.
Defined.


Lemma sample_started : exists n, sample_start sample_chain = Returns (Ready n, started sample_chain) /\
  creditMg (n_cacher n) = mkCredit "10000000000000000" (@address_Hex sample_crypto "key") DEFALUT_RESOURCE_LIMIT ∅.
Proof. eexists. split; [reflexivity|]. reflexivity. Qed.

Lemma started_node_panics_on_query_witness :
  exists n, sample_start sample_chain = Returns (Ready n, started sample_chain) /\
    ready_node sample_env (read_config node_flags (sample_startup sample_chain)) n /\
    stream_handler n (clock 9) (0, 0, 0) (st_chain (started sample_chain)) cached_fs
      (client_stream (request_text segment_query)) = Panics NilDereference.
Proof.
  destruct sample_started as (n & Hn & Hc). exists n. split; [exact Hn|].
  apply (started_node_panics_on_query node_flags sample_env (sample_startup sample_chain) n (started sample_chain)
    (clock 9) (0, 0, 0) cached_fs segment_query sample_pk "fid" "sid");
    [exact Hn|sample_sendable|done|done|clear; by vm_compute|clear; by vm_compute|reflexivity|reflexivity|].
  rewrite Hc. intros k v. cbn. by rewrite lookup_empty.
Defined.

#[local] Existing Instance sample_token.
#[local] Existing Instance sample_cobra.
#[local] Instance tools_yaml : Viper tools_Config := {
  ReadInConfig _ _ _ := None;
  viper_Unmarshal _ _ _ := (token_config, None);
}.

(** With the shorthand or the name on the command line, the value is under the name; the tool
    that is not told the node's account fails. *)
Lemma shorthand_lookups_fail_witness :
  let env := sample_env in let s := sample_startup sample_chain in
  config_path (GetString (flags_of (InitCmd env s) (cmd_run env s)) ["run"; "-c"; "conf.yaml"]) = "conf.yaml" /\
  (exists v, GetString (flags_of (InitCmd env s) (cmd_run env s)) ["run"; "-c"; "conf.yaml"] "config" = inl v /\
     GetString (flags_of (InitCmd env s) (cmd_run env s)) ["run"; "-c"; "conf.yaml"] "c" = inr (undefined_flag "c")).
Proof.
  intros env s. split; [vm_compute; reflexivity|].
  destruct (proj1 (shorthand_lookups_fail (N := unit) (W := CacheProtoFacts.Chain) (C := list_cache) (Sel := unit)
    (DB := gmap string bytes) (R := gmap string bytes) ["run"; "-c"; "conf.yaml"]) env s (cmd_run env s))
    as (v & H1 & H2 & _); [by left|]. by exists v.
Defined.
