(* ===== verification/EndToEnd.v ===== *)
(** * Clients and nodes together

    A network of cache nodes: what the client side of the protocol ([Lib], [CacherQuery])
    exchanges with a peer is what that node's stream service ([CacheActor.CacheService])
    answers to the bytes sent. The network is an instance of the interface [CacheNet] that
    the client's components are written against, and a step relation of its own: what its
    nodes do while a client asks them. *)

From S2P Require Import Prelude GoStrings Encoding Json JsonFacts Codec Types Stream GoOs Lib External Storage.
From S2P Require Import Credit CreditFacts CacheActor CacheActorFacts CacheServiceFacts PriceFacts ResourceActor NeighborQuery.
From S2P Require Import Client CacherQuery CacheSamples.

Record server (C R DB : Type) := mkServer { sv_actor : CacheActor C R DB; sv_fs : FS }.
Arguments mkServer {C R DB} _ _.
Arguments sv_actor {C R DB} _.
Arguments sv_fs {C R DB} _.

(** The nodes by their peer ids, the chain, the time, and what the loads of the request
    counters give. *)
Record cdn `{GoTime} (C R DB W : Type) := mkCdn {
  servers : gmap string (server C R DB);
  cdn_chain : W;
  cdn_now : time;
  cdn_loads : Z * Z * Z;
}.
Arguments mkCdn {_ C R DB W} _ _ _ _.
Arguments servers {_ C R DB W} _.
Arguments cdn_chain {_ C R DB W} _.
Arguments cdn_now {_ C R DB W} _.
Arguments cdn_loads {_ C R DB W} _.

Section cdn.
Context {C R DB W : Type} `{FileCache FS C} {RecDB : LevelDB R} `{LevelDB DB} `{GoTime}
  `{JsonMessages} `{FloatText} `{PkgErrors} `{EthCrypto} `{Order2Credit W} `{CessConfig}
  `{NetUrl} `{OsFaults}.
Abbreviation cdn := (cdn C R DB W).
Abbreviation actor := (CacheActor C R DB).

Definition set_server (p : string) (a : actor) (fs : FS) (w : W) (net : cdn) : cdn :=
  mkCdn (<[p := mkServer a fs]> (servers net)) w (cdn_now net) (cdn_loads net).
(** A node whose service panics is gone. *)
Definition crash_server (p : string) (net : cdn) : cdn :=
  mkCdn (delete p (servers net)) (cdn_chain net) (cdn_now net) (cdn_loads net).

(** One stream: the client writes its request and keeps its side open; the node's service
    answers and closes it. When the service waits for more of the request, both wait until
    the connection goes down. *)
Definition exchange_with (net : cdn) (p : string) (data : bytes) : exchange_result * cdn :=
  match servers net !! p with
  | None => (NoStream "failed to dial", net)
  | Some sv =>
      match CacheService (cdn_now net) (cdn_loads net) (cdn_chain net) (sv_fs sv) (sv_actor sv) (client_stream data) with
      | Panics _ => (CopyFailed [] "stream reset", crash_server p net)
      | Returns ((a, w), s) =>
          (if s_reset s then CopyFailed (s_out s) "stream reset"
           else match ReadData (one_piece data) with
                | Some _ => Replied (s_out s)
                | None => CopyFailed [] "stream reset"
                end,
           set_server p a (sv_fs sv) w net)
      end
  end.

Lemma sendable_read req : sendable req ->
  ReadData (one_piece (print (enc_CacheRequest req))) = Some (inl (print (enc_CacheRequest req))).
Proof. intros [_ Hl]. by rewrite ReadData_open_piece, (proj2 (Nat.eqb_neq _ _)). Qed.

#[export] Instance cdn_net : CacheNet cdn := { exchange := exchange_with }.

(** C6: A fragment cached by a node reaches the client byte for byte: the file the client
    stores has exactly the contents of the node's, the node books its size as sent to the
    client's account and to no other, and the client's call reports an error just when the
    length is a multiple of 1024. This is for disks and a credit store that do not fail. *)
Theorem download_end_to_end (net : cdn) (fs : FS) (p fpath : string) (sv : server C R DB) (req : CacheRequest)
    (pk : pubkey) (f s h path : string) (c : C) (content : bytes) (l : Z)
    (Hsv : servers net !! p = Some sv)
    (Hreq : sendable (set_Option OPTION_DOWNLOAD req)) (Hu : WantUrl req = "")
    (Hf : plain_name f) (Hs : plain_name s) (Hh : plain_name h) (Hw : WantFile req = filepath_Join [f; s; h])
    (Hk : DecompressPubkey (elems (AccountId req)) = inl pk)
    (Hst : store_ok (creditMg (sv_actor sv))) (Hput : forall (d : DB) k v, exists d', db_Put d k v = (d', None))
    (Hc : GetCacheRecord (fileCache (sv_actor sv)) (WantFile req) = (inl path, c))
    (Hread : can_read (sv_fs sv) path content) (Hne : content ≠ [])
    (Hcreate : os_fault OpCreate fpath = None) (Hwrite : forall w, write_fault fpath w = None) :
  let acc := address_Hex (PubkeyToAddress pk) in
  let r := fst (GetCreditRecord (creditMg (sv_actor sv)) acc) in
  let sent := u64 (SentResource r + len content) in
  level_of sent (ReceivedResource r) = Returns l ->
  exists mg, DownloadFileFromCache net fs p fpath req
      = (if (length content mod 1024 =? 0)%nat then Wrap (Some EOF) "download file error" else None,
         (set_server p (set_credit mg (set_cache c (sv_actor sv))) (sv_fs sv) (cdn_chain net) net,
          set_files (<[fpath := content]> (files fs)) fs))
    /\ GetCreditRecord mg acc = (mkRecordItem _ l sent (ReceivedResource r) (CheckedTimes r) (cdn_now net), false)
    /\ forall acc', acc' ≠ acc -> GetCreditRecord mg acc' = GetCreditRecord (creditMg (sv_actor sv)) acc'.
Proof.
  intros acc r sent Hl.
  destruct (serve_cached_fragment (cdn_now net) (cdn_loads net) (cdn_chain net) (sv_fs sv) (sv_actor sv)
    (set_Option OPTION_DOWNLOAD req) pk f s h path c content l Hreq eq_refl Hu Hf Hs Hh Hw Hk Hst Hput Hc Hread Hl)
    as (mg & Hserve & Hmg).
  exists mg. split; [|exact Hmg]. apply Download_reply; try done.
  cbn [exchange cdn_net]. unfold exchange_with. rewrite Hsv. unfold request_text in Hserve.
  rewrite Hserve. by rewrite sendable_read.
Qed.

(** ** Queries over the network *)

(** A node as it is started: no counter in its record, and a price that JSON carries
    faithfully.  And a node that came up so and has done anything since. *)
Definition came_up (a : actor) : Prop :=
  (forall k, exists e, db_Get (record a) k = inr e) /\ text (node_price a).
Definition has_lived (a : actor) : Prop := exists a0, came_up a0 /\ rtc (actor_step (W := W)) a0 a.

(** The nodes' sides of the network: while a client talks to one node, any node carries out
    an operation of its services, goes, or comes up, and the chain, the time and the loads
    change. *)
Inductive network_step (net : cdn) : cdn -> Prop :=
  | node_moves p sv a fs w :
      servers net !! p = Some sv -> actor_step (W := W) (sv_actor sv) a -> network_step net (set_server p a fs w net)
  | node_goes p : network_step net (crash_server p net)
  | node_comes p a fs : came_up a -> network_step net (set_server p a fs (cdn_chain net) net)
  | world_moves w now loads : network_step net (mkCdn (servers net) w now loads).

Definition network_ok (net : cdn) : Prop := forall p sv, servers net !! p = Some sv -> has_lived (sv_actor sv).

(** The cache's load ratio is a double. *)
Definition ratios_ok : Prop := forall c : C, is_float64 (GetLoadRatio c) = true.

Lemma lived_uncounted a : has_lived a -> uncounted (record a).
Proof. intros (a0 & [He _] & Hr). eapply uncounted_reachable; [|exact Hr]. intros q _. apply He. Qed.

Lemma lived_price a : has_lived a -> text (node_price a).
Proof.
  intros (a0 & [_ Hp] & Hr). revert Hp.
  induction Hr as [|a1 a2 a3 Hs _ IH]; [done|]. intros Hp. apply IH. by rewrite (actor_step_price _ _ Hs).
Qed.

Lemma lived_step a a' : has_lived a -> actor_step (W := W) a a' -> has_lived a'.
Proof. intros (a0 & Ha & Hr) Hs. exists a0. split; [done|]. by eapply rtc_r. Qed.

Lemma network_ok_set p a fs w net : network_ok net -> has_lived a -> network_ok (set_server p a fs w net).
Proof.
  intros Hn Ha q sv Hsv. cbn in Hsv. destruct (decide (p = q)) as [->|Hne].
  - rewrite lookup_insert_eq in Hsv. by injection Hsv as <-.
  - rewrite lookup_insert_ne in Hsv by done. by eapply Hn.
Qed.

Lemma network_ok_crash p net : network_ok net -> network_ok (crash_server p net).
Proof. intros Hn q sv Hsv. cbn in Hsv. apply lookup_delete_Some in Hsv as [_ Hsv]. by eapply Hn. Qed.

Lemma network_ok_step net net' : network_ok net -> network_step net net' -> network_ok net'.
Proof.
  intros Hn [p sv a fs w Hsv Hs|p|p a fs Ha|w now loads]; [..|exact Hn].
  - apply network_ok_set; [done|]. eapply lived_step; [|exact Hs]. by eapply Hn.
  - by apply network_ok_crash.
  - apply network_ok_set; [done|]. by exists a.
Qed.

Lemma GetCacheInfo_ok now loads (a : actor) acc :
  ratios_ok -> text (node_price a) -> wf_CacheInfo (fst (GetCacheInfo now loads a acc)).
Proof.
  intros Hr Hp. unfold GetCacheInfo. destruct loads as [[n1 n2] n3].
  destruct (IsLimited _ _ _) as [[limit ok] mg]. cbn in *.
  split; cbn; try done; first [apply Hr|case_match; by apply ascii_text|by apply ascii_text|case_match; apply i64_range].
Qed.

Lemma GetCacheInfo_record now loads (a : actor) acc : record (snd (GetCacheInfo now loads a acc)) = record a.
Proof. unfold GetCacheInfo. destruct loads as [[n1 n2] n3]. by destruct (IsLimited _ _ _) as [[limit ok] mg]. Qed.

Lemma query_status_text now (w w' : W) (a a' : actor) acc paths req status cached :
  query_status now w a acc paths req = Returns ((status, cached), (a', w')) -> text status.
Proof.
  unfold query_status. intros ([ok [a1 w1]] & _ & Hq)%outcome_bind_Returns.
  destruct (negb ok); [injection Hq as <- _ _ _; by apply ascii_text|].
  assert (Hans : forall key isUrl, ('(fragments, a2) ← QueryCacheResource a1 acc key isUrl;
    if 0 <? len fragments then Returns ((STATUS_HIT, Some fragments), (a2, w1))
    else Returns ((STATUS_MISS, None), (a2, w1))) = Returns ((status, cached), (a', w')) -> text status).
  { intros key isUrl ([fs a2] & _ & Hx)%outcome_bind_Returns.
    destruct (0 <? len fs); injection Hx as <- _ _ _; by apply ascii_text. }
  case_decide; [by eapply Hans|].
  destruct paths as [|p0 [|p1 ps]]; [injection Hq as <- _ _ _; by apply ascii_text..|].
  apply outcome_bind_Returns in Hq as (q & _ & Hq).
  destruct (q !! _); [injection Hq as <- _ _ _; by apply ascii_text|by eapply Hans].
Qed.

(** What a node's service answers to a query for a segment: nothing, or a well-formed
    response that is not a hit. *)
Lemma query_service (net : cdn) (sv : server C R DB) req pk f s :
  ratios_ok -> has_lived (sv_actor sv) -> sendable req -> Types.Option req = OPTION_QUERY -> WantUrl req = "" ->
  plain_name f -> plain_name s -> WantFile req = filepath_Join [f; s] ->
  DecompressPubkey (elems (AccountId req)) = inl pk ->
  match CacheService (cdn_now net) (cdn_loads net) (cdn_chain net) (sv_fs sv) (sv_actor sv)
          (client_stream (request_text req)) with
  | Panics _ => True
  | Returns (_, st) => s_reset st = false -> exists resp j, wf_CacheResponse resp /\ resp_Status resp ≠ STATUS_HIT /\
      enc_Response (mkResponse STATUS_OK (AnyResponse resp)) = Some j /\ s_out st = print j
  end.
Proof.
  intros Hr Ha Hreq Ho Hu Hf Hs Hw Hk. rewrite CacheService_receives by done.
  unfold dispatch. rewrite Ho, Hw, Split_filepath_Join by (done || plains).
  rewrite decide_False, decide_True by done. unfold serve_query. rewrite Hk.
  set (acc := address_Hex (PubkeyToAddress pk)).
  pose proof (GetCacheInfo_ok (cdn_now net) (cdn_loads net) _ acc Hr (lived_price _ Ha)) as Hi.
  pose proof (GetCacheInfo_record (cdn_now net) (cdn_loads net) (sv_actor sv) acc) as Hrec.
  apply lived_uncounted in Ha.
  destruct (GetCacheInfo _ _ _ _) as [info a1]. cbn in Hi, Hrec. rewrite <- Hrec in Ha.
  destruct (query_status (cdn_now net) (cdn_chain net) a1 acc [f; s] req) as [[[status cached] [a' w']]|] eqn:Eq;
    cbn [mbind outcome_bind]; [|done].
  destruct (query_uncounted _ _ _ _ _ _ _ _ _ _ _ _ Ha Hf Hs Hu Eq) as [Hh ->].
  apply query_status_text in Eq. unfold WriteJsonResponse.
  destruct (enc_Response _) as [j|] eqn:Ej; [|done]. cbn. intros _.
  exists (mkCacheResponse status None info), j. split; [split; cbn; [done|by apply Forall_nil_2|done]|done].
Qed.

Lemma query_never_hits (net : cdn) p req pk f s :
  ratios_ok -> network_ok net -> sendable (set_Option OPTION_QUERY req) -> WantUrl req = "" ->
  plain_name f -> plain_name s -> WantFile req = filepath_Join [f; s] ->
  DecompressPubkey (elems (AccountId req)) = inl pk ->
  network_ok (snd (QueryFileInfoFromCache net p req)) /\
  (snd (fst (QueryFileInfoFromCache net p req)) = None ->
     resp_Status (fst (fst (QueryFileInfoFromCache net p req))) ≠ STATUS_HIT).
Proof.
  intros Hr Hn Hreq Hu Hf Hs Hw Hk.
  assert (Herr : forall x net', exchange net p (print (enc_CacheRequest (set_Option OPTION_QUERY req))) = (x, net') ->
    match x with Replied _ => False | _ => True end ->
    QueryFileInfoFromCache net p req
    = ((CacheResponse_zero, snd (fst (QueryFileInfoFromCache net p req))), net') /\
    is_Some (snd (fst (QueryFileInfoFromCache net p req)))).
  { intros x net' Ex Hx. unfold QueryFileInfoFromCache, SendRequestToCacher. rewrite Ex.
    destruct x as [e|e|b e|b]; [..|done];
      match goal with |- context [Wrap (Some ?e) "send request to cacher error"] =>
        destruct (Wrap_not_nil e "send request to cacher error") as [m ->] end;
      (split; [done|apply Wrap_not_nil]). }
  cbn [exchange cdn_net] in Herr. unfold exchange_with in Herr.
  destruct (servers net !! p) as [sv|] eqn:Esv.
  2: { destruct (Herr _ _ eq_refl I) as [-> [m ->]]. by split. }
  pose proof (query_service net sv (set_Option OPTION_QUERY req) pk f s Hr (Hn _ _ Esv) Hreq eq_refl Hu Hf Hs Hw Hk) as Hq.
  unfold request_text in Hq.
  destruct (CacheService _ _ _ _ _ _) as [[[a w] st]|pn] eqn:Ec.
  2: { destruct (Herr _ _ eq_refl I) as [-> [m ->]]. split; [by apply network_ok_crash|done]. }
  assert (Hkeep : network_ok (set_server p a (sv_fs sv) w net)).
  { apply network_ok_set; [done|]. eapply lived_step; [by eapply Hn|]. by eapply step_CacheService. }
  destruct (s_reset st) eqn:Er.
  - destruct (Herr _ _ eq_refl I) as [-> [m ->]]. by split.
  - destruct (Hq eq_refl) as (resp & j & Hwf & Hh & Ej & Ho).
    rewrite (Query_reply net (set_server p a (sv_fs sv) w net) p STATUS_OK req resp j);
      [by split|done|by apply ascii_text|done|].
    cbn [exchange cdn_net]. unfold exchange_with. rewrite Esv, Ec, Er, Ho. by rewrite sendable_read.
Qed.
End cdn.

(** ** A client's query of the network *)

Section client_query.
Context {C R DB W K Sel : Type} `{FileCache FS C} {RecDB : LevelDB R} `{LevelDB DB} `{GoTime}
  `{JsonMessages} `{FloatText} `{PkgErrors} `{EthCrypto} `{Order2Credit W} `{CessConfig}
  `{NetUrl} `{OsFaults} `{EthKeys K} `{Selector Sel}.
Abbreviation network := (cdn C R DB W).
Context (cl : Client K) (fileHash segmentHash : string) (pk : pubkey).

(** What a client asks the cachers about a segment. *)
Definition query_request : CacheRequest :=
  mkCacheRequest "" "" (filepath_Join [fileHash; segmentHash]) (Some (CompressPubkey (ethAccSk cl))) None None.

Record askable : Prop := {
  ask_file : plain_name fileHash;
  ask_segment : plain_name segmentHash;
  ask_key : DecompressPubkey (CompressPubkey (ethAccSk cl)) = inl pk;
  ask_sendable : sendable (set_Option OPTION_QUERY query_request);
}.

Lemma ask_cacher_misses (net net' : network) (sel sel' : Sel) p answer :
  ratios_ok (C := C) -> askable -> network_ok net ->
  ask_cacher cl fileHash segmentHash net sel p = (answer, (net', sel')) ->
  network_ok net' /\ answer = None.
Proof.
  intros Hr [Hf Hs Hk Hreq] Hn Ha. unfold ask_cacher in Ha.
  pose proof (query_never_hits net p query_request pk fileHash segmentHash Hr Hn Hreq eq_refl Hf Hs eq_refl Hk)
    as [Hn' Hh]. unfold query_request in Hn', Hh.
  destruct (QueryFileInfoFromCache _ _ _) as [[resp [e|]] net2]; injection Ha as <- <- <-; [done|].
  split; [done|]. rewrite decide_False; [done|]. by apply Hh.
Qed.

(** While the cachers are asked: no peer is noted, and no goroutine holds a hit. *)
Definition nothing_found (q : cquery network Sel) : Prop :=
  network_ok (cq_net q) /\ cachedPeers q = ∅ /\ Forall (fun g => ~ holds_hit g) (goroutines q).

Lemma nothing_found_step q q' :
  ratios_ok (C := C) -> askable -> nothing_found q ->
  cacher_step cl fileHash segmentHash network_step q q' -> nothing_found q'.
Proof.
  intros Hr Hask (Hn & Hc & Hg) Hq. unfold nothing_found.
  destruct Hq as [q p' ps before after answer [net sel] Hrem Hgs Ha|q before after Hrem Hgs|q p' r before after Hgs
    |q r before after sent Hgs Hsent|q net Ho]; cbn [cq_net cachedPeers goroutines];
    [rewrite Hgs in Hg; apply Forall_app in Hg as [Hb [Hx Hl]%Forall_cons]..|].
  - apply ask_cacher_misses in Ha as [Hn' ->]; [|done..]. split_and!; [done|done|].
    by apply Forall_app; split; [|constructor].
  - split_and!; [done|done|]. apply Forall_app; split; [done|]. constructor; [|done]. by intros [].
  - by destruct Hx.
  - by destruct Hx.
  - split_and!; [|done|done]. by eapply network_ok_step.
Qed.

(** C24: In a network of cache nodes no cacher is ever used.  Every node came up with no
    counter and has since cached, evicted, served and restored whatever it did; while the
    client asks, all of them go on doing so, nodes come and go and the chain moves.  In
    whatever order the goroutines run, a query of the cachers for a segment that returns,
    returns no peer that has it. *)
Theorem cachers_never_used cacherNum threadNum (net : network) (sel : Sel) m q
    (Hr : ratios_ok (C := C)) (Hask : askable) (Hn : network_ok net)
    (Hq : QuerySegmentFromCachers cl fileHash segmentHash network_step cacherNum threadNum net sel (inl m) q) :
  m = ∅.
Proof.
  inversion Hq as [| |peers q' Hnum Hit Hrun Hd]; subst.
  refine (proj1 (proj2 (rtc_ind_r nothing_found _ _ _ _ Hrun))).
  - split_and!; [done|done|]. apply Forall_replicate. by intros [].
  - intros q1 q2 _ Hstep IH. by eapply nothing_found_step.
Qed.
End client_query.

(** ** A network of one node *)

#[local] Existing Instance sample_cache.
#[local] Existing Instance sample_url.
#[local] Existing Instance sample_crypto.
#[local] Existing Instance sample_config.
#[local] Existing Instance sample_time.
#[local] Existing Instance sample_messages.
#[local] Existing Instance sample_float_text.
#[local] Existing Instance sample_orders.
#[local] Existing Instance no_faults.

#[local] Instance sample_keys : EthKeys bytes := {
  CompressPubkey k := k;
  crypto_Sign h k := inl k;
}.

Abbreviation sample_network := (cdn (list (string * string)) (gmap string bytes) (gmap string bytes) unit).

Definition one_node : sample_network :=
  mkCdn {[ "node" := mkServer cached_node cached_fs ]} tt (clock 9) (0, 0, 0).

Definition fragment_request : CacheRequest := sample_request "" "" "fid/sid/frag" client_key.

Lemma download_end_to_end_witness :
  exists net, DownloadFileFromCache one_node (mkFS ∅ ∅) "node" "/tmp/frag" fragment_request
    = (None, (net, mkFS {[ "/tmp/frag" := to_bytes "contents" ]} ∅)).
Proof.
  edestruct (download_end_to_end one_node (mkFS ∅ ∅) "node" "/tmp/frag"
    (mkServer cached_node cached_fs) fragment_request sample_pk
    "fid" "sid" "frag" "/cache/frag" (fileCache cached_node) (to_bytes "contents") 3)
    as (mg & Hd & _); cycle -1.
  - eexists. exact Hd.
  - reflexivity.
  - split; [split; by apply ascii_text|vm_compute; discriminate].
  - reflexivity.
  - by vm_compute.
  - by vm_compute.
  - by vm_compute.
  - by vm_compute.
  - by vm_compute.
  - exact sample_store_ok.
  - exact map_db_puts.
  - by vm_compute.
  - by split_and!; vm_compute.
  - done.
  - reflexivity.
  - reflexivity.
  - by vm_compute.
Defined.

Definition sample_client : Client bytes := NewClient client_key.

(** Asking the node, then finding no other. *)
Definition asked := ask_cacher sample_client "fid" "sid" one_node ["node"] "node".
Definition answered : cquery sample_network (list string) :=
  mkCquery (fst (snd asked)) (snd (snd asked)) [] [Done] ∅ None.

Lemma asked_in_vain :
  QuerySegmentFromCachers sample_client "fid" "sid" network_step 1 1 one_node ["node"] (inl (cachedPeers answered)) answered.
Proof.
  apply (cachers_queried sample_client "fid" "sid" network_step 1 1 one_node ["node"] ["node"] answered);
    [reflexivity|reflexivity| |by repeat constructor].
  eapply rtc_l; [|apply rtc_once].
  - apply (ask_next sample_client "fid" "sid" network_step _ "node" [] [] [] (fst asked) (snd asked)); [done|done|].
    unfold asked. by destruct (ask_cacher _ _ _ _ _ _).
  - assert (fst asked = None) as -> by (by vm_compute).
    exact (no_more sample_client "fid" "sid" network_step (mkCquery (fst (snd asked)) (snd (snd asked)) [] [Asking] ∅ None)
      [] [] eq_refl eq_refl).
Qed.

Lemma one_node_ok : network_ok one_node.
Proof.
  intros p sv Hsv. unfold one_node in Hsv. cbn [servers] in Hsv. apply lookup_singleton_Some in Hsv as [_ <-].
  exists cached_node. split; [|done]. split; [|by apply ascii_text]. intros k. by exists ErrNotFound.
Qed.

Lemma cachers_never_used_witness :
  QuerySegmentFromCachers sample_client "fid" "sid" network_step 1 1 one_node ["node"] (inl (cachedPeers answered)) answered
  /\ cachedPeers answered = ∅.
Proof.
  split; [exact asked_in_vain|].
  apply (cachers_never_used sample_client "fid" "sid" sample_pk 1 1 one_node ["node"]
    (cachedPeers answered) answered).
  - by intros c.
  - split; [done|done|by vm_compute|]. split; [split; by apply ascii_text|vm_compute; discriminate].
  - exact one_node_ok.
  - exact asked_in_vain.
Defined.
