(* ===== verification/FetchCycle.v ===== *)
(** * From a missing segment to a served fragment

    The parts of a node together: a client's query puts the missing segment on the queue of
    the cache actor, a pass of the download server asks the resource actor for it, the
    resource actor fetches it from the storage miners, the cache actor takes the fragments
    into its cache, and from then on serves them. *)

From S2P Require Import Prelude GoStrings Encoding Json JsonFacts Codec Types Stream GoOs Lib External Storage.
From S2P Require Import Credit CreditFacts CacheActor CacheActorFacts CacheServiceFacts ResourceActor NeighborQuery.
From S2P Require Import ResourceFacts CacheSamples.

(** ** What the resource actor leaves on disk *)

Section fetch.
Context {NET Net Sel : Type} `{StorageNet NET} `{CacheNet Net} `{PeerHost Net} `{Selector Sel}
  `{Multihash} `{Http Net} `{CessConfig} `{OsFaults} `{PkgErrors} `{FloatText} `{JsonMessages}.
Context (TempDir fhash shash : string) (content : string -> bytes).
Abbreviation world := (world NET Net Sel).
Abbreviation stored := (stored_response TempDir fhash shash).

Definition temp_path (h : string) : string := filepath_Join [TempDir; h].

(** Every miner is known, and reading a fragment from it stores its contents. *)
Record storage_serves : Prop := {
  miners_known : forall (n : NET) m, exists peer, QueryMinerItems n m = inl peer;
  reads_store : forall (n : NET) fs peer h p, exists n',
    ReadDataAction n fs peer h p = (None, (n', set_files (<[p := content h]> (files fs)) fs));
}.

(** The temporary files of these fragments are there. *)
Definition written (hs : list string) (fs : FS) : Prop :=
  forall h, h ∈ hs -> files fs !! temp_path h = Some (content h).

Hypothesis (Htmp : TempDir ≠ "") (Hserves : storage_serves).

Lemma temp_path_inj h h' : plain_name h -> plain_name h' -> temp_path h = temp_path h' -> h = h'.
Proof. intros. by eapply filepath_Join2_inj. Qed.

Lemma written_snoc hs h fs :
  Forall plain_name hs -> plain_name h -> written hs fs ->
  written (hs ++ [h]) (set_files (<[temp_path h := content h]> (files fs)) fs).
Proof.
  intros Hhs Hh Hw h' Hin. cbn. destruct (decide (h' = h)) as [->|Hne]; [by rewrite lookup_insert_eq|].
  apply elem_of_app in Hin as [Hin|Hin]; [|by apply list_elem_of_singleton in Hin].
  rewrite lookup_insert_ne; [by apply Hw|]. intros He. apply Hne. symmetry.
  apply temp_path_inj; [done| |done]. by eapply Forall_forall in Hhs.
Qed.

Lemma store_fragments_written frags : forall (w : world) hs count provide resps,
  Forall plain_name hs -> Forall plain_name (map frag_Hash frags) -> written hs (w_fs w) ->
  exists provide' w' fs,
    store_fragments TempDir w fhash shash count provide resps frags
      = ((provide', (resps ++ map stored fs)%list), w')
    /\ fs ⊆ frags /\ written (hs ++ map frag_Hash fs) (w_fs w').
Proof.
  induction frags as [|f frags IH]; intros w hs count provide resps Hhs Hp Hw; cbn [store_fragments].
  { exists provide, w, []. by rewrite !app_nil_r. }
  destruct (DataShards <=? count).
  { exists provide, w, []. rewrite !app_nil_r. split_and!; [done|set_solver|done]. }
  apply Forall_cons in Hp as [Hf Hp].
  destruct (miners_known Hserves (w_storage w) (Miner f)) as [peer ->].
  destruct (reads_store Hserves (w_storage w) (w_fs w) peer (frag_Hash f) (filepath_Join [TempDir; frag_Hash f])) as [n' ->].
  destruct (provide_once _ _ _) as [p1 n1].
  edestruct (IH (set_net n1 (set_storefs (n', set_files (<[temp_path (frag_Hash f) := content (frag_Hash f)]> (files (w_fs w))) (w_fs w)) w))
    (hs ++ [frag_Hash f])%list (count + 1)) as (p & w' & fs & E & Hs & Hw').
  - apply Forall_app. split; [done|plains].
  - done.
  - by apply written_snoc.
  - exists p, w', (f :: fs). unfold temp_path in E. rewrite E. split_and!.
    + cbn [map]. by rewrite <- app_assoc.
    + set_solver.
    + cbn [map]. by rewrite <- app_assoc in Hw'.
Qed.

Section alone.
Context (neighbors : Net * Sel -> string -> (list (string * CacheResponse) + string) * (Net * Sel)).
Context (strategy : CacheStrategy) (acc : slice byte).
Context (Halone : forall ns h, exists e ns', neighbors ns h = (inr e, ns')).

(** The fragments of a segment have plain names. *)
Definition plain_segment (s : SegmentInfo) : Prop := Forall plain_name (map frag_Hash (FragmentList s)).

Lemma plain_fragments s fs : plain_segment s -> fs ⊆ FragmentList s -> Forall plain_name (map frag_Hash fs).
Proof.
  intros Hs Hsub. unfold plain_segment in Hs. rewrite Forall_forall in *. intros h Hh.
  apply list_elem_of_In, in_map_iff in Hh as (f & <- & Hf%list_elem_of_In).
  by apply Hs, list_elem_of_In, in_map, list_elem_of_In, Hsub.
Qed.

Lemma cache_segments_written segs : forall (w : world) hs cacheNum num done provide resps,
  Forall plain_segment segs -> Forall plain_name hs -> written hs (w_fs w) ->
  exists w' fs,
    cache_segments TempDir neighbors strategy acc fhash shash w cacheNum num done provide resps segs
      = ((resps ++ map stored fs)%list, w')
    /\ Forall plain_name (map frag_Hash fs) /\ written (hs ++ map frag_Hash fs) (w_fs w').
Proof.
  induction segs as [|s segs IH]; intros w hs cacheNum num done provide resps Hp Hhs Hw; cbn [cache_segments].
  { exists w, []. rewrite !app_nil_r. split_and!; [done|by constructor|done]. }
  destruct (cacheNum <=? num).
  { exists w, []. rewrite !app_nil_r. split_and!; [done|by constructor|done]. }
  apply Forall_cons in Hp as [Hs Hp]. case_match; [by apply IH|].
  destruct (Halone (w_net w, w_selector w) (seg_Hash s)) as (e & ns & ->).
  destruct (store_fragments_written (FragmentList s) (set_peers ns w) hs 0 provide resps)
    as (p & w1 & fs1 & -> & Hs1 & Hw1); [done|done|done|].
  pose proof (plain_fragments s fs1 Hs Hs1) as Hp1.
  edestruct (IH w1 (hs ++ map frag_Hash fs1)%list) as (w' & fs & -> & Hpf & Hw'); [done|by apply Forall_app|done|].
  exists w', (fs1 ++ fs)%list. rewrite !map_app. split_and!.
  - by rewrite app_assoc.
  - by apply Forall_app.
  - by rewrite app_assoc.
Qed.

(** The message for the cache actor: it holds the first [DataShards] fragments of the
    segment, and what it lists is on disk. *)
Lemma resource_Receive_delivers (intn : nat -> nat) (w : world) fmeta cacheNum :
  QueryFile (w_storage w) fhash = inl fmeta -> Forall plain_segment (SegmentList fmeta) ->
  plain_name fhash -> plain_name shash ->
  cache_number strategy (len (SegmentList fmeta)) = Returns cacheNum -> 1 <= cacheNum ->
  (exists s, s ∈ SegmentList fmeta /\ seg_Hash s = shash) ->
  exists w' fs s,
    resource_Receive TempDir neighbors strategy intn true w
      (mkDownloadRequest NODE_RESOURCE_CACHE (ReqCache (mkCacheRequest "" "" (filepath_Join [fhash; shash]) acc None None)))
      = Returns (Some (MsgResponses (map stored fs)), w')
    /\ s ∈ SegmentList fmeta /\ seg_Hash s = shash
    /\ Forall plain_name (map frag_Hash fs) /\ written (map frag_Hash fs) (w_fs w')
    /\ forall f, f ∈ take (Z.to_nat DataShards) (FragmentList s) -> frag_Hash f ∈ map frag_Hash fs.
Proof.
  intros Hfile Hplain Hpf Hps Hnum Hone Hin.
  pose proof (ShuffleSegments_Permutation intn (SegmentList fmeta)) as Hperm.
  destruct (cache_segments_requested TempDir fhash shash neighbors strategy acc Halone
    (ShuffleSegments intn (SegmentList fmeta)) w cacheNum 0 false []) as (s & Hs & Hh & Hf).
  { apply (miners_known Hserves). }
  { intros n fs peer h p. destruct (reads_store Hserves n fs peer h p) as [n' ->]. by eexists. }
  { lia. }
  { by setoid_rewrite Hperm. }
  destruct (cache_segments_written (ShuffleSegments intn (SegmentList fmeta)) w [] cacheNum 0 false false [])
    as (w' & fs & E & Hfs & Hw); [by rewrite Hperm|by constructor|by intros ? ?%elem_of_nil|].
  rewrite E in Hf. cbn [fst app] in Hf. exists w', fs, s. split_and!; [|by rewrite <- Hperm|done|done|done|].
  - unfold resource_Receive. cbn [negb req_Option req_Data WantFile AccountId]. rewrite decide_True by done.
    rewrite Split_filepath_Join by (done || plains). unfold DownloadStoragedFiles.
    rewrite Hfile, Hnum. cbn [mbind outcome_bind]. by rewrite E.
  - intros f Hin'. specialize (Hf f Hin').
    apply list_elem_of_In, in_map_iff in Hf as (g & Hg & Hgin).
    apply list_elem_of_In, in_map_iff. exists g. split; [|done].
    apply (f_equal ResrcPath) in Hg. cbn in Hg.
    assert (Hall : forall x, x ∈ SegmentList fmeta -> plain_segment x) by (by apply Forall_forall).
    eapply temp_path_inj; [| |exact Hg].
    + rewrite Forall_forall in Hfs. apply Hfs. by apply list_elem_of_In, in_map.
    + assert (plain_segment s) as Hps' by (apply Hall; by rewrite <- Hperm).
      unfold plain_segment in Hps'. rewrite Forall_forall in Hps'. apply Hps'.
      apply list_elem_of_In, in_map, list_elem_of_In. apply elem_of_take in Hin' as (i & Hi & _). by eapply list_elem_of_lookup_2.
Qed.
End alone.
End fetch.

(** ** What the cache actor makes of it *)

Section cycle.
Context {C R DB W NET Net Sel : Type} `{FileCache FS C} {RecDB : LevelDB R} `{LevelDB DB} `{GoTime}
  `{JsonMessages} `{FloatText} `{PkgErrors} `{EthCrypto} `{Order2Credit W} `{CessConfig}
  `{NetUrl} `{OsFaults} `{StorageNet NET} `{CacheNet Net} `{PeerHost Net} `{Selector Sel} `{Multihash} `{Http Net}.
Context (TempDir fhash shash : string) (content : string -> bytes).
Abbreviation actor := (CacheActor C R DB).
Abbreviation stored := (stored_response TempDir fhash shash).
Abbreviation temp := (temp_path TempDir).

(** The cache finds a file with these contents under the key. *)
Definition cache_has (c : C) (fs : FS) (k : string) (b : bytes) : Prop :=
  exists p c', GetCacheRecord c k = (inl p, c') /\ files fs !! p = Some b.

(** A cache that is large enough to evict nothing: moving a temporary file into it keeps
    what it has and the other temporary files, and a file that is not there is refused. *)
Record cache_keeps : Prop := {
  moves_file : forall c fs k h b, plain_name h -> files fs !! temp h = Some b ->
    exists es c' fs', MoveFileToCache c fs k (temp h) = ((None, es), (c', fs'))
      /\ cache_has c' fs' k b
      /\ (forall k' b', k' ≠ k -> cache_has c fs k' b' -> cache_has c' fs' k' b')
      /\ (forall h', plain_name h' -> h' ≠ h -> files fs' !! temp h' = files fs !! temp h')
      /\ (files fs' !! temp h = None \/ files fs' !! temp h = Some b);
  refuses_missing : forall c fs k h, plain_name h -> files fs !! temp h = None ->
    exists e es c' fs', MoveFileToCache c fs k (temp h) = ((Some e, es), (c', fs'))
      /\ (forall k' b', cache_has c fs k' b' -> cache_has c' fs' k' b')
      /\ (forall h', plain_name h' -> files fs' !! temp h' = files fs !! temp h');
}.
Hypothesis (Hf : plain_name fhash) (Hs : plain_name shash) (Hcache : cache_keeps).

Definition frag_key (h : string) : string := filepath_Join [fhash; shash; h].

Lemma frag_key_inj h h' : plain_name h -> plain_name h' -> frag_key h = frag_key h' -> h = h'.
Proof.
  intros Hh Hh' He. apply (f_equal filepath_Base) in He. unfold frag_key in He.
  change [fhash; shash; h] with ([fhash; shash] ++ [h])%list in He.
  change [fhash; shash; h'] with ([fhash; shash] ++ [h'])%list in He.
  by rewrite !filepath_Base_Join in He by (done || plains).
Qed.

(** Between the responses handled and those to come: the former are in the cache, the
    latter there or still on disk, and no temporary file has other contents. *)
Record receiving (done todo : list string) (c : C) (fs : FS) : Prop := {
  rec_plain : Forall plain_name (done ++ todo);
  rec_done : forall h, h ∈ done -> cache_has c fs (frag_key h) (content h);
  rec_todo : forall h, h ∈ todo -> cache_has c fs (frag_key h) (content h) \/ files fs !! temp h = Some (content h);
  rec_files : forall h, h ∈ done ++ todo -> files fs !! temp h = None \/ files fs !! temp h = Some (content h);
}.

Lemma receiving_step done h todo c fs (Hrec : receiving done (h :: todo) c fs) :
  exists e es c' fs', MoveFileToCache c fs (frag_key h) (temp h) = ((e, es), (c', fs'))
    /\ receiving (done ++ [h]) todo c' fs'.
Proof.
  destruct Hrec as [Hp Hd Ht Hfs].
  assert (Hplain : forall x, x ∈ done ++ h :: todo -> plain_name x) by (by apply Forall_forall).
  assert (Hh : plain_name h) by (apply Hplain; set_solver).
  assert (Hperm : forall x, x ∈ (done ++ [h]) ++ todo <-> x ∈ done ++ h :: todo) by set_solver.
  destruct (Hfs h) as [Hn|Hb]; [set_solver| |].
  - destruct (refuses_missing Hcache c fs (frag_key h) h Hh Hn) as (e & es & c' & fs' & E & Hk & Hfk).
    exists (Some e), es, c', fs'. split; [exact E|].
    assert (Hx : forall x, x ∈ done ++ h :: todo -> files fs' !! temp x = files fs !! temp x) by auto.
    split.
    + by rewrite <- app_assoc.
    + intros x [Hin|Hin%list_elem_of_singleton]%elem_of_app; apply Hk; [by apply Hd|]. subst x.
      destruct (Ht h) as [?|Hb]; [by left|done|congruence].
    + intros x Hin. rewrite Hx by set_solver. destruct (Ht x) as [?|?]; [by right|left; by apply Hk|by right].
    + intros x Hin%Hperm. rewrite Hx by done. by apply Hfs.
  - destruct (moves_file Hcache c fs (frag_key h) h _ Hh Hb) as (es & c' & fs' & E & Hhas & Hk & Hfk & Hself).
    exists None, es, c', fs'. split; [exact E|].
    assert (Hx : forall x, x ∈ done ++ h :: todo -> cache_has c fs (frag_key x) (content x) ->
      cache_has c' fs' (frag_key x) (content x)).
    { intros x Hin Hc. destruct (decide (x = h)) as [->|Hne]; [done|]. apply Hk; [|done].
      intros He. apply Hne, frag_key_inj; auto. }
    split.
    + by rewrite <- app_assoc.
    + intros x [Hin|Hin%list_elem_of_singleton]%elem_of_app; [apply Hx; [set_solver|by apply Hd]|by subst x].
    + intros x Hin. destruct (decide (x = h)) as [->|Hne]; [by left|].
      destruct (Ht x) as [Hc|Hc]; [by right|left; apply Hx; [set_solver|done]|right].
      rewrite Hfk; [done|apply Hplain; set_solver|done].
    + intros x Hin%Hperm. destruct (decide (x = h)) as [->|Hne]; [done|].
      rewrite Hfk; [by apply Hfs|by apply Hplain|done].
Qed.

Lemma receive_stored now todo : forall done (a : actor) fs frs,
  map frag_Hash frs = todo -> receiving done todo (fileCache a) fs ->
  exists r c fs', receive_responses now a fs (map stored frs) = Returns (set_record r (set_cache c a), fs')
    /\ forall h, h ∈ done ++ todo -> cache_has c fs' (frag_key h) (content h).
Proof.
  induction todo as [|h todo IH]; intros done a fs [|f frs] Hm Hrec; try discriminate Hm.
  { exists (record a), (fileCache a), fs. split; [by destruct a|]. rewrite app_nil_r. apply Hrec. }
  injection Hm as Hh Hm. destruct (receiving_step done h todo _ fs Hrec) as (e & es & c & fs1 & E & Hrec1).
  cbn [map receive_responses]. unfold move_to_cache. cbn [Key ResrcPath OriginNode stored_response].
  rewrite Hh. change (filepath_Join [TempDir; h]) with (temp h).
  change (filepath_Join [fhash; shash; h]) with (frag_key h). rewrite E.
  destruct (run_callbacks_frame es (set_cache c a)) as [r ->].
  destruct (IH (done ++ [h])%list (set_record r (set_cache c a)) fs1 frs Hm Hrec1) as (r' & c' & fs' & E' & Hhas).
  exists r', c', fs'. rewrite decide_True by by apply of_to_bytes.
  destruct e; (split; [exact E'|]); intros x Hin; apply Hhas; set_solver.
Qed.

(** ** The query, the pass of the download server, the download *)

Definition segment_dir_key : string := filepath_Join [fhash; shash].
Definition queued_task : DownloadTask := mkDownloadTask segment_dir_key false NODE_RESOURCE_CACHE.

Context (Hput : forall (d : DB) k v, exists d', db_Put d k v = (d', None)).

(** Accounts that agree up to the time of their last access. *)
Definition same_account (mg mg' : Credit DB) (acc : string) : Prop :=
  exists t, fst (GetCreditRecord mg' acc) = set_LastAccess t (fst (GetCreditRecord mg acc)).

Lemma touch_account now (mg : Credit DB) acc :
  store_ok mg ->
  let mg' := fst (PutCreditRecord now mg acc (fst (GetCreditRecord mg acc))) in
  store_ok mg' /\ GetCreditRecord mg' acc = (set_LastAccess now (fst (GetCreditRecord mg acc)), false).
Proof.
  intros Hst mg'. destruct (GetCreditRecord_ok mg acc Hst) as (r & Hr & Hg & _).
  unfold mg'. rewrite Hg. destruct (Put_effect now mg acc r Hput Hst Hr) as (? & ? & _). done.
Qed.

Lemma GetCacheInfo_touches now loads (a : actor) acc :
  store_ok (creditMg a) ->
  snd (GetCacheInfo now loads a acc)
    = set_credit (fst (PutCreditRecord now (creditMg a) acc (fst (GetCreditRecord (creditMg a) acc)))) a.
Proof.
  intros Hst. unfold GetCacheInfo, IsLimited. destruct loads as [[n1 n2] n3].
  destruct (GetCreditRecord_ok (creditMg a) acc Hst) as (r & _ & Hg & _). by rewrite Hg.
Qed.

(** The missing segment of an account of the owner's level, which new accounts have, is put
    on the queue. *)
Lemma QueryCacheResource_enqueues (a : actor) acc q :
  uncounted (record a) -> dlQueue a = Some q -> q !! segment_dir_key = None ->
  Level (fst (GetCreditRecord (creditMg a) acc)) = LEVEL_OWNER ->
  exists r, QueryCacheResource a acc segment_dir_key false
    = Returns ([], set_record r (set_queue (Some (<[segment_dir_key := queued_task]> q)) a)) /\ uncounted r.
Proof.
  intros Hu Hq Hnone Hl. unfold QueryCacheResource.
  destruct (GetFileRecord a segment_dir_key RECORD_REQUESTS) as [n b].
  pose proof (PutFileRecord_writes a segment_dir_key (n + 1)) as Hw.
  destruct (PutFileRecord_frame a segment_dir_key RECORD_REQUESTS (n + 1)) as [r Hr].
  destruct (PutFileRecord a segment_dir_key RECORD_REQUESTS (n + 1)) as [a1 e]. cbn in Hw, Hr. subst a1.
  exists r. assert (Hur : uncounted r) by (by eapply writes_uncounted). split; [|done].
  cbn [creditMg set_record]. destruct (GetCreditRecord (creditMg a) acc) as [item b']. cbn in Hl.
  unfold worth_caching. rewrite Hl. cbn [Z.eqb LEVEL_OWNER orb].
  unfold the_queue. cbn [dlQueue set_record]. rewrite Hq. cbn [mbind outcome_bind]. rewrite Hnone. cbn [mbind outcome_bind].
  rewrite (GetFileRecord_uncounted _ segment_dir_key); [done|exact Hur|by apply segment_key_Join].
Qed.

Lemma serve_query_enqueues now loads (w : W) (a : actor) st req pk q :
  store_ok (creditMg a) -> uncounted (record a) -> dlQueue a = Some q -> q !! segment_dir_key = None ->
  WantUrl req = "" -> DecompressPubkey (elems (AccountId req)) = inl pk ->
  let acc := address_Hex (PubkeyToAddress pk) in
  Level (fst (GetCreditRecord (creditMg a) acc)) = LEVEL_OWNER ->
  exists r mg st', serve_query now loads w a st [fhash; shash] req
      = Returns ((set_record r (set_queue (Some (<[segment_dir_key := queued_task]> q)) (set_credit mg a)), w), st')
    /\ uncounted r /\ store_ok mg /\ same_account (creditMg a) mg acc.
Proof.
  intros Hst Hu Hq Hnone Hurl Hk acc Hl. unfold serve_query. rewrite Hk. fold acc.
  pose proof (GetCacheInfo_touches now loads a acc Hst) as Hi.
  destruct (GetCacheInfo now loads a acc) as [info a1]. cbn in Hi. subst a1.
  destruct (touch_account now (creditMg a) acc Hst) as [Hst1 Hg1].
  set (mg1 := fst (PutCreditRecord now (creditMg a) acc _)) in *.
  unfold query_status. rewrite (check_credit_passes now w (set_credit mg1 a) req pk Hst1 Hk). fold acc.
  cbn [mbind outcome_bind negb creditMg set_credit].
  destruct (touch_account now mg1 acc Hst1) as [Hst2 Hg2].
  set (mg2 := fst (PutCreditRecord now mg1 acc _)) in *.
  rewrite decide_False by (rewrite Hurl; tauto). unfold the_queue at 1. cbn [dlQueue set_credit].
  rewrite Hq. cbn [mbind outcome_bind]. fold segment_dir_key. rewrite Hnone.
  destruct (QueryCacheResource_enqueues (set_credit mg2 (set_credit mg1 a)) acc q Hu Hq Hnone) as (r & -> & Hr).
  { cbn. by rewrite Hg2, Hg1. }
  cbn [mbind outcome_bind len length]. exists r, mg2. eexists. split; [reflexivity|]. split_and!; [done|done|].
  exists now. by rewrite Hg2, Hg1.
Qed.

(** A pass over the queue asks for the segment. *)
Lemma range_tasks_requests (a : actor) q :
  uncounted (record a) -> dlQueue a = Some q -> q !! segment_dir_key = Some queued_task ->
  range_tasks [segment_dir_key] a
    = Returns ([mkDownloadRequest NODE_RESOURCE_CACHE
                  (ReqCache (mkCacheRequest "" "" segment_dir_key (act_Account a) None None))],
               set_queue (Some (<[segment_dir_key := mkDownloadTask segment_dir_key true NODE_RESOURCE_CACHE]> q)) a).
Proof.
  intros Hu Hq Ht. cbn [range_tasks]. unfold the_queue. rewrite Hq. cbn [mbind outcome_bind]. rewrite Ht.
  unfold serve_task. cbn [task_Option Source queued_task]. rewrite decide_True by done.
  rewrite decide_False by (unfold segment_dir_key; rewrite Split_filepath_Join by (done || plains); by intros []).
  rewrite GetFileRecord_uncounted by (done || by apply segment_key_Join). cbn [andb].
  unfold queue_Store, the_queue. rewrite Hq. done.
Qed.

(** The message of the resource actor. *)
Lemma Receive_stored now (a : actor) fs q frs :
  dlQueue a = Some q -> Forall plain_name (map frag_Hash frs) -> written TempDir content (map frag_Hash frs) fs ->
  exists q' r c fs', Receive now a fs (MsgResponses (map stored frs))
      = Returns (None, (set_record r (set_cache c (set_queue (Some q') a)), fs'))
    /\ forall h, h ∈ map frag_Hash frs -> cache_has c fs' (frag_key h) (content h).
Proof.
  intros Hq Hp Hw.
  assert (Hrec : receiving [] (map frag_Hash frs) (fileCache a) fs).
  { split; [done|by intros h ?%elem_of_nil|intros h Hin; right; by apply Hw|intros h Hin; right; by apply Hw]. }
  assert (Hrest : forall q', exists r c fs',
    receive_responses now (set_queue (Some q') a) fs (map stored frs)
      = Returns (set_record r (set_cache c (set_queue (Some q') a)), fs')
    /\ forall h, h ∈ map frag_Hash frs -> cache_has c fs' (frag_key h) (content h)).
  { intros q'. by apply (receive_stored now (map frag_Hash frs) [] (set_queue (Some q') a) fs frs eq_refl). }
  assert (Ha : a = set_queue (Some q) a) by (destruct a; cbn in Hq; by subst).
  unfold Receive. destruct frs as [|f frs].
  { destruct (Hrest q) as (r & c & fs' & E & Hh). exists q, r, c, fs'. rewrite <- Ha in E. cbn [map mbind outcome_bind].
    cbn [map] in E. rewrite E, <- Ha. done. }
  cbn [map Key stored_response]. fold (stored f). apply Forall_cons in Hp as [Hpf _].
  rewrite Split_filepath_Join by (done || plains).
  destruct (4 <=? len (stored f :: map stored frs)).
  - unfold queue_Delete, the_queue. rewrite Hq. cbn [mbind outcome_bind].
    destruct (Hrest (delete (filepath_Join [fhash; shash]) q)) as (r & c & fs' & E & Hh).
    exists (delete (filepath_Join [fhash; shash]) q), r, c, fs'. cbn [map] in E. by rewrite E.
  - destruct (Hrest q) as (r & c & fs' & E & Hh). exists q, r, c, fs'. rewrite <- Ha in E. cbn [mbind outcome_bind].
    cbn [map] in E. rewrite E, <- Ha. done.
Qed.

Definition fragment_request (key : slice byte) (h : string) : CacheRequest :=
  mkCacheRequest OPTION_DOWNLOAD "" (frag_key h) key None None.

Lemma level_of_returns sent received : 0 <= received < 2 ^ 64 - 1 -> exists l, level_of sent received = Returns l.
Proof.
  intros Hr. unfold level_of. rewrite u64_id by (unfold is_u64; lia).
  rewrite (proj2 (Z.eqb_neq _ _)) by lia. by eexists.
Qed.

(** A fragment the cache has is served to an account that can still be given a level. *)
Lemma serves_cached now loads (w : W) (a : actor) fs key pk h :
  (forall op p, os_fault op p = None) -> len (content h) < 2 ^ 63 -> plain_name h ->
  cache_has (fileCache a) fs (frag_key h) (content h) ->
  sendable (fragment_request key h) -> DecompressPubkey (elems key) = inl pk -> store_ok (creditMg a) ->
  ReceivedResource (fst (GetCreditRecord (creditMg a) (address_Hex (PubkeyToAddress pk)))) < 2 ^ 64 - 1 ->
  exists a', CacheService now loads w fs a (client_stream (request_text (fragment_request key h)))
    = Returns ((a', w), mkStream (one_piece (request_text (fragment_request key h))) (content h) false None).
Proof.
  intros Hos Hlen Hh (p & c & Hc & Hfile) Hreq Hk Hst Hrec.
  destruct (GetCreditRecord_ok (creditMg a) (address_Hex (PubkeyToAddress pk)) Hst) as (r & [_ _ [Hr0 _] _] & Hg & _).
  rewrite Hg in Hrec.
  destruct (level_of_returns (u64 (SentResource r + len (content h))) (ReceivedResource r)) as [l Hl]; [done|].
  destruct (serve_cached_fragment now loads w fs a (fragment_request key h) pk fhash shash h p c (content h) l)
    as (mg & E & _); try done; [by rewrite Hg|]. by exists (set_credit mg (set_cache c a)).
Qed.
End cycle.

(** ** Properties *)

(** C3: A node fetches what it is asked for. Let a client whose account has the owner's
    level, as every new one has, query a segment that is not queued, from a node whose
    counters are as they always are after a start with an empty store. Then the
    query is answered and queues the segment; the next pass of the download server asks the
    resource actor for it; that one, without neighbours, fetches it from the miners whatever
    the shuffle; the cache actor takes what arrives; and from then on the node serves each of
    the first [DataShards] fragments of the segment with exactly the miners' contents. This is
    for miners that answer, a disk and a credit store that do not fail, and a cache that
    keeps what it is given. *)
Theorem missing_segment_fetched_and_served {C R DB W NET Net Sel : Type} `{FileCache FS C} {RecDB : LevelDB R}
    `{LevelDB DB} `{GoTime} `{JsonMessages} `{FloatText} `{PkgErrors} `{EthCrypto} `{Order2Credit W} `{CessConfig}
    `{NetUrl} `{OsFaults} `{StorageNet NET} `{CacheNet Net} `{PeerHost Net} `{Selector Sel} `{Multihash} `{Http Net}
    (TempDir fhash shash : string) (content : string -> bytes)
    neighbors (strategy : CacheStrategy) (intn : nat -> nat) (now : nat -> time) loads (w : W)
    (a : CacheActor C R DB) (wr : world NET Net Sel) (req : CacheRequest) pk q fmeta cacheNum
    (Htmp : TempDir ≠ "") (Hf : plain_name fhash) (Hs : plain_name shash)
    (Hcache : cache_keeps (C := C) TempDir) (Hput : forall (d : DB) k v, exists d', db_Put d k v = (d', None))
    (Hos : forall op p, os_fault op p = None)
    (Hserves : storage_serves (NET := NET) content) (Halone : forall (ns : Net * Sel) h, exists e ns', neighbors ns h = (inr e, ns'))
    (Hfile : QueryFile (w_storage wr) fhash = inl fmeta) (Hplain : Forall plain_segment (SegmentList fmeta))
    (Hnum : cache_number strategy (len (SegmentList fmeta)) = Returns cacheNum) (Hone : 1 <= cacheNum)
    (Hin : exists s, s ∈ SegmentList fmeta /\ seg_Hash s = shash)
    (Hlen : forall s f, s ∈ SegmentList fmeta -> f ∈ FragmentList s -> len (content (frag_Hash f)) < 2 ^ 63)
    (Hreq : sendable req) (Hopt : Types.Option req = OPTION_QUERY) (Hurl : WantUrl req = "")
    (Hwant : WantFile req = filepath_Join [fhash; shash]) (Hk : DecompressPubkey (elems (AccountId req)) = inl pk)
    (Hst : store_ok (creditMg a)) (Hu : uncounted (record a)) (Hq : dlQueue a = Some q)
    (Hnone : q !! filepath_Join [fhash; shash] = None)
    (Hlevel : Level (fst (GetCreditRecord (creditMg a) (address_Hex (PubkeyToAddress pk)))) = LEVEL_OWNER)
    (Hrec : ReceivedResource (fst (GetCreditRecord (creditMg a) (address_Hex (PubkeyToAddress pk)))) < 2 ^ 64 - 1) :
  exists a1 st1 dreq a2 m wr' a3 fs' s,
    CacheService (now 0%nat) loads w (w_fs wr) a (client_stream (request_text req)) = Returns ((a1, w), st1)
    /\ range_tasks [filepath_Join [fhash; shash]] a1 = Returns ([dreq], a2)
    /\ resource_Receive TempDir neighbors strategy intn true wr dreq = Returns (Some m, wr')
    /\ Receive (now 1%nat) a2 (w_fs wr') m = Returns (None, (a3, fs'))
    /\ s ∈ SegmentList fmeta /\ seg_Hash s = shash
    /\ forall f, f ∈ take (Z.to_nat DataShards) (FragmentList s) ->
         sendable (fragment_request fhash shash (AccountId req) (frag_Hash f)) ->
         exists a4, CacheService (now 2%nat) loads w fs' a3
             (client_stream (request_text (fragment_request fhash shash (AccountId req) (frag_Hash f))))
           = Returns ((a4, w), mkStream (one_piece (request_text (fragment_request fhash shash (AccountId req) (frag_Hash f))))
               (content (frag_Hash f)) false None).
Proof.
  destruct (serve_query_enqueues TempDir fhash shash content Hf Hs Hput (now 0%nat) loads w a (client_stream (request_text req)) req pk q
    Hst Hu Hq Hnone Hurl Hk Hlevel) as (r & mg & st1 & Eq & Hur & Hstm & [t Ht]).
  set (a1 := set_record r _) in Eq.
  pose proof (range_tasks_requests fhash shash Hf Hs a1 _ Hur eq_refl (lookup_insert_eq q _ _)) as Er.
  match type of Er with _ = Returns (_, ?x) => set (a2 := x) in Er end.
  destruct (resource_Receive_delivers TempDir fhash shash content Htmp Hserves neighbors strategy (act_Account a) Halone
    intn wr fmeta cacheNum Hfile Hplain Hf Hs Hnum Hone Hin) as (wr' & frs & s & Ed & Hs1 & Hs2 & Hfp & Hw & Hall).
  destruct (Receive_stored TempDir fhash shash content Hf Hs Hcache (now 1%nat) a2 (w_fs wr') _ frs eq_refl Hfp Hw)
    as (q' & r' & c & fs' & Ec & Hhas).
  exists a1, st1. do 7 eexists. split_and!.
  - rewrite CacheService_receives by done. unfold dispatch. rewrite Hopt, Hwant, Split_filepath_Join by (done || plains).
    rewrite decide_False, decide_True by done. exact Eq.
  - exact Er.
  - exact Ed.
  - exact Ec.
  - exact Hs1.
  - exact Hs2.
  - intros f Hfin Hsend. specialize (Hall f Hfin).
    apply (serves_cached fhash shash content Hf Hs Hput (now 2%nat) loads w _ fs' (AccountId req) pk); try done.
    + apply (Hlen s); [done|]. apply elem_of_take in Hfin as (i & Hi & _). by eapply list_elem_of_lookup_2.
    + by eapply Forall_forall in Hfp.
    + by apply Hhas.
    + change (creditMg _) with mg. by rewrite Ht.
Qed.

(** ** A node without neighbours, on the storage network of [ResourceFacts] *)

Section witnesses.
#[local] Existing Instance tiny_shards.
#[local] Existing Instance good_storage.
#[local] Existing Instance sample_cache.
#[local] Existing Instance sample_url.
#[local] Existing Instance sample_crypto.
#[local] Existing Instance sample_time.
#[local] Existing Instance sample_messages.
#[local] Existing Instance sample_float_text.
#[local] Existing Instance sample_orders.
#[local] Existing Instance no_faults.
#[local] Instance no_web : Http unit := { http_Get n _ := (inr "no route to host", n) }.

Lemma sample_cache_keeps : cache_keeps (C := list (string * string)) "/t".
Proof.
  assert (Hother : forall (c : list (string * string)) fs k p k' b', k' ≠ k -> cache_has c fs k' b' -> cache_has ((k, p) :: c) fs k' b').
  { intros c fs k p k' b' Hk (p' & c' & Hc & Hb). exists p', ((k, p) :: c). split; [|done]. revert Hc. cbn.
    unfold find_path. cbn. rewrite bool_decide_false by (cbn; congruence). by destruct (_ <$> _); intros [= <- _]. }
  split.
  - intros c fs k h b Hh Hb. exists [ItemAdded k], ((k, temp_path "/t" h) :: c), fs. split_and!.
    + cbn [MoveFileToCache sample_cache]. by rewrite Hb.
    + exists (temp_path "/t" h), ((k, temp_path "/t" h) :: c). split; [|done]. cbn. unfold find_path. cbn.
      by rewrite bool_decide_true.
    + intros k' b' Hk. by apply Hother.
    + done.
    + by right.
  - intros c fs k h Hh Hn. exists "no such file", [], c, fs. cbn [MoveFileToCache sample_cache]. by rewrite Hn.
Qed.

Lemma good_storage_serves : storage_serves (NET := unit) to_bytes.
Proof. split; [intros n m; by eexists|]. intros [] fs peer h p. by exists tt. Qed.

Definition idle_node : sample_actor := mkCacheActor [] ∅ (Some ∅) sample_credit 0 None.
Definition query_sb : CacheRequest := sample_request OPTION_QUERY "" "fid/sb" client_key.

Lemma missing_segment_fetched_and_served_witness :
  exists a1 st1 dreq a2 m wr' a3 fs' a4,
    CacheService (clock 0) (0, 0, 0) tt (mkFS ∅ ∅) idle_node (client_stream (request_text query_sb)) = Returns ((a1, tt), st1)
    /\ range_tasks ["fid/sb"] a1 = Returns ([dreq], a2)
    /\ resource_Receive "/t" no_neighbors sample_strategy (fun i => i) true tiny_world dreq = Returns (Some m, wr')
    /\ Receive (clock 1) a2 (w_fs wr') m = Returns (None, (a3, fs'))
    /\ CacheService (clock 2) (0, 0, 0) tt fs' a3
          (client_stream (request_text (fragment_request "fid" "sb" (Some client_key) "b1")))
        = Returns ((a4, tt), mkStream (one_piece (request_text (fragment_request "fid" "sb" (Some client_key) "b1")))
                               (to_bytes "b1") false None).
Proof.
  destruct (missing_segment_fetched_and_served "/t" "fid" "sb" to_bytes no_neighbors sample_strategy (fun i => i)
    (fun n => clock (Z.of_nat n)) (0, 0, 0) tt idle_node tiny_world query_sb sample_pk ∅ two_segments 3)
    as (a1 & st1 & dreq & a2 & m & wr' & a3 & fs' & s & H1 & H2 & H3 & H4 & Hs & Hh & Hserve).
  - done.
  - by vm_compute.
  - by vm_compute.
  - exact sample_cache_keeps.
  - exact map_db_puts.
  - done.
  - exact good_storage_serves.
  - intros ns h. by eexists _, _.
  - done.
  - repeat constructor; by vm_compute.
  - by vm_compute.
  - lia.
  - eexists. split; [right; by left|done].
  - intros s f Hs Hf. apply elem_of_cons in Hs as [->|Hs%list_elem_of_singleton]; [|subst s];
      repeat (apply elem_of_cons in Hf as [->|Hf]; [by vm_compute|]); by apply elem_of_nil in Hf.
  - sample_sendable.
  - done.
  - done.
  - by vm_compute.
  - by vm_compute.
  - exact sample_store_ok.
  - by exists ErrNotFound.
  - done.
  - done.
  - by vm_compute.
  - by vm_compute.
  - assert (Hb : mkFragmentInfo "b1" [x01] ∈ take (Z.to_nat DataShards) (FragmentList s)).
    { apply elem_of_cons in Hs as [->|Hs]; [done|]. apply list_elem_of_singleton in Hs as ->. by left. }
    destruct (Hserve _ Hb) as [a4 H5]; [sample_sendable|].
    exists a1, st1, dreq, a2, m, wr', a3, fs', a4. by split_and!.
Defined.
End witnesses.
