(* ===== verification/RunningSamples.v ===== *)
(** * Sample runs of a started node

    The node of [NodeSamples] with its services running on a storage network of two
    segments, without neighbours. *)

From S2P Require Import Prelude GoStrings Encoding Json JsonFacts Codec Types Stream GoOs Lib External Storage ClientFiles.
From S2P Require Import Credit CreditFacts CacheActor CacheActorFacts LedgerFacts CacheServiceFacts CacheSamples.
From S2P Require Import ResourceActor NeighborQuery ResourceFacts PeerNode Discovery Config EvmClient CacheProto CacheProtoFacts.
From S2P Require Import NodeCmd NodeCmdFacts RunningNode NodeSamples FetchCycle.

#[local] Existing Instance sample_crypto.
#[local] Existing Instance sample_client.
#[local] Existing Instance sample_contract.
#[local] Existing Instance sample_base58.
#[local] Existing Instance sample_config.
#[local] Existing Instance sample_time.
#[local] Existing Instance sample_messages.
#[local] Existing Instance sample_float_text.
#[local] Existing Instance CacheSamples.sample_cache.
#[local] Existing Instance CacheSamples.sample_url.
#[local] Existing Instance NodeSamples.sample_libp2p.
#[local] Existing Instance NodeSamples.node_yaml.
#[local] Existing Instance good_storage.
#[local] Existing Instance no_web.

(** A network that answers nobody and a selector that knows nobody. *)
#[local] Instance silent_net : CacheNet unit := { exchange _ _ _ := (NoStream "no route to host", tt) }.
#[local] Instance no_peers : Selector unit := {
  GetPeersNumber _ := 0; NewPeersIterator _ _ := inr "no peers"; Feedback s _ _ := s }.
#[local] Instance no_pool : PeerPool unit := { FlushPeerNodes _ _ _ sel net := (sel, net) }.

Definition nobody (ns : unit * unit) (h : string) : (list (string * CacheResponse) + string) * (unit * unit) :=
  (inr "no neighbor cache node", ns).

Definition query_stream : net_stream := client_stream (request_text query_sb).
Definition fragment_stream : net_stream :=
  client_stream (request_text (fragment_request "fid" "sb" (Some client_key) "b1")).

(** A query for a missing segment, its download, garbage on a stream, a claim of the reward,
    the end of the context, and yet the download of a fragment. *)
Definition sample_schedule : list (operation list_cache Chain unit unit) :=
  [OpServe (clock 1) (0, 0, 0) query_stream; OpVisit "fid/sb"; OpFetch nobody (fun i => i); OpReceive (clock 2);
   OpServe (clock 3) (0, 0, 0) (client_stream [x7b]); OpDiscover (mkAddrInfo "12D3x" []);
   OpClaimStart; OpClaimTick; OpStop; OpClaimEnd;
   OpServe (clock 4) (0, 0, 0) fragment_stream].

(** The node that the sample start gives, and its services at their beginning and after the
    schedule. *)
Definition started_node : node (N := unit) (W := Chain) (C := list_cache) (Sel := unit) (DB := gmap string bytes)
    (R := gmap string bytes) :=
  match run_end sample_chain as r return match r with Ready _ => node | _ => unit end with
  | Ready n => n
  | _ => tt
  end.

Definition services_begin : option (running list_cache (gmap string bytes) (gmap string bytes) Chain unit unit unit) :=
  run_start started_node tt (st_net (started sample_chain)) (st_fs (started sample_chain)) (st_chain (started sample_chain)).

Lemma started_ready : sample_start sample_chain = Returns (Ready started_node, started sample_chain).
Proof. reflexivity. Qed.

Lemma started_ledger : ledger_ok (creditMg (n_cacher started_node)).
Proof.
  assert (E : Record_db (creditMg (n_cacher started_node)) = ∅) by reflexivity.
  intros k v. rewrite E. cbn. by rewrite lookup_empty.
Qed.
(** What the services do with a schedule. *)
Definition run_schedule := run_ops (NET := unit) (orders := contract_orders (n_contract started_node))
  (n_contract started_node) (n_account started_node) (TempDir (st_config (started sample_chain))) (n_strategy started_node).
Definition schedule_sized := sized_along (NET := unit) (orders := contract_orders (n_contract started_node))
  (n_contract started_node) (n_account started_node) (TempDir (st_config (started sample_chain))) (n_strategy started_node).

Lemma sample_schedule_sized m0 : services_begin = Some m0 -> schedule_sized sample_schedule m0.
Proof.
  intros E. assert (Hb : from_option (fun m => bool_decide (schedule_sized sample_schedule m)) false services_begin = true)
    by (clear; vm_compute; reflexivity).
  rewrite E in Hb. by apply bool_decide_eq_true_1 in Hb.
Qed.

(** At its end the fragment fetched on the way is in the cache and the client was charged
    for its two bytes. *)
Definition fragment_served (m : running list_cache (gmap string bytes) (gmap string bytes) Chain unit unit unit) : Prop :=
  find_path (fileCache (run_cacher m)) "fid/sb/b1" = Some "/ws/temp/b1" /\
  fst (counters (creditMg (run_cacher m)) (address_Hex (PubkeyToAddress sample_pk))) = 2.

Definition schedule_end (m0 : running list_cache (gmap string bytes) (gmap string bytes) Chain unit unit unit) : bool :=
  match run_schedule sample_schedule m0 with
  | Returns m => bool_decide (find_path (fileCache (run_cacher m)) "fid/sb/b1" = Some "/ws/temp/b1") &&
      (fst (counters (creditMg (run_cacher m)) (address_Hex (PubkeyToAddress sample_pk))) =? 2)
  | Panics _ => false
  end.

Lemma sample_schedule_serves m0 m :
  services_begin = Some m0 -> run_schedule sample_schedule m0 = Returns m -> fragment_served m.
Proof.
  intros E Hm. assert (Hb : from_option schedule_end false services_begin = true) by (clear; vm_compute; reflexivity).
  rewrite E in Hb. cbn [from_option] in Hb. unfold schedule_end in Hb. rewrite Hm in Hb.
  apply andb_true_iff in Hb as [H1%bool_decide_eq_true_1 H2%Z.eqb_eq]. by split.
Qed.

Lemma running_node_never_panics_witness :
  exists m0 m, services_begin = Some m0 /\ run_schedule sample_schedule m0 = Returns m /\
    is_Some (dlQueue (run_cacher m)) /\ fragment_served m /\
    claims_within (n_contract started_node) (n_account started_node) 1 (st_chain (started sample_chain)) (run_chain m).
Proof.
  destruct (running_node_never_panics node_flags sample_env (sample_startup sample_chain) started_node
    (started sample_chain) tt sample_schedule started_ready started_ledger eq_refl) as (m0 & Hm0 & Hrun).
  destruct (Hrun (sample_schedule_sized m0 Hm0)) as (m & Hm & Hq & _ & Hc).
  exists m0, m. exact (conj Hm0 (conj Hm (conj Hq (conj (sample_schedule_serves m0 m Hm0 Hm) (Hc eq_refl))))).
Defined.
