(* ===== verification/ContentService.v ===== *)
(** * The node as a content service

    What a cache node promises its clients, as an abstract machine: contents waiting to be
    taken in, contents published under their keys, and what each account has downloaded.
    The stream service and the message handler of the cache actor refine it. *)

From S2P Require Import Prelude GoStrings Encoding Json JsonFacts Codec Types Stream GoOs Lib External Storage.
From S2P Require Import Credit CreditFacts CacheActor CacheActorFacts LedgerFacts CacheServiceFacts ResourceActor.
From S2P Require Import NeighborQuery ResourceFacts CacheSamples FetchCycle.

(** ** The abstract machine *)

Record content_service := mkService {
  pending : gmap string bytes;     (** contents by the hash of the fragment *)
  published : gmap string bytes;   (** contents by key *)
  downloaded : gmap string Z;      (** bytes by account *)
}.

(** A fragment arriving for a segment of a file, from a node or the storage network. *)
Record arrival := mkArrival { ar_file : string; ar_segment : string; ar_hash : string; ar_origin : bytes }.
Definition ar_key (x : arrival) : string := filepath_Join [ar_file x; ar_segment x; ar_hash x].

Definition publish (sp : content_service) (x : arrival) : content_service :=
  match pending sp !! ar_hash x with
  | Some b => mkService (delete (ar_hash x) (pending sp)) (<[ar_key x := b]> (published sp)) (downloaded sp)
  | None => sp
  end.

Definition charge (acc : string) (n : Z) (sp : content_service) : content_service :=
  mkService (pending sp) (published sp) (<[acc := default 0 (downloaded sp !! acc) + n]> (downloaded sp)).

Inductive service_op :=
  | Download (key : bytes) (f s h : string)
  | Ask (st : net_stream)
  | Arrive (xs : list arrival).

Section spec.
Context `{EthCrypto} `{JsonMessages}.

Definition download_request (key : bytes) (f s h : string) : CacheRequest :=
  mkCacheRequest OPTION_DOWNLOAD "" (filepath_Join [f; s; h]) (Some key) None None.

Definition plain_arrival (x : arrival) : Prop :=
  plain_name (ar_file x) /\ plain_name (ar_segment x) /\ plain_name (ar_hash x).

(** A download gives the published contents and charges the account for them; a batch of
    arrivals publishes what was pending; nothing else changes anything. *)
Inductive spec_step (sp : content_service) : service_op -> option bytes -> content_service -> Prop :=
  | spec_download key f s h pk b :
      DecompressPubkey key = inl pk -> plain_name f -> plain_name s -> plain_name h ->
      sendable (download_request key f s h) -> published sp !! filepath_Join [f; s; h] = Some b ->
      spec_step sp (Download key f s h) (Some b) (charge (address_Hex (PubkeyToAddress pk)) (len b) sp)
  | spec_ask st : no_download st -> spec_step sp (Ask st) None sp
  | spec_arrive xs :
      NoDup (map ar_hash xs) -> Forall plain_arrival xs ->
      Forall (fun x => is_Some (pending sp !! ar_hash x)) xs ->
      spec_step sp (Arrive xs) None (foldl publish sp xs).

(** A run, with what each operation gave. *)
Inductive spec_run : content_service -> list (service_op * option bytes) -> content_service -> Prop :=
  | spec_done sp : spec_run sp [] sp
  | spec_next sp op out sp1 tr sp' :
      spec_step sp op out sp1 -> spec_run sp1 tr sp' -> spec_run sp ((op, out) :: tr) sp'.
End spec.

(** ** The node *)

Section node.
Context {C R DB W : Type} `{FileCache FS C} {RecDB : LevelDB R} `{LevelDB DB} `{GoTime}
  `{JsonMessages} `{FloatText} `{PkgErrors} `{EthCrypto} `{Order2Credit W} `{CessConfig}
  `{NetUrl} `{OsFaults}.
Context (TempDir : string).
Abbreviation actor := (CacheActor C R DB).
Abbreviation temp := (temp_path TempDir).

Definition arrived (x : arrival) : DownloadResponse :=
  mkDownloadResponse (temp (ar_hash x)) (ar_key x) (ar_origin x).

(** An operation of the machine, as the node performs it. *)
Definition node_op (now : time) (loads : Z * Z * Z) (w : W) (op : service_op) (a : actor) (fs : FS)
    : outcome (option bytes * (actor * FS)) :=
  match op with
  | Download key f s h =>
      '((a, _), st) ← CacheService now loads w fs a (client_stream (request_text (download_request key f s h)));
      Returns (Some (s_out st), (a, fs))
  | Ask st => '((a, _), _) ← CacheService now loads w fs a st; Returns (None, (a, fs))
  | Arrive xs => '(_, (a, fs)) ← Receive now a fs (MsgResponses (map arrived xs)); Returns (None, (a, fs))
  end.

(** The [n]th operation happens at time [now n]. *)
Fixpoint node_run (now : nat -> time) (loads : Z * Z * Z) (w : W) (ops : list service_op) (a : actor) (fs : FS)
    : outcome (list (option bytes) * (actor * FS)) :=
  match ops with
  | [] => Returns ([], (a, fs))
  | op :: ops =>
      '(out, (a, fs)) ← node_op (now (length ops)) loads w op a fs;
      '(outs, r) ← node_run now loads w ops a fs;
      Returns (out :: outs, r)
  end.

(** The node holds what the machine has. *)
Record implements (sp : content_service) (a : actor) (fs : FS) : Prop := {
  im_serving : serving a;
  im_sized : sized fs;
  im_published : forall k b, published sp !! k = Some b -> cache_has (fileCache a) fs k b;
  im_pending : forall h b, pending sp !! h = Some b -> plain_name h /\ files fs !! temp h = Some b;
  im_downloaded : forall acc, fst (counters (creditMg a) acc) = u64 (default 0 (downloaded sp !! acc));
}.

(** The library's cache: room for everything, and looking one file up loses no other. *)
Context (Hkeeps : cache_keeps (C := C) TempDir).
Context (Hlookup : forall (c : C) fs k k' b, cache_has c fs k b -> cache_has (snd (GetCacheRecord c k')) fs k b).
Context (Hsizes : forall (c : C) fs k p, sized fs -> sized (snd (snd (MoveFileToCache c fs k p)))).
Context (Hput : forall (d : DB) k v, exists d', db_Put d k v = (d', None)).
Context (Hos : forall op p, os_fault op p = None).

Lemma cache_has_charged acc n (a a' : actor) fs k b :
  charged acc n a a' -> cache_has (fileCache a) fs k b -> cache_has (fileCache a') fs k b.
Proof. intros [_ _ [->|[k' ->]]]; [done|apply Hlookup]. Qed.

Lemma implements_uncharged sp (a a' : actor) fs :
  serving a' -> uncharged a a' -> implements sp a fs -> implements sp a' fs.
Proof.
  intros Hs [Hc Hu] [_ Hsz Hp Hw Hd]. split; [done|done| |done|].
  - intros k b Hk. rewrite Hc. by apply Hp.
  - intros acc. by rewrite Hu.
Qed.

Lemma node_download now loads (w : W) sp (a : actor) fs key f s h pk b :
  implements sp a fs -> DecompressPubkey key = inl pk -> plain_name f -> plain_name s -> plain_name h ->
  sendable (download_request key f s h) -> published sp !! filepath_Join [f; s; h] = Some b ->
  exists a', node_op now loads w (Download key f s h) a fs = Returns (Some b, (a', fs))
    /\ implements (charge (address_Hex (PubkeyToAddress pk)) (len b) sp) a' fs.
Proof.
  intros [Ha Hsz Hp Hw Hd] Hk Hf Hs Hh Hreq Hpub. set (acc := address_Hex (PubkeyToAddress pk)).
  destruct (Hp _ _ Hpub) as (p & c & Hc & Hfile). assert (Hb : len b < 2 ^ 63) by (by eapply Hsz).
  destruct (ledger_Get (creditMg a) acc (serving_ledger a Ha)) as (r & [[] Hr] & Hg).
  destruct (level_of_fragments (u64 (SentResource r + len b)) (ReceivedResource r)) as [l Hl]; [done..|].
  destruct (serve_cached_fragment now loads w fs a (download_request key f s h) pk f s h p c b l)
    as (mg & E & Hmg & Hothers); try done.
  { by apply ledger_store, serving_ledger. }
  { fold acc. by rewrite Hg. }
  destruct (CacheService_serving now loads w fs a (client_stream (request_text (download_request key f s h))) Ha Hsz)
    as (a' & s' & acc' & n & E' & Ha' & Hch). fold acc in Hmg, Hothers.
  assert (Heq : a' = set_credit mg (set_cache c a)) by congruence. clear E'.
  exists a'. cbn [node_op]. rewrite E. cbn [mbind outcome_bind s_out]. rewrite <- Heq. split; [done|].
  split; [done|done| |done|].
  - intros k b' Hk'. eapply cache_has_charged; [done|by apply Hp].
  - intros acc1. rewrite Heq. cbn [creditMg set_credit charge downloaded]. unfold counters.
    destruct (decide (acc1 = acc)) as [->|Hne].
    + rewrite Hmg, Hg, lookup_insert_eq. cbn [fst snd SentResource default].
      specialize (Hd acc). unfold counters in Hd. rewrite Hg in Hd. cbn [fst snd SentResource] in Hd. rewrite Hd.
      unfold u64. by rewrite Z.add_mod_idemp_l.
    + rewrite Hothers, lookup_insert_ne by done. apply Hd.
Qed.

(** One arrival. *)
Lemma move_publishes sp (a : actor) fs x :
  implements sp a fs -> plain_arrival x -> is_Some (pending sp !! ar_hash x) ->
  exists a' fs', move_to_cache a fs (ar_key x) (temp (ar_hash x)) = (None, (a', fs')) /\ implements (publish sp x) a' fs'.
Proof.
  intros [Ha Hsz Hp Hw Hd] (_ & _ & Hh) [b Hb]. destruct (Hw _ _ Hb) as [_ Hfile].
  destruct (moves_file TempDir Hkeeps (fileCache a) fs (ar_key x) (ar_hash x) b Hh Hfile)
    as (es & c & fs' & E & Hhas & Hothers & Htemps & _).
  pose proof (move_to_cache_serving a fs (ar_key x) (temp (ar_hash x)) Ha) as Hs'.
  pose proof (Hsizes (fileCache a) fs (ar_key x) (temp (ar_hash x)) Hsz) as Hsz'. rewrite E in Hsz'.
  unfold move_to_cache in *. rewrite E in *. cbn [fst snd] in *.
  destruct (run_callbacks_frame es (set_cache c a)) as [r Hr]. rewrite Hr in *.
  eexists _, fs'. split; [done|]. unfold publish. rewrite Hb.
  split; [done|done| | |done]; cbn [published pending fileCache set_record set_cache].
  - intros k b'. destruct (decide (k = ar_key x)) as [->|Hne].
    + rewrite lookup_insert_eq. by intros [= <-].
    + rewrite lookup_insert_ne by done. intros Hk. by apply Hothers, Hp.
  - intros h b' [Hne Hk]%lookup_delete_Some. destruct (Hw _ _ Hk) as [Hh' Hf'].
    split; [done|]. by rewrite Htemps.
Qed.

(** The credit for what arrived leaves what was downloaded alone. *)
Lemma credit_implements now sp (a : actor) fs key :
  implements sp a fs ->
  exists mg, AddCreditPoint now (creditMg a) key FragmentSize = Returns mg /\ implements sp (set_credit mg a) fs.
Proof.
  intros [Ha Hsz Hp Hw Hd]. pose proof (serving_ledger a Ha) as Hl.
  destruct (AddCreditPoint_ledger now (creditMg a) key FragmentSize Hl) as (mg & r & E & Hmg & Hr & -> & Hsent & _).
  { right. apply Z.divide_refl. }
  exists (fst (PutCreditRecord now (creditMg a) key r)). split; [done|].
  split; [split; [apply Ha|done]|done|done|done|].
  intros acc. cbn [creditMg set_credit]. destruct (Put_counters now (creditMg a) key r Hl Hr) as [Hk Ho].
  destruct (decide (acc = key)) as [->|Hne]; [|by rewrite Ho].
  destruct Hk as [-> | ->]; [|done]. cbn [fst]. rewrite Hsent. apply Hd.
Qed.

Lemma arrive_publishes now xs : forall sp (a : actor) fs,
  implements sp a fs -> NoDup (map ar_hash xs) -> Forall plain_arrival xs ->
  Forall (fun x => is_Some (pending sp !! ar_hash x)) xs ->
  exists a' fs', receive_responses now a fs (map arrived xs) = Returns (a', fs') /\ implements (foldl publish sp xs) a' fs'.
Proof.
  induction xs as [|x xs IH]; intros sp a fs Him Hnd Hpl Hpe; cbn [map receive_responses foldl]; [by eexists _, _|].
  apply NoDup_cons in Hnd as [Hnin Hnd]. apply Forall_cons in Hpl as [Hx Hpl]. apply Forall_cons in Hpe as [Hb Hpe].
  destruct (move_publishes sp a fs x Him Hx Hb) as (a1 & fs1 & E & Him1). cbn [Key ResrcPath OriginNode arrived].
  rewrite E.
  assert (Hpe1 : Forall (fun y => is_Some (pending (publish sp x) !! ar_hash y)) xs).
  { rewrite Forall_forall in *. intros y Hy. unfold publish. destruct Hb as [b ->]. cbn.
    rewrite lookup_delete_ne; [by apply Hpe|]. intros He. apply Hnin. rewrite He.
    by apply list_elem_of_In, in_map, list_elem_of_In. }
  case_decide; [by apply IH|].
  destruct (credit_implements now (publish sp x) a1 fs1 (Bytes2Hex (ar_origin x)) Him1) as (mg & -> & Him2).
  cbn [mbind outcome_bind]. by apply IH.
Qed.

Lemma queue_Delete_implements k sp (a : actor) fs : implements sp a fs ->
  exists a', queue_Delete k a = Returns a' /\ implements sp a' fs.
Proof.
  intros Him. destruct (queue_Delete_serving k a (im_serving _ _ _ Him)) as (a' & E & Ha').
  exists a'. split; [done|]. eapply implements_uncharged; [done| |done].
  unfold queue_Delete in E. by apply outcome_bind_Returns in E as (q & _ & [= <-]).
Qed.

Lemma node_step_refines now loads (w : W) sp op out sp' (a : actor) fs :
  implements sp a fs -> spec_step sp op out sp' ->
  exists a' fs', node_op now loads w op a fs = Returns (out, (a', fs')) /\ implements sp' a' fs'.
Proof.
  intros Him [key f s h pk b Hk Hf Hs Hh Hreq Hpub|st Hask|xs Hnd Hpl Hpe].
  - destruct (node_download now loads w sp a fs key f s h pk b Him Hk Hf Hs Hh Hreq Hpub) as (a' & E & Him').
    by exists a', fs.
  - destruct (CacheService_asks now loads w fs a st (im_serving _ _ _ Him) Hask) as (a' & s' & E & Ha' & Hu).
    exists a', fs. cbn [node_op]. rewrite E. split; [done|]. by eapply implements_uncharged.
  - cbn [node_op Receive]. set (cleared := match map arrived xs with [] => _ | _ => _ end).
    assert (exists a1, cleared = Returns a1 /\ implements sp a1 fs) as (a1 & -> & Him1).
    { unfold cleared. destruct (map arrived xs) as [|first rest]; [by eexists|].
      destruct (strings_Split _ _) as [|h0 [|h1 hs]]; [by eexists..|].
      case_match; [by apply queue_Delete_implements|by eexists]. }
    cbn [mbind outcome_bind].
    destruct (arrive_publishes now xs sp a1 fs Him1 Hnd Hpl Hpe) as (a2 & fs2 & -> & Him2).
    by exists a2, fs2.
Qed.

Lemma node_run_refines now loads (w : W) sp tr sp' (a : actor) fs :
  implements sp a fs -> spec_run sp tr sp' ->
  exists a' fs', node_run now loads w (map fst tr) a fs = Returns (map snd tr, (a', fs')) /\ implements sp' a' fs'.
Proof.
  intros Him Hrun. revert a fs Him.
  induction Hrun as [sp|sp op out sp1 tr sp' Hstep Hrun IH]; intros a fs Him; cbn [map node_run fst snd]; [by eexists _, _|].
  destruct (node_step_refines (now (length (map fst tr))) loads w sp op out sp1 a fs Him Hstep) as (a1 & fs1 & -> & Him1).
  cbn [mbind outcome_bind]. destruct (IH a1 fs1 Him1) as (a2 & fs2 & -> & Him2).
  by exists a2, fs2.
Qed.
End node.

(** C5: A cache node is a content service: whatever run of the abstract machine, of
    downloads of published contents, batches of arriving fragments and any other streams in
    any order, the node that implements the machine's first state, given the same
    operations, answers each download with exactly the contents published last under its
    key, charges its account their length and nobody else anything, and ends implementing
    the machine's last state. The cache is one with room for everything. *)
Theorem node_refines_content_service {C R DB W : Type} `{FileCache FS C} {RecDB : LevelDB R} `{LevelDB DB} `{GoTime}
    `{JsonMessages} `{FloatText} `{PkgErrors} `{EthCrypto} `{Order2Credit W} `{CessConfig} `{NetUrl} `{OsFaults}
    (TempDir : string) (now : nat -> time) loads (w : W) sp tr sp' (a : CacheActor C R DB) fs
    (Hkeeps : cache_keeps (C := C) TempDir)
    (Hlookup : forall (c : C) fs k k' b, cache_has c fs k b -> cache_has (snd (GetCacheRecord c k')) fs k b)
    (Hsizes : forall (c : C) fs k p, sized fs -> sized (snd (snd (MoveFileToCache c fs k p))))
    (Hput : forall (d : DB) k v, exists d', db_Put d k v = (d', None))
    (Hos : forall op p, os_fault op p = None)
    (Him : implements TempDir sp a fs) (Hrun : spec_run sp tr sp') :
  exists a' fs', node_run TempDir now loads w (map fst tr) a fs = Returns (map snd tr, (a', fs'))
    /\ implements TempDir sp' a' fs'.
Proof. by eapply node_run_refines. Qed.

Section witnesses.
#[local] Existing Instance sample_cache.
#[local] Existing Instance sample_url.
#[local] Existing Instance sample_crypto.
#[local] Existing Instance sample_config.
#[local] Existing Instance sample_time.
#[local] Existing Instance sample_messages.
#[local] Existing Instance sample_float_text.
#[local] Existing Instance sample_orders.
#[local] Existing Instance no_faults.

(** A fragment from a neighbour is on disk; it arrives, a stream brings garbage, and a client
    downloads it twice. *)
Definition arrived_fs : FS := mkFS {[ "/t/b1" := to_bytes "b1" ]} ∅.
Definition sample_service : content_service := mkService {[ "b1" := to_bytes "b1" ]} ∅ ∅.
Definition sample_trace : list (service_op * option bytes) :=
  [(Arrive [mkArrival "fid" "sb" "b1" [x0a; x0b]], None); (Ask (client_stream [x7b]), None);
   (Download client_key "fid" "sb" "b1", Some (to_bytes "b1"));
   (Download client_key "fid" "sb" "b1", Some (to_bytes "b1"))].
Definition sample_served : content_service :=
  mkService ∅ {[ "fid/sb/b1" := to_bytes "b1" ]} {[ address_Hex (PubkeyToAddress sample_pk) := 4 ]}.

Lemma sample_implements : implements "/t" sample_service (set_queue (Some ∅) sample_node) arrived_fs.
Proof.
  split.
  - split; [by eexists|]. intros k v. cbn. by rewrite lookup_empty.
  - refine (bool_decide_eq_true_1 _ _). by vm_compute.
  - intros k b Hk. cbn in Hk. by rewrite lookup_empty in Hk.
  - intros h b Hb. cbn [pending sample_service] in Hb. apply lookup_singleton_Some in Hb as [<- <-].
    split_and!; by vm_compute.
  - intros acc. unfold counters, GetCreditRecord. cbn. by rewrite !lookup_empty.
Qed.

Lemma sample_spec_run : spec_run sample_service sample_trace sample_served.
Proof.
  assert (Hplain : plain_name "fid" /\ plain_name "sb" /\ plain_name "b1") by (split_and!; by vm_compute).
  assert (Hreq : sendable (download_request client_key "fid" "sb" "b1")) by sample_sendable.
  destruct Hplain as (? & ? & ?). unfold sample_trace.
  eapply spec_next; [apply spec_arrive|].
  - by repeat constructor; intros ?%elem_of_nil.
  - by repeat constructor.
  - repeat constructor. by eexists.
  - eapply spec_next; [by apply spec_ask; vm_compute|].
    eapply spec_next; [by apply (spec_download _ client_key "fid" "sb" "b1" sample_pk)|].
    eapply spec_next; [by apply (spec_download _ client_key "fid" "sb" "b1" sample_pk)|].
    assert (E : charge (address_Hex (PubkeyToAddress sample_pk)) (len (to_bytes "b1"))
      (charge (address_Hex (PubkeyToAddress sample_pk)) (len (to_bytes "b1"))
        (foldl publish sample_service [mkArrival "fid" "sb" "b1" [x0a; x0b]])) = sample_served) by (by vm_compute).
    rewrite E. apply spec_done.
Qed.

Lemma node_refines_content_service_witness :
  exists a' fs', node_run "/t" (fun n => clock (Z.of_nat n)) (0, 0, 0) tt (map fst sample_trace)
      (set_queue (Some ∅) sample_node) arrived_fs = Returns (map snd sample_trace, (a', fs'))
    /\ implements "/t" sample_served a' fs'.
Proof.
  apply (node_refines_content_service "/t" (fun n => clock (Z.of_nat n)) (0, 0, 0) tt sample_service sample_trace
    sample_served (set_queue (Some ∅) sample_node) arrived_fs).
  - exact sample_cache_keeps.
  - done.
  - intros c fs k p Hs. cbn. by destruct (files fs !! p).
  - exact map_db_puts.
  - done.
  - exact sample_implements.
  - exact sample_spec_run.
Defined.
End witnesses.
